(* ===== verification/_CoqProject ===== *)
-Q . S2P
Prelude.v
Capability.v
Frames.v
FrameInv.v
FrameProps.v
Memory.v
MemoryProps.v
Smp.v
Scheduler.v
SchedulerProps.v
Sync.v
Storage.v
StorageProps.v
DmaState.v
IrqCtl.v
Device.v
Context.v
Services.v
Event.v
Policy.v
AtomicModel.v
Registry.v
Boundary.v
Target.v
Heap.v
ModelProbe.v
Console.v
FwCfg.v
Paging.v
RawMemory.v
Descriptors.v
Apic.v
Handoff.v
Interleave.v
Workers.v
Virtio.v
UserMode.v
Phases.v
Reports.v
Rendezvous.v
Boot.v
Bringup.v
Timer.v
Run.v
EfiMain.v
