(* ===== verification/Prelude.v ===== *)
(** * The Bulla kernel model, verified

    Bulla is a kernel whose decisions are taken by a safe, deterministic Rust
    crate ([src/kernel/src]); a target layer
    ([src/platform/x86_64-pc-uefi-smp-v1/runtime]) boots the machine and
    performs what the crate decides.  This library translates the crate,
    module by module, into executable definitions and proves what makes each
    module correct.

    ** How the parts fit together

    Authority is a [Capability] of the [CapabilityLedger]; frames
    ([FrameAllocator]) are mapped into an [AddressSpace], pinned for devices
    ([DmaState]) and reached through the [DeviceBus].  CPUs come up and answer
    shootdowns in [SmpState]; the [Scheduler] places tasks on them, with the
    primitives of [sync.rs] and the fixed containers of [storage.rs] below.
    Hardware input becomes numbered events ([EventSequencer]); the
    [KernelPolicy] turns an event into a batch of actions; the
    [ActionExecutor] checks each action against the ledger; its completion is
    an event again.  The registry freezes the platform operations such an
    executor may call, and [BoundaryInventory] checks a program's declarations
    against it.

    ** Files

    - [Prelude]: machine integers with their checked, saturating and wrapping
      operations; results with a third outcome [Panic]; methods on
      [&mut self]; ordered maps; traces; tactics and shared lemmas.
    - [Capability]: [capability.rs].  [Ledger] is [CapabilityLedger]; the
      class [Ledger.CapabilityAuthority] is what clients of a ledger rely on
      and [Ledger.ledger_authority] its instance.
    - [Frames], [FrameInv], [FrameProps]: [frame.rs]: the operations, the
      invariant with the lemmas on runs, coalescing and carving, the theorems.
    - [Memory], [MemoryProps]: [memory.rs] (address spaces, user copies,
      temporary windows).
    - [Smp]: [smp.rs].  [Scheduler], [SchedulerProps]: [scheduler.rs].
      [Sync]: [sync.rs].  [Storage], [StorageProps]: [storage.rs].
    - [DmaState]: [dma.rs].  [IrqCtl]: [irq.rs].  [Device]: [device.rs].
      [Context]: [context.rs].  [Services]: [services.rs].
    - [Event]: [event.rs], against the authority interface of [Capability].
      [Policy]: [policy.rs], with the composition of sequencer and policy.
    - [AtomicModel]: [atomic.rs].
    - [Registry], [Boundary]: [registry.rs] (all 104 entries) and
      [boundary.rs].
    - The target layer, [post_firmware.rs] and [main.rs].  [Target]: its errors,
      CPU masks, bounded loops and polling, and the interfaces to ports, MMIO
      and model-specific registers.  [Heap]: [KernelAllocator].  [ModelProbe]:
      [kernel_model_probe], which runs the crate's components together.
      [Console]: the UART driver and the printers of [Serial].  [FwCfg]: the
      firmware configuration channel and the admission of processors at the
      head of [run].  [Paging]: [setup_page_tables].  [RawMemory]: checked
      volatile accesses and [memmove].  [Descriptors]: GDT, TSS, IDT and the
      system-call registers.  [Apic]: the local APIC.  [Handoff]: the parser of
      what firmware hands over, the boot probes and the head of [efi_main].
    - [Interleave]: pools of threads that share counters, and the two
      protocols over them (ticket lock, shared task pool).  [Workers]:
      [run_tasks], [observe_max] and [lock_once] under every interleaving.
      [Phases]: the processors of [run] from start-up to the end of the TLB
      shootdown, with their interrupts and translation caches, under every
      interleaving.  [Rendezvous]: [ap_entry], run by the firmware on all
      other processors at once.  [Boot]: [kernel_shell.rs], [ipi_entry] and
      [efi_main] from the clock boundary to its end.  [Timer]: [arm_timer], its
      handler, and the wait of [run] for the timers of all processors.
    - [Bringup]: what the boot processor does on its own: the start-up page
      against the end of [ap_trampoline.S], the CPU-local records, the exit
      from boot services, the allocator probe and the random numbers.
      [Reports]: the masks at the end of [Phases].  [Run]: [run] as the
      composition of all stages over one machine, with its log and its report.
      [EfiMain]: [efi_main] as the composition of [Handoff], [Boot] and [Run],
      with the panic handler.
    - [Virtio]: the PCI scan and the disk transaction.  [UserMode]: the user
      program, decoded from the bytes written for it, and the assembly
      handlers of its system call, fault and completion.

    ** Conventions

    A [u8] .. [u64] or [usize] is a [Z]; [usize] has 64 bits.  A [BTreeMap] is
    a [gmap] iterated through [entries], which is sorted by key; a [BTreeSet]
    is a [gset] (strings: a sorted list); an array is a list whose indexing
    panics out of range.  A method [fn f(&mut self, ..) -> Result<A, E>] is a
    function [op S E A] from the state to a result and the state it leaves, so
    that a mutation made before a failing [?] is visible.  A plain [+], [-] or
    [*] panics on overflow ([uadd], [usub], [umul]); that such a panic cannot
    happen is proved where it is claimed.  [calls] are sums of the public
    methods, [exec] runs one and [reach], [trace] or [run] any number of them,
    failing ones included.  No definition of the crate needs fuel: every loop
    runs over a list or a counter.  A loop of the target layer either has a
    bound in the code, which [Target.for_pos] counts in binary so that fifty
    million turns are no obstacle to evaluation, or waits for another CPU and
    is a step of a relation.  Three have fuel: a heap call that runs alone, the
    spin until a deadline and the user program; each theorem about them says
    that some fuel is enough (five instructions for the user program) and that
    more changes nothing.  A device is a class with the documented behaviour
    the driver relies on, and no more (a busy UART or APIC may lose what is
    written to it), instantiated for every witness; where processors are
    interleaved a driver call is one step that succeeds or fails with one of the
    errors it is shown to have; what firmware and the
    linker provide (call results, memory contents, addresses of statics) are
    arguments.

    ** What is proved

    - Authority ([Capability], [Event]): revoked handles stay dead along any
      later calls, one live handle per slot, no amplification, transfers hand
      over exactly, and every authorised action is mediated.
    - Memory: frames stay disjoint, coalesced and conserved, allocation
      succeeds exactly when possible, splits and joins cancel ([FrameProps]);
      translation is exact and user copies are confined ([MemoryProps]); DMA
      memory stays put while a device owns it and unpinned handles die
      ([DmaState]); MMIO and port accesses are memory ([Device]); the
      concurrent heap never hands a byte to two owners, returns zeroed memory,
      leaks nothing, and an undisturbed call finds the first fit ([Heap]).
    - Processors: the scheduler's own invariant check holds as long as no task
      exhausts its generation, dispatch is work conserving, slices are round robin ([SchedulerProps]); shootdowns
      complete exactly with every acknowledgement ([Smp]); the ticket lock is
      fair, the channel FIFO, the barrier a barrier ([Sync]); interrupts stay
      masked until restored ([IrqCtl]), trap frames resume once ([Context]).
    - Refinement: the containers against lists, queues, bit arrays and finite
      maps ([StorageProps]); atomic cells against integers of their width and
      logged loads against the latest write ([AtomicModel]).
    - Target layer: the page tables map exactly the identity range, the user
      pages and the shootdown page, each with its rights ([Paging]); gates and
      segments decode to what was meant ([Descriptors]); the start-up sequence
      reaches exactly its processor ([Apic]); checked accesses and [memmove]
      against bytes ([RawMemory]); the console prints what it is given
      ([Console]); channel, admission and handoff parsers accept exactly their
      formats ([FwCfg], [Handoff]); all tasks run exactly once whatever the
      interleaving ([Workers], [Rendezvous]); no processor sees a stale message
      or translation, the shootdown ends only when all have seen the new mapping,
      and otherwise only by a timeout, a driver error or refused tasks
      ([Phases]); the boot reaches the runtime exactly for processors numbered
      from zero with APIC ids below 64 and hands over exactly the enabled ones
      ([Boot]);
      every processor starts on its own stack and finds its own record, and the
      firmware is left exactly when the memory map holds still ([Bringup]); the
      timers of all processors are recorded even if some are dead ([Timer]);
      the whole of [run] returns and its report counts exactly the processors
      admitted, and whatever fails, its stage lines are the first of seventeen
      ([Run]); the image boots from the handoff to the reset, and its last line
      on the serial port tells how it ended, success only when earned
      ([EfiMain]); the device finds the one request that was meant ([Virtio]);
      the user program makes its call, is resumed behind its fault and returns
      ([UserMode]); the crate's components work together when the kernel
      composes them ([ModelProbe]).
    - Event loop, services and boundary: numbering and staleness, finality of
      shutdown ([Policy]); clock, entropy and power ([Services]); the frozen
      registry and exact closure ([Registry], [Boundary]).
    - Divergences between what the code means and does are theorems with a
      concrete run; they close the file of their component.

    ** Not modelled

    [lib.rs] (re-exports) and the accessors that return one field (they are the
    record projections).  Of the target layer, the ABI declarations of the
    firmware tables (their fields are read by offset), the empty delay loops,
    and the real-mode and protected-mode part of the trampoline, whose mode
    switches are bound to the processor.  The collections of the crate are not
    allocated from the 64-page heap of [Heap]: [ModelProbe] has no exhaustion
    inside the probe, which [run] calls for at most 64 processors.  Processors are
    sequentially consistent in the interleavings; the orderings the code asks for are
    modelled by [AtomicModel] only.  Serial port, configuration channel, local
    APIC, disk and random numbers are separate parts of the machine of [Run]
    and [EfiMain], as they are behind separate ports and registers. *)
From stdpp Require Export base tactics list gmap sorting numbers option relations.
#[global] Open Scope Z_scope.

(** Lengths and indices of lists are read as integers. *)
Coercion Z.of_nat : nat >-> Z.

(** ** Machine integers

    A [w]-bit unsigned integer of the source is a [Z] in [0 .. 2^w).  The
    checked, saturating and wrapping operations of [core] are written out. *)

Definition in_u (w x : Z) : Prop := 0 ≤ x < 2 ^ w.
Abbreviation u8 := (in_u 8).
Abbreviation u16 := (in_u 16).
Abbreviation u32 := (in_u 32).
Abbreviation u64 := (in_u 64).

Definition umax (w : Z) : Z := 2 ^ w - 1.

Definition checked_add (w x y : Z) : option Z :=
  if x + y <? 2 ^ w then Some (x + y) else None.

Definition checked_sub (x y : Z) : option Z :=
  if y <=? x then Some (x - y) else None.

Definition checked_mul (w x y : Z) : option Z :=
  if x * y <? 2 ^ w then Some (x * y) else None.

Definition saturating_add (w x y : Z) : Z := Z.min (x + y) (umax w).

Definition saturating_mul (w x y : Z) : Z := Z.min (x * y) (umax w).

(** [wrapping_*] and [as uN]: reduction modulo [2^w]. *)
Definition wrap (w x : Z) : Z := x mod 2 ^ w.

(** [!x] on [w] bits. *)
Definition bnot (w x : Z) : Z := Z.lxor x (Z.ones w).

(** ** Results

    [Result<A, E>] with a third outcome for a Rust panic: an unchecked [+],
    [-] or [*] that overflows, or an index out of bounds. *)

Inductive res (E A : Type) : Type :=
| Ok (a : A)
| Err (e : E)
| Panic.
Arguments Ok {E A} a.
Arguments Err {E A} e.
Arguments Panic {E A}.

#[global] Instance res_eq_dec `{EqDecision E, EqDecision A} : EqDecision (res E A).
Proof. solve_decision. Defined.

#[global] Instance res_ret {E} : MRet (res E) := λ A a, Ok a.
#[global] Instance res_bind {E} : MBind (res E) := λ A B k m,
  match m with Ok a => k a | Err e => Err e | Panic => Panic end.

(** [o.ok_or(e)?] *)
Definition ok_or {E A} (e : E) (o : option A) : res E A :=
  match o with Some a => Ok a | None => Err e end.

(** [if b { return Err(e); }] *)
Definition bail_if {E} (b : bool) (e : E) : res E unit :=
  if b then Err e else Ok ().

(** [r.map_err(f)] *)
Definition map_err {E F A} (f : E → F) (r : res E A) : res F A :=
  match r with Ok a => Ok a | Err e => Err (f e) | Panic => Panic end.

(** The unchecked operators, which panic when the result does not fit. *)
Definition uadd {E} (w x y : Z) : res E Z :=
  if x + y <? 2 ^ w then Ok (x + y) else Panic.
Definition usub {E} (x y : Z) : res E Z :=
  if y <=? x then Ok (x - y) else Panic.
Definition umul {E} (w x y : Z) : res E Z :=
  if x * y <? 2 ^ w then Ok (x * y) else Panic.

(** [a[i]] and [a[i] = x] on an array or slice, which panic out of bounds. *)
Definition index {E A} (a : list A) (i : Z) : res E A :=
  match a !! Z.to_nat i with Some x => Ok x | None => Panic end.
Definition index_set {E A} (a : list A) (i : Z) (x : A) : res E (list A) :=
  if i <? length a then Ok (<[Z.to_nat i := x]> a) else Panic.

(** ** Methods on [&mut self]

    A method is a function from the state to its result and the state it
    leaves, so that a mutation made before a failing [?] stays visible. *)

Definition op (S E A : Type) : Type := S → res E A * S.

#[global] Instance op_ret {S E} : MRet (op S E) := λ A a s, (Ok a, s).
#[global] Instance op_bind {S E} : MBind (op S E) := λ A B k m s,
  match m s with
  | (Ok a, s') => k a s'
  | (Err e, s') => (Err e, s')
  | (Panic, s') => (Panic, s')
  end.

Definition lift {S E A} (r : res E A) : op S E A := λ s, (r, s).
Definition reads {S E A} (f : S → A) : op S E A := λ s, (Ok (f s), s).
Definition readr {S E A} (f : S → res E A) : op S E A := λ s, (f s, s).
Definition modify {S E} (f : S → S) : op S E unit := λ s, (Ok (), f s).

(** A method called on one field of the state. *)
Definition zoom {S T E A} (get : S → T) (set : T → S → S) (m : op T E A) : op S E A :=
  λ s, let '(r, t) := m (get s) in (r, set t s).

(** ** Fail-closed methods

    [FailClosed m]: when [m] returns an error the state is the one it was
    called on.  [ReadOnly] and [Infallible] are the two sufficient conditions
    that compose: checks first, mutation last. *)

Class FailClosed {S E A} (m : op S E A) : Prop :=
  fail_closed : ∀ s e s', m s = (Err e, s') → s' = s.
Class ReadOnly {S E A} (m : op S E A) : Prop :=
  read_only : ∀ s, (m s).2 = s.
Class Infallible {S E A} (m : op S E A) : Prop :=
  infallible : ∀ s e s', m s ≠ (Err e, s').

(** [NoPanic m]: [m] always returns.  [Returns] is the same for a pure result. *)
Class Returns {E A} (r : res E A) : Prop := returns : r ≠ Panic.
Class NoPanic {S E A} (m : op S E A) : Prop :=
  no_panic : ∀ s, (m s).1 ≠ Panic.

(** [Refines R m m']: from related states the two methods return the same
    result and leave related states. *)
Class Refines {S T E A} (R : S → T → Prop) (m : op S E A) (m' : op T E A) : Prop :=
  refines : ∀ s t, R s t → (m s).1 = (m' t).1 ∧ R (m s).2 (m' t).2.

(** ** Ordered maps

    A [BTreeMap] with integer keys is a [gmap Z]; [entries] is the order in
    which the source iterates it. *)

Definition key_le {V} (p q : Z * V) : Prop := p.1 ≤ q.1.
#[global] Instance key_le_dec {V} (p q : Z * V) : Decision (key_le p q).
Proof. unfold key_le. apply _. Defined.

Definition entries {V} (m : gmap Z V) : list (Z * V) :=
  merge_sort key_le (map_to_list m).

Definition values {V} (m : gmap Z V) : list V := (entries m).*2.

(** [m.iter().next_back()] *)
Definition last_entry {V} (m : gmap Z V) : option (Z * V) := last (entries m).

(** [s.iter()] of a [BTreeSet]. *)
Definition sorted_elements (s : gset Z) : list Z := merge_sort Z.le (elements s).

(** [Iterator::find_map] and [Iterator::sum]. *)
Fixpoint find_map {A B} (f : A → option B) (l : list A) : option B :=
  match l with
  | [] => None
  | x :: l' => match f x with Some b => Some b | None => find_map f l' end
  end.

Definition zsum (l : list Z) : Z := foldr Z.add 0 l.

(** ** Traces

    [reach step s s']: [s'] is obtained from [s] by finitely many calls, each
    ending in any outcome. *)
Inductive reach {S L : Type} (step : L → S → S) (s : S) : S → Prop :=
| reach_refl : reach step s s
| reach_step l s' : reach step s s' → reach step s (step l s').

(** ** Automation *)

Create HintDb bulla.
Arguments Z.pow : simpl never.
Arguments Z.mul : simpl never.
Arguments Z.add : simpl never.
Arguments Z.sub : simpl never.
Arguments Z.modulo : simpl never.
Arguments Z.div : simpl never.
Arguments Z.leb : simpl never.
Arguments Z.ltb : simpl never.
Arguments Z.eqb : simpl never.
Arguments entries : simpl never.

Ltac op_unfold :=
  unfold mbind, mret, op_bind, op_ret, res_bind, res_ret, lift, reads, readr,
    modify, bail_if, ok_or, map_err, uadd, usub, umul, checked_add, checked_sub,
    checked_mul in *;
  cbv beta iota zeta in *.

(** Case analysis on every branch of the methods unfolded so far. *)
Ltac op_cases := op_unfold; repeat (case_match; simplify_eq/=).

Ltac zb := rewrite ?orb_true_iff, ?andb_true_iff, ?negb_true_iff,
  ?orb_false_iff, ?andb_false_iff, ?negb_false_iff,
  ?Z.ltb_lt, ?Z.leb_le, ?Z.eqb_eq, ?Z.ltb_ge, ?Z.leb_gt, ?Z.eqb_neq in *.

(** Split every integer comparison and [bool_decide] of the goal. *)
Ltac zcase :=
  repeat (match goal with
  | |- context [?a =? ?b] => destruct (Z.eqb_spec a b)
  | |- context [?a <? ?b] => destruct (Z.ltb_spec a b)
  | |- context [?a <=? ?b] => destruct (Z.leb_spec a b)
  | |- context [bool_decide ?P] => destruct (bool_decide_reflect P)
  end; cbn [negb andb orb]).

Ltac ulia := unfold in_u, umax in *; lia.

(** ** Results and methods: generic lemmas *)

Lemma res_bind_Ok {E A B} (m : res E A) (k : A → res E B) b :
  m ≫= k = Ok b → ∃ a, m = Ok a ∧ k a = Ok b.
Proof. destruct m; naive_solver. Qed.

Lemma op_bind_Ok {S E A B} (m : op S E A) (k : A → op S E B) s b s' :
  (m ≫= k) s = (Ok b, s') → ∃ a s1, m s = (Ok a, s1) ∧ k a s1 = (Ok b, s').
Proof. unfold mbind, op_bind. repeat case_match; naive_solver. Qed.

Lemma op_lift_Ok {S E A} (r : res E A) (s s' : S) a :
  lift r s = (Ok a, s') → r = Ok a ∧ s' = s.
Proof. unfold lift. naive_solver. Qed.

Lemma op_reads_Ok {S E A} (f : S → A) s a s' :
  @reads S E A f s = (Ok a, s') → a = f s ∧ s' = s.
Proof. unfold reads. naive_solver. Qed.

Lemma op_readr_Ok {S E A} (f : S → res E A) s a s' :
  readr f s = (Ok a, s') → f s = Ok a ∧ s' = s.
Proof. unfold readr. naive_solver. Qed.

Lemma op_modify_Ok {S E} (f : S → S) s a s' :
  @modify S E f s = (Ok a, s') → s' = f s.
Proof. unfold modify. naive_solver. Qed.

Lemma op_ret_Ok {S E A} (x : A) (s : S) a s' :
  (mret x : op S E A) s = (Ok a, s') → a = x ∧ s' = s.
Proof. unfold mret, op_ret. naive_solver. Qed.

Lemma bail_if_Ok {E} (b : bool) (e : E) x : bail_if b e = Ok x → b = false.
Proof. by destruct b. Qed.

Lemma ok_or_Ok {E A} (e : E) (o : option A) a : ok_or e o = Ok a ↔ o = Some a.
Proof. destruct o; naive_solver. Qed.

Section fail_closed.
Context {S E : Type}.

#[global] Instance ret_read_only {A} (a : A) : ReadOnly (mret a : op S E A).
Proof. done. Qed.
#[global] Instance lift_read_only {A} (r : res E A) : ReadOnly (lift r : op S E A).
Proof. done. Qed.
#[global] Instance reads_read_only {A} (f : S → A) : ReadOnly (reads f : op S E A).
Proof. done. Qed.
#[global] Instance readr_read_only {A} (f : S → res E A) : ReadOnly (readr f).
Proof. done. Qed.

#[global] Instance bind_read_only {A B} (m : op S E A) (k : A → op S E B) :
  ReadOnly m → (∀ a, ReadOnly (k a)) → ReadOnly (m ≫= k).
Proof.
  intros Hm Hk s. specialize (Hm s). unfold mbind, op_bind.
  repeat case_match; simplify_eq/=; auto. by rewrite (Hk a s).
Qed.

#[global] Instance ret_infallible {A} (a : A) : Infallible (mret a : op S E A).
Proof. done. Qed.
#[global] Instance reads_infallible {A} (f : S → A) : Infallible (reads f : op S E A).
Proof. done. Qed.
#[global] Instance modify_infallible (f : S → S) : Infallible (modify f : op S E unit).
Proof. done. Qed.
#[global] Instance bind_infallible {A B} (m : op S E A) (k : A → op S E B) :
  Infallible m → (∀ a, Infallible (k a)) → Infallible (m ≫= k).
Proof.
  intros Hm Hk s e s'. unfold mbind, op_bind. repeat case_match; simplify_eq/=.
  - apply Hk.
  - intros ?. by apply (Hm s e0 s0).
  - done.
Qed.

Lemma infallible_fail_closed {A} (m : op S E A) : Infallible m → FailClosed m.
Proof. intros H s e s' Hs. by destruct (H s e s'). Qed.

Lemma read_only_fail_closed {A} (m : op S E A) : ReadOnly m → FailClosed m.
Proof. intros H s e s' Hs. specialize (H s). by rewrite Hs in H. Qed.

(** Checks first: a read-only prefix keeps a fail-closed tail fail-closed. *)
Lemma bind_checks {A B} (m : op S E A) (k : A → op S E B) :
  ReadOnly m → (∀ a, FailClosed (k a)) → FailClosed (m ≫= k).
Proof.
  intros Hm Hk s e s'. specialize (Hm s). unfold mbind, op_bind.
  repeat case_match; intros; simplify_eq/=; [by eapply Hk|done].
Qed.

(** Mutation last: nothing after the last check can fail. *)
Lemma bind_commit {A B} (m : op S E A) (k : A → op S E B) :
  FailClosed m → (∀ a, Infallible (k a)) → FailClosed (m ≫= k).
Proof.
  intros Hm Hk s e s'. unfold mbind, op_bind.
  repeat case_match; intros; simplify_eq/=.
  - by edestruct Hk.
  - by eapply Hm.
Qed.
End fail_closed.

Ltac solve_fail_closed :=
  intros; cbv zeta;
  repeat (intros; lazymatch goal with
  | |- FailClosed (match ?x with _ => _ end) => destruct x
  | |- _ => first [ solve [apply infallible_fail_closed; apply _]
                  | solve [apply read_only_fail_closed; apply _]
                  | apply bind_checks; [solve [apply _]|] 
                  | apply bind_commit; [|intros; solve [apply _]] ]
  end).

Section no_panic.
Context {S E : Type}.

#[global] Instance ret_returns {A} (a : A) : Returns (E:=E) (Ok a).
Proof. done. Qed.
#[global] Instance err_returns {A} (e : E) : Returns (A:=A) (Err e).
Proof. done. Qed.
#[global] Instance bail_if_returns (b : bool) (e : E) : Returns (bail_if b e).
Proof. by destruct b. Qed.
#[global] Instance ok_or_returns {A} (e : E) (o : option A) : Returns (ok_or e o).
Proof. by destruct o. Qed.
#[global] Instance bind_returns {A B} (m : res E A) (k : A → res E B) :
  Returns m → (∀ a, Returns (k a)) → Returns (m ≫= k).
Proof. intros Hm Hk. destruct m; cbn; [apply Hk|done|by destruct Hm]. Qed.

#[global] Instance ret_no_panic {A} (a : A) : NoPanic (mret a : op S E A).
Proof. done. Qed.
#[global] Instance lift_no_panic {A} (r : res E A) :
  Returns r → NoPanic (lift r : op S E A).
Proof. by intros H s. Qed.
#[global] Instance reads_no_panic {A} (f : S → A) : NoPanic (reads f : op S E A).
Proof. done. Qed.
#[global] Instance readr_no_panic {A} (f : S → res E A) :
  (∀ s, Returns (f s)) → NoPanic (readr f).
Proof. intros H s. apply H. Qed.
#[global] Instance modify_no_panic (f : S → S) : NoPanic (modify f : op S E unit).
Proof. done. Qed.
#[global] Instance bind_no_panic {A B} (m : op S E A) (k : A → op S E B) :
  NoPanic m → (∀ a, NoPanic (k a)) → NoPanic (m ≫= k).
Proof.
  intros Hm Hk s. specialize (Hm s). unfold mbind, op_bind.
  repeat case_match; simplify_eq/=; try done. apply Hk.
Qed.
End no_panic.

Ltac solve_no_panic :=
  intros; cbv zeta;
  repeat (intros; lazymatch goal with
  | |- NoPanic (match ?x with _ => _ end) => destruct x
  | |- Returns (match ?x with _ => _ end) => destruct x
  | |- _ => first [ solve [apply _] | apply bind_no_panic | apply bind_returns
                  | apply lift_no_panic | apply readr_no_panic ]
  end).

(** A method that fails closed and returns either left the state or succeeded. *)
Lemma closed_cases {S E A} (m : op S E A) (s : S) :
  FailClosed m → NoPanic m → (m s).2 = s ∨ ∃ a, m s = (Ok a, (m s).2).
Proof.
  intros Hf Hp. destruct (m s) as [[a|e|] s'] eqn:Hm; cbn.
  - right. by exists a.
  - left. by apply (Hf s e).
  - specialize (Hp s). by rewrite Hm in Hp.
Qed.

(** Refinement is compositional: client code over the methods keeps it. *)
#[global] Instance bind_refines {S T E A B} (R : S → T → Prop)
    (m : op S E A) (m' : op T E A) (k : A → op S E B) (k' : A → op T E B) :
  Refines R m m' → (∀ a, Refines R (k a) (k' a)) → Refines R (m ≫= k) (m' ≫= k').
Proof.
  intros Hm Hk s t HR. destruct (Hm s t HR) as [Hr HR']. unfold mbind, op_bind.
  destruct (m s) as [r s1], (m' t) as [r' t1]; cbn in *; subst r'.
  destruct r; cbn; [by apply Hk|done|done].
Qed.

#[global] Instance ret_refines {S T E A} (R : S → T → Prop) (a : A) :
  Refines R (mret a : op S E A) (mret a : op T E A).
Proof. by intros s t HR. Qed.

(** Invert the successful run of a method, one call at a time. *)
Ltac op_inv H :=
  cbv zeta in H;
  lazymatch type of H with
  | (_ ≫= _) _ = (Ok _, _) =>
      let a := fresh "a" in let s1 := fresh "s1" in let H1 := fresh "H" in
      apply op_bind_Ok in H as (a & s1 & H1 & H); op_inv H1; op_inv H
  | (_ ≫= _) = Ok _ =>
      let a := fresh "a" in let H1 := fresh "H" in
      apply res_bind_Ok in H as (a & H1 & H); op_inv H1; op_inv H
  | lift _ _ = (Ok _, _) => apply op_lift_Ok in H as [H ->]; op_inv H
  | readr _ _ = (Ok _, _) => apply op_readr_Ok in H as [H ->]; op_inv H
  | reads _ _ = (Ok _, _) => apply op_reads_Ok in H as [-> ->]
  | modify _ _ = (Ok _, _) => apply op_modify_Ok in H as ->
  | mret _ _ = (Ok _, _) =>
      first [apply op_ret_Ok in H as [-> ->] | apply op_ret_Ok in H as [H ->]]
  | bail_if _ _ = Ok _ => apply bail_if_Ok in H
  | ok_or _ _ = Ok _ => apply ok_or_Ok in H
  | Ok _ = Ok _ => first [injection H as <- | injection H as -> | idtac]
  | _ => idtac
  end.

(** ** Ordered iteration *)

#[global] Instance key_le_total {V} : Total (@key_le V).
Proof. intros p q. unfold key_le. lia. Qed.
#[global] Instance key_le_trans {V} : Transitive (@key_le V).
Proof. intros p q r. unfold key_le. lia. Qed.

Definition key_lt {V} (p q : Z * V) : Prop := p.1 < q.1.

Section entries.
Context {V : Type}.
Implicit Types (m : gmap Z V).

Lemma entries_perm m : entries m ≡ₚ map_to_list m.
Proof. apply merge_sort_Permutation. Qed.

Lemma elem_of_entries m k v : (k, v) ∈ entries m ↔ m !! k = Some v.
Proof. by rewrite entries_perm, elem_of_map_to_list. Qed.

Lemma entries_NoDup_keys m : NoDup (entries m).*1.
Proof. rewrite entries_perm. apply NoDup_fst_map_to_list. Qed.

Lemma sorted_le_lt (l : list (Z * V)) :
  StronglySorted key_le l → NoDup l.*1 → StronglySorted key_lt l.
Proof.
  induction 1 as [|p l Hl IH Hp]; cbn; intros Hnd; constructor.
  - apply IH. by inversion Hnd.
  - rewrite Forall_forall in Hp |- *. intros q Hq. specialize (Hp q Hq).
    apply NoDup_cons in Hnd as [Hnin _].
    assert (p.1 ≠ q.1) by (intros Heq; apply Hnin; rewrite Heq; set_solver).
    unfold key_le, key_lt in *. lia.
Qed.

Lemma entries_sorted m : StronglySorted key_lt (entries m).
Proof.
  apply sorted_le_lt; [|apply entries_NoDup_keys].
  apply (StronglySorted_merge_sort key_le).
Qed.

Lemma entries_empty : entries (∅ : gmap Z V) = [].
Proof. unfold entries. by rewrite map_to_list_empty. Qed.

Lemma last_entry_Some m k v :
  last_entry m = Some (k, v) →
  m !! k = Some v ∧ ∀ k' v', m !! k' = Some v' → k' ≤ k.
Proof.
  unfold last_entry. rewrite last_Some. intros [l Hl].
  pose proof (entries_sorted m) as Hs. rewrite Hl in Hs. split.
  - apply elem_of_entries. rewrite Hl. set_solver.
  - intros k' v' Hk'. apply elem_of_entries in Hk'. rewrite Hl in Hk'.
    apply elem_of_app in Hk' as [Hin|Hin%list_elem_of_singleton]; [|simplify_eq; lia].
    pose proof (StronglySorted_app_1_elem_of _ _ _ _ _ Hs Hin
      (proj2 (list_elem_of_singleton (k, v) (k, v)) eq_refl)) as Hlt.
    unfold key_lt in Hlt. cbn in Hlt. lia.
Qed.

Lemma last_entry_None m : last_entry m = None ↔ m = ∅.
Proof.
  unfold last_entry. rewrite last_None. split.
  - intros H. apply map_eq. intros k. rewrite lookup_empty.
    destruct (m !! k) eqn:Hk; [|done].
    apply elem_of_entries in Hk. rewrite H in Hk. by apply elem_of_nil in Hk.
  - intros ->. apply entries_empty.
Qed.

Lemma elem_of_values m v : v ∈ values m ↔ ∃ k, m !! k = Some v.
Proof.
  unfold values. rewrite list_elem_of_fmap. split.
  - intros ([k v'] & -> & Hin). exists k. by apply elem_of_entries.
  - intros [k Hk]. exists (k, v). by rewrite elem_of_entries.
Qed.

Lemma values_insert m k v : values (<[k := v]> m) ≡ₚ v :: values (delete k m).
Proof.
  unfold values. rewrite !entries_perm, <-insert_delete_eq.
  by rewrite map_to_list_insert by apply lookup_delete_eq.
Qed.

Lemma values_lookup m k v : m !! k = Some v → values m ≡ₚ v :: values (delete k m).
Proof. intros H. rewrite <-values_insert. by rewrite insert_id. Qed.
End entries.

(** The concatenation of a map of lists, seen from one of its entries. *)
Lemma concat_values_split {A} (m : gmap Z (list A)) k q :
  m !! k = Some q →
  ∃ rest, concat (values m) ≡ₚ q ++ rest ∧
    ∀ q', concat (values (<[k := q']> m)) ≡ₚ q' ++ rest.
Proof.
  assert (∀ l l' : list (list A), l ≡ₚ l' → concat l ≡ₚ concat l') as Hc.
  { induction 1; cbn; [done|by f_equiv| |by etrans]. by rewrite !app_assoc, (comm (++) y). }
  intros H. exists (concat (values (delete k m))). split.
  - by rewrite (Hc _ _ (values_lookup m k q H)).
  - intros q'. by rewrite (Hc _ _ (values_insert m k q')).
Qed.

Lemma existsb_values {V} (f : V → bool) (m : gmap Z V) :
  existsb f (values m) = false ↔ ∀ k v, m !! k = Some v → f v = false.
Proof.
  rewrite <-not_true_iff_false, existsb_exists. split.
  - intros H k v Hk. apply not_true_iff_false. intros Hf. apply H. exists v.
    split; [|done]. apply list_elem_of_In, elem_of_values. by exists k.
  - intros H (v & Hin & Hf). apply list_elem_of_In, elem_of_values in Hin as [k Hk].
    by rewrite (H k v Hk) in Hf.
Qed.

Lemma existsb_entries {V} (f : Z * V → bool) (m : gmap Z V) :
  existsb f (entries m) = false ↔ ∀ k v, m !! k = Some v → f (k, v) = false.
Proof.
  rewrite <-not_true_iff_false, existsb_exists. split.
  - intros H k v Hk. apply not_true_iff_false. intros Hf. apply H. exists (k, v).
    split; [|done]. by apply list_elem_of_In, elem_of_entries.
  - intros H ([k v] & Hin & Hf). apply list_elem_of_In, elem_of_entries in Hin.
    by rewrite (H k v Hin) in Hf.
Qed.

Lemma find_map_Some {A B} (f : A → option B) l b :
  find_map f l = Some b → ∃ x, x ∈ l ∧ f x = Some b.
Proof.
  induction l as [|x l IH]; cbn; [done|].
  destruct (f x) eqn:Hf; intros; simplify_eq; [set_solver|].
  destruct IH as (y & ? & ?); [done|]. set_solver.
Qed.

Lemma find_map_None {A B} (f : A → option B) l :
  find_map f l = None ↔ ∀ x, x ∈ l → f x = None.
Proof.
  induction l as [|x l IH]; cbn; [set_solver|].
  destruct (f x) eqn:Hf.
  - split; [done|]. intros H. rewrite H in Hf by apply elem_of_cons, or_introl, eq_refl. done.
  - rewrite IH. setoid_rewrite elem_of_cons. naive_solver.
Qed.

#[global] Instance zsum_perm : Proper ((≡ₚ) ==> (=)) zsum.
Proof. unfold zsum. induction 1; cbn in *; lia. Qed.

Lemma zsum_app l1 l2 : zsum (l1 ++ l2) = zsum l1 + zsum l2.
Proof. unfold zsum. induction l1; cbn in *; lia. Qed.

(** An unchecked [sum] that fits returns the sum. *)
Lemma foldl_uadd {E} l acc :
  0 ≤ acc → Forall (λ p, 0 ≤ p) l → acc + zsum l < 2 ^ 64 →
  foldl (λ acc p, total ← acc; uadd 64 total p) (Ok acc : res E Z) l = Ok (acc + zsum l).
Proof.
  revert acc. induction l as [|p l IH]; intros acc Hacc Hl Hsum.
  { unfold zsum. cbn. f_equal. lia. }
  apply Forall_cons in Hl as [Hp Hl]. unfold zsum in Hsum. cbn in Hsum. fold (zsum l) in Hsum.
  assert (0 ≤ zsum l). { clear -Hl. unfold zsum. induction Hl; cbn; lia. }
  cbn [foldl]. unfold mbind at 2, res_bind at 2, uadd at 2.
  rewrite (proj2 (Z.ltb_lt (acc + p) _)) by lia.
  rewrite IH by (done || lia). f_equal. unfold zsum. cbn. lia.
Qed.

Lemma elem_of_sorted_elements s x : x ∈ sorted_elements s ↔ x ∈ s.
Proof. unfold sorted_elements. by rewrite merge_sort_Permutation, elem_of_elements. Qed.

(** Rule induction for an invariant of every reachable state. *)
Lemma reach_invariant {S L} (step : L → S → S) (Inv : S → Prop) s s' :
  (∀ l t, Inv t → Inv (step l t)) → Inv s → reach step s s' → Inv s'.
Proof. intros Hstep Hs. induction 1; auto. Qed.

Lemma reach_trans {S L} (step : L → S → S) s1 s2 s3 :
  reach step s1 s2 → reach step s2 s3 → reach step s1 s3.
Proof. intros H12. induction 1; [done|by constructor]. Qed.

(** A relation between the ends of a trace from one that every call keeps. *)
Lemma reach_preorder {S L} (step : L → S → S) (R : S → S → Prop) `{!PreOrder R} s s' :
  (∀ l t, R t (step l t)) → reach step s s' → R s s'.
Proof. intros Hstep. induction 1; [done|by etrans]. Qed.

(** ** Arithmetic *)

Lemma checked_add_Some w x y z :
  checked_add w x y = Some z ↔ z = x + y ∧ x + y < 2 ^ w.
Proof. unfold checked_add. destruct (Z.ltb_spec (x + y) (2 ^ w)); naive_solver lia. Qed.

Lemma checked_add_None w x y : checked_add w x y = None ↔ 2 ^ w ≤ x + y.
Proof. unfold checked_add. destruct (Z.ltb_spec (x + y) (2 ^ w)); naive_solver lia. Qed.

Lemma checked_sub_Some x y z : checked_sub x y = Some z ↔ z = x - y ∧ y ≤ x.
Proof. unfold checked_sub. destruct (Z.leb_spec y x); naive_solver lia. Qed.

Lemma checked_mul_Some w x y z :
  checked_mul w x y = Some z ↔ z = x * y ∧ x * y < 2 ^ w.
Proof. unfold checked_mul. destruct (Z.ltb_spec (x * y) (2 ^ w)); naive_solver lia. Qed.

(** Read the boolean guards of the context as propositions. *)
Ltac guards :=
  repeat match goal with
  | H : _ || _ = false |- _ => apply orb_false_iff in H as [? ?]
  | H : _ && _ = true |- _ => apply andb_true_iff in H as [? ?]
  | H : negb _ = false |- _ => apply negb_false_iff in H
  | H : negb _ = true |- _ => apply negb_true_iff in H
  | H : bool_decide _ = true |- _ => apply bool_decide_eq_true in H
  | H : bool_decide _ = false |- _ => apply bool_decide_eq_false in H
  | H : (_ =? _) = true |- _ => apply Z.eqb_eq in H
  | H : (_ =? _) = false |- _ => apply Z.eqb_neq in H
  | H : (_ <? _) = true |- _ => apply Z.ltb_lt in H
  | H : (_ <? _) = false |- _ => apply Z.ltb_ge in H
  | H : (_ <=? _) = true |- _ => apply Z.leb_le in H
  | H : (_ <=? _) = false |- _ => apply Z.leb_gt in H
  | H : checked_add _ _ _ = Some _ |- _ => apply checked_add_Some in H as [-> ?]
  | H : checked_sub _ _ = Some _ |- _ => apply checked_sub_Some in H as [-> ?]
  | H : checked_mul _ _ _ = Some _ |- _ => apply checked_mul_Some in H as [-> ?]
  end.

Lemma land_range w x y : 0 ≤ w → 0 ≤ y → in_u w x → in_u w (Z.land x y).
Proof.
  unfold in_u. intros Hw Hy Hx. split; [apply Z.land_nonneg; lia|].
  destruct (Z.eq_dec (Z.land x y) 0) as [->|Hne]; [lia|].
  assert (0 ≤ Z.land x y) by (apply Z.land_nonneg; lia).
  apply Z.log2_lt_pow2; [lia|].
  destruct (Z.eq_dec x 0) as [->|Hx0]; [by rewrite Z.land_0_l in Hne|].
  eapply Z.le_lt_trans; [apply Z.log2_land; lia|].
  eapply Z.le_lt_trans; [apply Z.le_min_l|]. apply Z.log2_lt_pow2; lia.
Qed.

(** A value fits in [w] bits exactly when no higher bit is set. *)
Lemma in_u_bits w x :
  0 ≤ w → in_u w x ↔ 0 ≤ x ∧ ∀ k, w ≤ k → Z.testbit x k = false.
Proof.
  intros Hw. unfold in_u. split.
  - intros Hx. split; [lia|]. intros k Hk. rewrite <-(Z.mod_small x (2 ^ w)) by lia.
    by apply Z.mod_pow2_bits_high.
  - intros [Hx Hb]. assert (x = x mod 2 ^ w) as ->; [|apply Z.mod_pos_bound; lia].
    apply Z.bits_inj'. intros k Hk. destruct (Z.lt_ge_cases k w).
    + by rewrite Z.mod_pow2_bits_low.
    + rewrite Z.mod_pow2_bits_high by lia. by apply Hb.
Qed.

Lemma bnot_spec w x k : 0 ≤ w → 0 ≤ k → Z.testbit (bnot w x) k = xorb (Z.testbit x k) (k <? w).
Proof. intros Hw Hk. unfold bnot. by rewrite Z.lxor_spec, Z.testbit_ones_nonneg. Qed.

#[export] Hint Rewrite @elem_of_entries @elem_of_values elem_of_sorted_elements : bulla.
