(* ===== verification/Capability.v ===== *)
(** * Capabilities: [kernel/src/capability.rs]

    Rights bitsets, capability handles and the generation-stamped ledger that
    mints, validates, transfers and releases them. *)
From S2P Require Import Prelude.

Inductive CapabilityKind : Type :=
| BootInfo | Cpu | CpuSetKind | CpuLocal | PhysRegion | Frame | VirtRegion
| AddressSpaceKind | Mmio | IoPort | Irq | IrqState | TrapFrameKind
| UserContextKind | Dma | IommuDomainKind | Clock | Entropy | Power.

#[global] Instance CapabilityKind_eq_dec : EqDecision CapabilityKind.
Proof. solve_decision. Defined.

Definition all_kinds : list CapabilityKind :=
  [BootInfo; Cpu; CpuSetKind; CpuLocal; PhysRegion; Frame; VirtRegion;
   AddressSpaceKind; Mmio; IoPort; Irq; IrqState; TrapFrameKind;
   UserContextKind; Dma; IommuDomainKind; Clock; Entropy; Power].

Definition kind_index (k : CapabilityKind) : nat :=
  match k with
  | BootInfo => 0 | Cpu => 1 | CpuSetKind => 2 | CpuLocal => 3 | PhysRegion => 4
  | Frame => 5 | VirtRegion => 6 | AddressSpaceKind => 7 | Mmio => 8
  | IoPort => 9 | Irq => 10 | IrqState => 11 | TrapFrameKind => 12
  | UserContextKind => 13 | Dma => 14 | IommuDomainKind => 15 | Clock => 16
  | Entropy => 17 | Power => 18
  end%nat.

#[global] Instance CapabilityKind_countable : Countable CapabilityKind.
Proof.
  apply (inj_countable kind_index (λ n, all_kinds !! n)). by intros [].
Defined.

(** ** Rights: an explicit 32-bit set *)

Record Rights : Type := MkRights { bits : Z }.

#[global] Instance Rights_eq_dec : EqDecision Rights.
Proof. solve_decision. Defined.

Definition READ : Rights := MkRights (Z.shiftl 1 0).
Definition WRITE : Rights := MkRights (Z.shiftl 1 1).
Definition EXECUTE : Rights := MkRights (Z.shiftl 1 2).
Definition MAP : Rights := MkRights (Z.shiftl 1 3).
Definition ROUTE : Rights := MkRights (Z.shiftl 1 4).
Definition CONTROL : Rights := MkRights (Z.shiftl 1 5).
Definition TRANSFER : Rights := MkRights (Z.shiftl 1 6).
Definition ALL : Rights := MkRights (Z.shiftl 1 7 - 1).
Definition rights_empty : Rights := MkRights 0.

Definition rights_union (a b : Rights) : Rights := MkRights (Z.lor (bits a) (bits b)).

Definition rights_contains (a required : Rights) : bool :=
  Z.land (bits a) (bits required) =? bits required.

(** ** Handles *)

Record Capability : Type := MkCapability {
  cap_kind : CapabilityKind;
  cap_slot : Z;
  cap_owner : Z;
  cap_rights : Rights;
  cap_generation : Z;
  cap_base : Z;
  cap_len : Z;
}.

#[global] Instance Capability_eq_dec : EqDecision Capability.
Proof. solve_decision. Defined.

Definition contains_range (self : Capability) (base len : Z) : bool :=
  match checked_add 64 (cap_base self) (cap_len self) with
  | None => false
  | Some cap_end =>
    match checked_add 64 base len with
    | None => false
    | Some end_ => (cap_base self <=? base) && (end_ <=? cap_end)
    end
  end.

(** ** The [require] checks of the capability clients

    [context.rs], [irq.rs] and [services.rs] each define
    [require(capability, kind, rights)] over their own error type; the class
    names the two errors and the check is written once. *)

Class CapErrors (E : Type) := {
  wrong_capability : E;
  missing_rights : E;
}.

Definition require {E} `{CapErrors E} (c : Capability) (kind : CapabilityKind)
    (rights : Rights) : res E unit :=
  bail_if (negb (bool_decide (cap_kind c = kind))) wrong_capability;;
  bail_if (negb (rights_contains (cap_rights c) rights)) missing_rights.

(** ** Lemmas on rights and ranges *)

Lemma rights_contains_spec a b :
  rights_contains a b = true ↔ ∀ i, Z.testbit (bits b) i = true → Z.testbit (bits a) i = true.
Proof.
  unfold rights_contains. rewrite Z.eqb_eq. split.
  - intros H i Hi. rewrite <-H, Z.land_spec, andb_true_iff in Hi. tauto.
  - intros H. apply Z.bits_inj'. intros i _. rewrite Z.land_spec.
    destruct (Z.testbit (bits b) i) eqn:Hb; [by rewrite H|apply andb_false_r].
Qed.

Lemma rights_contains_refl a : rights_contains a a = true.
Proof. by apply rights_contains_spec. Qed.

Lemma rights_contains_trans a b c :
  rights_contains a b = true → rights_contains b c = true → rights_contains a c = true.
Proof. rewrite !rights_contains_spec. auto. Qed.

Lemma rights_contains_union a b c :
  rights_contains a (rights_union b c) = rights_contains a b && rights_contains a c.
Proof.
  apply eq_true_iff_eq. rewrite andb_true_iff, !rights_contains_spec. cbn.
  setoid_rewrite Z.lor_spec. setoid_rewrite orb_true_iff. naive_solver.
Qed.

Lemma contains_range_spec c base len :
  contains_range c base len = true ↔
  cap_base c ≤ base ∧ base + len ≤ cap_base c + cap_len c ∧
  cap_base c + cap_len c < 2 ^ 64.
Proof.
  unfold contains_range, checked_add.
  destruct (Z.ltb_spec (cap_base c + cap_len c) (2 ^ 64)),
    (Z.ltb_spec (base + len) (2 ^ 64)); zb; naive_solver lia.
Qed.

#[export] Hint Resolve rights_contains_refl rights_contains_trans : bulla.

Lemma require_Ok {E} `{CapErrors E} c kind rights u :
  require c kind rights = Ok u ↔
  cap_kind c = kind ∧ rights_contains (cap_rights c) rights = true.
Proof.
  unfold require. op_unfold. destruct u.
  case_bool_decide; destruct (rights_contains _ _); naive_solver.
Qed.

#[global] Instance require_returns {E} `{CapErrors E} c k r : Returns (E := E) (require c k r).
Proof. unfold require. solve_no_panic. Qed.

(** ** The ledger *)

Module Ledger.

Record LedgerRecord : Type := MkLedgerRecord {
  rec_owner : Z;
  rec_rights : Rights;
  rec_generation : Z;
  rec_base : Z;
  rec_len : Z;
  rec_live : bool;
}.

Inductive CapabilityError : Type :=
| DuplicateSlot | UnknownSlot | Released | WrongKind | ForeignOwner
| StaleGeneration | MissingRights | RightsEscalation | RangeOverflow
| OutOfRange | GenerationOverflow.

#[global] Instance CapabilityError_eq_dec : EqDecision CapabilityError.
Proof. solve_decision. Defined.

Record CapabilityLedger : Type := MkLedger {
  records : gmap (CapabilityKind * Z) LedgerRecord;
}.

Definition ledger_new : CapabilityLedger := MkLedger ∅.

Definition set_record (key : CapabilityKind * Z) (r : LedgerRecord)
    (s : CapabilityLedger) : CapabilityLedger :=
  MkLedger (<[key := r]> (records s)).

Definition capability_of (kind : CapabilityKind) (slot : Z) (r : LedgerRecord) : Capability :=
  MkCapability kind slot (rec_owner r) (rec_rights r) (rec_generation r)
    (rec_base r) (rec_len r).

Definition mint_root (kind : CapabilityKind) (slot owner : Z) (rights : Rights)
    (base len : Z) : op CapabilityLedger CapabilityError Capability :=
  lift (bail_if (negb (Z.land (bits rights) (bnot 32 (bits ALL)) =? 0)) RightsEscalation);;
  lift (bail_if (bool_decide (checked_add 64 base len = None)) RangeOverflow);;
  present ← reads (λ s, bool_decide (is_Some (records s !! (kind, slot))));
  lift (bail_if present DuplicateSlot);;
  let record := MkLedgerRecord owner rights 0 base len true in
  modify (set_record (kind, slot) record);;
  mret (capability_of kind slot record).

Definition validate (self : CapabilityLedger) (c : Capability) (owner : Z)
    (required : Rights) (base len : Z) : res CapabilityError unit :=
  record ← ok_or UnknownSlot (records self !! (cap_kind c, cap_slot c));
  bail_if (negb (rec_live record)) Released;;
  bail_if (negb (rec_generation record =? cap_generation c)) StaleGeneration;;
  bail_if (negb (rec_owner record =? owner) || negb (cap_owner c =? owner)) ForeignOwner;;
  bail_if (negb (bool_decide (rec_rights record = cap_rights c))
           || negb (rights_contains (rec_rights record) required)) MissingRights;;
  bail_if (negb (rec_base record =? cap_base c)
           || negb (rec_len record =? cap_len c)) OutOfRange;;
  bail_if (negb (contains_range c base len)) OutOfRange.

Definition validate_record (record : LedgerRecord) (c : Capability) : res CapabilityError unit :=
  bail_if (negb (rec_live record)) Released;;
  bail_if (negb (rec_owner record =? cap_owner c)) ForeignOwner;;
  bail_if (negb (rec_generation record =? cap_generation c)) StaleGeneration;;
  bail_if (negb (bool_decide (rec_rights record = cap_rights c))
           || negb (rec_base record =? cap_base c)
           || negb (rec_len record =? cap_len c)) OutOfRange.

Definition transfer (c : Capability) (new_owner : Z) (new_rights : Rights)
    : op CapabilityLedger CapabilityError Capability :=
  record ← readr (λ s, ok_or UnknownSlot (records s !! (cap_kind c, cap_slot c)));
  lift (validate_record record c);;
  lift (bail_if (negb (rights_contains (rec_rights record) new_rights)) RightsEscalation);;
  generation ← lift (ok_or GenerationOverflow (checked_add 64 (rec_generation record) 1));
  let record' := MkLedgerRecord new_owner new_rights generation
                   (rec_base record) (rec_len record) (rec_live record) in
  modify (set_record (cap_kind c, cap_slot c) record');;
  mret (capability_of (cap_kind c) (cap_slot c) record').

Definition release (c : Capability) : op CapabilityLedger CapabilityError unit :=
  record ← readr (λ s, ok_or UnknownSlot (records s !! (cap_kind c, cap_slot c)));
  lift (validate_record record c);;
  generation ← lift (ok_or GenerationOverflow (checked_add 64 (rec_generation record) 1));
  modify (set_record (cap_kind c, cap_slot c)
    (MkLedgerRecord (rec_owner record) (rec_rights record) generation
       (rec_base record) (rec_len record) false)).

(** ** Ledger traces *)

Inductive ledger_call : Type :=
| CallMint (kind : CapabilityKind) (slot owner : Z) (rights : Rights) (base len : Z)
| CallTransfer (c : Capability) (new_owner : Z) (new_rights : Rights)
| CallRelease (c : Capability).

Definition ledger_step (call : ledger_call) (s : CapabilityLedger) : CapabilityLedger :=
  match call with
  | CallMint kind slot owner rights base len => (mint_root kind slot owner rights base len s).2
  | CallTransfer c owner rights => (transfer c owner rights s).2
  | CallRelease c => (release c s).2
  end.

(** [r'] is a later state of the record [r]: the generation never decreases,
    an unchanged generation means an unchanged record, the range is fixed,
    rights only shrink and a released record stays released. *)
Record record_evolves (r r' : LedgerRecord) : Prop := {
  ev_generation : rec_generation r ≤ rec_generation r';
  ev_same : rec_generation r = rec_generation r' → r' = r;
  ev_range : rec_base r' = rec_base r ∧ rec_len r' = rec_len r;
  ev_rights : rights_contains (rec_rights r) (rec_rights r') = true;
  ev_live : rec_live r' = true → rec_live r = true;
}.

Definition ledger_evolves (s s' : CapabilityLedger) : Prop :=
  ∀ key r, records s !! key = Some r →
    ∃ r', records s' !! key = Some r' ∧ record_evolves r r'.

(** The ledger backs the handle [c]: there is a live record equal to it. *)
Definition backs (s : CapabilityLedger) (c : Capability) : Prop :=
  ∃ r, records s !! (cap_kind c, cap_slot c) = Some r ∧ rec_live r = true ∧
    c = capability_of (cap_kind c) (cap_slot c) r.

(** ** The ledger operations *)

#[global] Instance mint_root_fail_closed k slot o r b l : FailClosed (mint_root k slot o r b l).
Proof. unfold mint_root. solve_fail_closed. Qed.

#[global] Instance transfer_fail_closed c o r : FailClosed (transfer c o r).
Proof. unfold transfer. solve_fail_closed. Qed.

#[global] Instance release_fail_closed c : FailClosed (release c).
Proof. unfold release. solve_fail_closed. Qed.

Lemma validate_record_Ok r c u :
  validate_record r c = Ok u ↔
  rec_live r = true ∧ c = capability_of (cap_kind c) (cap_slot c) r.
Proof.
  unfold validate_record, capability_of. op_unfold. destruct u, c, r; cbn.
  destruct rec_live0; zcase; split; intros; destruct_and?; simplify_eq; try done; auto.
Qed.

(** [validate] accepts exactly the handles the ledger backs, for their owner,
    for rights they carry and inside their range. *)
Lemma validate_Ok s c owner required base len u :
  validate s c owner required base len = Ok u ↔
  backs s c ∧ cap_owner c = owner ∧ rights_contains (cap_rights c) required = true ∧
  contains_range c base len = true.
Proof.
  unfold validate, backs, capability_of. op_unfold. destruct u, c as [k sl o rt g b l]; cbn.
  destruct (records s !! (k, sl)) as [[o' rt' g' b' l' live]|] eqn:Hr; cbn.
  2: { split; [done|]. by intros ((r & ? & _) & _). }
  split.
  - destruct live; zcase; try done;
      destruct (rights_contains _ _) eqn:?, (contains_range _ _ _) eqn:?; cbn; try done.
    intros _. simplify_eq. repeat split; try done. by eexists.
  - intros ((r & ? & ? & ?) & ? & Hrt & Hcr). destruct r. cbn in *. simplify_eq.
    rewrite Hrt, Hcr. zcase; done.
Qed.

Lemma backs_unique s c1 c2 :
  backs s c1 → backs s c2 → cap_kind c1 = cap_kind c2 → cap_slot c1 = cap_slot c2 → c1 = c2.
Proof.
  intros (r1 & Hr1 & _ & H1) (r2 & Hr2 & _ & H2) Hk Hs.
  rewrite H1, H2, Hk, Hs in *. congruence.
Qed.

#[global] Instance record_evolves_preorder : PreOrder record_evolves.
Proof.
  split.
  - intros r. split; auto with bulla; lia.
  - intros r1 r2 r3 [G1 S1 R1 C1 L1] [G2 S2 R2 C2 L2]. split; [lia| | |by eauto with bulla|auto].
    + intros Heq. rewrite S2, S1 by lia. done.
    + destruct R1, R2. split; congruence.
Qed.

#[global] Instance ledger_evolves_preorder : PreOrder ledger_evolves.
Proof.
  split.
  - intros s key r Hr. exists r. by split.
  - intros s1 s2 s3 H12 H23 key r1 Hr1.
    destruct (H12 key r1 Hr1) as (r2 & Hr2 & E12).
    destruct (H23 key r2 Hr2) as (r3 & Hr3 & E23).
    exists r3. split; [done|by etrans].
Qed.

(** Replacing a record by a later state of it is an evolution of the ledger. *)
Lemma set_record_evolves s key r r' :
  records s !! key = Some r → record_evolves r r' → ledger_evolves s (set_record key r' s).
Proof.
  intros Hr Hev key' q Hq. cbn. destruct (decide (key = key')) as [<-|Hne].
  - simplify_map_eq. eauto.
  - simplify_map_eq. exists q. by split.
Qed.

Lemma set_record_fresh_evolves s key r :
  records s !! key = None → ledger_evolves s (set_record key r s).
Proof. intros Hr key' q Hq. cbn. exists q. split; [by simplify_map_eq|done]. Qed.

(** What a successful call did to the record of its handle. *)
Lemma transfer_Ok c o rt s c' s' :
  transfer c o rt s = (Ok c', s') →
  ∃ r, records s !! (cap_kind c, cap_slot c) = Some r ∧ rec_live r = true ∧
    c = capability_of (cap_kind c) (cap_slot c) r ∧
    rights_contains (rec_rights r) rt = true ∧ rec_generation r + 1 < 2 ^ 64 ∧
    let r' := MkLedgerRecord o rt (rec_generation r + 1) (rec_base r) (rec_len r) true in
    s' = set_record (cap_kind c, cap_slot c) r' s ∧
    c' = capability_of (cap_kind c) (cap_slot c) r'.
Proof.
  unfold transfer. op_unfold. intros H.
  destruct (records s !! _) as [r|] eqn:Hr; [|done].
  destruct (validate_record r c) eqn:Hv; [|done..].
  apply validate_record_Ok in Hv as [Hl Hc].
  destruct (rights_contains _ _) eqn:Hrt; cbn in H; [|done].
  destruct (Z.ltb_spec (rec_generation r + 1) (2 ^ 64)); cbn in H; [|done].
  rewrite Hl in H. simplify_eq. exists r. auto 10.
Qed.

Lemma release_Ok c s u s' :
  release c s = (Ok u, s') →
  ∃ r, records s !! (cap_kind c, cap_slot c) = Some r ∧ rec_live r = true ∧
    c = capability_of (cap_kind c) (cap_slot c) r ∧ rec_generation r + 1 < 2 ^ 64 ∧
    s' = set_record (cap_kind c, cap_slot c)
      (MkLedgerRecord (rec_owner r) (rec_rights r) (rec_generation r + 1)
         (rec_base r) (rec_len r) false) s.
Proof.
  unfold release. op_unfold. intros H.
  destruct (records s !! _) as [r|] eqn:Hr; [|done].
  destruct (validate_record r c) eqn:Hv; [|done..].
  apply validate_record_Ok in Hv as [Hl Hc].
  destruct (Z.ltb_spec (rec_generation r + 1) (2 ^ 64)); cbn in H; [|done].
  simplify_eq. exists r. auto 10.
Qed.

Lemma mint_root_Ok k sl o rt b l s c s' :
  mint_root k sl o rt b l s = (Ok c, s') →
  Z.land (bits rt) (bnot 32 (bits ALL)) = 0 ∧ b + l < 2 ^ 64 ∧
  records s !! (k, sl) = None ∧
  s' = set_record (k, sl) (MkLedgerRecord o rt 0 b l true) s ∧
  c = MkCapability k sl o rt 0 b l.
Proof.
  unfold mint_root. op_unfold. intros H.
  destruct (Z.eqb_spec (Z.land (bits rt) (bnot 32 (bits ALL))) 0); cbn in H; [|done].
  destruct (Z.ltb_spec (b + l) (2 ^ 64)); rewrite ?bool_decide_eq_true_2 in H by done;
    cbn in H; [|done].
  destruct (records s !! (k, sl)) eqn:Hr; cbn in H; [done|]. simplify_eq. auto 10.
Qed.

Lemma ledger_step_evolves call s : ledger_evolves s (ledger_step call s).
Proof.
  destruct call as [k sl o rt b l|c o rt|c]; cbn.
  - destruct (mint_root k sl o rt b l s) as [[c|e|] s'] eqn:H; cbn.
    + apply mint_root_Ok in H as (_ & _ & Hn & -> & _). by apply set_record_fresh_evolves.
    + apply fail_closed in H as ->. done.
    + exfalso. unfold mint_root in H. op_unfold. repeat case_match; done.
  - destruct (transfer c o rt s) as [[c'|e|] s'] eqn:H; cbn.
    + apply transfer_Ok in H as (r & Hr & Hl & _ & Hrt & _ & -> & _).
      eapply set_record_evolves; [done|]. split; cbn; auto; lia.
    + apply fail_closed in H as ->. done.
    + exfalso. unfold transfer, validate_record in H. op_unfold. repeat case_match; done.
  - destruct (release c s) as [[[]|e|] s'] eqn:H; cbn.
    + apply release_Ok in H as (r & Hr & Hl & _ & _ & ->).
      eapply set_record_evolves; [done|]. split; cbn; auto with bulla; lia.
    + apply fail_closed in H as ->. done.
    + exfalso. unfold release, validate_record in H. op_unfold. repeat case_match; done.
Qed.

Lemma ledger_reach_evolves s s' : reach ledger_step s s' → ledger_evolves s s'.
Proof. apply reach_preorder; [apply _|apply ledger_step_evolves]. Qed.

(** ** The interface to the ledger's clients

    What code that checks capabilities relies on: an accepted check stays
    within the handle, and a revoked handle is refused in every later state. *)
Class CapabilityAuthority (L : Type) := {
  auth_validate : L → Capability → Z → Rights → Z → Z → res CapabilityError unit;
  auth_later : L → L → Prop;
  auth_revoked : L → Capability → Prop;
  auth_within : ∀ l c owner rt b n, auth_validate l c owner rt b n = Ok () →
    cap_owner c = owner ∧ rights_contains (cap_rights c) rt = true ∧ contains_range c b n = true;
  auth_returns : ∀ l c owner rt b n, auth_validate l c owner rt b n ≠ Panic;
  auth_refuses : ∀ l l' c owner rt b n, auth_revoked l c → auth_later l l' →
    auth_validate l' c owner rt b n ≠ Ok ();
}.

(** A handle whose record has moved on is never backed again. *)
Lemma stale_never_backed s s' c r :
  records s !! (cap_kind c, cap_slot c) = Some r → cap_generation c < rec_generation r →
  reach ledger_step s s' → ¬ backs s' c.
Proof.
  intros Hr Hlt Hreach (q & Hq & _ & Hc).
  destruct (ledger_reach_evolves _ _ Hreach _ _ Hr) as (r' & Hr' & [Hg _ _ _ _]).
  rewrite Hc in Hlt. cbn in Hlt. simplify_eq. lia.
Qed.

Definition revoked (s : CapabilityLedger) (c : Capability) : Prop :=
  ∃ r, records s !! (cap_kind c, cap_slot c) = Some r ∧ cap_generation c < rec_generation r.

#[global] Instance validate_returns s c owner rt b n : Returns (validate s c owner rt b n).
Proof. unfold validate. solve_no_panic. Qed.

#[global] Instance ledger_authority : CapabilityAuthority CapabilityLedger.
Proof.
  refine {| auth_validate := validate; auth_later := reach ledger_step; auth_revoked := revoked |}.
  - intros l c owner rt b n (_ & H)%validate_Ok. exact H.
  - intros. apply validate_returns.
  - intros l l' c owner rt b n (r & Hr & Hg) Hl (Hb & _)%validate_Ok.
    by apply (stale_never_backed l l' c r).
Defined.

Lemma transfer_revokes c o rt s c' s' : transfer c o rt s = (Ok c', s') → revoked s' c.
Proof.
  intros (r & _ & _ & Hc & _ & _ & -> & _)%transfer_Ok. eexists. cbn.
  rewrite lookup_insert_eq. split; [done|]. rewrite Hc. cbn. lia.
Qed.

Lemma release_revokes c s u s' : release c s = (Ok u, s') → revoked s' c.
Proof.
  intros (r & _ & _ & Hc & _ & ->)%release_Ok. eexists. cbn.
  rewrite lookup_insert_eq. split; [done|]. rewrite Hc. cbn. lia.
Qed.

(** ** Properties *)

(** C1. Revocation is permanent: once a handle has been transferred or released,
    no later ledger, whatever calls (failing ones included) lead to it, validates
    that handle again, for any owner, rights or range. *)
Theorem revocation_is_permanent c s s' s'' :
  (∃ o rt c', transfer c o rt s = (Ok c', s')) ∨ release c s = (Ok (), s') →
  reach ledger_step s' s'' →
  ∀ owner required base len, validate s'' c owner required base len ≠ Ok ().
Proof.
  intros Hcall Hreach owner required base len Hv. apply validate_Ok in Hv as [Hb _].
  destruct Hcall as [(o & rt & c' & H)|H];
    [apply transfer_Ok in H as (r & _ & _ & Hc & _ & _ & -> & _)
    |apply release_Ok in H as (r & _ & _ & Hc & _ & ->)].
  all: apply (stale_never_backed _ _ _ _ (lookup_insert_eq _ _ _)) in Hreach; [done|];
    rewrite Hc; cbn; lia.
Qed.

Definition demo_root : Capability :=
  MkCapability Frame 7 1 (rights_union READ TRANSFER) 0 8192 4096.
Definition demo_ledger : CapabilityLedger :=
  (mint_root Frame 7 1 (rights_union READ TRANSFER) 8192 4096 ledger_new).2.
Definition demo_moved : CapabilityLedger := (transfer demo_root 2 READ demo_ledger).2.

Lemma revocation_is_permanent_witness :
  validate demo_ledger demo_root 1 READ 8192 1 = Ok () ∧
  validate (ledger_step (CallRelease demo_root) demo_moved) demo_root 1 READ 8192 1 ≠ Ok ().
Proof.
  split; [vm_compute; reflexivity|].
  apply (revocation_is_permanent demo_root demo_ledger demo_moved).
  - left. exists 2, READ. eexists. vm_compute. reflexivity.
  - apply reach_step, reach_refl.
Defined.

(** At most one handle per slot is ever accepted: two handles of the same kind
    and slot that both validate are equal, and for the same owner. *)
Theorem single_valid_handle s c1 c2 o1 o2 r1 r2 b1 b2 l1 l2 :
  validate s c1 o1 r1 b1 l1 = Ok () → validate s c2 o2 r2 b2 l2 = Ok () →
  cap_kind c1 = cap_kind c2 → cap_slot c1 = cap_slot c2 → c1 = c2 ∧ o1 = o2.
Proof.
  rewrite !validate_Ok. intros (H1 & <- & _) (H2 & <- & _) Hk Hs.
  pose proof (backs_unique _ _ _ H1 H2 Hk Hs) as ->. done.
Qed.

Lemma single_valid_handle_witness : demo_root = demo_root ∧ 1 = 1.
Proof.
  apply (single_valid_handle demo_ledger demo_root demo_root 1 1 READ TRANSFER 8192 8192 4 4);
    vm_compute; reflexivity.
Defined.

(** C6. No amplification: from a freshly minted root, through any sequence of calls,
    every access the ledger validates on that slot asks for rights among the root's
    (all of them named rights) and for a range inside the root's range. *)
Theorem authority_never_amplified s s0 s1 k sl o rt b l c0 c owner required base len :
  mint_root k sl o rt b l s = (Ok c0, s0) → reach ledger_step s0 s1 →
  cap_kind c = k → cap_slot c = sl →
  validate s1 c owner required base len = Ok () →
  rights_contains rt required = true ∧ Z.land (bits rt) (bnot 32 (bits ALL)) = 0 ∧
  b ≤ base ∧ base + len ≤ b + l.
Proof.
  intros Hm Hreach <- <- Hv.
  apply mint_root_Ok in Hm as (Hall & _ & _ & -> & _).
  apply validate_Ok in Hv as ((r & Hr & _ & Hc) & _ & Hreq & Hrange).
  destruct (ledger_reach_evolves _ _ Hreach _ _ (lookup_insert_eq _ _ _))
    as (r' & Hr' & [_ _ [Hb Hl] Hrt _]). cbn in *. simplify_eq.
  rewrite Hc in Hreq, Hrange. cbn in Hreq.
  apply contains_range_spec in Hrange as (? & ? & _). cbn in *.
  repeat split; try lia; eauto with bulla.
Qed.

Lemma authority_never_amplified_witness :
  rights_contains (rights_union READ TRANSFER) READ = true ∧
  Z.land (bits (rights_union READ TRANSFER)) (bnot 32 (bits ALL)) = 0 ∧
  8192 ≤ 9000 ∧ 9000 + 8 ≤ 8192 + 4096.
Proof.
  apply (authority_never_amplified ledger_new demo_ledger demo_moved Frame 7 1
    (rights_union READ TRANSFER) 8192 4096 demo_root
    (MkCapability Frame 7 2 READ 1 8192 4096) 2 READ 9000 8).
  - vm_compute. reflexivity.
  - apply (reach_step ledger_step demo_ledger (CallTransfer demo_root 2 READ) demo_ledger),
      reach_refl.
  - reflexivity.
  - reflexivity.
  - vm_compute. reflexivity.
Defined.

(** Handing over is exact: after a successful transfer the new handle validates
    for precisely the new owner, the rights it was narrowed to and the original
    range, and its generation is the next one. *)
Theorem transfer_hands_over_exactly c o rt s c' s' :
  transfer c o rt s = (Ok c', s') →
  cap_generation c' = cap_generation c + 1 ∧
  ∀ owner required base len,
    validate s' c' owner required base len = Ok () ↔
    owner = o ∧ rights_contains rt required = true ∧ contains_range c base len = true.
Proof.
  intros H. apply transfer_Ok in H as (r & Hr & _ & Hc & _ & _ & -> & ->).
  split; [by rewrite Hc|]. intros owner required base len. rewrite validate_Ok. cbn.
  replace (contains_range (capability_of _ _ _) base len) with (contains_range c base len)
    by (rewrite Hc; done).
  split; [naive_solver|]. intros (-> & ? & ?). repeat split; try done.
  eexists. cbn. rewrite lookup_insert_eq. done.
Qed.

Lemma transfer_hands_over_exactly_witness :
  validate demo_moved (MkCapability Frame 7 2 READ 1 8192 4096) 2 READ 8192 4096 = Ok ().
Proof.
  refine (proj2 (proj2 (transfer_hands_over_exactly demo_root 2 READ demo_ledger
    (MkCapability Frame 7 2 READ 1 8192 4096) demo_moved _) 2 READ 8192 4096) _);
    [vm_compute; reflexivity|]. repeat split; vm_compute; reflexivity.
Defined.

End Ledger.
