(* ===== verification/Frames.v ===== *)
(** * Physical frames: [kernel/src/frame.rs]

    The first-fit, coalescing frame allocator with generations and loans. *)
From S2P Require Import Prelude.

Module FrameAllocator.

Definition PAGE_SIZE : Z := 4096.

Record FrameRun : Type := MkRun {
  run_base : Z;
  run_pages : Z;
  run_generation : Z;
  run_zeroed : bool;
}.

#[global] Instance FrameRun_eq_dec : EqDecision FrameRun.
Proof. solve_decision. Defined.

Inductive FrameError : Type :=
| Empty | Misaligned | RangeOverflow | Overlap | OutOfMemory | UnknownRun
| StaleGeneration | NonAdjacent | GenerationOverflow | AlreadyLent | NotLent
| ForeignBorrower.

#[global] Instance FrameError_eq_dec : EqDecision FrameError.
Proof. solve_decision. Defined.

Record Allocator : Type := MkAllocator {
  free : gmap Z Z;
  allocated : gmap Z FrameRun;
  generations : gmap Z Z;
  loans : gmap Z Z;
}.

Definition frames_new : Allocator := MkAllocator ∅ ∅ ∅ ∅.

Definition set_free (f : gmap Z Z) (s : Allocator) : Allocator :=
  MkAllocator f (allocated s) (generations s) (loans s).
Definition set_allocated (f : gmap Z FrameRun) (s : Allocator) : Allocator :=
  MkAllocator (free s) f (generations s) (loans s).
Definition set_generations (f : gmap Z Z) (s : Allocator) : Allocator :=
  MkAllocator (free s) (allocated s) f (loans s).
Definition set_loans (f : gmap Z Z) (s : Allocator) : Allocator :=
  MkAllocator (free s) (allocated s) (generations s) f.

(** [u64::is_power_of_two] *)
Definition is_power_of_two (x : Z) : bool := (0 <? x) && (2 ^ Z.log2 x =? x).

Definition validate_run (base pages : Z) : res FrameError unit :=
  bail_if (pages =? 0) Empty;;
  bail_if (negb (base mod PAGE_SIZE =? 0)) Misaligned;;
  bytes ← ok_or RangeOverflow (checked_mul 64 pages PAGE_SIZE);
  _ ← ok_or RangeOverflow (checked_add 64 base bytes);
  Ok ().

(** The [for] loop of [coalesce]: [acc] is the map being rebuilt. *)
Fixpoint coalesce_loop (l : list (Z * Z)) (acc : gmap Z Z) : res FrameError (gmap Z Z) :=
  match l with
  | [] => Ok acc
  | (base, pages) :: l' =>
    match last_entry acc with
    | Some (previous_base, previous_pages) =>
      bytes ← umul 64 previous_pages PAGE_SIZE;
      end_ ← uadd 64 previous_base bytes;
      if end_ =? base then
        sum ← uadd 64 previous_pages pages;
        coalesce_loop l' (<[previous_base := sum]> acc)
      else coalesce_loop l' (<[base := pages]> acc)
    | None => coalesce_loop l' (<[base := pages]> acc)
    end
  end.

Definition coalesce : op Allocator FrameError unit :=
  f ← readr (λ s, coalesce_loop (entries (free s)) ∅);
  modify (set_free f).

(** The closure of [add_region]'s overlap test, on one free entry. *)
Definition region_overlaps (base end_ : Z) (entry : Z * Z) : bool :=
  let '(other_base, other_pages) := entry in
  let other_end := saturating_add 64 other_base (saturating_mul 64 other_pages PAGE_SIZE) in
  (base <? other_end) && (other_base <? end_).

Definition add_region (base pages : Z) : op Allocator FrameError unit :=
  lift (validate_run base pages);;
  bytes ← lift (ok_or RangeOverflow (checked_mul 64 pages PAGE_SIZE));
  end_ ← lift (ok_or RangeOverflow (checked_add 64 base bytes));
  overlap ← reads (λ s, existsb (region_overlaps base end_) (entries (free s)));
  lift (bail_if overlap Overlap);;
  modify (λ s, set_free (<[base := pages]> (free s)) s);;
  coalesce.

(** The closure of [allocate]'s [find_map]. *)
Definition fit (pages alignment : Z) (entry : Z * Z) : option (Z * Z * Z * Z) :=
  let '(base, available) := entry in
  bumped ← checked_add 64 base (alignment - 1);
  let aligned := Z.land bumped (bnot 64 (alignment - 1)) in
  skip ← checked_sub aligned base;
  let prefix := skip / PAGE_SIZE in
  needed ← checked_add 64 prefix pages;
  if needed <=? available then Some (base, available, aligned, prefix) else None.

Definition allocate (pages alignment_pages : Z) : op Allocator FrameError FrameRun :=
  lift (bail_if ((pages =? 0) || (alignment_pages =? 0)
                 || negb (is_power_of_two alignment_pages)) Empty);;
  alignment ← lift (ok_or RangeOverflow (checked_mul 64 alignment_pages PAGE_SIZE));
  choice ← reads (λ s, find_map (fit pages alignment) (entries (free s)));
  match choice with
  | None => lift (Err OutOfMemory)
  | Some (base, available, aligned, prefix) =>
    modify (λ s, set_free (delete base (free s)) s);;
    (if negb (prefix =? 0)
     then modify (λ s, set_free (<[base := prefix]> (free s)) s) else mret ());;
    rest ← lift (usub available prefix);
    suffix ← lift (usub rest pages);
    (if negb (suffix =? 0) then
       bytes ← lift (umul 64 pages PAGE_SIZE);
       end_ ← lift (uadd 64 aligned bytes);
       modify (λ s, set_free (<[end_ := suffix]> (free s)) s)
     else mret ());;
    generation ← reads (λ s, default 0 (generations s !! aligned));
    let run := MkRun aligned pages generation false in
    modify (λ s, set_allocated (<[aligned := run]> (allocated s)) s);;
    mret run
  end.

Definition validate (s : Allocator) (run : FrameRun) : res FrameError FrameRun :=
  live ← ok_or UnknownRun (allocated s !! run_base run);
  bail_if (negb (run_generation live =? run_generation run)) StaleGeneration;;
  bail_if (negb (run_pages live =? run_pages run)) UnknownRun;;
  Ok live.

Definition mark_zeroed (run : FrameRun) : op Allocator FrameError FrameRun :=
  live ← readr (λ s, validate s run);
  let zeroed := MkRun (run_base live) (run_pages live) (run_generation live) true in
  modify (λ s, set_allocated (<[run_base run := zeroed]> (allocated s)) s);;
  mret zeroed.

Definition lend (run : FrameRun) (borrower : Z) : op Allocator FrameError FrameRun :=
  live ← readr (λ s, validate s run);
  lent ← reads (λ s, bool_decide (is_Some (loans s !! run_base run)));
  lift (bail_if lent AlreadyLent);;
  generation ← lift (ok_or GenerationOverflow (checked_add 64 (run_generation live) 1));
  let lent := MkRun (run_base live) (run_pages live) generation (run_zeroed live) in
  modify (λ s, set_allocated (<[run_base run := lent]> (allocated s)) s);;
  modify (λ s, set_generations (<[run_base run := generation]> (generations s)) s);;
  modify (λ s, set_loans (<[run_base run := borrower]> (loans s)) s);;
  mret lent.

Definition reclaim (run : FrameRun) (borrower : Z) : op Allocator FrameError FrameRun :=
  live ← readr (λ s, validate s run);
  loan ← reads (λ s, loans s !! run_base run);
  lift (match loan with
        | None => Err NotLent
        | Some owner => bail_if (negb (owner =? borrower)) ForeignBorrower
        end);;
  generation ← lift (ok_or GenerationOverflow (checked_add 64 (run_generation live) 1));
  let reclaimed := MkRun (run_base live) (run_pages live) generation (run_zeroed live) in
  modify (λ s, set_loans (delete (run_base run) (loans s)) s);;
  modify (λ s, set_generations (<[run_base run := generation]> (generations s)) s);;
  modify (λ s, set_allocated (<[run_base run := reclaimed]> (allocated s)) s);;
  mret reclaimed.

Definition split (run : FrameRun) (left_pages : Z) : res FrameError (FrameRun * FrameRun) :=
  bail_if ((left_pages =? 0) || (run_pages run <=? left_pages)) Empty;;
  bytes ← umul 64 left_pages PAGE_SIZE;
  right_base ← uadd 64 (run_base run) bytes;
  right_pages ← usub (run_pages run) left_pages;
  Ok (MkRun (run_base run) left_pages (run_generation run) (run_zeroed run),
      MkRun right_base right_pages (run_generation run) (run_zeroed run)).

(** [||] is lazy: the sum is only computed when the first two tests fail. *)
Definition join (left right : FrameRun) : res FrameError FrameRun :=
  bail_if (negb (run_generation left =? run_generation right)
           || negb (bool_decide (run_zeroed left = run_zeroed right))) NonAdjacent;;
  bytes ← umul 64 (run_pages left) PAGE_SIZE;
  end_ ← uadd 64 (run_base left) bytes;
  bail_if (negb (end_ =? run_base right)) NonAdjacent;;
  pages ← ok_or RangeOverflow (checked_add 64 (run_pages left) (run_pages right));
  Ok (MkRun (run_base left) pages (run_generation left) (run_zeroed left)).

Definition split_allocated (run : FrameRun) (left_pages : Z)
    : op Allocator FrameError (FrameRun * FrameRun) :=
  live ← readr (λ s, validate s run);
  lent ← reads (λ s, bool_decide (is_Some (loans s !! run_base run)));
  lift (bail_if lent AlreadyLent);;
  '(l, r) ← lift (split live left_pages);
  modify (λ s, set_allocated (delete (run_base run) (allocated s)) s);;
  modify (λ s, set_allocated (<[run_base l := l]> (allocated s)) s);;
  modify (λ s, set_allocated (<[run_base r := r]> (allocated s)) s);;
  modify (λ s, set_generations
    (match generations s !! run_base r with
     | Some _ => generations s
     | None => <[run_base r := run_generation r]> (generations s)
     end) s);;
  mret (l, r).

Definition join_allocated (left right : FrameRun) : op Allocator FrameError FrameRun :=
  left_live ← readr (λ s, validate s left);
  right_live ← readr (λ s, validate s right);
  lent ← reads (λ s, bool_decide (is_Some (loans s !! run_base left))
                     || bool_decide (is_Some (loans s !! run_base right)));
  lift (bail_if lent AlreadyLent);;
  joined ← lift (join left_live right_live);
  modify (λ s, set_allocated (delete (run_base left) (allocated s)) s);;
  modify (λ s, set_allocated (delete (run_base right) (allocated s)) s);;
  modify (λ s, set_allocated (<[run_base joined := joined]> (allocated s)) s);;
  mret joined.

Definition release (run : FrameRun) : op Allocator FrameError unit :=
  _ ← readr (λ s, validate s run);
  lent ← reads (λ s, bool_decide (is_Some (loans s !! run_base run)));
  lift (bail_if lent AlreadyLent);;
  modify (λ s, set_allocated (delete (run_base run) (allocated s)) s);;
  next ← lift (ok_or GenerationOverflow (checked_add 64 (run_generation run) 1));
  modify (λ s, set_generations (<[run_base run := next]> (generations s)) s);;
  modify (λ s, set_free (<[run_base run := run_pages run]> (free s)) s);;
  coalesce.

(** [self.free.values().copied().sum()]: an overflowing [sum] panics. *)
Definition free_pages (s : Allocator) : res FrameError Z :=
  foldl (λ acc p, total ← acc; uadd 64 total p) (Ok 0) (values (free s)).

(** ** The calls of a client, and the state each leaves *)

Inductive call : Type :=
| AddRegion (base pages : Z)
| Allocate (pages alignment_pages : Z)
| MarkZeroed (run : FrameRun)
| Lend (run : FrameRun) (borrower : Z)
| Reclaim (run : FrameRun) (borrower : Z)
| SplitAllocated (run : FrameRun) (left_pages : Z)
| JoinAllocated (left right : FrameRun)
| Release (run : FrameRun).

(** Outcome of a call with the value of a success forgotten. *)
Definition outcome {A} (r : res FrameError A * Allocator) : res FrameError unit * Allocator :=
  (match r.1 with Ok _ => Ok () | Err e => Err e | Panic => Panic end, r.2).

Definition exec (c : call) (s : Allocator) : res FrameError unit * Allocator :=
  match c with
  | AddRegion base pages => outcome (add_region base pages s)
  | Allocate pages alignment => outcome (allocate pages alignment s)
  | MarkZeroed run => outcome (mark_zeroed run s)
  | Lend run borrower => outcome (lend run borrower s)
  | Reclaim run borrower => outcome (reclaim run borrower s)
  | SplitAllocated run n => outcome (split_allocated run n s)
  | JoinAllocated l r => outcome (join_allocated l r s)
  | Release run => outcome (release run s)
  end.

(** ** The invariant *)

Definition run_end (base pages : Z) : Z := base + pages * PAGE_SIZE.

(** A page-aligned, non-empty run whose end fits in 64 bits. *)
Definition run_ok (base pages : Z) : Prop :=
  0 < pages ∧ 0 ≤ base ∧ base mod PAGE_SIZE = 0 ∧ run_end base pages < 2 ^ 64.

(** Free runs are well formed and *strictly* separated: no two are adjacent. *)
Definition free_ok (m : gmap Z Z) : Prop :=
  (∀ b p, m !! b = Some p → run_ok b p) ∧
  (∀ b p b' p', m !! b = Some p → m !! b' = Some p' → b < b' → run_end b p < b').

Definition alloc_ok (m : gmap Z FrameRun) : Prop :=
  (∀ b r, m !! b = Some r →
     run_base r = b ∧ run_ok b (run_pages r) ∧ u64 (run_generation r)) ∧
  (∀ b r b' r', m !! b = Some r → m !! b' = Some r' → b < b' → run_end b (run_pages r) ≤ b').

(** A page address is free, or handed out. *)
Definition covers (m : gmap Z Z) (a : Z) : Prop :=
  ∃ b p, m !! b = Some p ∧ b ≤ a < run_end b p.
Definition alloc_covers (m : gmap Z FrameRun) (a : Z) : Prop :=
  ∃ b r, m !! b = Some r ∧ b ≤ a < run_end b (run_pages r).

Record inv (s : Allocator) : Prop := {
  inv_free : free_ok (free s);
  inv_alloc : alloc_ok (allocated s);
  inv_cross : ∀ a, covers (free s) a → ¬ alloc_covers (allocated s) a;
  inv_gens : ∀ b g, generations s !! b = Some g → u64 g;
  inv_loans : ∀ b o, loans s !! b = Some o → is_Some (allocated s !! b);
}.

(** An address the allocator manages. *)
Definition owned (s : Allocator) (a : Z) : Prop :=
  covers (free s) a ∨ alloc_covers (allocated s) a.

(** Total number of pages in a free map. *)
Definition total (m : gmap Z Z) : Z := zsum (values m).

(** What the integer types of the arguments guarantee, and the one obligation
    the allocator leaves to its client: a region it adds is not handed out. *)
Definition run_typed (r : FrameRun) : Prop :=
  u64 (run_base r) ∧ u64 (run_pages r) ∧ u64 (run_generation r).
Definition call_ok (c : call) (s : Allocator) : Prop :=
  match c with
  | AddRegion base pages => u64 base ∧ u64 pages ∧
      ∀ a, base ≤ a < run_end base pages → ¬ alloc_covers (allocated s) a
  | Allocate pages alignment => u64 pages ∧ u64 alignment
  | MarkZeroed run | Release run | Lend run _ | Reclaim run _ => run_typed run
  | SplitAllocated run n => run_typed run ∧ u64 n
  | JoinAllocated l r => run_typed l ∧ run_typed r
  end.

(** Client traces: calls allowed by [P], each meeting its obligation. *)
Inductive client_trace (P : call → Prop) (s : Allocator) : Allocator → Prop :=
| trace_refl : client_trace P s s
| trace_step c s' :
    client_trace P s s' → P c → call_ok c s' → client_trace P s (exec c s').2.

(** Calls that neither split nor join a run. *)
Definition plain (c : call) : Prop :=
  match c with SplitAllocated _ _ | JoinAllocated _ _ => False | _ => True end.

End FrameAllocator.
