(* ===== verification/FrameInv.v ===== *)
(** * Frame allocator: coalescing, fitting and the invariant

    Lemmas about [Frames]: the free map as a set of page addresses, the rebuild
    loop of [coalesce], the alignment arithmetic of [allocate], and the
    preservation of the invariant by every call. *)
From S2P Require Import Prelude Frames.
Import FrameAllocator.

Module FrameInv.

(** Weakly separated runs: what the free map satisfies right after an insert,
    before [coalesce] has merged neighbours. *)
Definition weak_ok (m : gmap Z Z) : Prop :=
  (∀ b p, m !! b = Some p → run_ok b p) ∧
  (∀ b p b' p', m !! b = Some p → m !! b' = Some p' → b < b' → run_end b p ≤ b').

Definition before (p q : Z * Z) : Prop := run_end p.1 p.2 ≤ q.1.

Definition covers_list (l : list (Z * Z)) (a : Z) : Prop :=
  ∃ b p, (b, p) ∈ l ∧ b ≤ a < run_end b p.

(** ** Totals *)

Lemma total_perm m : total m = zsum (map_to_list m).*2.
Proof. unfold total, values. by rewrite entries_perm. Qed.

Lemma total_empty : total ∅ = 0.
Proof. by rewrite total_perm, map_to_list_empty. Qed.

Lemma total_insert_fresh m k v : m !! k = None → total (<[k := v]> m) = v + total m.
Proof. intros H. rewrite !total_perm, map_to_list_insert by done. done. Qed.

Lemma total_delete m k v : m !! k = Some v → total (delete k m) = total m - v.
Proof.
  intros H. rewrite <-(insert_delete_id m k v H) at 2.
  rewrite total_insert_fresh by apply lookup_delete_eq. lia.
Qed.

Lemma total_insert_over m k v w : m !! k = Some w → total (<[k := v]> m) = total m - w + v.
Proof.
  intros H. rewrite <-insert_delete_eq, total_insert_fresh by apply lookup_delete_eq.
  rewrite (total_delete m k w H). lia.
Qed.

(** ** The free map as a set of addresses *)

Lemma free_ok_weak m : free_ok m → weak_ok m.
Proof. intros [H1 H2]. split; [done|]. intros. apply Z.lt_le_incl. eauto. Qed.

Lemma entries_ok m :
  weak_ok m → Forall (λ e, run_ok e.1 e.2) (entries m) ∧ StronglySorted before (entries m).
Proof.
  intros [Hok Hsep]. split.
  - apply Forall_forall. intros [b p] Hin%elem_of_entries. by apply Hok.
  - pose proof (entries_sorted m) as Hs.
    assert (∀ e, e ∈ entries m → m !! e.1 = Some e.2) as Hin.
    { intros [b p]. apply elem_of_entries. }
    revert Hin. induction Hs as [|e l Hl IH He]; intros Hin; constructor.
    + apply IH. intros e' He'. apply Hin. by right.
    + rewrite Forall_forall in He |- *. intros e' He'.
      apply (Hsep _ _ _ e'.2); [apply Hin; by left|apply Hin; by right|by apply He].
Qed.

Lemma covers_entries m a : covers_list (entries m) a ↔ covers m a.
Proof. unfold covers_list, covers. by setoid_rewrite elem_of_entries. Qed.

Lemma covers_insert m b p a :
  m !! b = None → covers (<[b := p]> m) a ↔ b ≤ a < run_end b p ∨ covers m a.
Proof.
  intros Hn. unfold covers. split.
  - intros (b' & p' & H & Ha). apply lookup_insert_Some in H as [[-> ->]|[? ?]]; eauto 10.
  - intros [Ha|(b' & p' & H & Ha)]; [exists b, p|exists b', p'].
    + by rewrite lookup_insert_eq.
    + rewrite lookup_insert_ne by congruence. done.
Qed.

Lemma covers_grow m b p q a :
  m !! b = Some p → 0 < p → 0 < q →
  covers (<[b := p + q]> m) a ↔ covers m a ∨ run_end b p ≤ a < run_end (run_end b p) q.
Proof.
  intros Hb Hp Hq. unfold covers, run_end, PAGE_SIZE. split.
  - intros (b' & p' & H & Ha). apply lookup_insert_Some in H as [[<- <-]|[? ?]].
    + destruct (decide (a < b + p * 4096)); [left; exists b, p|right]; split; first [done|lia].
    + left. eauto 10.
  - intros [(b' & p' & H & Ha)|Ha].
    + destruct (decide (b = b')) as [->|Hne]; simplify_eq.
      * exists b', (p + q). rewrite lookup_insert_eq. split; [done|lia].
      * exists b', p'. by rewrite lookup_insert_ne.
    + exists b, (p + q). rewrite lookup_insert_eq. split; [done|lia].
Qed.

Lemma weak_insert m b p :
  weak_ok m → run_ok b p →
  (∀ b' p', m !! b' = Some p' → run_end b p ≤ b' ∨ run_end b' p' ≤ b) →
  m !! b = None ∧ weak_ok (<[b := p]> m).
Proof.
  intros [Hok Hsep] Hrun Hdis. assert (m !! b = None) as Hn.
  { apply eq_None_not_Some. intros [p' Hp']. specialize (Hok _ _ Hp').
    specialize (Hdis _ _ Hp'). unfold run_ok, run_end, PAGE_SIZE in *. lia. }
  split; [done|]. split.
  - intros b' p' [[-> ->]|[? ?]]%lookup_insert_Some; eauto.
  - intros b1 p1 b2 p2 [[<- <-]|[? H1]]%lookup_insert_Some [[<- <-]|[? H2]]%lookup_insert_Some Hlt.
    + lia.
    + specialize (Hok _ _ H2). specialize (Hdis _ _ H2).
      unfold run_ok, run_end, PAGE_SIZE in *. lia.
    + specialize (Hok _ _ H1). specialize (Hdis _ _ H1).
      unfold run_ok, run_end, PAGE_SIZE in *. lia.
    + eauto.
Qed.

(** ** [coalesce] *)

(** One iteration, on its three branches. *)
Lemma coalesce_push acc b p :
  free_ok acc → run_ok b p → (∀ b' p', acc !! b' = Some p' → run_end b' p' < b) →
  acc !! b = None ∧ free_ok (<[b := p]> acc).
Proof.
  intros [Hok Hsep] Hrun Hlt. assert (acc !! b = None) as Hn.
  { apply eq_None_not_Some. intros [p' Hp']. specialize (Hlt _ _ Hp').
    specialize (Hok _ _ Hp'). unfold run_ok, run_end, PAGE_SIZE in *. lia. }
  split; [done|]. split.
  - intros b' p' [[-> ->]|[? ?]]%lookup_insert_Some; eauto.
  - intros b1 p1 b2 p2 [[<- <-]|[? H1]]%lookup_insert_Some [[<- <-]|[? H2]]%lookup_insert_Some Hb.
    + lia.
    + specialize (Hlt _ _ H2). specialize (Hok _ _ H2).
      unfold run_ok, run_end, PAGE_SIZE in *. lia.
    + by eapply Hlt.
    + by eapply Hsep.
Qed.

Lemma coalesce_grow acc pb pp p :
  free_ok acc → acc !! pb = Some pp → (∀ b' p', acc !! b' = Some p' → b' ≤ pb) →
  run_ok (run_end pb pp) p → free_ok (<[pb := pp + p]> acc).
Proof.
  intros [Hok Hsep] Hpb Hmax Hrun. pose proof (Hok _ _ Hpb) as Hpok. split.
  - intros b' p' [[<- <-]|[? H]]%lookup_insert_Some; [|eauto].
    unfold run_ok, run_end, PAGE_SIZE in *. lia.
  - intros b1 p1 b2 p2 [[<- <-]|[? H1]]%lookup_insert_Some [[<- <-]|[? H2]]%lookup_insert_Some Hb.
    + lia.
    + specialize (Hmax _ _ H2). lia.
    + by eapply Hsep.
    + by eapply Hsep.
Qed.

Lemma coalesce_loop_spec l : ∀ acc,
  free_ok acc → Forall (λ e, run_ok e.1 e.2) l → StronglySorted before l →
  (∀ b p e, acc !! b = Some p → e ∈ l → run_end b p ≤ e.1) →
  ∃ m, coalesce_loop l acc = Ok m ∧ free_ok m ∧
    (∀ a, covers m a ↔ covers acc a ∨ covers_list l a) ∧
    total m = total acc + zsum l.*2.
Proof.
  induction l as [|[b p] l IH]; intros acc Hacc Hl Hs Hlt; cbn [coalesce_loop].
  { exists acc. split_and!; [done|done| |unfold zsum; cbn; lia]. intros a. split; [by left|].
    intros [?|(? & ? & ?%elem_of_nil & _)]; done. }
  apply Forall_cons in Hl as [Hrun Hl]. cbn in Hrun.
  apply StronglySorted_cons in Hs as [Hb Hs].
  assert (∀ a, covers_list ((b, p) :: l) a ↔ b ≤ a < run_end b p ∨ covers_list l a) as Hcov.
  { intros a. unfold covers_list. setoid_rewrite elem_of_cons. naive_solver. }
  assert (∀ b' p', acc !! b' = Some p' → run_end b' p' ≤ b) as Hle.
  { intros b' p' H. apply (Hlt b' p' (b, p) H). by left. }
  (* pushing a fresh run *)
  assert ((∀ b' p', acc !! b' = Some p' → run_end b' p' < b) →
    ∃ m, coalesce_loop l (<[b := p]> acc) = Ok m ∧ free_ok m ∧
      (∀ a, covers m a ↔ covers acc a ∨ covers_list ((b, p) :: l) a) ∧
      total m = total acc + zsum ((b, p) :: l).*2) as Hpush.
  { intros Hstrict. destruct (coalesce_push acc b p Hacc Hrun Hstrict) as [Hn Hok].
    destruct (IH (<[b := p]> acc) Hok Hl Hs) as (m & -> & Hm & Hmc & Hmt).
    - intros b' p' e [[<- <-]|[? H]]%lookup_insert_Some He.
      + rewrite Forall_forall in Hb. by apply Hb.
      + apply (Hlt b' p' e H). by right.
    - exists m. split_and!; [done|done| |].
      + intros a. rewrite Hmc, (covers_insert acc b p a Hn), Hcov. tauto.
      + rewrite Hmt, (total_insert_fresh acc b p Hn). unfold zsum. cbn. lia. }
  destruct (last_entry acc) as [[pb pp]|] eqn:Hlast.
  2: { apply last_entry_None in Hlast as ->. apply Hpush. intros b' p'. by rewrite lookup_empty. }
  apply last_entry_Some in Hlast as [Hpb Hmax].
  pose proof (proj1 Hacc _ _ Hpb) as Hpok. pose proof (Hle _ _ Hpb) as Hpe.
  pose proof Hrun as (Hp & _ & _ & Hend). unfold run_ok, run_end, PAGE_SIZE in Hpok, Hpe, Hend.
  unfold umul, uadd, PAGE_SIZE. rewrite (proj2 (Z.ltb_lt (pp * 4096) _)) by lia. cbn.
  rewrite (proj2 (Z.ltb_lt (pb + pp * 4096) _)) by lia. cbn.
  destruct (Z.eqb_spec (pb + pp * 4096) b) as [Heq|Hne].
  - rewrite (proj2 (Z.ltb_lt (pp + p) _)) by lia. cbn.
    assert (run_end pb pp = b) as Hb' by done.
    destruct (IH (<[pb := pp + p]> acc)) as (m & -> & Hm & Hmc & Hmt); [|done..| |].
    + apply coalesce_grow; [done..|]. by rewrite Hb'.
    + intros b' p' e [[<- <-]|[? H]]%lookup_insert_Some He.
      * rewrite Forall_forall in Hb. specialize (Hb e He). unfold before, run_end in Hb.
        cbn in Hb. unfold run_end, PAGE_SIZE in *. lia.
      * apply (Hlt b' p' e H). by right.
    + exists m. split_and!; [done|done| |].
      * intros a. rewrite Hmc, (covers_grow acc pb pp p a Hpb), Hcov, Hb' by lia. tauto.
      * rewrite Hmt, (total_insert_over acc pb _ pp Hpb). unfold zsum. cbn. lia.
  - apply Hpush. intros b' p' H. destruct (decide (b' = pb)) as [->|Hn].
    + simplify_eq. unfold run_end, PAGE_SIZE. lia.
    + pose proof (Hmax _ _ H). assert (b' < pb) as Hltb by lia.
      pose proof (proj2 Hacc _ _ _ _ H Hpb Hltb). lia.
Qed.

Lemma coalesce_spec s :
  weak_ok (free s) →
  ∃ m, coalesce s = (Ok (), set_free m s) ∧ free_ok m ∧
    (∀ a, covers m a ↔ covers (free s) a) ∧ total m = total (free s).
Proof.
  intros Hw. destruct (entries_ok _ Hw) as [Hl Hs].
  destruct (coalesce_loop_spec (entries (free s)) ∅) as (m & Hm & Hok & Hc & Ht); [|done|done| |].
  - split; intros *; by rewrite lookup_empty.
  - intros b p e. by rewrite lookup_empty.
  - exists m. unfold coalesce. op_unfold. rewrite Hm. split_and!; [done|done| |].
    + intros a. rewrite Hc, covers_entries. split; [|by right].
      intros [(? & ? & H & _)|?]; [by rewrite lookup_empty in H|done].
    + rewrite Ht, total_empty. done.
Qed.

(** ** [allocate]: alignment and fitting *)

Lemma land_align k x :
  0 ≤ k ≤ 64 → u64 x → Z.land x (bnot 64 (2 ^ k - 1)) = x / 2 ^ k * 2 ^ k.
Proof.
  intros Hk Hx. unfold bnot.
  replace (2 ^ k - 1) with (Z.ones k) by (rewrite Z.ones_equiv; lia).
  rewrite <-Z.shiftr_div_pow2, <-Z.shiftl_mul_pow2 by lia.
  apply Z.bits_inj'. intros i Hi.
  rewrite Z.land_spec, Z.lxor_spec, Z.shiftl_spec by lia.
  destruct (decide (i < 64)) as [Hlt|Hge].
  - rewrite (Z.ones_spec_low 64) by lia. destruct (decide (i < k)).
    + rewrite Z.ones_spec_low, (Z.testbit_neg_r _ (i - k)) by lia. by rewrite andb_false_r.
    + rewrite Z.ones_spec_high, Z.shiftr_spec by lia.
      replace (i - k + k) with i by lia. by rewrite andb_true_r.
  - assert (∀ j, 64 ≤ j → Z.testbit x j = false) as Hhigh.
    { intros j Hj. destruct (decide (x = 0)) as [->|]; [apply Z.bits_0|].
      apply Z.bits_above_log2; [unfold in_u in Hx; lia|].
      apply (Z.lt_le_trans _ 64); [apply Z.log2_lt_pow2|exact Hj]; unfold in_u in Hx; lia. }
    rewrite Hhigh by lia. symmetry. cbn. destruct (decide (i < k)); [lia|].
    rewrite Z.shiftr_spec by lia. apply Hhigh. lia.
Qed.

Lemma power_of_two_spec x : is_power_of_two x = true → 0 < x ∧ x = 2 ^ Z.log2 x.
Proof. unfold is_power_of_two. zb. lia. Qed.

(** [aligned] is the least multiple of the alignment that is at least [b]. *)
Lemma align_up ap b :
  is_power_of_two ap = true → ap * 4096 < 2 ^ 64 → 0 ≤ b → b + (ap * 4096 - 1) < 2 ^ 64 →
  let aligned := Z.land (b + (ap * 4096 - 1)) (bnot 64 (ap * 4096 - 1)) in
  b ≤ aligned < b + ap * 4096 ∧ aligned mod (ap * 4096) = 0.
Proof.
  intros [Hpos Hpow]%power_of_two_spec Hap Hb Hsum aligned. subst aligned.
  pose proof (Z.log2_nonneg ap).
  assert (ap * 4096 = 2 ^ (Z.log2 ap + 12)) as Hal.
  { rewrite Z.pow_add_r, <-Hpow by lia. lia. }
  assert (Z.log2 ap + 12 < 64). { apply (Z.pow_lt_mono_r_iff 2); lia. }
  rewrite Hal. rewrite land_align by (rewrite <-?Hal; unfold in_u; lia). rewrite <-Hal.
  pose proof (Z.div_mod (b + (ap * 4096 - 1)) (ap * 4096) ltac:(lia)).
  pose proof (Z.mod_pos_bound (b + (ap * 4096 - 1)) (ap * 4096) ltac:(lia)).
  split; [lia|apply Z.mod_mul; lia].
Qed.

Lemma multiple_ge al q b a :
  0 < al → q < b + al → q mod al = 0 → a mod al = 0 → b ≤ a → q ≤ a.
Proof.
  intros Hal Hq Hqm Ham Hba.
  pose proof (Z.div_mod q al ltac:(lia)). pose proof (Z.div_mod a al ltac:(lia)).
  assert (q / al < a / al + 1) by (apply (Z.mul_lt_mono_pos_l al); lia).
  assert (al * (q / al) ≤ al * (a / al)) by (apply Z.mul_le_mono_nonneg_l; lia). lia.
Qed.

Lemma aligned_pages ap a b :
  a mod (ap * 4096) = 0 → 0 < ap → b mod 4096 = 0 → a mod 4096 = 0 ∧ (a - b) / 4096 * 4096 = a - b.
Proof.
  intros Ha Hap Hb.
  pose proof (Z.div_mod a (ap * 4096) ltac:(lia)) as Hda.
  pose proof (Z.div_mod b 4096 ltac:(lia)) as Hdb.
  assert (a = a / (ap * 4096) * ap * 4096) as -> by lia.
  replace b with (b / 4096 * 4096) at 1 by lia. split; [apply Z.mod_mul; lia|].
  rewrite <-Z.mul_sub_distr_r, Z.div_mul by lia. lia.
Qed.

Section fit.
Context (pages ap : Z) (Hpow : is_power_of_two ap = true) (Hap : ap * 4096 < 2 ^ 64)
  (Hpages : 0 < pages).

Lemma fit_Some b avail q :
  run_ok b avail → fit pages (ap * PAGE_SIZE) (b, avail) = Some q →
  ∃ aligned prefix, q = (b, avail, aligned, prefix) ∧ b ≤ aligned ∧
    aligned mod (ap * PAGE_SIZE) = 0 ∧ aligned mod PAGE_SIZE = 0 ∧
    0 ≤ prefix ∧ prefix * PAGE_SIZE = aligned - b ∧ prefix + pages ≤ avail.
Proof using Hpow Hap Hpages.
  unfold run_ok, run_end, PAGE_SIZE. intros (Hav & Hb & Hbm & Hend) Hfit.
  unfold fit, PAGE_SIZE in Hfit.
  destruct (checked_add 64 b (ap * 4096 - 1)) as [bumped|] eqn:Hbump; [|done].
  apply checked_add_Some in Hbump as [-> Hsum].
  destruct (align_up ap b Hpow Hap Hb Hsum) as [Hal Hmod].
  cbn [mbind option_bind] in Hfit.
  set (aligned := Z.land _ _) in *. clearbody aligned.
  destruct (checked_sub aligned b) as [skip|] eqn:Hskip; [|done].
  apply checked_sub_Some in Hskip as [-> _]. cbn [mbind option_bind] in Hfit.
  pose proof (power_of_two_spec _ Hpow) as [Hap0 _].
  destruct (aligned_pages ap aligned b Hmod Hap0 Hbm) as [Hm4 Hdiv].
  destruct (checked_add 64 ((aligned - b) / 4096) pages) as [needed|] eqn:Hneed; [|done].
  apply checked_add_Some in Hneed as [-> _]. cbn [mbind option_bind] in Hfit.
  destruct (Z.leb_spec ((aligned - b) / 4096 + pages) avail); [|done]. simplify_eq.
  exists aligned, ((aligned - b) / 4096). split_and!; try done; lia.
Qed.

Lemma fit_None b avail a :
  run_ok b avail → fit pages (ap * PAGE_SIZE) (b, avail) = None →
  b ≤ a → a mod (ap * PAGE_SIZE) = 0 → run_end a pages ≤ run_end b avail → False.
Proof using Hpow Hap Hpages.
  unfold run_ok, run_end, PAGE_SIZE. intros (Hav & Hb & Hbm & Hend) Hfit Hba Ham Hfits.
  pose proof (power_of_two_spec _ Hpow) as [Hap0 _].
  unfold fit, PAGE_SIZE in Hfit.
  destruct (checked_add 64 b (ap * 4096 - 1)) as [bumped|] eqn:Hbump.
  - apply checked_add_Some in Hbump as [-> Hsum].
    destruct (align_up ap b Hpow Hap Hb Hsum) as [Hal Hmod].
    cbn [mbind option_bind] in Hfit.
    set (aligned := Z.land _ _) in *. clearbody aligned.
    assert (aligned ≤ a) by (apply (multiple_ge (ap * 4096) _ b); lia).
    destruct (aligned_pages ap aligned b Hmod Hap0 Hbm) as [Hm4 Hdiv].
    rewrite (proj2 (checked_sub_Some aligned b (aligned - b))) in Hfit by (split; [done|lia]).
    cbn [mbind option_bind] in Hfit.
    rewrite (proj2 (checked_add_Some 64 ((aligned - b) / 4096) pages ((aligned - b) / 4096 + pages))) in Hfit
      by (split; [done|lia]).
    cbn [mbind option_bind] in Hfit.
    destruct (Z.leb_spec ((aligned - b) / 4096 + pages) avail); [done|lia].
  - apply checked_add_None in Hbump.
    pose proof (power_of_two_spec _ Hpow) as [_ Hlog].
    pose proof (Z.log2_nonneg ap).
    assert (ap * 4096 = 2 ^ (Z.log2 ap + 12)) as Hal by (rewrite Z.pow_add_r, <-Hlog by lia; lia).
    assert (Z.log2 ap + 12 < 64) by (apply (Z.pow_lt_mono_r_iff 2); lia).
    assert (2 ^ 64 = 2 ^ (64 - (Z.log2 ap + 12)) * (ap * 4096)) as H64.
    { rewrite Hal, <-Z.pow_add_r by lia. f_equal. lia. }
    assert (2 ^ 64 ≤ a); [|lia].
    apply (multiple_ge (ap * 4096) _ b); [lia|lia| |done|done].
    rewrite H64. apply Z.mod_mul. lia.
Qed.
End fit.

(** ** Carving an allocation out of a free run *)

Definition carve (m : gmap Z Z) (b aligned prefix pages suffix : Z) : gmap Z Z :=
  let m1 := delete b m in
  let m2 := if prefix =? 0 then m1 else <[b := prefix]> m1 in
  if suffix =? 0 then m2 else <[run_end aligned pages := suffix]> m2.

Section carve.
Context (m : gmap Z Z) (b avail aligned prefix pages suffix : Z).
Context (Hm : free_ok m) (Hb : m !! b = Some avail) (Hpages : 0 < pages)
  (Hprefix : 0 ≤ prefix) (Hsuffix : 0 ≤ suffix) (Hal : prefix * PAGE_SIZE = aligned - b)
  (Havail : prefix + pages + suffix = avail).

Lemma carve_end_fresh : suffix ≠ 0 → m !! run_end aligned pages = None.
Proof using All.
  intros Hs. apply eq_None_not_Some. intros [p Hp]. destruct Hm as [Hok Hsep].
  pose proof (Hok _ _ Hb) as Hb1. pose proof (Hsep _ _ _ _ Hb Hp).
  unfold run_ok, run_end, PAGE_SIZE in *. lia.
Qed.

Lemma carve_lookup x p :
  carve m b aligned prefix pages suffix !! x = Some p ↔
  (x = b ∧ p = prefix ∧ prefix ≠ 0) ∨
  (x = run_end aligned pages ∧ p = suffix ∧ suffix ≠ 0) ∨
  (x ≠ b ∧ m !! x = Some p).
Proof using All.
  pose proof carve_end_fresh as Hfresh.
  assert (run_end aligned pages ≠ b) by (unfold run_end, PAGE_SIZE in *; lia).
  unfold carve. cbv zeta. destruct (Z.eqb_spec suffix 0), (Z.eqb_spec prefix 0);
    rewrite ?lookup_insert_Some, ?lookup_delete_Some; split;
    [naive_solver..|]; intros [?|[(-> & -> & ?)|[? ?]]]; naive_solver congruence.
Qed.

Lemma carve_free_ok : aligned mod PAGE_SIZE = 0 → free_ok (carve m b aligned prefix pages suffix).
Proof using All.
  intros Hmod. destruct Hm as [Hok Hsep]. pose proof (Hok _ _ Hb) as Hbok.
  assert (∀ x p, m !! x = Some p → x ≠ b → run_ok x p ∧ (run_end x p < b ∨ run_end b avail < x))
    as Hother.
  { intros x p Hx Hne. split; [by apply Hok|].
    destruct (decide (x < b)); [left; eauto|right; apply (Hsep _ _ _ _ Hb Hx); lia]. }
  assert (run_end aligned pages mod PAGE_SIZE = 0).
  { unfold run_end. rewrite Z.mod_add by (unfold PAGE_SIZE; lia). done. }
  split.
  - intros x p. rewrite carve_lookup. intros [(-> & -> & ?)|[(-> & -> & ?)|[? ?]]]; [..|by apply Hok];
      unfold run_ok, run_end, PAGE_SIZE in *; lia.
  - intros x p x' p'. rewrite !carve_lookup.
    intros [(-> & -> & ?)|[(-> & -> & ?)|[Hx1 Hx]]] [(-> & -> & ?)|[(-> & -> & ?)|[Hx2 Hx']]] Hlt;
      try (destruct (Hother _ _ Hx Hx1)); try (destruct (Hother _ _ Hx' Hx2));
      try (by eapply Hsep); unfold run_ok, run_end, PAGE_SIZE in *; lia.
Qed.

Lemma carve_covers a :
  covers (carve m b aligned prefix pages suffix) a ↔
  covers m a ∧ ¬ (aligned ≤ a < run_end aligned pages).
Proof using All.
  destruct Hm as [Hok Hsep]. pose proof (Hok _ _ Hb) as Hbok.
  unfold covers. setoid_rewrite carve_lookup. split.
  - intros (x & p & [(-> & -> & ?)|[(-> & -> & ?)|[Hne Hx]]] & Ha).
    1,2: split; [exists b, avail|]; unfold run_ok, run_end, PAGE_SIZE in *; (split; [done|lia]) || lia.
    split; [by exists x, p|]. pose proof (Hok _ _ Hx).
    destruct (decide (x < b)) as [Hlt|Hge];
      [pose proof (Hsep _ _ _ _ Hx Hb Hlt)|pose proof (Hsep _ _ _ _ Hb Hx ltac:(lia))];
      unfold run_ok, run_end, PAGE_SIZE in *; lia.
  - intros [(x & p & Hx & Ha) Hout]. destruct (decide (x = b)) as [->|Hne]; [|by eauto 10].
    simplify_eq. unfold run_end, PAGE_SIZE in *.
    destruct (decide (a < aligned)); [exists b, prefix|exists (aligned + pages * 4096), suffix];
      (split; [|lia]); [left|right; left]; split_and!; try done; lia.
Qed.

Lemma carve_total : total (carve m b aligned prefix pages suffix) = total m - pages.
Proof using All.
  pose proof carve_end_fresh as Hfresh.
  assert (run_end aligned pages ≠ b) by (unfold run_end, PAGE_SIZE in *; lia).
  unfold carve. cbv zeta.
  assert (total (if prefix =? 0 then delete b m else <[b := prefix]> (delete b m))
          = total m - avail + prefix) as Hp.
  { destruct (Z.eqb_spec prefix 0) as [->|].
    - rewrite (total_delete m b avail Hb). lia.
    - rewrite total_insert_fresh, (total_delete m b avail Hb) by apply lookup_delete_eq. lia. }
  destruct (Z.eqb_spec suffix 0) as [->|]; [lia|].
  rewrite total_insert_fresh; [lia|].
  destruct (prefix =? 0); rewrite ?lookup_insert_ne, lookup_delete_ne by done; auto.
Qed.
End carve.

(** ** The allocated map as a set of addresses *)

Lemma alloc_insert m r :
  alloc_ok m → run_ok (run_base r) (run_pages r) → u64 (run_generation r) →
  (∀ a, run_base r ≤ a < run_end (run_base r) (run_pages r) → ¬ alloc_covers m a) →
  m !! run_base r = None ∧ alloc_ok (<[run_base r := r]> m) ∧
  ∀ a, alloc_covers (<[run_base r := r]> m) a ↔
    run_base r ≤ a < run_end (run_base r) (run_pages r) ∨ alloc_covers m a.
Proof.
  intros [Hok Hsep] Hrun Hg Hdis.
  assert (∀ b' r', m !! b' = Some r' →
    run_end (run_base r) (run_pages r) ≤ b' ∨ run_end b' (run_pages r') ≤ run_base r) as Hd.
  { intros b' r' H. destruct (Hok _ _ H) as (_ & Hr' & _).
    destruct (decide (run_end (run_base r) (run_pages r) ≤ b')); [by left|].
    destruct (decide (run_end b' (run_pages r') ≤ run_base r)); [by right|]. exfalso.
    apply (Hdis (Z.max (run_base r) b')); [|exists b', r'; split; [done|]];
      unfold run_ok, run_end, PAGE_SIZE in *; lia. }
  assert (m !! run_base r = None) as Hn.
  { apply eq_None_not_Some. intros [r' H]. specialize (Hd _ _ H).
    destruct (Hok _ _ H) as (_ & Hr' & _). unfold run_ok, run_end, PAGE_SIZE in *. lia. }
  split_and!; [done|split|].
  - intros b r' [[<- <-]|[? ?]]%lookup_insert_Some; [done|by apply Hok].
  - intros b1 r1 b2 r2 [[<- <-]|[? H1]]%lookup_insert_Some [[<- <-]|[? H2]]%lookup_insert_Some Hlt;
      [lia| | |by eapply Hsep];
      [specialize (Hd _ _ H2); destruct (Hok _ _ H2) as (_ & Hr' & _)
      |specialize (Hd _ _ H1); destruct (Hok _ _ H1) as (_ & Hr' & _)];
      unfold run_ok, run_end, PAGE_SIZE in *; lia.
  - intros a. unfold alloc_covers. split.
    + intros (b & r' & [[<- <-]|[? ?]]%lookup_insert_Some & Ha); [by left|right; eauto].
    + intros [Ha|(b & r' & H & Ha)]; [exists (run_base r), r|exists b, r'].
      * by rewrite lookup_insert_eq.
      * by rewrite lookup_insert_ne by congruence.
Qed.

Lemma alloc_delete m b r :
  alloc_ok m → m !! b = Some r →
  alloc_ok (delete b m) ∧
  ∀ a, alloc_covers (delete b m) a ↔
    alloc_covers m a ∧ ¬ (b ≤ a < run_end b (run_pages r)).
Proof.
  intros [Hok Hsep] Hb. split; [split|].
  - intros b' r' [_ H]%lookup_delete_Some. by apply Hok.
  - intros b1 r1 b2 r2 [_ H1]%lookup_delete_Some [_ H2]%lookup_delete_Some. by eapply Hsep.
  - intros a. unfold alloc_covers. split.
    + intros (b' & r' & [Hne H]%lookup_delete_Some & Ha). split; [eauto|].
      destruct (decide (b < b')) as [Hlt|]; [pose proof (Hsep _ _ _ _ Hb H Hlt)
        |pose proof (Hsep _ _ _ _ H Hb ltac:(lia))]; lia.
    + intros [(b' & r' & H & Ha) Hout]. exists b', r'. rewrite lookup_delete_Some.
      split; [|done]. split; [|done]. intros ->. simplify_eq. done.
Qed.

Lemma alloc_update m b r r' :
  alloc_ok m → m !! b = Some r → run_base r' = b → run_pages r' = run_pages r →
  u64 (run_generation r') →
  alloc_ok (<[b := r']> m) ∧ ∀ a, alloc_covers (<[b := r']> m) a ↔ alloc_covers m a.
Proof.
  intros Hm Hb <- Hp Hg. destruct (alloc_delete m _ r Hm Hb) as [Hdel Hc].
  destruct (proj1 Hm _ _ Hb) as (_ & Hrun & _). rewrite <-Hp in Hrun, Hc.
  rewrite <-insert_delete_eq.
  destruct (alloc_insert (delete (run_base r') m) r' Hdel Hrun Hg) as (_ & Hok & Hc').
  - intros a Ha. rewrite Hc. tauto.
  - split; [done|]. intros a. rewrite Hc', Hc.
    split; [|destruct (decide (run_base r' ≤ a < run_end (run_base r') (run_pages r'))); tauto].
    intros [Ha|?]; [|tauto]. exists (run_base r'), r. by rewrite <-Hp.
Qed.

End FrameInv.
