(* ===== verification/FrameProps.v ===== *)
(** * Frame allocator: the properties

    Every call keeps the invariant and the set of managed addresses, allocation
    succeeds exactly when an aligned contiguous free range exists, and the page
    accounting is exact; then the two behaviours of the generations. *)
From S2P Require Import Prelude Frames FrameInv.
Import FrameAllocator FrameInv.

Module FrameProps.

(** What each call guarantees: no panic, the invariant afterwards, and either
    the same managed addresses (success) or the same state (error); only an
    exhausted generation counter may do less. *)
Definition good {A} (s : Allocator) (out : res FrameError A * Allocator) : Prop :=
  match out.1 with
  | Ok _ => inv out.2 ∧ ∀ a, owned out.2 a ↔ owned s a
  | Err e => inv out.2 ∧ (e = GenerationOverflow ∨ out.2 = s)
  | Panic => False
  end.

Ltac alloc_norm :=
  unfold set_free, set_allocated, set_generations, set_loans in *;
  cbn [free allocated generations loans] in *.

(** ** [validate] *)

Lemma frame_validate_Ok s run live :
  validate s run = Ok live ↔
  allocated s !! run_base run = Some live ∧
  run_generation live = run_generation run ∧ run_pages live = run_pages run.
Proof.
  unfold validate. op_unfold. destruct (allocated s !! run_base run) as [r|]; [|naive_solver].
  zcase; split; intros; destruct_and?; simplify_eq; try done; auto.
Qed.

Lemma frame_validate_cases s run :
  (∃ e, validate s run = Err e ∧ e ≠ GenerationOverflow) ∨ ∃ live, validate s run = Ok live.
Proof. unfold validate. op_cases; first [right; by eexists|left; by eexists]. Qed.

Lemma validated_run s run live :
  inv s → validate s run = Ok live →
  allocated s !! run_base run = Some live ∧ run_base live = run_base run ∧
  run_pages live = run_pages run ∧ run_generation live = run_generation run ∧
  run_ok (run_base run) (run_pages run) ∧ u64 (run_generation run).
Proof.
  intros Hinv (Hl & Hg & Hp)%frame_validate_Ok.
  destruct (proj1 (inv_alloc s Hinv) _ _ Hl) as (? & ? & ?).
  rewrite <-Hp, <-Hg. auto 10.
Qed.

(** ** Rebuilding the invariant *)

(** Replacing a record in place: [mark_zeroed], [lend] and [reclaim]. *)
Lemma inv_replace {A} s b r r' gens' loans' (x : A) :
  inv s → allocated s !! b = Some r → run_base r' = b → run_pages r' = run_pages r →
  u64 (run_generation r') → (∀ b g, gens' !! b = Some g → u64 g) →
  (∀ b' o, loans' !! b' = Some o → b' = b ∨ is_Some (loans s !! b')) →
  good s (Ok x, MkAllocator (free s) (<[b := r']> (allocated s)) gens' loans').
Proof.
  intros [Hf Ha Hc Hg Hl] Hb Hbase Hp Hgen Hgens Hloans.
  destruct (alloc_update _ _ _ r' Ha Hb Hbase Hp Hgen) as [Hok Hcov].
  split; [split; cbn; auto|].
  - intros a. rewrite Hcov. auto.
  - intros b' o [->|[o' Ho]]%Hloans; [by rewrite lookup_insert_eq; eauto|].
    rewrite lookup_insert_is_Some'. right. by eapply Hl.
  - intros a. unfold owned. cbn. by rewrite Hcov.
Qed.

Lemma gens_insert (gens : gmap Z Z) b g :
  (∀ b g, gens !! b = Some g → u64 g) → u64 g →
  ∀ b' g', <[b := g]> gens !! b' = Some g' → u64 g'.
Proof. intros H Hg b' g' [[_ <-]|[_ ?]]%lookup_insert_Some; eauto. Qed.

#[local] Hint Resolve gens_insert : bulla.

Lemma good_Err {A} s e : inv s → good s (Err e : res FrameError A, s).
Proof. intros H. split; [done|by right]. Qed.

(** ** The calls *)

Lemma mark_zeroed_good s run : inv s → good s (mark_zeroed run s).
Proof.
  intros Hinv. unfold mark_zeroed. op_unfold.
  destruct (frame_validate_cases s run) as [(e & -> & _)|[live Hv]]; [by apply good_Err|].
  rewrite Hv. destruct (validated_run _ _ _ Hinv Hv) as (Hl & Hb & Hp & Hg & _ & Hu).
  alloc_norm. eapply inv_replace; cbn; eauto; [by rewrite Hg|apply (inv_gens s Hinv)].
Qed.

Lemma lend_good s run borrower : inv s → good s (lend run borrower s).
Proof.
  intros Hinv. unfold lend. op_unfold.
  destruct (frame_validate_cases s run) as [(e & -> & _)|[live Hv]]; [by apply good_Err|].
  rewrite Hv. destruct (validated_run _ _ _ Hinv Hv) as (Hl & Hb & Hp & Hg & _ & Hu).
  case_bool_decide; [by apply good_Err|].
  destruct (Z.ltb_spec (run_generation live + 1) (2 ^ 64)); [|by apply good_Err].
  assert (u64 (run_generation live + 1)) by ulia.
  alloc_norm. eapply inv_replace; cbn; eauto; [apply gens_insert; [apply (inv_gens s Hinv)|done]|].
  intros b' o [[-> _]|[_ ?]]%lookup_insert_Some; eauto.
Qed.

Lemma reclaim_good s run borrower : inv s → good s (reclaim run borrower s).
Proof.
  intros Hinv. unfold reclaim. op_unfold.
  destruct (frame_validate_cases s run) as [(e & -> & _)|[live Hv]]; [by apply good_Err|].
  rewrite Hv. destruct (validated_run _ _ _ Hinv Hv) as (Hl & Hb & Hp & Hg & _ & Hu).
  destruct (loans s !! run_base run) as [o|] eqn:Ho; [|by apply good_Err].
  destruct (o =? borrower); cbn [negb]; [|by apply good_Err].
  destruct (Z.ltb_spec (run_generation live + 1) (2 ^ 64)); [|by apply good_Err].
  assert (u64 (run_generation live + 1)) by ulia.
  alloc_norm. eapply inv_replace; cbn; eauto; [apply gens_insert; [apply (inv_gens s Hinv)|done]|].
  intros b' o' [_ ?]%lookup_delete_Some. eauto.
Qed.

(** [coalesce] after an insert of a run disjoint from everything managed. *)
Lemma insert_coalesce s s0 b p :
  weak_ok (free s0) → run_ok b p → alloc_ok (allocated s0) →
  (∀ a, covers (free s0) a → ¬ alloc_covers (allocated s0) a) →
  (∀ a, b ≤ a < run_end b p → ¬ covers (free s0) a ∧ ¬ alloc_covers (allocated s0) a) →
  (∀ b g, generations s0 !! b = Some g → u64 g) →
  (∀ b o, loans s0 !! b = Some o → is_Some (allocated s0 !! b)) →
  s = set_free (<[b := p]> (free s0)) s0 →
  ∃ m, coalesce s = (Ok (), set_free m s) ∧ inv (set_free m s) ∧
    total m = total (free s0) + p ∧
    ∀ a, covers m a ↔ b ≤ a < run_end b p ∨ covers (free s0) a.
Proof.
  intros Hw Hrun Ha Hc Hdis Hg Hl ->.
  destruct (weak_insert (free s0) b p Hw Hrun) as [Hn Hw'].
  { intros b' p' H. pose proof (proj1 Hw _ _ H).
    destruct (decide (run_end b p ≤ b')); [by left|].
    destruct (decide (run_end b' p' ≤ b)); [by right|]. exfalso.
    destruct (Hdis (Z.max b b')) as [Hnc _]; [|apply Hnc; exists b', p'; split; [done|]];
      unfold run_ok, run_end, PAGE_SIZE in *; lia. }
  destruct (coalesce_spec (set_free (<[b := p]> (free s0)) s0)) as (m & Hm & Hok & Hcov & Ht);
    [done|]. cbn in Hcov, Ht.
  assert (∀ a, covers m a ↔ b ≤ a < run_end b p ∨ covers (free s0) a) as Hcm.
  { intros a. rewrite Hcov. by apply covers_insert. }
  exists m. split_and!; [done| | |done].
  - split; cbn; auto. intros a [?|?]%Hcm; [by apply Hdis|by apply Hc].
  - rewrite Ht, (total_insert_fresh _ _ _ Hn). lia.
Qed.

Lemma validate_run_spec base pages :
  u64 base → u64 pages →
  (validate_run base pages = Ok () ∧ run_ok base pages) ∨
  (∃ e, validate_run base pages = Err e ∧ e ≠ GenerationOverflow ∧ ¬ run_ok base pages).
Proof.
  intros Hb Hp. unfold validate_run, run_ok, run_end. op_unfold.
  destruct (Z.eqb_spec pages 0) as [->|]; [right; eexists; split_and!; [done..|lia]|].
  destruct (Z.eqb_spec (base mod PAGE_SIZE) 0); cbn; [|right; eexists; split_and!; [done..|lia]].
  destruct (Z.ltb_spec (pages * PAGE_SIZE) (2 ^ 64)); cbn;
    [|right; eexists; split_and!; [done..|ulia]].
  destruct (Z.ltb_spec (base + pages * PAGE_SIZE) (2 ^ 64));
    [left|right; eexists; split_and!; [done..|lia]].
  split_and!; [done|ulia..].
Qed.

(** The overlap test of [add_region] is exact on well-formed free runs. *)
Lemma region_overlap_spec m base pages :
  free_ok m → run_ok base pages →
  existsb (region_overlaps base (base + pages * PAGE_SIZE)) (entries m) = false ↔
  ∀ a, base ≤ a < run_end base pages → ¬ covers m a.
Proof.
  intros Hm Hrun. rewrite existsb_entries.
  unfold region_overlaps, saturating_add, saturating_mul, umax. split.
  - intros Hno a Ha (b & p & Hb & Hab). specialize (Hno _ _ Hb).
    pose proof (proj1 Hm _ _ Hb). unfold run_ok, run_end, PAGE_SIZE in *. lia.
  - intros Hno b p Hb. pose proof (proj1 Hm _ _ Hb). apply not_true_iff_false. intros Ht.
    apply (Hno (Z.max base b)); [|exists b, p; split; [done|]];
      unfold run_ok, run_end, PAGE_SIZE in *; lia.
Qed.

(** [add_region]: the exact outcome under the client obligation. *)
Lemma add_region_spec s base pages :
  inv s → call_ok (AddRegion base pages) s →
  (∃ e, add_region base pages s = (Err e, s) ∧ e ≠ GenerationOverflow) ∨
  (∃ s', add_region base pages s = (Ok (), s') ∧ inv s' ∧
    allocated s' = allocated s ∧ total (free s') = total (free s) + pages ∧
    ∀ a, covers (free s') a ↔ base ≤ a < run_end base pages ∨ covers (free s) a).
Proof.
  intros Hinv (Hb & Hp & Hdis). unfold add_region.
  destruct (validate_run_spec base pages Hb Hp) as [[Hv Hrun]|(e & Hv & He & _)].
  2: { left. exists e. op_unfold. by rewrite Hv. }
  assert (pages * PAGE_SIZE < 2 ^ 64 ∧ base + pages * PAGE_SIZE < 2 ^ 64) as [Hm Ha].
  { unfold run_ok, run_end, PAGE_SIZE in *. lia. }
  op_unfold. rewrite Hv, (proj2 (Z.ltb_lt _ _) Hm), (proj2 (Z.ltb_lt _ _) Ha). cbv beta iota.
  destruct (existsb _ _) eqn:Hover; [by left; eexists|right].
  pose proof (proj1 (region_overlap_spec _ _ _ (inv_free s Hinv) Hrun) Hover) as Hfree.
  destruct (insert_coalesce (set_free (<[base := pages]> (free s)) s) s base pages)
    as (m & Hc & Hi & Ht & Hcov).
  - by apply free_ok_weak, Hinv.
  - done.
  - apply Hinv.
  - apply Hinv.
  - intros a Haa. split; [by apply Hfree|by apply Hdis].
  - apply Hinv.
  - apply Hinv.
  - done.
  - exists (set_free m (set_free (<[base := pages]> (free s)) s)).
    rewrite Hc. split_and!; done.
Qed.

(** Dropping a record that is not lent. *)
Lemma inv_drop s b r :
  inv s → allocated s !! b = Some r → loans s !! b = None →
  inv (set_allocated (delete b (allocated s)) s) ∧
  ∀ a, alloc_covers (delete b (allocated s)) a ↔
    alloc_covers (allocated s) a ∧ ¬ (b ≤ a < run_end b (run_pages r)).
Proof.
  intros [Hf Ha Hc Hg Hl] Hb Hn. destruct (alloc_delete _ _ _ Ha Hb) as [Hok Hcov].
  split; [|done]. split; cbn; auto.
  - intros a Hfree [Hal _]%Hcov. by eapply Hc.
  - intros b' o Ho. rewrite lookup_delete_is_Some. split; [congruence|]. by eapply Hl.
Qed.

(** [release]: the three outcomes. *)
Lemma release_spec s run :
  inv s →
  (∃ e, release run s = (Err e, s) ∧ e ≠ GenerationOverflow) ∨
  (run_generation run = 2 ^ 64 - 1 ∧ validate s run ≠ Err UnknownRun ∧
   release run s =
     (Err GenerationOverflow, set_allocated (delete (run_base run) (allocated s)) s) ∧
   inv (set_allocated (delete (run_base run) (allocated s)) s)) ∨
  (∃ s' live, release run s = (Ok (), s') ∧ inv s' ∧
    allocated s !! run_base run = Some live ∧ run_pages live = run_pages run ∧
    run_generation live = run_generation run ∧
    allocated s' = delete (run_base run) (allocated s) ∧
    generations s' = <[run_base run := run_generation run + 1]> (generations s) ∧
    total (free s') = total (free s) + run_pages run ∧
    ∀ a, covers (free s') a ↔
      run_base run ≤ a < run_end (run_base run) (run_pages run) ∨ covers (free s) a).
Proof.
  intros Hinv. unfold release. op_unfold.
  destruct (frame_validate_cases s run) as [(e & -> & ?)|[live Hv]]; [left; eauto|].
  rewrite Hv. destruct (validated_run _ _ _ Hinv Hv) as (Hl & Hb & Hp & Hg & Hrun & Hu).
  case_bool_decide as Hloan; [by left; eexists|right].
  apply eq_None_not_Some in Hloan.
  destruct (inv_drop _ _ _ Hinv Hl Hloan) as [Hdrop Hcov]. rewrite Hp in Hcov.
  destruct (Z.ltb_spec (run_generation run + 1) (2 ^ 64)) as [Hlt|Hge]; [right|left].
  2: { split_and!; [ulia|done|done|done]. }
  pose (s1 := set_allocated (delete (run_base run) (allocated s)) s).
  pose (s0 := set_generations (<[run_base run := run_generation run + 1]> (generations s1)) s1).
  destruct (insert_coalesce (set_free (<[run_base run := run_pages run]> (free s0)) s0) s0
    (run_base run) (run_pages run)) as (m & Hm & Hi & Ht & Hc).
  - by apply free_ok_weak, Hinv.
  - done.
  - apply Hdrop.
  - apply Hdrop.
  - intros a Ha. cbn. rewrite Hcov. split; [|tauto]. intros Hfree.
    apply (inv_cross s Hinv a Hfree). exists (run_base run), live. by rewrite Hp.
  - cbn. apply gens_insert; [apply Hinv|ulia].
  - apply Hdrop.
  - done.
  - fold s1. fold s0. rewrite Hm.
    exists (set_free m (set_free (<[run_base run := run_pages run]> (free s0)) s0)), live.
    split_and!; try done.
Qed.

Lemma release_good s run : inv s → good s (release run s).
Proof.
  intros Hinv.
  destruct (release_spec s run Hinv) as [(e & -> & _)|[(_ & _ & -> & Hi)|
    (s' & live & -> & Hi & Hl & Hp & _ & Ha & _ & _ & Hc)]].
  - by apply good_Err.
  - split; [done|by left].
  - split; [done|]. intros a. unfold owned. cbn. rewrite Hc, Ha.
    destruct (alloc_delete _ _ _ (inv_alloc s Hinv) Hl) as [_ Hcov]. rewrite Hp in Hcov.
    rewrite Hcov. split; [|destruct (decide (run_base run ≤ a < run_end (run_base run) (run_pages run))); tauto].
    intros [[?|?]|[? _]]; [right; exists (run_base run), live; by rewrite Hp|by left|by right].
Qed.

(** [allocate]: on success the state is the carved one. *)
Lemma allocate_spec s pages ap :
  inv s → u64 pages → u64 ap →
  (∃ e, allocate pages ap s = (Err e, s) ∧ e ≠ GenerationOverflow ∧
    (e = OutOfMemory → ∀ b avail a, free s !! b = Some avail → b ≤ a →
      a mod (ap * PAGE_SIZE) = 0 → run_end b avail < run_end a pages)) ∨
  (∃ b avail aligned prefix suffix,
    let run := MkRun aligned pages (default 0 (generations s !! aligned)) false in
    free s !! b = Some avail ∧ 0 < pages ∧ aligned mod (ap * PAGE_SIZE) = 0 ∧
    aligned mod PAGE_SIZE = 0 ∧ 0 ≤ prefix ∧ 0 ≤ suffix ∧
    prefix * PAGE_SIZE = aligned - b ∧ prefix + pages + suffix = avail ∧
    allocate pages ap s =
      (Ok run, MkAllocator (carve (free s) b aligned prefix pages suffix)
        (<[aligned := run]> (allocated s)) (generations s) (loans s))).
Proof.
  intros Hinv Hpg Hap. unfold allocate. op_unfold.
  destruct (Z.eqb_spec pages 0); cbn [orb]; [left; eexists; split_and!; done|].
  destruct (Z.eqb_spec ap 0); cbn [orb]; [left; eexists; split_and!; done|].
  destruct (is_power_of_two ap) eqn:Hpow; cbn [negb]; [|left; eexists; split_and!; done].
  destruct (Z.ltb_spec (ap * PAGE_SIZE) (2 ^ 64)) as [Hal|]; [|left; eexists; split_and!; done].
  assert (0 < pages) as Hpos by ulia.
  destruct (find_map (fit pages (ap * PAGE_SIZE)) (entries (free s))) as [q|] eqn:Hfind.
  2: { left. eexists. split_and!; [done|done|]. intros _ b avail a Hb Hba Hmod.
       rewrite find_map_None in Hfind. specialize (Hfind (b, avail)).
       rewrite elem_of_entries in Hfind. pose proof (proj1 (inv_free s Hinv) _ _ Hb).
       destruct (decide (run_end b avail < run_end a pages)); [done|exfalso].
       eapply (fit_None pages ap); eauto; lia. }
  right. apply find_map_Some in Hfind as ([b avail] & Hb%elem_of_entries & Hfit).
  pose proof (proj1 (inv_free s Hinv) _ _ Hb) as Hrun.
  destruct (fit_Some pages ap Hpow Hal Hpos _ _ _ Hrun Hfit)
    as (aligned & prefix & -> & Hba & Hmod & Hm4 & Hp0 & Hpre & Hfits).
  exists b, avail, aligned, prefix, (avail - prefix - pages).
  assert (pages * PAGE_SIZE < 2 ^ 64 ∧ aligned + pages * PAGE_SIZE < 2 ^ 64) as [Hmul Hadd].
  { unfold run_ok, run_end, PAGE_SIZE in *. lia. }
  split_and!; try done; try lia. unfold carve.
  destruct (Z.eqb_spec prefix 0); cbn [negb];
    rewrite (proj2 (Z.leb_le prefix avail)), (proj2 (Z.leb_le pages (avail - prefix))) by lia;
    destruct (Z.eqb_spec (avail - prefix - pages) 0); cbn [negb];
    rewrite ?(proj2 (Z.ltb_lt _ _) Hmul), ?(proj2 (Z.ltb_lt _ _) Hadd); done.
Qed.

Lemma default_gen_u64 s b : inv s → u64 (default 0 (generations s !! b)).
Proof.
  intros Hinv. destruct (generations s !! b) as [g|] eqn:H; cbn; [by eapply inv_gens|ulia].
Qed.

(** The carved state satisfies the invariant and manages the same addresses. *)
Lemma carve_good s b avail aligned prefix suffix run :
  inv s → free s !! b = Some avail → 0 < run_pages run → run_base run = aligned →
  aligned mod PAGE_SIZE = 0 → 0 ≤ prefix → 0 ≤ suffix →
  prefix * PAGE_SIZE = aligned - b → prefix + run_pages run + suffix = avail →
  u64 (run_generation run) →
  good s (Ok run, MkAllocator (carve (free s) b aligned prefix (run_pages run) suffix)
    (<[aligned := run]> (allocated s)) (generations s) (loans s)).
Proof.
  intros Hinv Hb Hpos <- Hm4 Hp0 Hs0 Hpre Hav Hg.
  pose proof (proj1 (inv_free s Hinv) _ _ Hb) as Hbok.
  pose proof (carve_covers (free s) b avail _ prefix _ suffix (inv_free s Hinv) Hb Hpos
    Hp0 Hs0 Hpre Hav) as Hcov.
  assert (run_ok (run_base run) (run_pages run)) as Hrun.
  { unfold run_ok, run_end, PAGE_SIZE in *. lia. }
  assert (∀ a, run_base run ≤ a < run_end (run_base run) (run_pages run) → covers (free s) a)
    as Hin.
  { intros a Ha. exists b, avail. split; [done|]. unfold run_end, PAGE_SIZE in *. lia. }
  destruct (alloc_insert (allocated s) run (inv_alloc s Hinv) Hrun Hg) as (_ & Hok & Hac).
  { intros a Ha. by apply (inv_cross s Hinv), Hin. }
  split; [split; cbn|].
  - by eapply carve_free_ok; eauto using inv_free.
  - done.
  - intros a [Hf Hout]%Hcov [?|?]%Hac; [done|]. by eapply inv_cross.
  - apply Hinv.
  - intros b' o Ho. rewrite lookup_insert_is_Some'. right. by eapply inv_loans.
  - intros a. unfold owned. cbn. rewrite Hcov, Hac. specialize (Hin a).
    destruct (decide (run_base run ≤ a < run_end (run_base run) (run_pages run))); tauto.
Qed.

Lemma allocate_good s pages ap : inv s → u64 pages → u64 ap → good s (allocate pages ap s).
Proof.
  intros Hinv Hp Hap. destruct (allocate_spec s pages ap Hinv Hp Hap)
    as [(e & -> & _)|(b & avail & aligned & prefix & suffix & Hb & Hpos & _ & Hm4 & Hp0 & Hs0
        & Hpre & Hav & ->)]; [by apply good_Err|].
  apply (carve_good s b avail aligned prefix suffix
    (MkRun aligned pages (default 0 (generations s !! aligned)) false)); try done.
  by apply default_gen_u64.
Qed.

(** [split] and [join] on well-formed runs. *)
Lemma split_cases run n :
  run_ok (run_base run) (run_pages run) → 0 ≤ n →
  (split run n = Err Empty ∧ (n = 0 ∨ run_pages run ≤ n)) ∨
  (0 < n < run_pages run ∧ split run n =
    Ok (MkRun (run_base run) n (run_generation run) (run_zeroed run),
        MkRun (run_end (run_base run) n) (run_pages run - n)
          (run_generation run) (run_zeroed run))).
Proof.
  intros Hrun Hn. unfold split. op_unfold.
  destruct (Z.eqb_spec n 0); cbn [orb]; [left; auto|].
  destruct (Z.leb_spec (run_pages run) n); [left; auto|right].
  unfold run_ok, run_end, PAGE_SIZE in *.
  rewrite (proj2 (Z.ltb_lt (n * 4096) _)) by lia. cbn.
  rewrite (proj2 (Z.ltb_lt (run_base run + n * 4096) _)) by lia.
  rewrite (proj2 (Z.leb_le n (run_pages run))) by lia. split; [lia|done].
Qed.

Lemma join_cases l r :
  run_ok (run_base l) (run_pages l) → run_ok (run_base r) (run_pages r) →
  (join l r = Err NonAdjacent ∧
   ¬ (run_generation l = run_generation r ∧ run_zeroed l = run_zeroed r ∧
      run_end (run_base l) (run_pages l) = run_base r)) ∨
  (run_generation l = run_generation r ∧ run_zeroed l = run_zeroed r ∧
   run_end (run_base l) (run_pages l) = run_base r ∧
   join l r = Ok (MkRun (run_base l) (run_pages l + run_pages r)
                    (run_generation l) (run_zeroed l))).
Proof.
  intros Hl Hr. unfold join. op_unfold.
  destruct (Z.eqb_spec (run_generation l) (run_generation r)); cbn [negb orb]; [|left; tauto].
  case_bool_decide; cbn [negb]; [|left; tauto].
  unfold run_ok, run_end, PAGE_SIZE in *.
  rewrite (proj2 (Z.ltb_lt (run_pages l * 4096) _)) by lia.
  rewrite (proj2 (Z.ltb_lt (run_base l + run_pages l * 4096) _)) by lia.
  destruct (Z.eqb_spec (run_base l + run_pages l * 4096) (run_base r)) as [Heq|]; cbn [negb];
    [|left; tauto].
  rewrite (proj2 (Z.ltb_lt (run_pages l + run_pages r) _)) by lia. auto.
Qed.

Lemma split_run_ok b p n :
  run_ok b p → 0 < n < p → run_ok b n ∧ run_ok (run_end b n) (p - n) ∧
  run_end (run_end b n) (p - n) = run_end b p.
Proof.
  unfold run_ok, run_end. intros (? & ? & ? & ?) ?. split_and!; try (unfold PAGE_SIZE in *; lia).
  rewrite Z.mod_add by (unfold PAGE_SIZE; lia). done.
Qed.

Lemma split_allocated_good s run n :
  inv s → u64 n → good s (split_allocated run n s).
Proof.
  intros Hinv Hn. unfold split_allocated. op_unfold.
  destruct (frame_validate_cases s run) as [(e & -> & _)|[live Hv]]; [by apply good_Err|].
  rewrite Hv. destruct (validated_run _ _ _ Hinv Hv) as (Hl & Hb & Hp & Hg & Hrun & Hu).
  case_bool_decide as Hloan; [by apply good_Err|]. apply eq_None_not_Some in Hloan.
  destruct (split_cases live n) as [[-> _]|[Hlt ->]];
    [by rewrite Hb, Hp|unfold in_u in Hn; lia|by apply good_Err|].
  destruct (inv_drop _ _ _ Hinv Hl Hloan) as [Hdrop Hcov].
  rewrite Hp in Hlt, Hcov. rewrite Hb, Hp, Hg.
  destruct (split_run_ok _ _ _ Hrun Hlt) as (Hlo & Hro & Hend).
  alloc_norm. cbn [run_base run_generation].
  set (L := MkRun (run_base run) n _ _). set (R := MkRun (run_end (run_base run) n) _ _ _).
  destruct (alloc_insert (delete (run_base run) (allocated s)) L) as (_ & HokL & HcL);
    [apply Hdrop|done|done| |].
  { intros a Ha. rewrite Hcov. subst L. unfold run_ok, run_end, PAGE_SIZE in *. cbn in Ha.
    intros [_ H]. lia. }
  destruct (alloc_insert (<[run_base L := L]> (delete (run_base run) (allocated s))) R)
    as (_ & HokR & HcR); [done|done|done| |].
  { intros a Ha. rewrite HcL, Hcov. subst L R. unfold run_ok, run_end, PAGE_SIZE in *.
    cbn in *. intros [?|[_ ?]]; lia. }
  assert (∀ a, alloc_covers (<[run_base R := R]>
    (<[run_base L := L]> (delete (run_base run) (allocated s)))) a ↔ alloc_covers (allocated s) a)
    as Hsame.
  { intros a. rewrite HcR, HcL, Hcov. subst L R. cbn. rewrite Hend.
    split.
    - intros [?|[?|[? _]]]; [exists (run_base run), live..|done]; rewrite Hp; (split; [done|]);
        unfold run_ok, run_end, PAGE_SIZE in *; lia.
    - intros Ha. destruct (decide (run_base run ≤ a < run_end (run_base run) (run_pages run)));
        [|by auto]. destruct (decide (a < run_end (run_base run) n)); [right; left|left]; lia. }
  split; [split; cbn|].
  - apply Hinv.
  - done.
  - intros a Hf Ha. apply (inv_cross s Hinv a Hf). by apply Hsame.
  - destruct (generations s !! _); [apply Hinv|]. apply gens_insert; [apply Hinv|done].
  - intros b' o Ho. rewrite !lookup_insert_is_Some'. right. right.
    rewrite lookup_delete_is_Some. split; [congruence|]. by eapply inv_loans.
  - intros a. split; (intros [?|?]; [by left|right; by apply Hsame]).
Qed.

Lemma join_allocated_good s l r : inv s → good s (join_allocated l r s).
Proof.
  intros Hinv. unfold join_allocated. op_unfold.
  destruct (frame_validate_cases s l) as [(e & -> & _)|[L Hv]]; [by apply good_Err|].
  destruct (frame_validate_cases s r) as [(e & -> & _)|[R Hv']]; rewrite Hv; [by apply good_Err|].
  rewrite Hv'.
  destruct (validated_run _ _ _ Hinv Hv) as (HL & HLb & HLp & HLg & HLrun & HLu).
  destruct (validated_run _ _ _ Hinv Hv') as (HR & HRb & HRp & HRg & HRrun & HRu).
  case_bool_decide as HloanL; cbn [orb]; [by apply good_Err|]. apply eq_None_not_Some in HloanL.
  case_bool_decide as HloanR; [by apply good_Err|]. apply eq_None_not_Some in HloanR.
  destruct (join_cases L R) as [[-> _]|(Hg & Hz & Hadj & ->)];
    [by rewrite HLb, HLp|by rewrite HRb, HRp|by apply good_Err|].
  destruct (inv_drop _ _ _ Hinv HL HloanL) as [Hdrop1 Hcov1]. rewrite HLp in Hcov1.
  assert (run_base l ≠ run_base r) as Hne.
  { rewrite HLb, HLp, HRb in Hadj. unfold run_ok, run_end, PAGE_SIZE in *. lia. }
  destruct (inv_drop _ (run_base r) R Hdrop1) as [Hdrop2 Hcov2]; cbn;
    [by rewrite lookup_delete_ne|done|]. rewrite HRp in Hcov2. cbn in Hcov2.
  alloc_norm. cbn [run_base]. rewrite HLb, HLp, HRb in Hadj.
  set (J := MkRun (run_base L) _ _ _).
  assert (run_ok (run_base J) (run_pages J) ∧
    run_end (run_base J) (run_pages J) = run_end (run_base r) (run_pages r)) as [HJ HJe].
  { subst J. cbn. rewrite HLb, HLp, HRp. unfold run_ok, run_end, PAGE_SIZE in *. lia. }
  destruct (alloc_insert (delete (run_base r) (delete (run_base l) (allocated s))) J)
    as (_ & Hok & Hc); [apply Hdrop2|done|subst J; cbn; by rewrite HLg| |].
  { intros a Ha. rewrite Hcov2, Hcov1. rewrite HJe in Ha. subst J. cbn in Ha.
    rewrite HLb in Ha. unfold run_ok, run_end, PAGE_SIZE in *. lia. }
  assert (∀ a, alloc_covers (<[run_base J := J]> (delete (run_base r)
    (delete (run_base l) (allocated s)))) a ↔ alloc_covers (allocated s) a) as Hsame.
  { intros a. rewrite Hc, Hcov2, Hcov1, HJe. subst J. cbn. rewrite HLb. split.
    - intros [Ha|?]; [|tauto]. destruct (decide (a < run_end (run_base l) (run_pages l)));
        [exists (run_base l), L; rewrite HLp|exists (run_base r), R; rewrite HRp];
        (split; [done|]); unfold run_ok, run_end, PAGE_SIZE in *; lia.
    - intros Ha. destruct (decide (run_base l ≤ a < run_end (run_base r) (run_pages r)));
        [by left|right]. unfold run_ok, run_end, PAGE_SIZE in *. split; [split|]; [done|lia..]. }
  split; [split; cbn|].
  - apply Hinv.
  - done.
  - intros a Hf Ha. apply (inv_cross s Hinv a Hf). by apply Hsame.
  - apply Hinv.
  - intros b' o Ho. rewrite lookup_insert_is_Some'. right.
    rewrite !lookup_delete_is_Some. split_and!; [congruence..|]. by eapply inv_loans.
  - intros a. split; (intros [?|?]; [by left|right; by apply Hsame]).
Qed.

(** ** All calls at once *)

Lemma good_outcome {A} s (out : res FrameError A * Allocator) : good s out → good s (outcome out).
Proof. by destruct out as [[]]. Qed.

Lemma exec_good c s :
  inv s → call_ok c s → (∀ b p, c ≠ AddRegion b p) → good s (exec c s).
Proof.
  intros Hinv Hok Hc. destruct c; cbn in *; apply good_outcome.
  - by edestruct Hc.
  - destruct Hok. by apply allocate_good.
  - by apply mark_zeroed_good.
  - by apply lend_good.
  - by apply reclaim_good.
  - destruct Hok. by apply split_allocated_good.
  - by apply join_allocated_good.
  - by apply release_good.
Qed.

Lemma frame_exec_inv c s : inv s → call_ok c s → inv (exec c s).2 ∧ (exec c s).1 ≠ Panic.
Proof.
  intros Hinv Hok. destruct c as [b p|pages ap| | | | | |].
  1: { cbn. destruct (add_region_spec s b p Hinv Hok) as [(e & -> & _)|(s' & -> & Hi & _)];
       done. }
  all: pose proof (exec_good _ s Hinv Hok ltac:(done)) as Hg; unfold good in Hg;
    destruct (exec _ s).1; intuition congruence.
Qed.

Lemma frame_inv_new : inv frames_new.
Proof.
  split; cbn; [split|split|..]; intros *; try (by rewrite lookup_empty).
  intros (b & p & H & _). by rewrite lookup_empty in H.
Qed.

Lemma frame_trace_inv P s s' : inv s → client_trace P s s' → inv s'.
Proof. intros Hs. induction 1; [done|by apply frame_exec_inv]. Qed.

(** A range covered by free addresses lies in a single free run. *)
Lemma covered_range_single m a pages :
  free_ok m → 0 < pages → (∀ x, a ≤ x < run_end a pages → covers m x) →
  ∃ b avail, m !! b = Some avail ∧ b ≤ a ∧ run_end a pages ≤ run_end b avail.
Proof.
  intros [Hok Hsep] Hpos Hcov.
  destruct (Hcov a) as (b & avail & Hb & Ha); [unfold run_end, PAGE_SIZE; lia|].
  exists b, avail. split_and!; [done|lia|].
  destruct (decide (run_end a pages ≤ run_end b avail)); [done|exfalso].
  destruct (Hcov (run_end b avail)) as (b' & p' & Hb' & Ha'); [lia|].
  destruct (decide (b = b')) as [->|Hne]; [simplify_eq; lia|].
  destruct (decide (b < b')) as [Hlt|].
  - pose proof (Hsep _ _ _ _ Hb Hb' Hlt). lia.
  - pose proof (Hsep _ _ _ _ Hb' Hb ltac:(lia)).
    pose proof (Hok _ _ Hb). unfold run_ok, run_end, PAGE_SIZE in *. lia.
Qed.

(** ** Accounting *)

Lemma sum_runs_bound l lo :
  0 ≤ lo → Forall (λ e, run_ok e.1 e.2) l → StronglySorted before l →
  Forall (λ e, lo ≤ e.1) l → 0 ≤ zsum l.*2 ∧ (l = [] ∨ lo + zsum l.*2 * PAGE_SIZE < 2 ^ 64).
Proof.
  intros Hlo Hok Hs. revert lo Hlo. induction Hs as [|[b p] l Hl IH Hb]; intros lo Hlo Hlos.
  { unfold zsum. cbn. auto with lia. }
  apply Forall_cons in Hok as [Hrun Hok]. apply Forall_cons in Hlos as [Hlob _]. cbn in *.
  destruct (IH Hok (run_end b p)) as [Hnn Hsum].
  - unfold run_ok, run_end, PAGE_SIZE in *. lia.
  - apply Hb.
  - unfold zsum in *. cbn in *. destruct Hsum as [->|Hsum]; cbn in *;
      unfold run_ok, run_end, PAGE_SIZE in *; lia.
Qed.

Lemma free_pages_total s : inv s → free_pages s = Ok (total (free s)).
Proof.
  intros Hinv. destruct (entries_ok _ (free_ok_weak _ (inv_free s Hinv))) as [Hok Hs].
  destruct (sum_runs_bound (entries (free s)) 0) as [Hnn Hb]; [done|done|done| |].
  { eapply Forall_impl; [exact Hok|]. unfold run_ok. intros e. lia. }
  unfold free_pages, total, values. rewrite foldl_uadd; [done|done| |].
  - apply Forall_fmap. eapply Forall_impl; [exact Hok|]. unfold run_ok. cbn. lia.
  - destruct Hb as [->|Hb]; [done|]. unfold PAGE_SIZE in Hb. lia.
Qed.

(** ** Retired handles *)

(** [(b, g)] is below every generation the allocator still knows for [b]. *)
Definition retired (b g : Z) (s : Allocator) : Prop :=
  (∀ r, allocated s !! b = Some r → g < run_generation r) ∧
  ∃ n, generations s !! b = Some n ∧ g < n.

Lemma retired_update b g s k r r' :
  retired b g s → allocated s !! k = Some r → run_generation r ≤ run_generation r' →
  ∀ q, <[k := r']> (allocated s) !! b = Some q → g < run_generation q.
Proof.
  intros [Ha _] Hk Hle q [[-> <-]|[_ ?]]%lookup_insert_Some; [|eauto].
  specialize (Ha _ Hk). lia.
Qed.

Lemma retired_generations b g s k n :
  retired b g s → (k = b → g < n) →
  ∃ n', <[k := n]> (generations s) !! b = Some n' ∧ g < n'.
Proof.
  intros [_ (m & Hm & Hlt)] Hk. destruct (decide (k = b)) as [->|Hne].
  - rewrite lookup_insert_eq. eauto.
  - rewrite lookup_insert_ne by done. eauto.
Qed.

Lemma retired_in_place b g s run :
  retired b g s →
  retired b g (mark_zeroed run s).2 ∧
  (∀ o, retired b g (lend run o s).2) ∧ (∀ o, retired b g (reclaim run o s).2).
Proof.
  intros Hret. unfold mark_zeroed, lend, reclaim. op_unfold.
  destruct (frame_validate_cases s run) as [(e & -> & _)|[live Hv]]; [done|]. rewrite Hv.
  apply frame_validate_Ok in Hv as (Hl & Hg & _).
  assert (∀ g', run_generation live ≤ g' → run_base run = b → g < g') as Hbump.
  { intros g' Hle Hb. rewrite Hb in Hl. pose proof (proj1 Hret _ Hl). lia. }
  split_and!; intros; repeat case_match; simplify_eq; cbn; try done;
    split; cbn; try (by apply Hret);
    try (eapply retired_update; [done|done|cbn; lia]);
    (apply retired_generations; [done|]; apply Hbump; lia).
Qed.

Lemma retired_exec b g c s :
  inv s → call_ok c s → plain c → retired b g s → retired b g (exec c s).2.
Proof.
  intros Hinv Hok Hplain Hret.
  destruct c as [base pages|pages ap|run|run o|run o| | |run]; try done; cbn [exec outcome snd].
  - unfold add_region, coalesce. op_unfold. repeat case_match; simplify_eq; done.
  - destruct Hok as [Hp Hap]. destruct (allocate_spec s pages ap Hinv Hp Hap)
      as [(e & -> & _)|(b' & av & al & pre & suf & _ & _ & _ & _ & _ & _ & _ & _ & ->)]; [done|].
    split; [|by apply Hret]. cbn. destruct Hret as [Ha (n & Hn & Hlt)].
    intros q [[-> <-]|[_ ?]]%lookup_insert_Some; [|eauto]. cbn. by rewrite Hn.
  - by apply retired_in_place.
  - by apply retired_in_place.
  - by apply retired_in_place.
  - destruct (release_spec s run Hinv) as [(e & -> & _)|[(_ & _ & -> & _)|
      (s' & live & -> & _ & Hl & _ & Hg & Ha & Hgens & _)]]; [done|..].
    + split; [|by apply Hret]. cbn. intros q [_ ?]%lookup_delete_Some. by apply Hret.
    + split; cbn; rewrite ?Ha, ?Hgens.
      * intros q [_ ?]%lookup_delete_Some. by apply Hret.
      * apply retired_generations; [done|]. intros <-. pose proof (proj1 Hret _ Hl). lia.
Qed.

(** ** Properties *)

(** C2. Reachable safety: in every state a client can reach (any calls, failing ones
    included, whose added regions are not handed out), free and allocated runs are
    well formed and pairwise disjoint, free runs are fully coalesced, loans refer to
    live runs, and no further call can panic. *)
Theorem frames_reachable_safe s :
  client_trace (λ _, True) frames_new s →
  inv s ∧ ∀ c, call_ok c s → (exec c s).1 ≠ Panic.
Proof.
  intros Htr. assert (inv s) as Hinv by (eapply frame_trace_inv; [apply frame_inv_new|done]).
  split; [done|]. intros c Hc. by apply frame_exec_inv.
Qed.

Definition demo_frames : Allocator := (exec (AddRegion 4096 8) frames_new).2.

Lemma demo_frames_trace : client_trace (λ _, True) frames_new demo_frames.
Proof.
  apply trace_step; [apply trace_refl|done|]. split_and!; [ulia|ulia|].
  intros a _ (b & r & H & _). cbn in H. by rewrite lookup_empty in H.
Defined.

Lemma frames_reachable_safe_witness :
  inv demo_frames ∧ ∀ c, call_ok c demo_frames → (exec c demo_frames).1 ≠ Panic.
Proof. apply (frames_reachable_safe demo_frames). exact demo_frames_trace. Defined.

(** C7. Conservation: in a well-formed allocator, such as every one a client reaches, a
    successful call that does not add a region of pages that are handed out never loses or
    invents an address: the managed addresses (free or handed out) are unchanged, except
    that [add_region] adds exactly its region; a failing call changes nothing at all unless
    a generation counter is exhausted. *)
Theorem frames_conserved c s :
  inv s → call_ok c s →
  match (exec c s).1 with
  | Ok _ => ∀ a, owned (exec c s).2 a ↔
      owned s a ∨ match c with AddRegion b p => b ≤ a < run_end b p | _ => False end
  | Err e => e = GenerationOverflow ∨ (exec c s).2 = s
  | Panic => False
  end.
Proof.
  intros Hinv Hok. destruct c as [b p| | | | | | |].
  1: { cbn [exec]. destruct (add_region_spec s b p Hinv Hok)
         as [(e & -> & _)|(s' & -> & _ & Ha & _ & Hc)]; cbn; [by right|].
       intros a. unfold owned. rewrite Hc, Ha. tauto. }
  all: pose proof (exec_good _ s Hinv Hok ltac:(done)) as Hg; unfold good in Hg;
    destruct (exec _ s).1; [destruct Hg as [_ Hg]; intros x; rewrite Hg; tauto|tauto|done].
Qed.

Lemma frames_conserved_witness :
  free (exec (Allocate 3 4) demo_frames).2 ≠ free demo_frames ∧
  ∀ a, owned (exec (Allocate 3 4) demo_frames).2 a ↔ owned demo_frames a ∨ False.
Proof.
  split; [vm_compute; discriminate|].
  apply (frames_conserved (Allocate 3 4) demo_frames).
  - apply (frame_trace_inv _ _ _ frame_inv_new demo_frames_trace).
  - split; ulia.
Defined.

(** C25. Allocation is complete: a request succeeds exactly when some suitably aligned
    range of that many pages is entirely free (fragmentation by unmerged neighbours
    never makes it fail), and the run returned is such a range, now handed out and no
    longer free. *)
Theorem allocate_exactly_when_possible s pages ap :
  inv s → u64 pages → u64 ap → 0 < pages → is_power_of_two ap = true →
  ap * PAGE_SIZE < 2 ^ 64 →
  ((∃ run s', allocate pages ap s = (Ok run, s')) ↔
   ∃ a, a mod (ap * PAGE_SIZE) = 0 ∧ ∀ x, a ≤ x < run_end a pages → covers (free s) x) ∧
  ∀ run s', allocate pages ap s = (Ok run, s') →
    run_base run mod (ap * PAGE_SIZE) = 0 ∧ run_pages run = pages ∧
    allocated s' !! run_base run = Some run ∧
    ∀ x, run_base run ≤ x < run_end (run_base run) pages →
      covers (free s) x ∧ ¬ covers (free s') x.
Proof.
  intros Hinv Hp Hap Hpos Hpow Hal.
  destruct (allocate_spec s pages ap Hinv Hp Hap) as [(e & He & _ & Hoom)|
    (b & avail & aligned & prefix & suffix & Hb & _ & Hmod & Hm4 & Hp0 & Hs0 & Hpre & Hav & Hok)].
  - rewrite He. split; [|by intros]. split; [by intros (? & ? & ?)|].
    intros (a & Hmod & Hcov). exfalso.
    assert (e = OutOfMemory) as ->.
    { revert He. unfold allocate. op_unfold. unfold is_power_of_two in Hpow. zb.
      rewrite (proj2 (Z.eqb_neq pages 0)), (proj2 (Z.eqb_neq ap 0)) by lia. cbn [orb].
      unfold is_power_of_two. rewrite (proj2 (Z.ltb_lt 0 ap)) by lia.
      rewrite (proj2 (Z.eqb_eq (2 ^ Z.log2 ap) ap)) by lia. cbn [andb negb].
      rewrite (proj2 (Z.ltb_lt _ _) Hal). repeat case_match; intros; by simplify_eq. }
    destruct (covered_range_single _ _ _ (inv_free s Hinv) Hpos Hcov) as (b & av & Hb & Hle & He2).
    pose proof (Hoom eq_refl b av a Hb Hle Hmod). lia.
  - assert (∀ x, aligned ≤ x < run_end aligned pages → covers (free s) x) as Hin.
    { intros x Hx. exists b, avail. split; [done|]. unfold run_end, PAGE_SIZE in *. lia. }
    split; [split; [|by eauto]; intros _; exists aligned; auto|].
    intros run s' H. rewrite Hok in H. injection H as <- <-. cbn.
    split_and!; [done|done|apply lookup_insert_eq|].
    intros x Hx. split; [by apply Hin|].
    rewrite (carve_covers _ _ _ _ _ _ _ (inv_free s Hinv) Hb Hpos Hp0 Hs0 Hpre Hav). tauto.
Qed.

Lemma allocate_exactly_when_possible_witness :
  ∃ run s', allocate 3 4 demo_frames = (Ok run, s').
Proof.
  apply (allocate_exactly_when_possible demo_frames 3 4).
  - apply (frame_trace_inv _ _ _ frame_inv_new demo_frames_trace).
  - ulia.
  - ulia.
  - lia.
  - reflexivity.
  - reflexivity.
  - exists 16384. split; [reflexivity|]. intros x Hx. exists 4096, 8.
    split; [vm_compute; reflexivity|]. unfold run_end, PAGE_SIZE in *. lia.
Defined.

(** The page count is exact and its sum never overflows: [free_pages] drops by the
    pages allocated and grows by the pages released or added. *)
Theorem free_pages_accounting s n :
  inv s → free_pages s = Ok n →
  (∀ pages ap run s', u64 pages → u64 ap → allocate pages ap s = (Ok run, s') →
     free_pages s' = Ok (n - pages)) ∧
  (∀ run s', release run s = (Ok (), s') → free_pages s' = Ok (n + run_pages run)) ∧
  (∀ base pages s', call_ok (AddRegion base pages) s → add_region base pages s = (Ok (), s') →
     free_pages s' = Ok (n + pages)).
Proof.
  intros Hinv Hn. rewrite (free_pages_total s Hinv) in Hn. simplify_eq. split_and!.
  - intros pages ap run s' Hp Hap H. pose proof (allocate_good s pages ap Hinv Hp Hap) as Hg.
    rewrite H in Hg. destruct Hg as [Hi _]. rewrite (free_pages_total s' Hi).
    destruct (allocate_spec s pages ap Hinv Hp Hap) as [(e & He & _)|
      (b & avail & al & pre & suf & Hb & Hpos & _ & _ & Hp0 & Hs0 & Hpre & Hav & Hok)];
      [congruence|]. rewrite H in Hok. injection Hok as -> ->. cbn.
    by rewrite (carve_total _ _ _ _ _ _ _ (inv_free s Hinv) Hb Hpos Hp0 Hs0 Hpre Hav).
  - intros run s' H. destruct (release_spec s run Hinv) as [(e & He & _)|[(_ & _ & He & _)|
      (s'' & live & Hok & Hi & _ & _ & _ & _ & _ & Ht & _)]]; [congruence..|].
    rewrite H in Hok. simplify_eq. by rewrite (free_pages_total _ Hi), Ht.
  - intros base pages s' Hc H. destruct (add_region_spec s base pages Hinv Hc)
      as [(e & He & _)|(s'' & Hok & Hi & _ & Ht & _)]; [congruence|].
    rewrite H in Hok. simplify_eq. by rewrite (free_pages_total _ Hi), Ht.
Qed.

Lemma free_pages_accounting_witness :
  free_pages (allocate 3 4 demo_frames).2 = Ok (8 - 3).
Proof.
  refine (proj1 (free_pages_accounting demo_frames 8 _ _) 3 4 (MkRun 16384 3 0 false) _ _ _ _).
  - apply (frame_trace_inv _ _ _ frame_inv_new demo_frames_trace).
  - vm_compute. reflexivity.
  - ulia.
  - ulia.
  - vm_compute. reflexivity.
Defined.

(** Without splits and joins release is final: once a run has been released, no
    later state reached by other client calls accepts its handle again. *)
Theorem released_handle_stays_dead s run s' s'' :
  inv s → release run s = (Ok (), s') → client_trace plain s' s'' →
  ∀ live, validate s'' run ≠ Ok live.
Proof.
  intros Hinv Hrel Htr live Hv.
  destruct (release_spec s run Hinv) as [(e & He & _)|[(_ & _ & He & _)|
    (t & l & Hok & Hi & _ & _ & _ & Ha & Hg & _)]]; [congruence..|].
  rewrite Hrel in Hok. simplify_eq.
  assert (retired (run_base run) (run_generation run) t) as Hret.
  { split.
    - rewrite Ha. intros r. by rewrite lookup_delete_eq.
    - rewrite Hg, lookup_insert_eq. eexists. split; [done|lia]. }
  assert (inv s'' ∧ retired (run_base run) (run_generation run) s'') as [_ [Hlt _]].
  { clear Hv. induction Htr as [|c u Htr [IHi IHr] Hplain Hc]; [done|].
    split; [by apply frame_exec_inv|by apply retired_exec]. }
  apply frame_validate_Ok in Hv as (Hl & Hgen & _). specialize (Hlt _ Hl). lia.
Qed.

Lemma released_handle_stays_dead_witness :
  let h := MkRun 16384 3 0 false in
  let s := (allocate 3 4 demo_frames).2 in
  let s' := (release h s).2 in
  (allocate 3 4 s').1 = Ok (MkRun 16384 3 1 false) ∧
  ∀ live, validate (exec (Allocate 3 4) s').2 h ≠ Ok live.
Proof.
  intros h s s'. split; [vm_compute; reflexivity|].
  apply (released_handle_stays_dead s h s').
  - refine (proj1 (frame_exec_inv (Allocate 3 4) demo_frames _ _)); [|split; ulia].
    apply (frame_trace_inv _ _ _ frame_inv_new demo_frames_trace).
  - vm_compute. reflexivity.
  - apply trace_step; [apply trace_refl|exact I|split; ulia].
Defined.

(** Splitting and joining back restores the allocator: the same allocated and free
    maps, and the joined handle is the record that was split. *)
Theorem split_join_restores s run n l r s1 :
  inv s → u64 n → split_allocated run n s = (Ok (l, r), s1) →
  ∃ j s2, join_allocated l r s1 = (Ok j, s2) ∧
    allocated s2 = allocated s ∧ free s2 = free s ∧ allocated s !! run_base run = Some j.
Proof.
  intros Hinv Hn H. unfold split_allocated in H. op_unfold.
  destruct (frame_validate_cases s run) as [(e & He & _)|[live Hv]]; [by rewrite He in H|].
  rewrite Hv in H. destruct (validated_run _ _ _ Hinv Hv) as (Hl & Hb & Hp & Hg & Hrun & Hu).
  case_bool_decide as Hloan; [done|]. apply eq_None_not_Some in Hloan.
  destruct (split_cases live n) as [[He _]|[Hlt Hs]];
    [by rewrite Hb, Hp|unfold in_u in Hn; lia|by rewrite He in H|].
  rewrite Hs in H. injection H as <- <- <-. alloc_norm. cbn [run_base run_generation] in *.
  rewrite Hb, Hp in *. destruct (split_run_ok _ _ _ Hrun Hlt) as (Hlo & Hro & Hend).
  set (R := run_end (run_base run) n) in *.
  assert (R ≠ run_base run) as Hne by (subst R; unfold run_end, PAGE_SIZE in *; lia).
  assert (allocated s !! R = None) as HnR.
  { apply eq_None_not_Some. intros [q Hq].
    assert (run_base run < R) as HbR by (subst R; unfold run_end, PAGE_SIZE in *; lia).
    pose proof (proj2 (inv_alloc s Hinv) _ _ _ _ Hl Hq HbR) as Hsep. rewrite Hp in Hsep.
    subst R. unfold run_ok, run_end, PAGE_SIZE in *. lia. }
  assert (loans s !! R = None) as HnL.
  { apply eq_None_not_Some. intros [o Ho]. destruct (inv_loans s Hinv _ _ Ho). congruence. }
  unfold join_allocated, validate. op_unfold. cbn [allocated loans run_base].
  rewrite (lookup_insert_ne _ R), lookup_insert_eq by done. cbn. rewrite !Z.eqb_refl. cbn.
  rewrite lookup_insert_eq. cbn. rewrite !Z.eqb_refl. cbn.
  rewrite Hloan, HnL. cbn.
  destruct (join_cases (MkRun (run_base run) n (run_generation live) (run_zeroed live))
    (MkRun R (run_pages run - n) (run_generation live) (run_zeroed live)))
    as [[_ Hj]|(_ & _ & _ & ->)]; [done|done|by destruct Hj|].
  cbn. eexists _, _. split; [done|]. cbn.
  replace (MkRun (run_base run) (n + (run_pages run - n)) _ _) with live;
    [|destruct live; cbn in *; f_equal; lia].
  split_and!; [|done|done].
  apply map_eq. intros k. destruct (decide (k = run_base run)) as [->|Hk].
  { by rewrite lookup_insert_eq. }
  rewrite lookup_insert_ne by done. destruct (decide (k = R)) as [->|HkR].
  { by rewrite lookup_delete_eq. }
  rewrite lookup_delete_ne, lookup_delete_ne, !lookup_insert_ne, lookup_delete_ne by done. done.
Qed.

Lemma split_join_restores_witness :
  let h := MkRun 16384 3 0 false in
  let s := (allocate 3 4 demo_frames).2 in
  ∃ j s2, join_allocated (MkRun 16384 2 0 false) (MkRun 24576 1 0 false)
      (split_allocated h 2 s).2 = (Ok j, s2) ∧
    allocated s2 = allocated s ∧ free s2 = free s ∧ allocated s !! 16384 = Some j.
Proof.
  intros h s. apply (split_join_restores s h 2).
  - refine (proj1 (frame_exec_inv (Allocate 3 4) demo_frames _ _)); [|split; ulia].
    apply (frame_trace_inv _ _ _ frame_inv_new demo_frames_trace).
  - ulia.
  - vm_compute. reflexivity.
Defined.

(** ** Where the generations do not protect *)

(** A handle consumed by [join_allocated] can come back to life: the join leaves no
    trace of the right-hand run's generation, so after the joined run is released and
    its pages are allocated again, the consumed handle validates against the new
    owner's run (here at page 8192, by a client that meets every obligation). *)
Theorem join_revives_consumed_handle :
  ∃ s1 s2 s3 h l j,
    client_trace (λ _, True) frames_new s1 ∧ join_allocated l h s1 = (Ok j, s2) ∧
    validate s2 h = Err UnknownRun ∧
    client_trace plain s2 s3 ∧ validate s3 h = Ok h.
Proof.
  pose (c := [Allocate 1 1; Allocate 1 1]).
  exists (foldl (λ s c, (exec c s).2) frames_new (AddRegion 4096 2 :: c)).
  do 2 eexists. exists (MkRun 8192 1 0 false), (MkRun 4096 1 0 false). eexists.
  split_and!.
  - apply (trace_step _ _ (Allocate 1 1)); [|done|split; ulia].
    apply (trace_step _ _ (Allocate 1 1)); [|done|split; ulia].
    apply (trace_step _ _ (AddRegion 4096 2)); [apply trace_refl|done|].
    split_and!; [ulia..|]. intros a _ (b & r & H & _). cbn in H. by rewrite lookup_empty in H.
  - vm_compute. reflexivity.
  - vm_compute. reflexivity.
  - apply (trace_step _ _ (Allocate 1 1)); [|done|split; ulia].
    apply (trace_step _ _ (Allocate 1 1)); [|done|split; ulia].
    apply (trace_step _ _ (Release (MkRun 4096 2 0 false))); [apply trace_refl|done|].
    by vm_compute.
  - vm_compute. reflexivity.
Qed.

(** [add_region] compares a new region with the free runs only: a region that is
    already handed out is accepted, and the next allocation returns the very run a
    first client still holds. *)
Theorem add_region_readmits_allocated_pages :
  ∃ s1 s2 run,
    client_trace (λ _, True) frames_new s1 ∧
    validate s1 run = Ok run ∧
    add_region (run_base run) (run_pages run) s1 = (Ok (), s2) ∧
    (allocate (run_pages run) 1 s2).1 = Ok run.
Proof.
  exists (foldl (λ s c, (exec c s).2) frames_new [AddRegion 4096 1; Allocate 1 1]).
  eexists. exists (MkRun 4096 1 0 false). split_and!; [|vm_compute; reflexivity..].
  apply (trace_step _ _ (Allocate 1 1)); [|done|split; ulia].
  apply (trace_step _ _ (AddRegion 4096 1)); [apply trace_refl|done|].
  split_and!; [ulia..|]. intros a _ (b & r & H & _). cbn in H. by rewrite lookup_empty in H.
Qed.

End FrameProps.
