(* ===== verification/Memory.v ===== *)
(** * Address spaces: [kernel/src/memory.rs]

    Page mappings with their epoch, address translation, the user copy
    routines and the one-slot temporary mapping window. *)
From S2P Require Import Prelude Capability.

Module Memory.

Inductive PageSize : Type := Size4K | Size2M | Size1G.

#[global] Instance PageSize_eq_dec : EqDecision PageSize.
Proof. solve_decision. Defined.

Definition page_bytes (p : PageSize) : Z :=
  match p with
  | Size4K => 4096
  | Size2M => 2 * 1024 * 1024
  | Size1G => 1024 * 1024 * 1024
  end.

Record PagePermissions : Type := MkPerms { perm_bits : Z }.

#[global] Instance PagePermissions_eq_dec : EqDecision PagePermissions.
Proof. solve_decision. Defined.

Definition P_READ : PagePermissions := MkPerms (Z.shiftl 1 0).
Definition P_WRITE : PagePermissions := MkPerms (Z.shiftl 1 1).
Definition P_EXECUTE : PagePermissions := MkPerms (Z.shiftl 1 2).
Definition P_USER : PagePermissions := MkPerms (Z.shiftl 1 3).

Definition perms_union (a b : PagePermissions) : PagePermissions :=
  MkPerms (Z.lor (perm_bits a) (perm_bits b)).

Definition perms_contains (a b : PagePermissions) : bool :=
  Z.land (perm_bits a) (perm_bits b) =? perm_bits b.

Record Mapping : Type := MkMapping {
  virtual_base : Z;
  physical_base : Z;
  page_size : PageSize;
  pages : Z;
  permissions : PagePermissions;
  m_epoch : Z;
}.

#[global] Instance Mapping_eq_dec : EqDecision Mapping.
Proof. solve_decision. Defined.

Inductive MapError : Type :=
| WrongAddressSpaceCapability | WrongFrameCapability | MissingRights
| NonCanonical | Misaligned | RangeOverflow | OutOfRange | Overlap | NotMapped
| EpochOverflow | EmptyPermissions | Active | Destroyed | UserFault
| WindowFull | StaleGeneration | WrongWindowCapability.

#[global] Instance MapError_eq_dec : EqDecision MapError.
Proof. solve_decision. Defined.

Definition is_canonical_x86_64 (address : Z) : bool :=
  let upper := Z.shiftr address 48 in
  let sign := Z.land (Z.shiftr address 47) 1 in
  ((sign =? 0) && (upper =? 0)) || ((sign =? 1) && (upper =? 65535)).

Record AddressSpace : Type := MkSpace {
  mappings : gmap Z Mapping;
  epoch : Z;
  active_cpus : gset Z;
  destroyed : bool;
}.

Definition space_new : AddressSpace := MkSpace ∅ 0 ∅ false.

Definition set_mappings (f : gmap Z Mapping) (s : AddressSpace) : AddressSpace :=
  MkSpace f (epoch s) (active_cpus s) (destroyed s).
Definition set_epoch (e : Z) (s : AddressSpace) : AddressSpace :=
  MkSpace (mappings s) e (active_cpus s) (destroyed s).
Definition set_active (a : gset Z) (s : AddressSpace) : AddressSpace :=
  MkSpace (mappings s) (epoch s) a (destroyed s).
Definition set_destroyed (s : AddressSpace) : AddressSpace :=
  MkSpace (mappings s) (epoch s) (active_cpus s) true.

Definition require_space (space : Capability) : res MapError unit :=
  bail_if (negb (bool_decide (cap_kind space = AddressSpaceKind)))
    WrongAddressSpaceCapability;;
  bail_if (negb (rights_contains (cap_rights space) MAP)) MissingRights.

(** The closure of [map]'s overlap test. *)
Definition mapping_overlaps (vbase end_ : Z) (m : Mapping) : bool :=
  let mapping_bytes := saturating_mul 64 (page_bytes (page_size m)) (pages m) in
  let mapping_end := saturating_add 64 (virtual_base m) mapping_bytes in
  (vbase <? mapping_end) && (virtual_base m <? end_).

(** [self.epoch = self.epoch.checked_add(1).ok_or(EpochOverflow)?] *)
Definition advance_epoch : op AddressSpace MapError unit :=
  next ← readr (λ s, ok_or EpochOverflow (checked_add 64 (epoch s) 1));
  modify (set_epoch next).

Definition map (space frames : Capability) (vbase : Z) (size : PageSize) (n : Z)
    (perms : PagePermissions) : op AddressSpace MapError Mapping :=
  dead ← reads destroyed;
  lift (bail_if dead Destroyed);;
  lift (bail_if (negb (bool_decide (cap_kind space = AddressSpaceKind)))
          WrongAddressSpaceCapability);;
  lift (bail_if (negb (bool_decide (cap_kind frames = Frame)
                       || bool_decide (cap_kind frames = PhysRegion)))
          WrongFrameCapability);;
  lift (bail_if (negb (rights_contains (cap_rights space) MAP)
                 || negb (rights_contains (cap_rights frames) READ)) MissingRights);;
  lift (bail_if (negb (is_canonical_x86_64 vbase)) NonCanonical);;
  lift (bail_if ((n =? 0) || (perm_bits perms =? 0)) EmptyPermissions);;
  bytes ← lift (ok_or RangeOverflow (checked_mul 64 (page_bytes size) n));
  lift (bail_if (negb (vbase mod page_bytes size =? 0)
                 || negb (cap_base frames mod page_bytes size =? 0)) Misaligned);;
  lift (bail_if (negb (contains_range frames (cap_base frames) bytes)) OutOfRange);;
  end_ ← lift (ok_or RangeOverflow (checked_add 64 vbase bytes));
  overlap ← reads (λ s, existsb (mapping_overlaps vbase end_) (values (mappings s)));
  lift (bail_if overlap Overlap);;
  advance_epoch;;
  now ← reads epoch;
  let mapping := MkMapping vbase (cap_base frames) size n perms now in
  modify (λ s, set_mappings (<[vbase := mapping]> (mappings s)) s);;
  mret mapping.

Definition unmap (vbase : Z) : op AddressSpace MapError Mapping :=
  dead ← reads destroyed;
  lift (bail_if dead Destroyed);;
  mapping ← readr (λ s, ok_or NotMapped (mappings s !! vbase));
  modify (λ s, set_mappings (delete vbase (mappings s)) s);;
  advance_epoch;;
  mret mapping.

Definition protect (space : Capability) (vbase : Z) (perms : PagePermissions)
    : op AddressSpace MapError Mapping :=
  dead ← reads destroyed;
  lift (bail_if dead Destroyed);;
  lift (bail_if (negb (bool_decide (cap_kind space = AddressSpaceKind)))
          WrongAddressSpaceCapability);;
  lift (bail_if (negb (rights_contains (cap_rights space) MAP)) MissingRights);;
  lift (bail_if (perm_bits perms =? 0) EmptyPermissions);;
  advance_epoch;;
  mapping ← readr (λ s, ok_or NotMapped (mappings s !! vbase));
  now ← reads epoch;
  let mapping := MkMapping (virtual_base mapping) (physical_base mapping)
    (page_size mapping) (pages mapping) perms now in
  modify (λ s, set_mappings (<[vbase := mapping]> (mappings s)) s);;
  mret mapping.

(** The loop of [translate] over the mappings in address order. *)
Fixpoint translate_loop (l : list Mapping) (va : Z) : res MapError (Z * PagePermissions) :=
  match l with
  | [] => Err NotMapped
  | m :: rest =>
    bytes ← ok_or RangeOverflow (checked_mul 64 (page_bytes (page_size m)) (pages m));
    end_ ← ok_or RangeOverflow (checked_add 64 (virtual_base m) bytes);
    if (virtual_base m <=? va) && (va <? end_) then
      off ← usub va (virtual_base m);
      pa ← uadd 64 (physical_base m) off;
      Ok (pa, permissions m)
    else translate_loop rest va
  end.

Definition translate (s : AddressSpace) (va : Z) : res MapError (Z * PagePermissions) :=
  bail_if (destroyed s) Destroyed;;
  bail_if (negb (is_canonical_x86_64 va)) NonCanonical;;
  translate_loop (values (mappings s)) va.

Definition inspect (s : AddressSpace) (vbase : Z) : option Mapping := mappings s !! vbase.

Definition activate (space : Capability) (cpu : Z) : op AddressSpace MapError unit :=
  lift (require_space space);;
  dead ← reads destroyed;
  lift (bail_if dead Destroyed);;
  modify (λ s, set_active ({[cpu]} ∪ active_cpus s) s).

Definition deactivate (space : Capability) (cpu : Z) : op AddressSpace MapError unit :=
  lift (require_space space);;
  present ← reads (λ s, bool_decide (cpu ∈ active_cpus s));
  modify (λ s, set_active (active_cpus s ∖ {[cpu]}) s);;
  lift (bail_if (negb present) NotMapped).

Definition destroy (space : Capability) : op AddressSpace MapError unit :=
  lift (require_space space);;
  busy ← reads (λ s, negb (bool_decide (active_cpus s = ∅))
                     || negb (bool_decide (mappings s = ∅)));
  lift (bail_if busy Active);;
  modify set_destroyed.

(** ** User copies *)

Record UserMemory : Type := MkMemory { bytes : gmap Z Z }.

Definition memory_new : UserMemory := MkMemory ∅.

Definition byte (m : UserMemory) (physical : Z) : option Z := bytes m !! physical.

Definition put_byte (physical value : Z) (m : UserMemory) : UserMemory :=
  MkMemory (<[physical := value]> (bytes m)).

(** The loop of [initialize], from a given offset. *)
Fixpoint initialize_loop (physical offset : Z) (data : list Z)
    : op UserMemory MapError unit :=
  match data with
  | [] => mret ()
  | value :: rest =>
    address ← lift (ok_or RangeOverflow (checked_add 64 physical offset));
    modify (put_byte address value);;
    initialize_loop physical (offset + 1) rest
  end.

Definition initialize (physical : Z) (data : list Z) : op UserMemory MapError unit :=
  initialize_loop physical 0 data.

Fixpoint validate_user_loop (s : AddressSpace) (start offset : Z) (len : nat)
    (right : PagePermissions) : res MapError (list Z) :=
  match len with
  | O => Ok []
  | S n =>
    va ← ok_or RangeOverflow (checked_add 64 start offset);
    '(physical, perms) ← translate s va;
    bail_if (negb (perms_contains perms (perms_union P_USER right))) UserFault;;
    rest ← validate_user_loop s start (offset + 1) n right;
    Ok (physical :: rest)
  end.

Definition validate_user_range (s : AddressSpace) (start : Z) (len : nat)
    (right : PagePermissions) : res MapError (list Z) :=
  validate_user_loop s start 0 len right.

Fixpoint fetch_all (m : UserMemory) (addresses : list Z) : res MapError (list Z) :=
  match addresses with
  | [] => Ok []
  | physical :: rest =>
    value ← ok_or UserFault (bytes m !! physical);
    staged ← fetch_all m rest;
    Ok (value :: staged)
  end.

(** The caller's output slice is the state; it is overwritten in one step. *)
Definition copy_from_user (s : AddressSpace) (m : UserMemory) (user_address : Z)
    : op (list Z) MapError unit :=
  addresses ← readr (λ output, validate_user_range s user_address (length output) P_READ);
  staged ← lift (fetch_all m addresses);
  modify (λ _, staged).

Definition store_all (writes : list (Z * Z)) (m : UserMemory) : UserMemory :=
  foldl (λ m w, put_byte w.1 w.2 m) m writes.

Definition copy_to_user (s : AddressSpace) (user_address : Z) (input : list Z)
    : op UserMemory MapError unit :=
  addresses ← lift (validate_user_range s user_address (length input) P_WRITE);
  modify (store_all (zip addresses input)).

(** ** The temporary mapping window *)

Record TemporaryMapping : Type := MkTemporary {
  t_virtual_base : Z;
  t_physical_base : Z;
  t_len : Z;
  t_generation : Z;
}.

#[global] Instance TemporaryMapping_eq_dec : EqDecision TemporaryMapping.
Proof. solve_decision. Defined.

Record TemporaryMapWindow : Type := MkWindow {
  w_base : Z;
  w_len : Z;
  next_generation : Z;
  active : option TemporaryMapping;
}.

Definition window_new (base len : Z) : TemporaryMapWindow := MkWindow base len 1 None.

Definition set_window_active (a : option TemporaryMapping) (w : TemporaryMapWindow)
    : TemporaryMapWindow := MkWindow (w_base w) (w_len w) (next_generation w) a.
Definition set_next_generation (g : Z) (w : TemporaryMapWindow) : TemporaryMapWindow :=
  MkWindow (w_base w) (w_len w) g (active w).

Definition window_map (window physical : Capability)
    : op TemporaryMapWindow MapError TemporaryMapping :=
  lift (bail_if (negb (bool_decide (cap_kind window = VirtRegion)))
          WrongWindowCapability);;
  lift (bail_if (negb (rights_contains (cap_rights window) MAP)
                 || negb (rights_contains (cap_rights physical) READ)) MissingRights);;
  full ← reads (λ w, bool_decide (is_Some (active w)));
  lift (bail_if full WindowFull);;
  outside ← reads (λ w, (w_len w <? cap_len physical)
                        || negb (contains_range window (w_base w) (cap_len physical)));
  lift (bail_if outside OutOfRange);;
  mapping ← reads (λ w, MkTemporary (w_base w) (cap_base physical) (cap_len physical)
                          (next_generation w));
  modify (set_window_active (Some mapping));;
  mret mapping.

Definition window_revoke (mapping : TemporaryMapping) : op TemporaryMapWindow MapError unit :=
  stale ← reads (λ w, negb (bool_decide (active w = Some mapping)));
  lift (bail_if stale StaleGeneration);;
  modify (set_window_active None);;
  next ← readr (λ w, ok_or EpochOverflow (checked_add 64 (next_generation w) 1));
  modify (set_next_generation next).

(** ** Calls on an address space *)

Inductive call : Type :=
| Map (space frames : Capability) (vbase : Z) (size : PageSize) (n : Z) (perms : PagePermissions)
| Unmap (vbase : Z)
| Protect (space : Capability) (vbase : Z) (perms : PagePermissions)
| Activate (space : Capability) (cpu : Z)
| Deactivate (space : Capability) (cpu : Z)
| Destroy (space : Capability).

Definition exec (c : call) (s : AddressSpace) : AddressSpace :=
  match c with
  | Map space frames vbase size n perms => (map space frames vbase size n perms s).2
  | Unmap vbase => (unmap vbase s).2
  | Protect space vbase perms => (protect space vbase perms s).2
  | Activate space cpu => (activate space cpu s).2
  | Deactivate space cpu => (deactivate space cpu s).2
  | Destroy space => (destroy space s).2
  end.

(** The addresses and page counts a call passes are [u64] values. *)
Definition call_typed (c : call) : Prop :=
  match c with
  | Map _ frames vbase _ n perms =>
      u64 (cap_base frames) ∧ u64 (cap_len frames) ∧ u64 vbase ∧ u64 n ∧ u8 (perm_bits perms)
  | _ => True
  end.

(** ** Abstract view: a partial function from canonical addresses *)

Definition m_bytes (m : Mapping) : Z := page_bytes (page_size m) * pages m.

Definition spans (m : Mapping) (va : Z) : Prop :=
  virtual_base m ≤ va < virtual_base m + m_bytes m.

Record mapping_ok (k : Z) (m : Mapping) : Prop := {
  mok_base : virtual_base m = k;
  mok_pages : 0 < pages m;
  mok_range : 0 ≤ k ∧ k + m_bytes m < 2 ^ 64;
  mok_phys : 0 ≤ physical_base m ∧ physical_base m + m_bytes m < 2 ^ 64;
  mok_align : virtual_base m mod page_bytes (page_size m) = 0 ∧
              physical_base m mod page_bytes (page_size m) = 0;
}.

Record inv (s : AddressSpace) : Prop := {
  inv_mapping : ∀ k m, mappings s !! k = Some m → mapping_ok k m;
  inv_disjoint : ∀ k1 k2 m1 m2 va,
    mappings s !! k1 = Some m1 → mappings s !! k2 = Some m2 →
    spans m1 va → spans m2 va → k1 = k2;
  inv_destroyed : destroyed s = true → mappings s = ∅;
}.

End Memory.
