(* ===== verification/MemoryProps.v ===== *)
(** * Address spaces: invariant, translation and user copies

    The invariant of [Memory.inv] over every sequence of calls, the effect of
    [map] and [unmap] on the translation function, and the guarantees of the
    user copy routines and of the temporary window. *)
From S2P Require Import Prelude Capability Memory.

Module MemoryProps.
Import Memory.

(** ** Invariant *)

Lemma page_bytes_pos p : 0 < page_bytes p.
Proof. by destruct p. Qed.

Lemma overlaps_false k m vbase end_ :
  mapping_ok k m → end_ < 2 ^ 64 → vbase < end_ →
  mapping_overlaps vbase end_ m = false →
  ∀ va, vbase ≤ va < end_ → ¬ spans m va.
Proof.
  intros [Hb Hp Hr _ _] He Hv. unfold mapping_overlaps, saturating_mul, saturating_add, umax.
  fold (m_bytes m). pose proof (page_bytes_pos (page_size m)).
  rewrite !Z.min_l by (unfold m_bytes in *; lia).
  intros Hno va Hva Hs. unfold spans in Hs.
  apply andb_false_iff in Hno as [Hno|Hno]; zb; lia.
Qed.

Lemma space_inv_new : inv space_new.
Proof. split; cbn; [set_solver..|done]. Qed.

(** What a successful [map] checked and did. *)
Lemma map_Ok space frames vbase size n perms s m s' :
  map space frames vbase size n perms s = (Ok m, s') →
  m = MkMapping vbase (cap_base frames) size n perms (epoch s + 1) ∧
  s' = MkSpace (<[vbase := m]> (mappings s)) (epoch s + 1) (active_cpus s) (destroyed s) ∧
  destroyed s = false ∧ is_canonical_x86_64 vbase = true ∧
  n ≠ 0 ∧ perm_bits perms ≠ 0 ∧
  cap_kind space = AddressSpaceKind ∧
  rights_contains (cap_rights space) MAP = true ∧
  rights_contains (cap_rights frames) READ = true ∧
  contains_range frames (cap_base frames) (page_bytes size * n) = true ∧
  vbase mod page_bytes size = 0 ∧ cap_base frames mod page_bytes size = 0 ∧
  vbase + page_bytes size * n < 2 ^ 64 ∧
  existsb (mapping_overlaps vbase (vbase + page_bytes size * n))
    (values (mappings s)) = false.
Proof.
  unfold map, advance_epoch. intros H. op_inv H.
  guards. split_and!; try done.
Qed.

Lemma mapping_bytes_pos size n : u64 n → n ≠ 0 → 0 < page_bytes size * n.
Proof. intros. apply Z.mul_pos_pos; [apply page_bytes_pos|ulia]. Qed.

Lemma spans_base k m : mapping_ok k m → spans m k.
Proof.
  intros [<- Hp _ _ _]. unfold spans, m_bytes. pose proof (page_bytes_pos (page_size m)). lia.
Qed.

(** [map] only succeeds on a range no mapping touches; so its key is new. *)
Lemma map_Ok_disjoint s space frames vbase size n perms m s' :
  inv s → u64 n → map space frames vbase size n perms s = (Ok m, s') →
  (∀ k m' va, mappings s !! k = Some m' → spans m va → ¬ spans m' va) ∧
  mappings s !! vbase = None.
Proof.
  intros Hinv Hn (-> & _ & _ & _ & Hn0 & _ & _ & _ & _ & _ & _ & _ & He & Hov)%map_Ok.
  pose proof (mapping_bytes_pos size n Hn Hn0) as Hpos.
  assert (∀ k m' va, mappings s !! k = Some m' →
    vbase ≤ va < vbase + page_bytes size * n → ¬ spans m' va) as Hnew.
  { intros k m' va Hk Hva. eapply (overlaps_false k m' vbase); [by eapply inv_mapping|..].
    - exact He.
    - lia.
    - by eapply existsb_values.
    - exact Hva. }
  split; [exact Hnew|]. destruct (mappings s !! vbase) as [m'|] eqn:Hk; [|done].
  destruct (Hnew vbase m' vbase Hk); [lia|]. by apply spans_base, (inv_mapping s Hinv).
Qed.

Lemma map_inv s space frames vbase size n perms m s' :
  inv s → u64 (cap_base frames) → u64 vbase → u64 n →
  map space frames vbase size n perms s = (Ok m, s') → inv s'.
Proof.
  intros Hinv Hcb Hvb Hn Hmap. destruct (map_Ok_disjoint _ _ _ _ _ _ _ _ _ Hinv Hn Hmap) as [Hnew _].
  apply map_Ok in Hmap as (-> & -> & Hd & _ & Hn0 & _ & _ & _ & _ & Hc & Ha1 & Ha2 & He & Hov).
  pose proof (mapping_bytes_pos size n Hn Hn0) as Hpos.
  apply contains_range_spec in Hc as (_ & Hc & Hc').
  set (m := MkMapping _ _ _ _ _ _) in *.
  assert (mapping_ok vbase m) as Hm.
  { split; cbn; unfold m_bytes; cbn; split_and?; first [done | ulia]. }
  split; cbn.
  - intros k m'. rewrite lookup_insert_Some. intros [[<- <-]|[_ Hk]]; [done|].
    by eapply inv_mapping.
  - intros k1 k2 m1 m2 va. rewrite !lookup_insert_Some.
    intros [[<- <-]|[? H1]] [[<- <-]|[? H2]] Hs1 Hs2; [done|..].
    + by destruct (Hnew k2 m2 va).
    + by destruct (Hnew k1 m1 va).
    + by eapply inv_disjoint.
  - by rewrite Hd.
Qed.

(** Dropping a mapping, or changing only its permissions and epoch, is safe. *)
Lemma inv_delete s k e : inv s → inv (MkSpace (delete k (mappings s)) e (active_cpus s) (destroyed s)).
Proof.
  intros [H1 H2 H3]. split; cbn.
  - intros k' m [? Hk]%lookup_delete_Some. eauto.
  - intros k1 k2 m1 m2 va [? ?]%lookup_delete_Some [? ?]%lookup_delete_Some. eauto.
  - intros Hd. rewrite (H3 Hd). apply delete_empty.
Qed.

Lemma inv_update s k m m' e :
  inv s → mappings s !! k = Some m →
  virtual_base m' = virtual_base m → physical_base m' = physical_base m →
  page_size m' = page_size m → pages m' = pages m →
  inv (MkSpace (<[k := m']> (mappings s)) e (active_cpus s) (destroyed s)).
Proof.
  intros [H1 H2 H3] Hk Hv Hp Hs Hn.
  assert (m_bytes m' = m_bytes m) as Hb by (unfold m_bytes; congruence).
  split; cbn.
  - intros k' m'' [[<- <-]|[_ ?]]%lookup_insert_Some; [|by eauto].
    destruct (H1 _ _ Hk). split; rewrite ?Hv, ?Hp, ?Hs, ?Hn, ?Hb; done.
  - assert (∀ va, spans m' va ↔ spans m va) as Hsp by (intros; unfold spans; by rewrite Hv, Hb).
    intros k1 k2 m1 m2 va [[<- <-]|[? ?]]%lookup_insert_Some [[<- <-]|[? ?]]%lookup_insert_Some;
      rewrite ?Hsp; eauto.
  - intros Hd. by rewrite (H3 Hd), lookup_empty in Hk.
Qed.

Lemma inv_set_epoch s e a : inv s → inv (MkSpace (mappings s) e a (destroyed s)).
Proof. intros [H1 H2 H3]. by split. Qed.

(** [map] fails closed: its only mutation follows every check. *)
Lemma map_fail_closed space frames vbase size n perms :
  FailClosed (map space frames vbase size n perms).
Proof.
  unfold map, advance_epoch. solve_fail_closed.
Qed.

Lemma map_no_panic space frames vbase size n perms :
  NoPanic (map space frames vbase size n perms).
Proof. unfold map, advance_epoch. solve_no_panic. Qed.

Lemma space_exec_inv c s : call_typed c → inv s → inv (exec c s).
Proof.
  intros Hc Hs. destruct c as [space frames vbase size n perms|vbase|space vbase perms|space cpu|space cpu|space];
    cbn [exec].
  - destruct Hc as (Hcb & _ & Hvb & Hn & _).
    destruct (map space frames vbase size n perms s) as [[m|e|] s'] eqn:Hm; cbn.
    + apply (map_inv s space frames vbase size n perms m s' Hs Hcb Hvb Hn Hm).
    + by rewrite (map_fail_closed _ _ _ _ _ _ _ _ _ Hm).
    + exfalso. by apply (map_no_panic space frames vbase size n perms s); rewrite Hm.
  - unfold unmap, advance_epoch. op_cases; try done; by apply (inv_delete s vbase).
  - unfold protect, advance_epoch. op_cases; try done; [|by apply (inv_set_epoch s)].
    by eapply (inv_update s).
  - unfold activate, require_space. op_cases; try done; by apply (inv_set_epoch s).
  - unfold deactivate, require_space. op_cases; try done; by apply (inv_set_epoch s).
  - unfold destroy, require_space. op_cases; try done.
    guards. destruct Hs. by split.
Qed.

(** A space reached by any calls with arguments of their machine types. *)
Definition reachable (s : AddressSpace) : Prop :=
  reach (λ c : sig call_typed, exec (`c)) space_new s.

Lemma space_reachable_inv s : reachable s → inv s.
Proof.
  apply reach_invariant; [|apply space_inv_new]. intros [c Hc] t. by apply space_exec_inv.
Qed.

(** ** Translation *)

Lemma translate_loop_cases l va :
  (∀ m, m ∈ l → ∃ k, mapping_ok k m) →
  (∃ m, m ∈ l ∧ spans m va ∧
     translate_loop l va = Ok (physical_base m + (va - virtual_base m), permissions m)) ∨
  ((∀ m, m ∈ l → ¬ spans m va) ∧ translate_loop l va = Err NotMapped).
Proof.
  induction l as [|m l IH]; intros Hl; [right; split; [set_solver|done]|].
  destruct (Hl m) as [k [Hb _ Hr Hp _]]; [set_solver|]. cbn.
  fold (m_bytes m). unfold checked_mul, checked_add. subst k. fold (m_bytes m).
  rewrite (proj2 (Z.ltb_lt (m_bytes m) _)) by lia. cbn. fold (m_bytes m).
  rewrite (proj2 (Z.ltb_lt (virtual_base m + _) _)) by lia. cbn.
  destruct (decide (spans m va)) as [Hs|Hs]; unfold spans in Hs.
  - left. exists m. split_and!; [set_solver|done|]. unfold usub, uadd.
    rewrite !(proj2 (Z.leb_le _ _)), !(proj2 (Z.ltb_lt _ _)) by lia. cbn.
    by rewrite (proj2 (Z.ltb_lt _ _)) by lia.
  - replace ((virtual_base m <=? va) && (va <? virtual_base m + m_bytes m)) with false
      by (symmetry; apply andb_false_iff; zb; lia).
    destruct IH as [(m' & ? & ? & ->)|[? ->]]; [set_solver| |].
    + left. exists m'. split_and!; [set_solver|done..].
    + right. split; [|done]. intros m' [->|?]%elem_of_cons; [done|auto].
Qed.

Section translate.
Context (s : AddressSpace) (va : Z).
Hypothesis Hinv : inv s.
Hypothesis Hlive : destroyed s = false.
Hypothesis Hva : is_canonical_x86_64 va = true.

Lemma translate_cases :
  (∃ k m, mappings s !! k = Some m ∧ spans m va ∧
     translate s va = Ok (physical_base m + (va - k), permissions m)) ∨
  ((∀ k m, mappings s !! k = Some m → ¬ spans m va) ∧ translate s va = Err NotMapped).
Proof using Hinv Hlive Hva.
  unfold translate. rewrite Hlive, Hva. cbn.
  destruct (translate_loop_cases (values (mappings s)) va) as [(m & Hm & Hs & ->)|[Hno ->]].
  - intros m [k Hk]%elem_of_values. exists k. by apply (inv_mapping s Hinv).
  - apply elem_of_values in Hm as [k Hk]. left. exists k, m.
    pose proof (mok_base _ _ (inv_mapping s Hinv k m Hk)) as Hb. by rewrite Hb.
  - right. split; [|done]. intros k m Hk. apply Hno, elem_of_values. by exists k.
Qed.

Lemma translate_mapped k m :
  mappings s !! k = Some m → spans m va →
  translate s va = Ok (physical_base m + (va - k), permissions m).
Proof using Hinv Hlive Hva.
  intros Hk Hs. destruct translate_cases as [(k' & m' & Hk' & Hs' & ->)|[Hno _]].
  - assert (k' = k) as -> by (by eapply (inv_disjoint s Hinv)). by simplify_eq.
  - by destruct (Hno k m).
Qed.

Lemma translate_unmapped :
  (∀ k m, mappings s !! k = Some m → ¬ spans m va) → translate s va = Err NotMapped.
Proof using Hinv Hlive Hva.
  intros Hno. destruct translate_cases as [(k & m & Hk & Hs & _)|[_ ?]]; [|done].
  by destruct (Hno k m).
Qed.
End translate.

(** Two live spaces with the same mapping over an address agree on it. *)
Lemma translate_ext s s' va :
  inv s → inv s' → destroyed s = false → destroyed s' = false →
  is_canonical_x86_64 va = true →
  (∀ k m, spans m va → mappings s' !! k = Some m ↔ mappings s !! k = Some m) →
  translate s' va = translate s va.
Proof.
  intros H H' Hd Hd' Hc Hext. destruct (translate_cases s va H Hd Hc) as [(k & m & Hk & Hs & ->)|[Hno ->]].
  - apply translate_mapped; [done..| |done]. by apply Hext.
  - apply translate_unmapped; [done..|]. intros k m Hk Hs. apply Hext in Hk; [|done]. by apply (Hno k m).
Qed.

Lemma translate_reachable s va :
  inv s → translate s va = Err Destroyed ∨ translate s va = Err NonCanonical ∨
  translate s va = Err NotMapped ∨
  ∃ k m, mappings s !! k = Some m ∧ spans m va ∧
    translate s va = Ok (physical_base m + (va - k), permissions m).
Proof.
  intros Hinv. unfold translate at 1 2.
  destruct (destroyed s) eqn:Hd; [by left|].
  destruct (is_canonical_x86_64 va) eqn:Hc; [|by right; left].
  destruct (translate_cases s va Hinv Hd Hc) as [?|[_ ?]]; auto.
Qed.

(** C3. In every address space reached by any calls on typed arguments, no virtual
    address is covered by two mappings, and translation never panics and never meets
    an overflowing range: it gives the physical address of the one mapping that covers
    the address, inside that mapping's physical range, or one of the three refusals. *)
Theorem address_space_reachable_safe s va :
  reachable s →
  (∀ k1 k2 m1 m2, mappings s !! k1 = Some m1 → mappings s !! k2 = Some m2 →
     spans m1 va → spans m2 va → k1 = k2) ∧
  match translate s va with
  | Ok (pa, perms) => ∃ k m, mappings s !! k = Some m ∧ spans m va ∧
      perms = permissions m ∧ pa - physical_base m = va - virtual_base m ∧
      physical_base m ≤ pa < physical_base m + m_bytes m ∧ u64 pa
  | Err e => e = Destroyed ∨ e = NonCanonical ∨ e = NotMapped
  | Panic => False
  end.
Proof.
  intros Hinv%space_reachable_inv. split; [intros; by eapply inv_disjoint|].
  destruct (translate_reachable s va Hinv) as [->|[->|[->|(k & m & Hk & Hs & ->)]]]; [naive_solver..|].
  exists k, m. destruct (inv_mapping s Hinv k m Hk) as [<- _ ? ? _]. unfold spans in *.
  split_and!; try done; ulia.
Qed.

(** A space with one 4 KiB user page at [0x1000] and one 2 MiB page at [0x200000]. *)
Definition demo_space_cap : Capability := MkCapability AddressSpaceKind 0 0 ALL 0 0 0.
Definition demo_frame (base len : Z) : Capability := MkCapability Frame 1 0 ALL 0 base len.
Definition demo_perms : PagePermissions := perms_union P_USER (perms_union P_READ P_WRITE).
Definition demo_call_1 : call :=
  Map demo_space_cap (demo_frame 65536 8192) 4096 Size4K 1 demo_perms.
Definition demo_call_2 : call :=
  Map demo_space_cap (demo_frame 2097152 2097152) 2097152 Size2M 1 (perms_union P_USER P_READ).
Definition demo_space : AddressSpace := exec demo_call_2 (exec demo_call_1 space_new).

Lemma demo_reachable : reachable demo_space.
Proof.
  assert (call_typed demo_call_1) as H1 by (by vm_compute).
  assert (call_typed demo_call_2) as H2 by (by vm_compute).
  pose (step := λ c : sig call_typed, exec (`c)).
  exact (reach_step step space_new (demo_call_2 ↾ H2) _
    (reach_step step space_new (demo_call_1 ↾ H1) _ (reach_refl step space_new))).
Qed.

Lemma address_space_reachable_safe_witness :
  translate demo_space 4100 = Ok (65540, demo_perms) ∧
  ∀ k1 k2 m1 m2, mappings demo_space !! k1 = Some m1 → mappings demo_space !! k2 = Some m2 →
    spans m1 4100 → spans m2 4100 → k1 = k2.
Proof.
  split; [vm_compute; reflexivity|].
  exact (proj1 (address_space_reachable_safe demo_space 4100 demo_reachable)).
Defined.

(** C24. A successful [map] adds exactly its range to the translation function: a canonical
    address inside translates into the frame capability's range with the requested
    permissions, every other canonical address translates as before, and an address that is
    not canonical is refused as such, even inside the range. *)
Theorem map_translates_exactly s space frames vbase size n perms m s' va :
  reachable s → u64 (cap_base frames) → u64 vbase → u64 n →
  map space frames vbase size n perms s = (Ok m, s') →
  translate s' va =
    if is_canonical_x86_64 va then
      if bool_decide (vbase ≤ va < vbase + page_bytes size * n)
      then Ok (cap_base frames + (va - vbase), perms) else translate s va
    else Err NonCanonical.
Proof.
  intros Hinv%space_reachable_inv Hcb Hvb Hn Hmap.
  pose proof (map_inv _ _ _ _ _ _ _ _ _ Hinv Hcb Hvb Hn Hmap) as Hinv'.
  pose proof (proj2 (map_Ok_disjoint _ _ _ _ _ _ _ _ _ Hinv Hn Hmap)) as Hfresh.
  apply map_Ok in Hmap as (-> & -> & Hd & _). destruct (is_canonical_x86_64 va) eqn:Hva.
  2:{ unfold translate. rewrite Hva. cbn [destroyed]. by rewrite Hd. }
  case_bool_decide as Hr.
  - set (s' := MkSpace _ _ _ _) in *.
    by rewrite (translate_mapped s' va Hinv' Hd Hva vbase _ (lookup_insert_eq _ _ _) Hr).
  - apply translate_ext; [done..|]. cbn. intros k m Hs.
    destruct (decide (k = vbase)) as [->|Hne]; [|by rewrite lookup_insert_ne].
    rewrite lookup_insert_eq, Hfresh. split; [|done]. intros [= <-]. by destruct Hr.
Qed.

Lemma map_translates_exactly_witness :
  let r := map demo_space_cap (demo_frame 131072 8192) 8192 Size4K 2 demo_perms demo_space in
  translate r.2 12289 = Ok (135169, demo_perms) ∧ translate r.2 4100 = Ok (65540, demo_perms).
Proof.
  pose (f := demo_frame 131072 8192).
  assert (∀ m s', map demo_space_cap f 8192 Size4K 2 demo_perms demo_space = (Ok m, s') →
    translate s' 12289 = Ok (135169, demo_perms) ∧ translate s' 4100 = Ok (65540, demo_perms)) as H.
  { intros m s' Hm. split.
    - rewrite (map_translates_exactly demo_space demo_space_cap f 8192 Size4K 2 demo_perms m s'
        12289 demo_reachable); [vm_compute; reflexivity|clear; by vm_compute..|exact Hm].
    - rewrite (map_translates_exactly demo_space demo_space_cap f 8192 Size4K 2 demo_perms m s'
        4100 demo_reachable); [vm_compute; reflexivity|clear; by vm_compute..|exact Hm]. }
  apply (H (MkMapping 8192 131072 Size4K 2 demo_perms 3)). vm_compute. reflexivity.
Defined.

(** [map] checks that the base of the range is canonical, not that the range is: two pages at
    the last canonical page of the lower half are mapped, and the second one can never be
    translated. *)
Theorem map_reaches_noncanonical :
  let r := map demo_space_cap (demo_frame 131072 8192) 0x7ffffffff000 Size4K 2 demo_perms space_new in
  (∃ m, r.1 = Ok m) ∧ translate r.2 0x7ffffffff000 = Ok (131072, demo_perms) ∧
  translate r.2 0x800000000000 = Err NonCanonical.
Proof. vm_compute. split_and!; [by eexists|done..]. Qed.

(** ** [unmap] *)

Lemma unmap_Ok vbase s m s' :
  unmap vbase s = (Ok m, s') →
  destroyed s = false ∧ mappings s !! vbase = Some m ∧
  s' = MkSpace (delete vbase (mappings s)) (epoch s + 1) (active_cpus s) (destroyed s).
Proof. unfold unmap, advance_epoch. intros H. op_inv H. guards. by split_and!. Qed.

(** Mapping and unmapping round trip: unmapping a base that [map] has just mapped
    succeeds unless the epoch is exhausted, returns the very mapping, and leaves every
    address translating as it did before the [map]; a stale second [unmap] is refused. *)
Theorem unmap_undoes_map s space frames vbase size n perms m s1 :
  reachable s → u64 (cap_base frames) → u64 vbase → u64 n →
  map space frames vbase size n perms s = (Ok m, s1) → epoch s1 + 1 < 2 ^ 64 →
  ∃ s2, unmap vbase s1 = (Ok m, s2) ∧ mappings s2 = mappings s ∧
    (∀ va, translate s2 va = translate s va) ∧
    unmap vbase s2 = (Err NotMapped, s2).
Proof.
  intros Hinv%space_reachable_inv Hcb Hvb Hn Hmap He.
  pose proof (proj2 (map_Ok_disjoint _ _ _ _ _ _ _ _ _ Hinv Hn Hmap)) as Hfresh.
  apply map_Ok in Hmap as (Hm & -> & Hd & _). cbn in He.
  assert (delete vbase (<[vbase:=m]> (mappings s)) = mappings s) as Hdel
    by (by rewrite delete_insert_id).
  exists (MkSpace (mappings s) (epoch s + 1 + 1) (active_cpus s) false).
  split_and!; [|done| |].
  - unfold unmap, advance_epoch. op_unfold. cbn. rewrite Hd, lookup_insert_eq. cbn.
    rewrite (proj2 (Z.ltb_lt _ _) He). cbn. unfold set_epoch, set_mappings. cbn.
    by rewrite Hdel.
  - intros va. unfold translate. cbn. by rewrite Hd.
  - unfold unmap. op_unfold. cbn. by rewrite Hfresh.
Qed.

Lemma unmap_undoes_map_witness :
  let r := map demo_space_cap (demo_frame 131072 8192) 8192 Size4K 2 demo_perms demo_space in
  ∃ s2, unmap 8192 r.2 = (Ok (MkMapping 8192 131072 Size4K 2 demo_perms 3), s2) ∧
    mappings s2 = mappings demo_space ∧ (∀ va, translate s2 va = translate demo_space va) ∧
    unmap 8192 s2 = (Err NotMapped, s2).
Proof.
  intros r. apply (unmap_undoes_map demo_space demo_space_cap (demo_frame 131072 8192) 8192
    Size4K 2 demo_perms _ _ demo_reachable); clear; vm_compute; done.
Defined.

(** ** User copies *)

Lemma perms_contains_union a b c :
  perms_contains a (perms_union b c) = perms_contains a b && perms_contains a c.
Proof.
  exact (rights_contains_union (MkRights (perm_bits a)) (MkRights (perm_bits b))
    (MkRights (perm_bits c))).
Qed.

Lemma validate_user_loop_S s start off len right l :
  validate_user_loop s start off (S len) right = Ok l ↔
  ∃ p perms rest, l = p :: rest ∧ start + off < 2 ^ 64 ∧
    translate s (start + off) = Ok (p, perms) ∧
    perms_contains perms P_USER = true ∧ perms_contains perms right = true ∧
    validate_user_loop s start (off + 1) len right = Ok rest.
Proof.
  cbn. split.
  - intros (va & [-> Hlt]%ok_or_Ok%checked_add_Some & H)%res_bind_Ok.
    apply res_bind_Ok in H as ([p perms] & Htr & H).
    apply res_bind_Ok in H as (u & Hu%bail_if_Ok & H).
    apply res_bind_Ok in H as (rest & Hrest & H). injection H as <-.
    rewrite perms_contains_union in Hu. guards. naive_solver.
  - intros (p & perms & rest & -> & Hlt & Htr & Hu & Hc & Hrest).
    unfold checked_add. rewrite (proj2 (Z.ltb_lt _ _) Hlt). cbn.
    rewrite Htr. cbn. rewrite perms_contains_union, Hu, Hc. cbn. by rewrite Hrest.
Qed.

Lemma validate_user_loop_Ok s start off len right l :
  validate_user_loop s start off len right = Ok l →
  length l = len ∧
  ∀ (i : nat) p, l !! i = Some p → ∃ perms,
    translate s (start + (off + i)) = Ok (p, perms) ∧
    perms_contains perms P_USER = true ∧ perms_contains perms right = true.
Proof.
  revert off l. induction len as [|len IH]; intros off l H; [by simplify_eq/=|].
  apply validate_user_loop_S in H as (p & perms & rest & -> & _ & Htr & Hu & Hc & Hrest).
  apply IH in Hrest as [Hlen Hrest]. split; [cbn; by rewrite Hlen|].
  intros [|i] p' Hi; cbn in Hi.
  - simplify_eq. exists perms. by rewrite Z.add_0_r.
  - destruct (Hrest i p' Hi) as (perms' & Hr). exists perms'.
    by replace (off + S i)%Z with (off + 1 + i) by lia.
Qed.

Lemma store_all_lookup writes m p :
  bytes (store_all writes m) !! p ≠ bytes m !! p → p ∈ writes.*1.
Proof.
  revert m. induction writes as [|[q v] ws IH]; cbn; intros m; [done|].
  intros H. destruct (decide (p = q)) as [->|Hne]; [set_solver|].
  apply elem_of_cons. right. apply (IH (put_byte q v m)). cbn. by rewrite lookup_insert_ne.
Qed.

Lemma store_all_get writes m i p v :
  NoDup writes.*1 → writes !! i = Some (p, v) → bytes (store_all writes m) !! p = Some v.
Proof.
  revert m i. induction writes as [|[q w] ws IH]; cbn; intros m i Hnd Hi; [done|].
  apply NoDup_cons in Hnd as [Hq Hnd]. destruct i as [|i]; cbn in Hi; [|by eapply IH].
  simplify_eq. destruct (decide (bytes (store_all ws (put_byte p v m)) !! p = Some v)) as [|Hne]; [done|].
  destruct Hq. apply (store_all_lookup ws (put_byte p v m)). cbn. by rewrite lookup_insert_eq.
Qed.

(** C28. A copy to user memory is all or nothing and confined: on any error the memory
    is untouched; on success the only bytes that may change are those that a mapping
    with both the USER and WRITE permissions places in the destination range. *)
Theorem copy_to_user_confined s ua input m r m' :
  copy_to_user s ua input m = (r, m') →
  (r = Ok () ∧ ∀ p, byte m' p ≠ byte m p →
     ∃ va perms, ua ≤ va < ua + length input ∧ translate s va = Ok (p, perms) ∧
       perms_contains perms P_USER = true ∧ perms_contains perms P_WRITE = true) ∨
  (r ≠ Ok () ∧ m' = m).
Proof.
  unfold copy_to_user. op_unfold. cbn.
  destruct (validate_user_range s ua (length input) P_WRITE) as [l|e|] eqn:Hv; cbn;
    intros [= <- <-]; [left|right; done..].
  split; [done|]. intros p Hp%store_all_lookup.
  apply validate_user_loop_Ok in Hv as [Hlen Hv].
  rewrite fst_zip in Hp by lia. apply list_elem_of_lookup in Hp as [i Hi].
  destruct (Hv i p Hi) as (perms & Htr & Hu & Hc).
  apply lookup_lt_Some in Hi. exists (ua + i), perms. split_and!; (lia || done).
Qed.

Lemma copy_to_user_confined_witness :
  let r := copy_to_user demo_space 4096 [7; 8] memory_new in
  r.1 = Ok () ∧ byte r.2 65537 = Some 8 ∧
  ∀ p, byte r.2 p ≠ byte memory_new p →
    ∃ va perms, 4096 ≤ va < 4096 + 2%nat ∧ translate demo_space va = Ok (p, perms) ∧
      perms_contains perms P_USER = true ∧ perms_contains perms P_WRITE = true.
Proof.
  intros r. split_and!; [vm_compute; reflexivity..|].
  destruct (copy_to_user_confined demo_space 4096 [7; 8] memory_new r.1 r.2
    (surjective_pairing r)) as [[_ H]|[H _]]; [exact H|].
  destruct H. vm_compute. reflexivity.
Defined.

(** The address list depends on the required right only through the final test. *)
Lemma validate_user_loop_right s start off len right right' l :
  validate_user_loop s start off len right = Ok l →
  (∀ i : nat, (i < len)%nat → ∃ p perms,
     translate s (start + (off + i)) = Ok (p, perms) ∧ perms_contains perms right' = true) →
  validate_user_loop s start off len right' = Ok l.
Proof.
  revert off l. induction len as [|len IH]; intros off l H Hr; [done|].
  apply validate_user_loop_S in H as (p & perms & rest & -> & Hlt & Htr & Hu & _ & Hrest).
  apply validate_user_loop_S. exists p, perms, rest. split_and!; try done.
  - destruct (Hr 0%nat) as (p' & perms' & Htr' & Hc); [lia|].
    rewrite Z.add_0_r, Htr in Htr'. by injection Htr' as -> ->.
  - apply IH; [done|]. intros i Hi. destruct (Hr (S i)) as (q & pq & Hq); [lia|].
    exists q, pq. by replace (off + 1 + i) with (off + S i) by lia.
Qed.

Lemma fetch_all_zip addresses input m :
  length addresses = length input →
  (∀ (i : nat) p v, zip addresses input !! i = Some (p, v) → bytes m !! p = Some v) →
  fetch_all m addresses = Ok input.
Proof.
  revert input. induction addresses as [|p ps IH]; intros [|v vs]; cbn; intros Hl H; try done.
  rewrite (H 0%nat p v eq_refl). cbn. rewrite (IH vs); [done|lia|].
  intros i q w Hi. exact (H (S i) q w Hi).
Qed.

(** What is copied to user memory is what is read back: after a successful
    [copy_to_user] over pages that are also readable and that no two addresses of the
    range share, [copy_from_user] of the same range succeeds and fills the caller's
    buffer with exactly the input. *)
Theorem copy_roundtrip s ua input m m' output :
  copy_to_user s ua input m = (Ok (), m') →
  length output = length input →
  (∀ i : nat, (i < length input)%nat → ∃ p perms,
     translate s (ua + i) = Ok (p, perms) ∧ perms_contains perms P_READ = true) →
  (∀ (i j : nat) p perms perms', (i < length input)%nat → (j < length input)%nat →
     translate s (ua + i) = Ok (p, perms) → translate s (ua + j) = Ok (p, perms') → i = j) →
  copy_from_user s m' ua output = (Ok (), input).
Proof.
  intros H Hlen Hread Hinj. unfold copy_to_user in H. op_inv H. unfold validate_user_range in *.
  destruct (validate_user_loop_Ok _ _ _ _ _ _ H0) as [Hl Hacc].
  assert (NoDup a) as Hnd.
  { apply NoDup_alt. intros i j p Hi Hj.
    destruct (Hacc i p Hi) as (? & Ti & _), (Hacc j p Hj) as (? & Tj & _).
    apply lookup_lt_Some in Hi, Hj. rewrite Z.add_0_l in Ti, Tj. eapply Hinj; eauto; lia. }
  unfold copy_from_user. op_unfold. rewrite Hlen. unfold validate_user_range.
  rewrite (validate_user_loop_right _ _ _ _ _ P_READ _ H0) by (by setoid_rewrite Z.add_0_l).
  rewrite (fetch_all_zip a input); [done|done|].
  intros i p v Hi. apply (store_all_get _ _ i); [|done]. rewrite fst_zip by lia. done.
Qed.

Lemma copy_roundtrip_witness :
  copy_from_user demo_space (copy_to_user demo_space 4096 [7; 8] memory_new).2 4096 [0; 0]
  = (Ok (), [7; 8]).
Proof.
  assert (∀ i : nat, (i < 2)%nat → translate demo_space (4096 + i) = Ok (65536 + i, demo_perms)) as Ht.
  { intros i Hi. assert (i = 0 ∨ i = 1)%nat as [->| ->] by lia; vm_compute; reflexivity. }
  apply (copy_roundtrip demo_space 4096 [7; 8] memory_new); [vm_compute; reflexivity|done|..].
  - intros i Hi. exists (65536 + i), demo_perms. rewrite (Ht i Hi). done.
  - intros i j p perms perms' Hi Hj. rewrite (Ht i Hi), (Ht j Hj). intros [= <- _] [= ? _]. lia.
Defined.

(** ** The temporary window *)

Inductive wcall : Type :=
| WMap (window physical : Capability)
| WRevoke (mapping : TemporaryMapping).

Definition wexec (c : wcall) (w : TemporaryMapWindow) : TemporaryMapWindow :=
  match c with
  | WMap window physical => (window_map window physical w).2
  | WRevoke mapping => (window_revoke mapping w).2
  end.

(** Generations at or above [g] only: what holds after generation [g - 1] is revoked. *)
Definition past (g : Z) (w : TemporaryMapWindow) : Prop :=
  g ≤ next_generation w ∧ ∀ t, active w = Some t → g ≤ t_generation t.

Lemma wexec_past g c w : past g w → past g (wexec c w).
Proof.
  intros [Hg Ha]. destruct c as [window physical|mapping]; cbn [wexec].
  - unfold window_map. op_unfold. repeat (case_match; simplify_eq/=); split; cbn; try done.
    by intros t [= <-].
  - unfold window_revoke. op_unfold. repeat (case_match; simplify_eq/=); split; cbn; try done; lia.
Qed.

(** The active mapping carries the generation the next revocation retires. *)
Lemma active_generation b l w t :
  reach wexec (window_new b l) w → active w = Some t → t_generation t = next_generation w.
Proof.
  intros Hr. revert t. revert Hr. apply (reach_invariant wexec (λ w, ∀ t, active w = Some t →
    t_generation t = next_generation w)); [|done].
  clear. intros [window physical|mapping] w Hw t; cbn [wexec].
  - unfold window_map. op_unfold. repeat (case_match; simplify_eq/=); naive_solver.
  - unfold window_revoke. op_unfold. repeat (case_match; simplify_eq/=); naive_solver.
Qed.

(** Temporary mappings do not come back: once a mapping handle is revoked, no later
    sequence of [map] and [revoke] calls makes the same handle active again, so a second
    [revoke] of it is always refused with [StaleGeneration] and changes nothing. *)
Theorem revoked_temporary_stays_dead b l w t w1 w2 :
  reach wexec (window_new b l) w → window_revoke t w = (Ok (), w1) →
  reach wexec w1 w2 → active w2 ≠ Some t ∧ window_revoke t w2 = (Err StaleGeneration, w2).
Proof.
  intros Hgen H Hr. unfold window_revoke in H. op_inv H. guards. cbn in *.
  apply active_generation with (t := t) in Hgen; [|done].
  assert (past (t_generation t + 1) w2) as [_ Hp].
  { revert Hr. apply reach_invariant; [intros; by apply wexec_past|].
    rewrite Hgen. split; cbn; [lia|done]. }
  assert (active w2 ≠ Some t) as Hne by (intros Ht; specialize (Hp t Ht); lia).
  split; [done|]. unfold window_revoke. op_unfold. by rewrite bool_decide_false.
Qed.

Lemma revoked_temporary_stays_dead_witness :
  let vm := MkCapability VirtRegion 0 0 ALL 0 0 65536 in
  let t := MkTemporary 4096 65536 4096 1 in
  let w0 := window_new 4096 8192 in
  let w := wexec (WMap vm (demo_frame 65536 4096)) w0 in
  let w1 := wexec (WRevoke t) w in
  let w2 := wexec (WMap vm (demo_frame 65536 4096)) w1 in
  active w = Some t ∧ active w2 ≠ Some t ∧ window_revoke t w2 = (Err StaleGeneration, w2).
Proof.
  intros vm t w0 w w1 w2. split; [vm_compute; reflexivity|].
  apply (revoked_temporary_stays_dead 4096 8192 w t w1 w2).
  - apply (reach_step wexec w0 (WMap vm (demo_frame 65536 4096)) w0). apply reach_refl.
  - vm_compute. reflexivity.
  - apply (reach_step wexec w1 (WMap vm (demo_frame 65536 4096)) w1). apply reach_refl.
Defined.

End MemoryProps.
