(* ===== verification/Smp.v ===== *)
(** * Processors and epochs: [kernel/src/smp.rs]

    CPU lifecycle, inter-processor interrupt epochs and the TLB shootdown
    protocol. *)
From S2P Require Import Prelude.

Module Smp.

Inductive CpuFailure : Type :=
| NoStack | NoLocalStorage | StartupTimeout | DescriptorInstall | InterruptController.

#[global] Instance CpuFailure_eq_dec : EqDecision CpuFailure.
Proof. solve_decision. Defined.

Inductive CpuLifecycle : Type :=
| Discovered | Prepared | Starting | Online | Failed (failure : CpuFailure).

#[global] Instance CpuLifecycle_eq_dec : EqDecision CpuLifecycle.
Proof. solve_decision. Defined.

Record CpuSet : Type := MkCpuSet { members : gset Z }.

Definition from_ids (ids : list Z) : CpuSet := MkCpuSet (list_to_set ids).
Definition cpuset_contains (c : CpuSet) (cpu : Z) : bool := bool_decide (cpu ∈ members c).
Definition cpuset_len (c : CpuSet) : Z := size (members c).
Definition cpuset_is_empty (c : CpuSet) : bool := bool_decide (members c = ∅).
Definition cpuset_iter (c : CpuSet) : list Z := sorted_elements (members c).

Inductive SmpError : Type :=
| DuplicateCpu | UnknownCpu | IllegalTransition | CpuNotOnline | EpochOverflow
| UnknownEpoch | ForeignCpu | DuplicateAcknowledgement | StaleEpoch | Incomplete.

#[global] Instance SmpError_eq_dec : EqDecision SmpError.
Proof. solve_decision. Defined.

Record PendingEpoch : Type := MkPending {
  targets : CpuSet;
  acknowledgements : gset Z;
}.

Record SmpState : Type := MkSmp {
  cpus : gmap Z CpuLifecycle;
  next_ipi_epoch : Z;
  next_shootdown_epoch : Z;
  ipis : gmap Z PendingEpoch;
  shootdowns : gmap Z PendingEpoch;
}.

Definition smp_new : SmpState := MkSmp ∅ 0 0 ∅ ∅.

Definition set_cpus (c : gmap Z CpuLifecycle) (s : SmpState) : SmpState :=
  MkSmp c (next_ipi_epoch s) (next_shootdown_epoch s) (ipis s) (shootdowns s).
Definition set_next_ipi (e : Z) (s : SmpState) : SmpState :=
  MkSmp (cpus s) e (next_shootdown_epoch s) (ipis s) (shootdowns s).
Definition set_next_shootdown (e : Z) (s : SmpState) : SmpState :=
  MkSmp (cpus s) (next_ipi_epoch s) e (ipis s) (shootdowns s).
Definition set_ipis (p : gmap Z PendingEpoch) (s : SmpState) : SmpState :=
  MkSmp (cpus s) (next_ipi_epoch s) (next_shootdown_epoch s) p (shootdowns s).
Definition set_shootdowns (p : gmap Z PendingEpoch) (s : SmpState) : SmpState :=
  MkSmp (cpus s) (next_ipi_epoch s) (next_shootdown_epoch s) (ipis s) p.

(** [insert] has replaced the state before the duplicate is reported. *)
Definition discover (cpu : Z) : op SmpState SmpError unit :=
  previous ← reads (λ s, cpus s !! cpu);
  modify (λ s, set_cpus (<[cpu := Discovered]> (cpus s)) s);;
  lift (bail_if (bool_decide (is_Some previous)) DuplicateCpu).

Definition legal_transition (current next : CpuLifecycle) : bool :=
  match current, next with
  | Discovered, Prepared | Prepared, Starting | Starting, Online
  | Prepared, Failed _ | Starting, Failed _ => true
  | _, _ => false
  end.

Definition transition (cpu : Z) (next : CpuLifecycle) : op SmpState SmpError unit :=
  current ← readr (λ s, ok_or UnknownCpu (cpus s !! cpu));
  lift (bail_if (negb (legal_transition current next)) IllegalTransition);;
  modify (λ s, set_cpus (<[cpu := next]> (cpus s)) s).

Definition lifecycle (s : SmpState) (cpu : Z) : option CpuLifecycle := cpus s !! cpu.

Definition online (s : SmpState) : CpuSet :=
  from_ids (omap (λ '(cpu, state), match state with Online => Some cpu | _ => None end)
              (entries (cpus s))).

Definition validate_online_targets (s : SmpState) (t : CpuSet) : res SmpError unit :=
  bail_if (existsb (λ cpu, match cpus s !! cpu with Some Online => false | _ => true end)
             (cpuset_iter t)) CpuNotOnline.

Definition begin_ipi (t : CpuSet) : op SmpState SmpError Z :=
  readr (λ s, validate_online_targets s t);;
  next ← readr (λ s, ok_or EpochOverflow (checked_add 64 (next_ipi_epoch s) 1));
  modify (set_next_ipi next);;
  modify (λ s, set_ipis (<[next_ipi_epoch s := MkPending t ∅]> (ipis s)) s);;
  reads next_ipi_epoch.

Definition acknowledge (epoch cpu : Z) : op (gmap Z PendingEpoch) SmpError bool :=
  newest ← reads last_entry;
  match newest with
  | None => lift (Err UnknownEpoch)
  | Some (current, _) =>
    lift (bail_if (epoch <? current) StaleEpoch);;
    entry ← readr (λ pending, ok_or UnknownEpoch (pending !! epoch));
    lift (bail_if (negb (cpuset_contains (targets entry) cpu)) ForeignCpu);;
    lift (bail_if (bool_decide (cpu ∈ acknowledgements entry)) DuplicateAcknowledgement);;
    let entry := MkPending (targets entry) ({[cpu]} ∪ acknowledgements entry) in
    modify (λ pending, <[epoch := entry]> pending);;
    mret (bool_decide (acknowledgements entry = members (targets entry)))
  end.

Definition acknowledge_ipi (epoch cpu : Z) : op SmpState SmpError bool :=
  zoom ipis set_ipis (acknowledge epoch cpu).

Definition begin_shootdown : op SmpState SmpError Z :=
  t ← reads online;
  next ← readr (λ s, ok_or EpochOverflow (checked_add 64 (next_shootdown_epoch s) 1));
  modify (set_next_shootdown next);;
  modify (λ s, set_shootdowns
    (<[next_shootdown_epoch s := MkPending t ∅]> (shootdowns s)) s);;
  reads next_shootdown_epoch.

Definition acknowledge_shootdown (epoch cpu : Z) : op SmpState SmpError bool :=
  zoom shootdowns set_shootdowns (acknowledge epoch cpu).

Definition complete_shootdown (epoch : Z) : op SmpState SmpError unit :=
  pending ← readr (λ s, ok_or UnknownEpoch (shootdowns s !! epoch));
  lift (bail_if (negb (bool_decide (acknowledgements pending = members (targets pending))))
          Incomplete);;
  modify (λ s, set_shootdowns (delete epoch (shootdowns s)) s).

(** ** Calls, and the log of those that succeeded *)

Inductive call : Type :=
| Discover (cpu : Z)
| Transition (cpu : Z) (next : CpuLifecycle)
| BeginIpi (t : CpuSet)
| AckIpi (epoch cpu : Z)
| BeginShootdown
| AckShootdown (epoch cpu : Z)
| CompleteShootdown (epoch : Z).

Definition exec (c : call) (s : SmpState) : bool * SmpState :=
  let fin {A} (r : res SmpError A * SmpState) :=
    (match r.1 with Ok _ => true | _ => false end, r.2) in
  match c with
  | Discover cpu => fin (discover cpu s)
  | Transition cpu next => fin (transition cpu next s)
  | BeginIpi t => fin (begin_ipi t s)
  | AckIpi epoch cpu => fin (acknowledge_ipi epoch cpu s)
  | BeginShootdown => fin (begin_shootdown s)
  | AckShootdown epoch cpu => fin (acknowledge_shootdown epoch cpu s)
  | CompleteShootdown epoch => fin (complete_shootdown epoch s)
  end.

(** The calls that succeed along a sequence, and the state it ends in. *)
Fixpoint run (cs : list call) (s : SmpState) : list call * SmpState :=
  match cs with
  | [] => ([], s)
  | c :: cs' =>
    let '(ok, s1) := exec c s in
    let '(log, s2) := run cs' s1 in
    (if ok then c :: log else log, s2)
  end.

(** Every pending epoch was issued, and has only targets among its answers. *)
Record epochs_ok (next : Z) (pending : gmap Z PendingEpoch) : Prop := {
  eo_issued : ∀ e p, pending !! e = Some p → 0 < e ≤ next;
  eo_acks : ∀ e p, pending !! e = Some p → acknowledgements p ⊆ members (targets p);
}.

Record inv (s : SmpState) : Prop := {
  inv_ipis : epochs_ok (next_ipi_epoch s) (ipis s);
  inv_shootdowns : epochs_ok (next_shootdown_epoch s) (shootdowns s);
  inv_next : u64 (next_ipi_epoch s) ∧ u64 (next_shootdown_epoch s);
}.

(** ** Lemmas *)

Lemma elem_of_online s cpu : cpu ∈ members (online s) ↔ cpus s !! cpu = Some Online.
Proof.
  unfold online, from_ids. cbn. rewrite elem_of_list_to_set, list_elem_of_omap. split.
  - intros ([c st] & Hin%elem_of_entries & H). destruct st; by simplify_eq.
  - intros H. exists (cpu, Online). by rewrite elem_of_entries.
Qed.

Lemma validate_online_targets_Ok s t u :
  validate_online_targets s t = Ok u ↔ members t ⊆ members (online s).
Proof.
  destruct u. unfold validate_online_targets, bail_if, cpuset_iter.
  destruct (existsb _ _) eqn:Hx.
  - split; [done|]. intros Hsub. apply existsb_exists in Hx as (c & Hin & Hc).
    apply list_elem_of_In, elem_of_sorted_elements, Hsub, elem_of_online in Hin.
    by rewrite Hin in Hc.
  - split; [|done]. intros _ c Hin. apply elem_of_online.
    destruct (cpus s !! c) as [[]|] eqn:Hc; try done; exfalso;
    (rewrite <-not_true_iff_false in Hx; apply Hx, existsb_exists; exists c;
     rewrite Hc; split; [apply list_elem_of_In, elem_of_sorted_elements; done|done]).
Qed.

Lemma acknowledge_fail_closed e cpu : FailClosed (acknowledge e cpu).
Proof.
  unfold acknowledge. apply bind_checks; [apply _|]. intros [[cur p]|]; solve_fail_closed.
Qed.

Lemma acknowledge_Ok e cpu p b p' :
  acknowledge e cpu p = (Ok b, p') →
  ∃ en, p !! e = Some en ∧ (∀ e' en', p !! e' = Some en' → e' ≤ e) ∧
    cpu ∈ members (targets en) ∧ cpu ∉ acknowledgements en ∧
    p' = <[e := MkPending (targets en) ({[cpu]} ∪ acknowledgements en)]> p ∧
    b = bool_decide ({[cpu]} ∪ acknowledgements en = members (targets en)).
Proof.
  unfold acknowledge. intros H. op_inv H. destruct (last_entry p) as [[cur q]|] eqn:Hl; [|done].
  op_inv H. unfold cpuset_contains in *. guards. apply last_entry_Some in Hl as [_ Hl].
  exists a0. split_and!; try done. intros e' en' He'. specialize (Hl e' en' He'). lia.
Qed.

Lemma acknowledge_returns e cpu en p :
  p !! e = Some en → (∀ e' en', p !! e' = Some en' → e' ≤ e) →
  cpu ∈ members (targets en) → cpu ∉ acknowledgements en →
  acknowledge e cpu p =
    (Ok (bool_decide ({[cpu]} ∪ acknowledgements en = members (targets en))),
     <[e := MkPending (targets en) ({[cpu]} ∪ acknowledgements en)]> p).
Proof.
  intros He Hmax Ht Ha. unfold acknowledge. op_unfold.
  destruct (last_entry p) as [[cur q]|] eqn:Hl.
  - apply last_entry_Some in Hl as [Hc _]. specialize (Hmax _ _ Hc).
    rewrite (proj2 (Z.ltb_ge _ _) Hmax). cbn. rewrite He. cbn. unfold cpuset_contains.
    by rewrite bool_decide_true, bool_decide_false.
  - apply last_entry_None in Hl as ->. by rewrite lookup_empty in He.
Qed.

Lemma acknowledge_returns_bool e cpu p : (acknowledge e cpu p).1 ≠ Panic.
Proof.
  revert p. change (NoPanic (acknowledge e cpu)). unfold acknowledge.
  apply bind_no_panic; [apply _|]. intros [[cur q]|]; solve_no_panic.
Qed.

Lemma acknowledge_epochs_ok n e cpu p :
  epochs_ok n p → epochs_ok n (acknowledge e cpu p).2.
Proof.
  intros [H1 H2]. destruct (acknowledge e cpu p) as [[b|er|] p'] eqn:Ha; cbn.
  - apply acknowledge_Ok in Ha as (en & He & _ & Ht & _ & -> & _).
    split; intros e' p'; rewrite lookup_insert_Some; intros [[<- <-]|[_ ?]]; eauto.
    cbn. specialize (H2 _ _ He). set_solver.
  - by rewrite (acknowledge_fail_closed _ _ _ _ _ Ha).
  - pose proof (acknowledge_returns_bool e cpu p) as Hp. by rewrite Ha in Hp.
Qed.

Lemma epochs_ok_insert n p t :
  0 ≤ n → epochs_ok n p → epochs_ok (n + 1) (<[n + 1 := MkPending t ∅]> p).
Proof.
  intros Hn [H1 H2]. split; intros e' p'; rewrite lookup_insert_Some;
    intros [[<- <-]|[_ Hp]]; [lia| |set_solver|by eauto].
  specialize (H1 _ _ Hp). lia.
Qed.

Lemma smp_exec_inv c s : inv s → inv (exec c s).2.
Proof.
  intros [Hi Hs [Hn1 Hn2]]. destruct c as [cpu|cpu next|t|e cpu| |e cpu|e]; cbn [exec snd].
  - by split.
  - unfold transition. op_cases; by split.
  - unfold begin_ipi. op_unfold. destruct (validate_online_targets s t); cbn; [|by split..].
    destruct (Z.ltb_spec (next_ipi_epoch s + 1) (2 ^ 64)); cbn; [|by split].
    split; cbn; [|done|split; [ulia|done]]. apply epochs_ok_insert; [ulia|done].
  - unfold acknowledge_ipi, zoom. pose proof (acknowledge_epochs_ok _ e cpu _ Hi).
    destruct (acknowledge e cpu (ipis s)); by split.
  - unfold begin_shootdown. op_unfold.
    destruct (Z.ltb_spec (next_shootdown_epoch s + 1) (2 ^ 64)); cbn; [|by split].
    split; cbn; [done| |split; [done|ulia]]. apply epochs_ok_insert; [ulia|done].
  - unfold acknowledge_shootdown, zoom. pose proof (acknowledge_epochs_ok _ e cpu _ Hs).
    destruct (acknowledge e cpu (shootdowns s)); by split.
  - unfold complete_shootdown. op_cases; try by split. split; cbn; [done| |done].
    destruct Hs as [Hs1 Hs2]. split; intros e' p'; rewrite lookup_delete_Some; intros [_ ?]; eauto.
Qed.

Definition reachable (s : SmpState) : Prop := reach (λ c s, (exec c s).2) smp_new s.

Lemma smp_reachable_inv s : reachable s → inv s.
Proof.
  apply reach_invariant; [intros; by apply smp_exec_inv|].
  split; [split|split|by split]; intros ?? H; cbn in H; by rewrite lookup_empty in H.
Qed.

(** ** Shootdowns *)

Lemma exec_next c s : next_shootdown_epoch s ≤ next_shootdown_epoch (exec c s).2.
Proof.
  destruct c as [cpu|cpu next|t|e cpu| |e cpu|e]; cbn [exec snd].
  - done.
  - unfold transition. op_cases; lia.
  - unfold begin_ipi. op_unfold. repeat (case_match; simplify_eq/=); lia.
  - unfold acknowledge_ipi, zoom. by case_match.
  - unfold begin_shootdown. op_unfold. repeat (case_match; simplify_eq/=); lia.
  - unfold acknowledge_shootdown, zoom. by case_match.
  - unfold complete_shootdown. op_cases; lia.
Qed.

(** What one call may have done to an issued epoch that is still pending. *)
Lemma exec_shootdown c s ok s' e p' :
  exec c s = (ok, s') → e ≤ next_shootdown_epoch s → shootdowns s' !! e = Some p' →
  ∃ p, shootdowns s !! e = Some p ∧ targets p' = targets p ∧
    ∀ cpu, cpu ∈ acknowledgements p' →
      cpu ∈ acknowledgements p ∨ c = AckShootdown e cpu ∧ ok = true.
Proof.
  intros Hx He. destruct c as [cpu|cpu next|t|e0 cpu| |e0 cpu|e0]; cbn [exec] in Hx;
    injection Hx as <- <-.
  - naive_solver.
  - unfold transition. op_cases; naive_solver.
  - unfold begin_ipi. op_unfold. repeat (case_match; simplify_eq/=); naive_solver.
  - unfold acknowledge_ipi, zoom. case_match. naive_solver.
  - unfold begin_shootdown. op_unfold.
    destruct (Z.ltb_spec (next_shootdown_epoch s + 1) (2 ^ 64)); cbn; [|naive_solver].
    rewrite lookup_insert_ne by lia. naive_solver.
  - unfold acknowledge_shootdown, zoom. destruct (acknowledge e0 cpu (shootdowns s)) as [[b|er|] q] eqn:Ha.
    + apply acknowledge_Ok in Ha as (en & Hen & _ & _ & _ & -> & _). cbn.
      destruct (decide (e0 = e)) as [->|Hne]; [|rewrite lookup_insert_ne by done; naive_solver].
      rewrite lookup_insert_eq. intros [= <-]. cbn. exists en.
      split_and!; [done..|]. intros c [->%elem_of_singleton|?]%elem_of_union; auto.
    + rewrite (acknowledge_fail_closed _ _ _ _ _ Ha). naive_solver.
    + pose proof (acknowledge_returns_bool e0 cpu (shootdowns s)) as Hp. by rewrite Ha in Hp.
  - unfold complete_shootdown. op_cases; try naive_solver.
    rewrite lookup_delete_Some. naive_solver.
Qed.

Lemma run_shootdown cs s log s2 e p2 :
  run cs s = (log, s2) → e ≤ next_shootdown_epoch s → shootdowns s2 !! e = Some p2 →
  ∃ p, shootdowns s !! e = Some p ∧ targets p2 = targets p ∧
    ∀ cpu, cpu ∈ acknowledgements p2 → cpu ∈ acknowledgements p ∨ AckShootdown e cpu ∈ log.
Proof.
  revert s log. induction cs as [|c cs IH]; cbn; intros s log Hr He Hp; [naive_solver|].
  destruct (exec c s) as [ok s1] eqn:Hx. destruct (run cs s1) as [log1 s1'] eqn:Hrun.
  injection Hr as <- ->. pose proof (exec_next c s) as Hn. rewrite Hx in Hn. cbn in Hn.
  destruct (IH s1 log1 Hrun) as (p1 & Hp1 & Ht1 & Ha1); [lia|done|].
  destruct (exec_shootdown _ _ _ _ _ _ Hx He Hp1) as (p & Hp0 & Ht & Ha).
  exists p. split_and!; [done|congruence|]. intros cpu [Hc|Hc]%Ha1.
  - destruct (Ha cpu Hc) as [?|[-> ->]]; [by left|right; set_solver].
  - right. destruct ok; set_solver.
Qed.

Lemma begin_shootdown_Ok s e s1 :
  begin_shootdown s = (Ok e, s1) →
  e = next_shootdown_epoch s + 1 ∧ next_shootdown_epoch s1 = e ∧
  shootdowns s1 = <[e := MkPending (online s) ∅]> (shootdowns s) ∧ cpus s1 = cpus s.
Proof. unfold begin_shootdown. intros H. op_inv H. guards. by split_and!. Qed.

(** C8. A shootdown cannot complete early: if [complete_shootdown] succeeds for an epoch,
    then every CPU that was online when the epoch began has acknowledged that very epoch
    in between, whatever other calls (lifecycle changes, newer epochs, duplicate or
    foreign acknowledgements) were interleaved. *)
Theorem shootdown_needs_every_ack s e s1 cs log s2 s3 cpu :
  begin_shootdown s = (Ok e, s1) → run cs s1 = (log, s2) →
  complete_shootdown e s2 = (Ok (), s3) → lifecycle s cpu = Some Online →
  AckShootdown e cpu ∈ log.
Proof.
  intros (-> & Hn & Hs & _)%begin_shootdown_Ok Hrun Hc Hcpu.
  unfold complete_shootdown in Hc. op_inv Hc. guards.
  destruct (run_shootdown _ _ _ _ _ _ Hrun (Z.eq_le_incl _ _ (eq_sym Hn)) H) as (p & Hp & Ht & Ha).
  rewrite Hs, lookup_insert_eq in Hp. injection Hp as <-. cbn in *.
  destruct (Ha cpu) as [?|?]; [|set_solver|done].
  rewrite H0, Ht. by apply elem_of_online.
Qed.

(** Two online CPUs, 0 and 1. *)
Definition demo_boot : list call :=
  [Discover 0; Discover 1] ++ (Transition 0 <$> [Prepared; Starting; Online])
  ++ (Transition 1 <$> [Prepared; Starting; Online]).
Definition demo_smp : SmpState := (run demo_boot smp_new).2.

Lemma shootdown_needs_every_ack_witness :
  let cs := [AckShootdown 1 0; AckShootdown 1 0; AckShootdown 1 7; AckShootdown 1 1] in
  let s1 := (begin_shootdown demo_smp).2 in
  (run cs s1).1 = [AckShootdown 1 0; AckShootdown 1 1] ∧ AckShootdown 1 1 ∈ (run cs s1).1.
Proof.
  intros cs s1. split; [vm_compute; reflexivity|].
  apply (shootdown_needs_every_ack demo_smp 1 s1 cs _ (run cs s1).2
    (complete_shootdown 1 (run cs s1).2).2); vm_compute; reflexivity.
Defined.

Lemma run_app cs1 cs2 s :
  run (cs1 ++ cs2) s =
  let '(l1, s1) := run cs1 s in let '(l2, s2) := run cs2 s1 in (l1 ++ l2, s2).
Proof.
  revert s. induction cs1 as [|c cs1 IH]; intros s; cbn; [by destruct (run cs2 s)|].
  destruct (exec c s) as [ok s1]. rewrite IH.
  destruct (run cs1 s1) as [l1 s1'], (run cs2 s1') as [l2 s2]. by destruct ok.
Qed.

(** Distinct targets that have not answered yet can answer in any order. *)
Lemma run_acks e l s en :
  shootdowns s !! e = Some en → (∀ e' en', shootdowns s !! e' = Some en' → e' ≤ e) →
  NoDup l → (∀ c, c ∈ l → c ∈ members (targets en) ∧ c ∉ acknowledgements en) →
  run (AckShootdown e <$> l) s =
    (AckShootdown e <$> l,
     set_shootdowns (<[e := MkPending (targets en) (list_to_set l ∪ acknowledgements en)]>
       (shootdowns s)) s).
Proof.
  revert s en. induction l as [|c l IH]; cbn [fmap list_fmap run]; intros s en He Hmax Hnd Hl.
  - cbn. rewrite (left_id_L ∅ (∪)). destruct en as [t a], s; cbn in *. unfold set_shootdowns. cbn.
    by rewrite insert_id.
  - apply NoDup_cons in Hnd as [Hc Hnd]. destruct (Hl c) as [Ht Ha]; [set_solver|].
    cbn [exec]. unfold acknowledge_shootdown, zoom.
    rewrite (acknowledge_returns e c en) by done. cbn [fst snd].
    rewrite (IH _ (MkPending (targets en) ({[c]} ∪ acknowledgements en))); cbn.
    + f_equal. unfold set_shootdowns. cbn. f_equal. rewrite insert_insert_eq.
      f_equal. f_equal. set_solver.
    + by rewrite lookup_insert_eq.
    + intros e' en'. rewrite lookup_insert_Some. intros [[<- _]|[_ ?]]; [lia|eauto].
    + done.
    + intros c' Hc'. destruct (Hl c') as [? ?]; [set_solver|]. set_solver.
Qed.

Lemma complete_returns e s p :
  shootdowns s !! e = Some p → acknowledgements p = members (targets p) →
  complete_shootdown e s = (Ok (), set_shootdowns (delete e (shootdowns s)) s).
Proof.
  intros Hp Ha. unfold complete_shootdown. op_unfold. rewrite Hp. cbn.
  by rewrite bool_decide_true.
Qed.

(** The shootdown protocol is live: in every reachable state a shootdown can be
    started until the 64-bit epoch is exhausted, and when the CPUs that were online then
    each acknowledge once, in any order, every acknowledgement is accepted, the
    completion succeeds, and the pending table is back to what it was. *)
Theorem shootdown_completes s l :
  reachable s → next_shootdown_epoch s + 1 < 2 ^ 64 →
  l ≡ₚ elements (members (online s)) →
  ∃ e s1 s2, begin_shootdown s = (Ok e, s1) ∧
    run ((AckShootdown e <$> l) ++ [CompleteShootdown e]) s1
      = ((AckShootdown e <$> l) ++ [CompleteShootdown e], s2) ∧
    shootdowns s2 = shootdowns s.
Proof.
  intros [_ [Hissued _] _]%smp_reachable_inv Hlt Hl. set (e := next_shootdown_epoch s + 1).
  assert (∃ s1, begin_shootdown s = (Ok e, s1)) as [s1 Hb].
  { eexists. unfold begin_shootdown. op_unfold. by rewrite (proj2 (Z.ltb_lt _ _) Hlt). }
  exists e, s1. pose proof (begin_shootdown_Ok _ _ _ Hb) as (_ & _ & Hs & _).
  eexists. split; [exact Hb|].
  rewrite run_app, (run_acks e l s1 (MkPending (online s) ∅)).
  - cbn [run exec fst snd]. erewrite complete_returns; [..|apply lookup_insert_eq|];
      [|cbn; rewrite Hl, list_to_set_elements_L; set_solver].
    split; [done|]. cbn. rewrite delete_insert_eq, Hs, delete_insert_eq.
    apply delete_id. destruct (shootdowns s !! e) eqn:He; [|done].
    specialize (Hissued _ _ He). unfold e in Hissued. lia.
  - by rewrite Hs, lookup_insert_eq.
  - intros e' en'. rewrite Hs, lookup_insert_Some. intros [[<- _]|[_ H]]; [lia|].
    specialize (Hissued _ _ H). unfold e. lia.
  - rewrite Hl. apply NoDup_elements.
  - intros c Hc. rewrite Hl in Hc. apply elem_of_elements in Hc. cbn. set_solver.
Qed.

Lemma demo_smp_reachable : reachable demo_smp.
Proof.
  assert (∀ cs s, reachable s → reachable (run cs s).2) as H.
  { intros cs. induction cs as [|c cs IH]; intros s Hs; [done|]. cbn [run].
    specialize (IH (exec c s).2 (reach_step (λ c s, (exec c s).2) smp_new c s Hs)).
    destruct (exec c s) as [ok s1]. cbn in IH. by destruct (run cs s1). }
  apply H, reach_refl.
Qed.

Lemma shootdown_completes_witness :
  ∃ e s1 s2, begin_shootdown demo_smp = (Ok e, s1) ∧
    run ((AckShootdown e <$> [0; 1]) ++ [CompleteShootdown e]) s1
      = ((AckShootdown e <$> [0; 1]) ++ [CompleteShootdown e], s2) ∧
    shootdowns s2 = shootdowns demo_smp.
Proof.
  apply (shootdown_completes demo_smp [0; 1] demo_smp_reachable); [done|].
  replace (elements (members (online demo_smp))) with [1; 0] by (vm_compute; reflexivity).
  apply perm_swap.
Defined.

(** [discover] demotes a running CPU: asked for a CPU it already knows it answers
    [DuplicateCpu], but the CPU's lifecycle has been reset, so an online CPU silently
    leaves the online set (and later shootdowns no longer wait for it). *)
Theorem discover_demotes_known_cpu s cpu st :
  cpus s !! cpu = Some st →
  (discover cpu s).1 = Err DuplicateCpu ∧
  lifecycle (discover cpu s).2 cpu = Some Discovered ∧
  cpu ∉ members (online (discover cpu s).2).
Proof.
  intros H. rewrite elem_of_online. unfold lifecycle, discover. op_unfold.
  cbn. rewrite H. cbn. by rewrite lookup_insert_eq.
Qed.

Lemma discover_demotes_known_cpu_witness :
  lifecycle demo_smp 1 = Some Online ∧ (discover 1 demo_smp).1 = Err DuplicateCpu ∧
  lifecycle (discover 1 demo_smp).2 1 = Some Discovered ∧
  1 ∉ members (online (discover 1 demo_smp).2).
Proof.
  split; [vm_compute; reflexivity|].
  apply (discover_demotes_known_cpu demo_smp 1 Online). vm_compute. reflexivity.
Defined.

End Smp.
