(* ===== verification/Scheduler.v ===== *)
(** * Scheduler: [kernel/src/scheduler.rs]

    Per-CPU run queues, the task table, dispatch with work stealing, and the
    executable consistency check [invariant_holds]. *)
From S2P Require Import Prelude Smp.

Module Scheduler.
Import Smp (CpuSet, members, cpuset_iter).

Inductive TaskState : Type :=
| Runnable | Running (cpu : Z) | Blocked | Exited (code : Z).

#[global] Instance TaskState_eq_dec : EqDecision TaskState.
Proof. solve_decision. Defined.

Record Task : Type := MkTask { t_state : TaskState; t_generation : Z }.

Inductive SchedulerError : Type :=
| UnknownCpu | DuplicateTask | UnknownTask | WrongState | ForeignCpu
| DuplicateQueueEntry | GenerationOverflow.

#[global] Instance SchedulerError_eq_dec : EqDecision SchedulerError.
Proof. solve_decision. Defined.

Record Scheduler : Type := MkScheduler {
  queues : gmap Z (list Z);
  tasks : gmap Z Task;
  current : gmap Z (option Z);
  completed_dispatches : Z;
  steals : Z;
}.

Definition set_queues (q : gmap Z (list Z)) (s : Scheduler) : Scheduler :=
  MkScheduler q (tasks s) (current s) (completed_dispatches s) (steals s).
Definition set_tasks (t : gmap Z Task) (s : Scheduler) : Scheduler :=
  MkScheduler (queues s) t (current s) (completed_dispatches s) (steals s).
Definition set_current (c : gmap Z (option Z)) (s : Scheduler) : Scheduler :=
  MkScheduler (queues s) (tasks s) c (completed_dispatches s) (steals s).
Definition set_dispatches (n : Z) (s : Scheduler) : Scheduler :=
  MkScheduler (queues s) (tasks s) (current s) n (steals s).
Definition set_steals (n : Z) (s : Scheduler) : Scheduler :=
  MkScheduler (queues s) (tasks s) (current s) (completed_dispatches s) n.

Definition with_online_cpus (cpus : CpuSet) : Scheduler :=
  MkScheduler (list_to_map ((λ cpu, (cpu, [])) <$> cpuset_iter cpus)) ∅
    (list_to_map ((λ cpu, (cpu, None)) <$> cpuset_iter cpus)) 0 0.

Definition create_task (task cpu : Z) : op Scheduler SchedulerError unit :=
  queue ← readr (λ s, ok_or UnknownCpu (queues s !! cpu));
  known ← reads (λ s, bool_decide (is_Some (tasks s !! task)));
  lift (bail_if known DuplicateTask);;
  modify (λ s, set_tasks (<[task := MkTask Runnable 0]> (tasks s)) s);;
  modify (λ s, set_queues (<[cpu := queue ++ [task]]> (queues s)) s).

(** [max_by_key(|(cpu, queue)| (queue.len(), Reverse(cpu)))]: the later of two
    equal maxima is kept. *)
Definition victim_gt (a b : Z * list Z) : bool :=
  (length b.2 <? length a.2) || ((length a.2 =? length b.2) && (a.1 <? b.1)).

Definition max_by_key (l : list (Z * list Z)) : option (Z * list Z) :=
  foldl (λ best x, match best with
                   | None => Some x
                   | Some b => if victim_gt b x then Some b else Some x
                   end) None l.

Definition steal_victim (requester : Z) (s : Scheduler) : option Z :=
  '(cpu, queue) ← max_by_key (List.filter (λ e, negb (e.1 =? requester)) (entries (queues s)));
  match queue with [] => None | _ => Some cpu end.

(** [VecDeque::pop_back] *)
Definition pop_back (q : list Z) : option Z * list Z := (last q, removelast q).

Definition steal (requester : Z) : op Scheduler SchedulerError (option Z) :=
  victim ← reads (steal_victim requester);
  match victim with
  | None => mret None
  | Some victim =>
    queue ← readr (λ s, ok_or UnknownCpu (queues s !! victim));
    let '(task, rest) := pop_back queue in
    modify (λ s, set_queues (<[victim := rest]> (queues s)) s);;
    (match task with
     | Some _ => modify (λ s, set_steals (saturating_add 64 (steals s) 1) s)
     | None => mret ()
     end);;
    mret task
  end.

(** [self.queues.get_mut(&cpu).ok_or(UnknownCpu)?.pop_front()] *)
Definition pop_local (cpu : Z) : op Scheduler SchedulerError (option Z) :=
  queue ← readr (λ s, ok_or UnknownCpu (queues s !! cpu));
  modify (λ s, set_queues (<[cpu := tail queue]> (queues s)) s);;
  mret (head queue).

Definition dispatch (cpu : Z) : op Scheduler SchedulerError (option Z) :=
  running ← readr (λ s, ok_or UnknownCpu (current s !! cpu));
  lift (bail_if (bool_decide (is_Some running)) WrongState);;
  local ← pop_local cpu;
  task ← match local with
         | Some task => mret (Some task)
         | None => steal cpu
         end;
  (match task with
   | None => mret ()
   | Some task =>
     state ← readr (λ s, ok_or UnknownTask (tasks s !! task));
     lift (bail_if (negb (bool_decide (t_state state = Runnable))) WrongState);;
     modify (λ s, set_tasks (<[task := MkTask (Running cpu) (t_generation state)]> (tasks s)) s);;
     _ ← readr (λ s, ok_or UnknownCpu (current s !! cpu));
     modify (λ s, set_current (<[cpu := Some task]> (current s)) s);;
     modify (λ s, set_dispatches (saturating_add 64 (completed_dispatches s) 1) s)
   end);;
  mret task.

(** [self.current.get_mut(&cpu).ok_or(UnknownCpu)?.take().ok_or(WrongState)?],
    then the task's record, which must be running on [cpu]. *)
Definition take_current (cpu : Z) : op Scheduler SchedulerError (Z * Task) :=
  running ← readr (λ s, ok_or UnknownCpu (current s !! cpu));
  modify (λ s, set_current (<[cpu := None]> (current s)) s);;
  task ← lift (ok_or WrongState running);
  record ← readr (λ s, ok_or UnknownTask (tasks s !! task));
  lift (bail_if (negb (bool_decide (t_state record = Running cpu))) ForeignCpu);;
  mret (task, record).

Definition yield_current (cpu : Z) : op Scheduler SchedulerError Z :=
  '(task, record) ← take_current cpu;
  generation ← lift (ok_or GenerationOverflow (checked_add 64 (t_generation record) 1));
  modify (λ s, set_tasks (<[task := MkTask Runnable generation]> (tasks s)) s);;
  queue ← readr (λ s, ok_or UnknownCpu (queues s !! cpu));
  modify (λ s, set_queues (<[cpu := queue ++ [task]]> (queues s)) s);;
  mret task.

Definition block_current (cpu : Z) : op Scheduler SchedulerError Z :=
  '(task, record) ← take_current cpu;
  modify (λ s, set_tasks (<[task := MkTask Blocked (t_generation record)]> (tasks s)) s);;
  mret task.

Definition wake (task cpu : Z) : op Scheduler SchedulerError unit :=
  queue ← readr (λ s, ok_or UnknownCpu (queues s !! cpu));
  record ← readr (λ s, ok_or UnknownTask (tasks s !! task));
  lift (bail_if (negb (bool_decide (t_state record = Blocked))) WrongState);;
  lift (bail_if (bool_decide (task ∈ queue)) DuplicateQueueEntry);;
  modify (λ s, set_tasks (<[task := MkTask Runnable (t_generation record)]> (tasks s)) s);;
  modify (λ s, set_queues (<[cpu := queue ++ [task]]> (queues s)) s).

Definition exit_current (cpu code : Z) : op Scheduler SchedulerError Z :=
  '(task, record) ← take_current cpu;
  modify (λ s, set_tasks (<[task := MkTask (Exited code) (t_generation record)]> (tasks s)) s);;
  mret task.

Definition task_state (s : Scheduler) (task : Z) : option TaskState :=
  t_state <$> tasks s !! task.

(** ** [invariant_holds]

    [None] is the early [return false]; [Some seen] the set built so far. *)

Fixpoint check_queue (s : Scheduler) (queue : list Z) (seen : gset Z) : option (gset Z) :=
  match queue with
  | [] => Some seen
  | task :: rest =>
    if bool_decide (task ∈ seen)
       || negb (bool_decide (task_state s task = Some Runnable))
    then None else check_queue s rest ({[task]} ∪ seen)
  end.

Definition check_current (s : Scheduler) (cpu : Z) (seen : gset Z) : option (gset Z) :=
  match mjoin (current s !! cpu) with
  | None => Some seen
  | Some task =>
    if bool_decide (task ∈ seen)
       || negb (bool_decide (task_state s task = Some (Running cpu)))
    then None else Some ({[task]} ∪ seen)
  end.

Fixpoint check_cpus (s : Scheduler) (l : list (Z * list Z)) (seen : gset Z)
    : option (gset Z) :=
  match l with
  | [] => Some seen
  | (cpu, queue) :: rest =>
    seen ← check_queue s queue seen;
    seen ← check_current s cpu seen;
    check_cpus s rest seen
  end.

Definition invariant_holds (s : Scheduler) : bool :=
  match check_cpus s (entries (queues s)) ∅ with
  | None => false
  | Some seen =>
    forallb (λ '(task, record),
      match t_state record with Blocked | Exited _ => true | _ => false end
      || bool_decide (task ∈ seen)) (entries (tasks s))
  end.

(** ** Calls *)

Inductive call : Type :=
| CreateTask (task cpu : Z)
| Dispatch (cpu : Z)
| YieldCurrent (cpu : Z)
| BlockCurrent (cpu : Z)
| Wake (task cpu : Z)
| ExitCurrent (cpu code : Z).

Definition outcome {A} (r : res SchedulerError A * Scheduler)
    : res SchedulerError unit * Scheduler :=
  (match r.1 with Ok _ => Ok () | Err e => Err e | Panic => Panic end, r.2).

Definition exec (c : call) (s : Scheduler) : res SchedulerError unit * Scheduler :=
  match c with
  | CreateTask task cpu => outcome (create_task task cpu s)
  | Dispatch cpu => outcome (dispatch cpu s)
  | YieldCurrent cpu => outcome (yield_current cpu s)
  | BlockCurrent cpu => outcome (block_current cpu s)
  | Wake task cpu => outcome (wake task cpu s)
  | ExitCurrent cpu code => outcome (exit_current cpu code s)
  end.

(** Traces in which no task's yield counter has run out. *)
Inductive trace (s : Scheduler) : Scheduler → Prop :=
| trace_refl : trace s s
| trace_step c s' :
    trace s s' → (exec c s').1 ≠ Err GenerationOverflow → trace s (exec c s').2.

(** ** Specification: each task is in exactly the place its state says *)

Definition queued (s : Scheduler) : list Z := concat (values (queues s)).

Record inv (s : Scheduler) : Prop := {
  inv_cpus : ∀ cpu, is_Some (queues s !! cpu) ↔ is_Some (current s !! cpu);
  inv_nodup : NoDup (queued s);
  inv_queued : ∀ t, t ∈ queued s ↔ task_state s t = Some Runnable;
  inv_running : ∀ cpu t, current s !! cpu = Some (Some t) ↔
                         task_state s t = Some (Running cpu);
}.

End Scheduler.
