(* ===== verification/SchedulerProps.v ===== *)
(** * Scheduler: consistency, work conservation and round robin

    Every operation is one of three moves of a task between the task table,
    the queues and the CPUs; each move keeps [Scheduler.inv], which implies
    the source's own check [invariant_holds]. *)
From S2P Require Import Prelude Smp Scheduler.

Module SchedulerProps.
Import Scheduler.

(** A task that is in no queue and on no CPU. *)
Definition parked (st : option TaskState) : Prop :=
  st ≠ Some Runnable ∧ ∀ cpu, st ≠ Some (Running cpu).

(** ** The three moves *)

Section moves.
Context (s : Scheduler) (Hinv : inv s) (d st : Z).

Lemma inv_enqueue c q t g :
  queues s !! c = Some q → parked (task_state s t) →
  inv (MkScheduler (<[c := q ++ [t]]> (queues s)) (<[t := MkTask Runnable g]> (tasks s))
         (current s) d st).
Proof using Hinv.
  destruct Hinv as [Hc Hn Hq Hr]. intros Hqc [Hp1 Hp2].
  destruct (concat_values_split _ _ _ Hqc) as (rest & Hp & Hp').
  assert (t ∉ queued s) as Hnq by (by rewrite Hq).
  split; cbn.
  - intros cpu. rewrite <-Hc, lookup_insert_is_Some'. naive_solver.
  - unfold queued in *. cbn. rewrite Hp' , <-app_assoc. cbn. rewrite Hp in Hn, Hnq.
    rewrite <-Permutation_middle. by constructor.
  - intros t'. unfold queued in *. cbn. rewrite Hp', <-app_assoc. cbn.
    rewrite <-Permutation_middle, elem_of_cons, <-Hp, Hq. unfold task_state. cbn.
    destruct (decide (t = t')) as [<-|Hne].
    + rewrite lookup_insert_eq. naive_solver.
    + rewrite lookup_insert_ne by done. naive_solver.
  - intros cpu t'. rewrite Hr. unfold task_state in *. cbn.
    destruct (decide (t = t')) as [<-|Hne]; [|by rewrite lookup_insert_ne].
    rewrite lookup_insert_eq. naive_solver.
Qed.

Lemma inv_leave c t r :
  current s !! c = Some (Some t) → parked (Some (t_state r)) →
  inv (MkScheduler (queues s) (<[t := r]> (tasks s)) (<[c := None]> (current s)) d st).
Proof using Hinv.
  destruct Hinv as [Hc Hn Hq Hr]. intros Hct [Hp1 Hp2].
  pose proof (proj1 (Hr c t) Hct) as Hst. split; cbn.
  - intros cpu. rewrite Hc, lookup_insert_is_Some'. naive_solver.
  - done.
  - intros t'. unfold queued. cbn. fold (queued s). rewrite Hq. unfold task_state in *. cbn.
    destruct (decide (t = t')) as [<-|Hne]; [|by rewrite lookup_insert_ne].
    rewrite lookup_insert_eq, Hst. cbn. by split.
  - intros cpu t'. rewrite lookup_insert_Some, Hr. unfold task_state in *. cbn.
    destruct (decide (t = t')) as [<-|Hne].
    + rewrite lookup_insert_eq, Hst. cbn. split; [|by intros ?%Hp2].
      intros [[??]|[? [= ->]]]; done.
    + rewrite lookup_insert_ne by done. split; [by intros [[??]|[??]]|].
      intros H. right. split; [|done]. intros <-. apply Hr in H. congruence.
Qed.

Lemma inv_run k q q' c t g :
  queues s !! k = Some q → q ≡ₚ t :: q' → current s !! c = Some None →
  inv (MkScheduler (<[k := q']> (queues s)) (<[t := MkTask (Running c) g]> (tasks s))
         (<[c := Some t]> (current s)) d st).
Proof using Hinv.
  destruct Hinv as [Hc Hn Hq Hr]. intros Hqk Hperm Hct.
  destruct (concat_values_split _ _ _ Hqk) as (rest & Hp & Hp').
  rewrite Hperm in Hp. cbn in Hp. fold (queued s) in Hp.
  assert (task_state s t = Some Runnable) as Hst by (apply Hq; rewrite Hp; set_solver).
  rewrite Hp in Hn. apply NoDup_cons in Hn as [Hnt Hn]. split; cbn.
  - intros cpu. rewrite !lookup_insert_is_Some', <-Hc. naive_solver.
  - unfold queued. cbn. by rewrite Hp'.
  - intros t'. unfold queued. cbn. rewrite Hp'. unfold task_state in *. cbn.
    destruct (decide (t = t')) as [<-|Hne]; [rewrite lookup_insert_eq; by split|].
    rewrite lookup_insert_ne by done. rewrite <-Hq, Hp, elem_of_cons. clear -Hne. naive_solver.
  - intros cpu t'. rewrite lookup_insert_Some. unfold task_state in *. cbn.
    destruct (decide (t = t')) as [<-|Hne].
    + rewrite lookup_insert_eq. cbn. rewrite Hr, Hst. clear. naive_solver.
    + rewrite lookup_insert_ne by done. rewrite Hr. split; [intros [[? [= ?]]|[??]]; done|].
      intros H. right. split; [|done]. intros <-. apply Hr in H. congruence.
Qed.
End moves.

Lemma inv_same_queue s c q :
  queues s !! c = Some q → set_queues (<[c := q]> (queues s)) s = s.
Proof. intros H. unfold set_queues. rewrite insert_id by done. by destruct s. Qed.

(** ** Operations *)

(** In a consistent state the bookkeeping errors do not occur. *)
Lemma take_current_spec s c :
  inv s →
  match current s !! c with
  | None => take_current c s = (Err UnknownCpu, s)
  | Some None => take_current c s = (Err WrongState, s)
  | Some (Some t) => ∃ r, tasks s !! t = Some r ∧ t_state r = Running c ∧
      take_current c s = (Ok (t, r), set_current (<[c := None]> (current s)) s)
  end.
Proof.
  intros Hinv. unfold take_current. op_unfold.
  destruct (current s !! c) as [[t|]|] eqn:Hc; cbn; [|by rewrite insert_id by done; destruct s|done].
  pose proof (proj1 (inv_running s Hinv c t) Hc) as Hst. unfold task_state in Hst.
  destruct (tasks s !! t) as [r|] eqn:Ht; [|done]. cbn in Hst. injection Hst as Hst.
  exists r. split_and!; [done..|]. by rewrite bool_decide_true.
Qed.

Lemma create_task_inv s t c : inv s → inv (create_task t c s).2.
Proof.
  intros Hinv. unfold create_task. op_unfold.
  destruct (queues s !! c) as [q|] eqn:Hqc; cbn; [|done].
  case_bool_decide as Ht; cbn; [done|]. apply eq_None_not_Some in Ht.
  refine (inv_enqueue s Hinv _ _ c q t _ Hqc _). unfold task_state. by rewrite Ht.
Qed.

Lemma wake_inv s t c : inv s → inv (wake t c s).2.
Proof.
  intros Hinv. unfold wake. op_unfold. destruct (queues s !! c) as [q|] eqn:Hqc; cbn; [|done].
  destruct (tasks s !! t) as [r|] eqn:Ht; cbn; [|done].
  case_bool_decide as Hb; cbn; [|done]. case_bool_decide; cbn; [done|].
  refine (inv_enqueue s Hinv _ _ c q t _ Hqc _). unfold task_state. rewrite Ht. cbn. by rewrite Hb.
Qed.

Lemma leave_inv s c (f : Task → Task) :
  inv s → (∀ r, parked (Some (t_state (f r)))) →
  inv ((('(task, record) ← take_current c;
        modify (λ s, set_tasks (<[task := f record]> (tasks s)) s);;
        mret task) : op _ _ _) s).2.
Proof.
  intros Hinv Hf. pose proof (take_current_spec s c Hinv) as H. op_unfold.
  destruct (current s !! c) as [[t|]|] eqn:Hc; [|by rewrite H..].
  destruct H as (r & Ht & Hst & ->). by refine (inv_leave s Hinv _ _ c t _ Hc _).
Qed.

Lemma yield_cases s c :
  inv s →
  match current s !! c with
  | None => yield_current c s = (Err UnknownCpu, s)
  | Some None => yield_current c s = (Err WrongState, s)
  | Some (Some t) => ∃ r q, tasks s !! t = Some r ∧ queues s !! c = Some q ∧
     (2 ^ 64 ≤ t_generation r + 1 ∧ (yield_current c s).1 = Err GenerationOverflow ∨
      yield_current c s = (Ok t, MkScheduler (<[c := q ++ [t]]> (queues s))
        (<[t := MkTask Runnable (t_generation r + 1)]> (tasks s)) (<[c := None]> (current s))
        (completed_dispatches s) (steals s)))
  end.
Proof.
  intros Hinv. pose proof (take_current_spec s c Hinv) as H. unfold yield_current. op_unfold.
  destruct (current s !! c) as [[t|]|] eqn:Hc; [|by rewrite H..].
  destruct H as (r & Ht & Hst & ->). exists r. cbn.
  destruct (proj2 (inv_cpus s Hinv c)) as [q Hq]; [by eexists|]. exists q.
  split_and!; [done..|]. destruct (Z.ltb_spec (t_generation r + 1) (2 ^ 64)); cbn; [|by left].
  right. by rewrite Hq.
Qed.

Lemma yield_inv s c :
  inv s → (yield_current c s).1 ≠ Err GenerationOverflow → inv (yield_current c s).2.
Proof.
  intros Hinv Hg. pose proof (yield_cases s c Hinv) as H.
  destruct (current s !! c) as [[t|]|] eqn:Hc; [|by rewrite H..].
  destruct H as (r & q & Ht & Hq & [[_ ?]|H]); [done|]. rewrite H. cbn.
  pose proof (inv_leave s Hinv (completed_dispatches s) (steals s) c t (MkTask Blocked 0) Hc) as Hl.
  pose proof (inv_enqueue _ (Hl ltac:(by split)) (completed_dispatches s) (steals s) c q t
    (t_generation r + 1) Hq) as He. cbn in He. rewrite insert_insert_eq in He. apply He.
  unfold task_state. cbn. by rewrite lookup_insert_eq.
Qed.

(** ** Stealing *)

(** [a] is at least as good a victim as [b]: longer, or as long with a lower id. *)
Definition victim_ge (a b : Z * list Z) : Prop :=
  (length b.2 < length a.2)%nat ∨ (length a.2 = length b.2 ∧ a.1 ≤ b.1).

#[global] Instance victim_ge_preorder : PreOrder victim_ge.
Proof. split; [intros a|intros a b c]; unfold victim_ge; lia. Qed.

Lemma victim_gt_ge a b : if victim_gt a b then victim_ge a b else victim_ge b a.
Proof.
  unfold victim_gt, victim_ge. zcase; lia.
Qed.

Lemma max_by_key_Some l b :
  max_by_key l = Some b → b ∈ l ∧ ∀ x, x ∈ l → victim_ge b x.
Proof.
  unfold max_by_key. set (f := λ best x, _).
  assert (∀ l b0, foldl f (Some b0) l = Some b →
    (b = b0 ∨ b ∈ l) ∧ victim_ge b b0 ∧ ∀ x, x ∈ l → victim_ge b x) as H.
  { clear l. induction l as [|x l IH]; intros b0; cbn.
    - intros [= ->]. split_and!; [by left|done|set_solver].
    - pose proof (victim_gt_ge b0 x) as Hx. destruct (victim_gt b0 x); cbn;
        intros (Hb & Hge & Hall)%IH; split_and!.
      + set_solver.
      + done.
      + intros y [->|?]%elem_of_cons; [by etrans|auto].
      + set_solver.
      + by etrans.
      + intros y [->|?]%elem_of_cons; [done|auto]. }
  destruct l as [|x l]; [done|]. cbn. intros (Hb & Hge & Hall)%H. split; [set_solver|].
  intros y [->|?]%elem_of_cons; [done|auto].
Qed.

Lemma max_by_key_None l : max_by_key l = None → l = [].
Proof.
  destruct l as [|x l]; [done|]. unfold max_by_key. cbn. revert x.
  induction l as [|y l IH]; intros x; cbn; [done|].
  destruct (victim_gt x y); intros H; discriminate (IH _ H).
Qed.

Lemma elem_of_others c s v q :
  (v, q) ∈ List.filter (λ e : Z * list Z, negb (e.1 =? c)) (entries (queues s)) ↔
  v ≠ c ∧ queues s !! v = Some q.
Proof.
  rewrite list_elem_of_In, filter_In, <-list_elem_of_In, elem_of_entries. cbn.
  rewrite negb_true_iff, Z.eqb_neq. naive_solver.
Qed.

Lemma steal_victim_Some c s v :
  steal_victim c s = Some v → ∃ q, v ≠ c ∧ queues s !! v = Some q ∧ q ≠ [] ∧
    ∀ v' q', v' ≠ c → queues s !! v' = Some q' → victim_ge (v, q) (v', q').
Proof.
  unfold steal_victim. intros ([v' q] & Hm & Hq)%bind_Some.
  apply max_by_key_Some in Hm as [[Hin1 Hin2]%elem_of_others Hmax].
  exists q. destruct q; [done|]. injection Hq as <-. split_and!; [done..|].
  intros v2 q2 H1 H2. by apply Hmax, elem_of_others.
Qed.

Lemma steal_victim_None c s v q :
  steal_victim c s = None → v ≠ c → queues s !! v = Some q → q = [].
Proof.
  unfold steal_victim. intros H Hv Hq. set (l := List.filter _ _) in *.
  assert ((v, q) ∈ l) as Hin by (by apply elem_of_others).
  destruct (max_by_key l) as [[v' q']|] eqn:Hm; cbn in H.
  - apply max_by_key_Some in Hm as [_ Hmax]. destruct q'; [|done].
    specialize (Hmax _ Hin). destruct q; [done|]. unfold victim_ge in Hmax. cbn in Hmax. lia.
  - apply max_by_key_None in Hm. rewrite Hm in Hin. by apply elem_of_nil in Hin.
Qed.

(** ** Dispatch *)

(** The state after [t], popped from the queue of [k], starts on [c]. *)
Definition dispatched (s : Scheduler) (k : Z) (rest : list Z) (c t : Z) (r : Task) (st : Z)
    : Scheduler :=
  MkScheduler (<[k := rest]> (queues s))
    (<[t := MkTask (Running c) (t_generation r)]> (tasks s))
    (<[c := Some t]> (current s)) (saturating_add 64 (completed_dispatches s) 1) st.

Lemma queued_task s k q t :
  inv s → queues s !! k = Some q → t ∈ q →
  ∃ r, tasks s !! t = Some r ∧ t_state r = Runnable.
Proof.
  intros Hinv Hq Hin. destruct (concat_values_split _ _ _ Hq) as (rest & Hp & _).
  assert (task_state s t = Some Runnable) as Hst.
  { apply (inv_queued s Hinv). unfold queued. rewrite Hp. set_solver. }
  unfold task_state in Hst. destruct (tasks s !! t) as [r|]; [|done].
  exists r. by injection Hst as ->.
Qed.

Lemma dispatch_cases s c :
  inv s → current s !! c = Some None →
  ∃ q, queues s !! c = Some q ∧
  match q with
  | t :: rest => ∃ r, tasks s !! t = Some r ∧ t_state r = Runnable ∧
      dispatch c s = (Ok (Some t), dispatched s c rest c t r (steals s))
  | [] =>
    match steal_victim c s with
    | Some v => ∃ rest t r, queues s !! v = Some (rest ++ [t]) ∧ tasks s !! t = Some r ∧
        t_state r = Runnable ∧
        dispatch c s =
          (Ok (Some t), dispatched s v rest c t r (saturating_add 64 (steals s) 1))
    | None => dispatch c s = (Ok None, s)
    end
  end.
Proof.
  intros Hinv Hc. destruct (proj2 (inv_cpus s Hinv c)) as [q Hq]; [by eexists|].
  exists q. split; [done|]. destruct q as [|t rest].
  - destruct (steal_victim c s) as [v|] eqn:Hv.
    + destruct (steal_victim_Some _ _ _ Hv) as (q & Hvc & Hqv & Hne & _).
      destruct (exists_last Hne) as (rest & t & ->).
      destruct (queued_task s v (rest ++ [t]) t Hinv Hqv) as (r & Ht & Hst); [set_solver|].
      exists rest, t, r. split_and!; [done..|].
      unfold dispatch, pop_local, steal, pop_back. op_unfold. rewrite Hc. cbn. rewrite Hq. cbn.
      rewrite (inv_same_queue s c [] Hq), Hv, Hqv. cbn. rewrite last_snoc, removelast_last. cbn.
      rewrite Ht. cbn. rewrite bool_decide_true by done. cbn. by rewrite Hc.
    + unfold dispatch, pop_local, steal. op_unfold. rewrite Hc. cbn. rewrite Hq. cbn.
      by rewrite (inv_same_queue s c [] Hq), Hv.
  - destruct (queued_task s c (t :: rest) t Hinv Hq) as (r & Ht & Hst); [set_solver|].
    exists r. split_and!; [done..|].
    unfold dispatch, pop_local. op_unfold. rewrite Hc. cbn. rewrite Hq. cbn.
    rewrite Ht. cbn. rewrite bool_decide_true by done. cbn. by rewrite Hc.
Qed.

Lemma dispatch_busy s c :
  match current s !! c with
  | None => dispatch c s = (Err UnknownCpu, s)
  | Some (Some _) => dispatch c s = (Err WrongState, s)
  | Some None => True
  end.
Proof. unfold dispatch. op_unfold. by destruct (current s !! c) as [[]|]. Qed.

Lemma dispatch_inv s c : inv s → inv (dispatch c s).2.
Proof.
  intros Hinv. pose proof (dispatch_busy s c) as Hb.
  destruct (current s !! c) as [[t|]|] eqn:Hc; [by rewrite Hb| |by rewrite Hb].
  destruct (dispatch_cases s c Hinv Hc) as (q & Hq & H). destruct q as [|t rest].
  - destruct (steal_victim c s) as [v|]; [|by rewrite H].
    destruct H as (rest & t & r & Hv & Ht & Hst & ->). cbn.
    apply (inv_run s Hinv _ _ v (rest ++ [t])); [done| |done]. by rewrite (comm (++)).
  - destruct H as (r & Ht & Hst & ->). by apply (inv_run s Hinv _ _ c (t :: rest)).
Qed.

Lemma sched_exec_inv c s :
  inv s → (exec c s).1 ≠ Err GenerationOverflow → inv (exec c s).2.
Proof.
  intros Hinv Hg. destruct c as [t c|c|c|c|t c|c code]; cbn [exec outcome snd].
  - by apply create_task_inv.
  - by apply dispatch_inv.
  - apply yield_inv; [done|]. intros Hy. apply Hg. cbn. by rewrite Hy.
  - by apply (leave_inv s c (λ r, MkTask Blocked (t_generation r))).
  - by apply wake_inv.
  - by apply (leave_inv s c (λ r, MkTask (Exited code) (t_generation r))).
Qed.

Lemma sched_inv_new cpus : inv (with_online_cpus cpus).
Proof.
  assert (∀ (A : Type) (x y : A) l cpu, (list_to_map ((λ c : Z, (c, x)) <$> l) : gmap Z A) !! cpu
    = Some y ↔ y = x ∧ cpu ∈ l) as Hl.
  { intros A x y l cpu. induction l as [|c l IH]; cbn; [rewrite lookup_empty; set_solver|].
    rewrite lookup_insert_Some, IH, elem_of_cons.
    destruct (decide (c = cpu)) as [->|]; naive_solver. }
  assert (queued (with_online_cpus cpus) = []) as Hq.
  { unfold queued. cbn. apply concat_nil_Forall, Forall_forall. intros q Hin.
    apply elem_of_values in Hin as [k Hk]. by apply Hl in Hk as [-> _]. }
  split; cbn.
  - intros cpu. unfold is_Some. setoid_rewrite Hl. naive_solver.
  - rewrite Hq. constructor.
  - intros t. rewrite Hq. unfold task_state. cbn. rewrite lookup_empty. cbn.
    split; [by intros ?%elem_of_nil|done].
  - intros cpu t. rewrite Hl. unfold task_state. cbn. rewrite lookup_empty. naive_solver.
Qed.

Lemma sched_trace_inv cpus s : trace (with_online_cpus cpus) s → inv s.
Proof. induction 1; [apply sched_inv_new|by apply sched_exec_inv]. Qed.

(** ** The executable check *)

Lemma check_queue_ok s q seen :
  NoDup q → (∀ t, t ∈ q → task_state s t = Some Runnable ∧ t ∉ seen) →
  check_queue s q seen = Some (list_to_set q ∪ seen).
Proof.
  revert seen. induction q as [|t q IH]; intros seen Hnd Hq; cbn; [f_equal; set_solver|].
  apply NoDup_cons in Hnd as [Ht Hnd]. destruct (Hq t) as [Hst Hs]; [set_solver|].
  rewrite bool_decide_false, bool_decide_true by done. cbn.
  rewrite IH; [f_equal; set_solver|done|].
  intros t' Ht'. destruct (Hq t'); [set_solver|]. set_solver.
Qed.

(** Each CPU adds its queue and its current task, none of them seen before. *)
Lemma check_cpus_ok s l seen :
  NoDup l.*1 → NoDup (concat l.*2) →
  (∀ t, t ∈ concat l.*2 → task_state s t = Some Runnable ∧ t ∉ seen) →
  (∀ k t, k ∈ l.*1 → mjoin (current s !! k) = Some t →
     task_state s t = Some (Running k) ∧ t ∉ seen) →
  ∃ seen', check_cpus s l seen = Some seen' ∧
    ∀ t, t ∈ seen ∨ t ∈ concat l.*2 ∨ (∃ k, k ∈ l.*1 ∧ mjoin (current s !! k) = Some t) →
      t ∈ seen'.
Proof.
  revert seen. induction l as [|[k q] l IH]; intros seen Hk Hnd Hq Hc; cbn in *.
  { exists seen. split; [done|]. set_solver. }
  apply NoDup_cons in Hk as [Hknew Hk]. apply NoDup_app in Hnd as (Hndq & Hdisj & Hnd).
  rewrite check_queue_ok; [cbn|done|intros t Ht; apply Hq; set_solver].
  set (seen1 := list_to_set q ∪ seen).
  assert (∀ k' t, k' = k ∨ k' ∈ l.*1 → mjoin (current s !! k') = Some t → t ∉ seen1) as Hcur.
  { intros k' t Hk' Ht. destruct (Hc k' t) as [Hst Hs]; [set_solver|done|].
    unfold seen1. rewrite elem_of_union, elem_of_list_to_set. intros [Hin|?]; [|done].
    destruct (Hq t) as [Hst' _]; [set_solver|]. congruence. }
  unfold check_current. destruct (mjoin (current s !! k)) as [t0|] eqn:Ht0; cbn.
  - destruct (Hc k t0) as [Hst0 _]; [set_solver|done|].
    rewrite bool_decide_false by (apply (Hcur k); auto). rewrite bool_decide_true by done. cbn.
    destruct (IH ({[t0]} ∪ seen1)) as (seen' & -> & Hs'); [done|done|..].
    + intros t Ht. destruct (Hq t) as [Hst Hs]; [set_solver|]. split; [done|].
      assert (t ∉ q) by (intros ?; by apply (Hdisj t)).
      assert (t ≠ t0) by congruence. set_solver.
    + intros k' t Hk' Ht. destruct (Hc k' t) as [Hst _]; [set_solver|done|]. split; [done|].
      assert (t ≠ t0) by (intros ->; rewrite Hst0 in Hst; naive_solver).
      specialize (Hcur k' t (or_intror Hk') Ht). set_solver.
    + exists seen'. split; [done|]. intros t Ht. apply Hs'. set_solver.
  - destruct (IH seen1) as (seen' & -> & Hs'); [done|done|..].
    + intros t Ht. destruct (Hq t) as [Hst Hs]; [set_solver|]. split; [done|].
      assert (t ∉ q) by (intros ?; by apply (Hdisj t)). set_solver.
    + intros k' t Hk' Ht. destruct (Hc k' t) as [Hst _]; [set_solver|done|]. split; [done|].
      apply (Hcur k'); auto.
    + exists seen'. split; [done|]. intros t Ht. apply Hs'. set_solver.
Qed.

Lemma inv_invariant_holds s : inv s → invariant_holds s = true.
Proof.
  intros [Hc Hn Hq Hr]. unfold invariant_holds.
  assert (∀ k t, mjoin (current s !! k) = Some t ↔ current s !! k = Some (Some t)) as Hj.
  { intros k t. destruct (current s !! k) as [[]|]; cbn; clear; naive_solver. }
  destruct (check_cpus_ok s (entries (queues s)) ∅) as (seen & -> & Hseen).
  - apply entries_NoDup_keys.
  - exact Hn.
  - intros t Ht. split; [by apply Hq|set_solver].
  - intros k t _ Ht. rewrite Hj in Ht. split; [by apply Hr|set_solver].
  - apply forallb_forall. intros [t r] Hin. apply list_elem_of_In, elem_of_entries in Hin.
    assert (task_state s t = Some (t_state r)) as Hst by (unfold task_state; by rewrite Hin).
    destruct (t_state r) eqn:Hs; cbn; try done; apply bool_decide_eq_true, Hseen.
    + right. left. by apply Hq.
    + right. right. exists cpu. apply Hr in Hst. split; [|by apply Hj].
      destruct (proj2 (Hc cpu)) as [q Hk]; [by eexists|].
      apply elem_of_entries in Hk. apply list_elem_of_fmap. by exists (cpu, q).
Qed.

(** C4. The scheduler stays consistent: from any set of online CPUs and along any calls, failing
    ones included, none of which returns [GenerationOverflow] (which a task gets that yields
    once more after 2^64 - 1 times), the kernel's own check [invariant_holds] returns true,
    every runnable task sits in exactly one queue exactly once, and a task is running on a
    CPU exactly when it is that CPU's current task. *)
Theorem scheduler_consistent cpus s :
  trace (with_online_cpus cpus) s →
  invariant_holds s = true ∧ NoDup (queued s) ∧
  (∀ t, t ∈ queued s ↔ task_state s t = Some Runnable) ∧
  (∀ cpu t, current s !! cpu = Some (Some t) ↔ task_state s t = Some (Running cpu)).
Proof.
  intros H%sched_trace_inv. split; [by apply inv_invariant_holds|]. by destruct H.
Qed.

Definition demo_calls : list call :=
  [CreateTask 1 0; CreateTask 2 0; CreateTask 3 0; Dispatch 0; Dispatch 1; YieldCurrent 0].
Definition demo_sched : Scheduler :=
  foldl (λ s c, (exec c s).2) (with_online_cpus (Smp.from_ids [0; 1])) demo_calls.

Lemma demo_trace : trace (with_online_cpus (Smp.from_ids [0; 1])) demo_sched.
Proof.
  unfold demo_sched, demo_calls. cbn [foldl].
  do 6 (apply trace_step; [|vm_compute; discriminate]). apply trace_refl.
Qed.

Lemma scheduler_consistent_witness :
  queues demo_sched !! 0 = Some [2; 1] ∧ task_state demo_sched 3 = Some (Running 1) ∧
  invariant_holds demo_sched = true.
Proof.
  split_and!; [vm_compute; reflexivity..|].
  exact (proj1 (scheduler_consistent (Smp.from_ids [0; 1]) demo_sched demo_trace)).
Defined.

(** C26. Dispatch is work conserving and never fails on an idle CPU: it returns no task
    only when no task at all is runnable; otherwise it starts the oldest task of the
    CPU's own queue or, when that queue is empty, the newest task of the longest other
    queue (the lowest CPU on ties); no other task's state changes. *)
Theorem dispatch_work_conserving cpus s c :
  trace (with_online_cpus cpus) s → current s !! c = Some None →
  ∃ r s', dispatch c s = (Ok r, s') ∧
  match r with
  | None => s' = s ∧ ∀ t, task_state s t ≠ Some Runnable
  | Some t =>
    task_state s t = Some Runnable ∧ task_state s' t = Some (Running c) ∧
    (∀ t', t' ≠ t → task_state s' t' = task_state s t') ∧
    ((∃ rest, queues s !! c = Some (t :: rest)) ∨
     (queues s !! c = Some [] ∧ ∃ v rest, v ≠ c ∧ queues s !! v = Some (rest ++ [t]) ∧
        ∀ v' q', v' ≠ c → queues s !! v' = Some q' → victim_ge (v, rest ++ [t]) (v', q')))
  end.
Proof.
  intros Hinv%sched_trace_inv Hc. destruct (dispatch_cases s c Hinv Hc) as (q & Hq & H).
  assert (∀ k rest t r st, task_state (dispatched s k rest c t r st) t = Some (Running c) ∧
    ∀ t', t' ≠ t → task_state (dispatched s k rest c t r st) t' = task_state s t') as Hd.
  { intros. unfold task_state. cbn. rewrite lookup_insert_eq. split; [done|].
    intros t' Hne. by rewrite lookup_insert_ne. }
  assert (∀ t r, tasks s !! t = Some r → t_state r = Runnable →
    task_state s t = Some Runnable) as Hrun.
  { intros t r Ht Hst. unfold task_state. rewrite Ht. cbn. by rewrite Hst. }
  destruct q as [|t rest].
  - destruct (steal_victim c s) as [v|] eqn:Hv.
    + destruct H as (rest & t & r & Hqv & Ht & Hst & ->). do 2 eexists. split; [done|].
      split_and!; [by eapply Hrun|apply Hd..|]. right. split; [done|]. exists v, rest.
      destruct (steal_victim_Some _ _ _ Hv) as (q & Hvc & Hqv' & _ & Hmax).
      rewrite Hqv in Hqv'. injection Hqv' as <-. done.
    + do 2 eexists. split; [exact H|]. split; [done|]. intros t.
      rewrite <-(inv_queued s Hinv). unfold queued. rewrite list_elem_of_In, in_concat.
      intros (q & [k Hk]%list_elem_of_In%elem_of_values & Hin).
      destruct (decide (k = c)) as [->|Hne]; [by simplify_eq|].
      by rewrite (steal_victim_None _ _ _ _ Hv Hne Hk) in Hin.
  - destruct H as (r & Ht & Hst & ->). do 2 eexists. split; [done|].
    split_and!; [by eapply Hrun|apply Hd..|]. left. by exists rest.
Qed.

(** CPU 1 gives up its task and, its queue being empty, steals task 1. *)
Lemma dispatch_work_conserving_witness :
  let s := (exec (BlockCurrent 1) demo_sched).2 in
  (dispatch 1 s).1 = Ok (Some 1) ∧
  ∃ r s', dispatch 1 s = (Ok r, s') ∧
  match r with
  | None => s' = s ∧ ∀ t, task_state s t ≠ Some Runnable
  | Some t =>
    task_state s t = Some Runnable ∧ task_state s' t = Some (Running 1) ∧
    (∀ t', t' ≠ t → task_state s' t' = task_state s t') ∧
    ((∃ rest, queues s !! 1 = Some (t :: rest)) ∨
     (queues s !! 1 = Some [] ∧ ∃ v rest, v ≠ 1 ∧ queues s !! v = Some (rest ++ [t]) ∧
        ∀ v' q', v' ≠ 1 → queues s !! v' = Some q' → victim_ge (v, rest ++ [t]) (v', q')))
  end.
Proof.
  intros s. split; [vm_compute; reflexivity|].
  apply (dispatch_work_conserving (Smp.from_ids [0; 1]) s 1); [|vm_compute; reflexivity].
  apply trace_step; [apply demo_trace|vm_compute; discriminate].
Defined.

(** ** Round robin *)

(** One time slice of a CPU: dispatch, then yield. *)
Definition slice (c : Z) : op Scheduler SchedulerError (option Z) :=
  t ← dispatch c; _ ← yield_current c; mret t.

Fixpoint slices (c : Z) (n : nat) : op Scheduler SchedulerError (list (option Z)) :=
  match n with
  | O => mret []
  | S n => t ← slice c; ts ← slices c n; mret (t :: ts)
  end.

Lemma slice_spec s c t rest r :
  inv s → current s !! c = Some None → queues s !! c = Some (t :: rest) →
  tasks s !! t = Some r → t_generation r + 1 < 2 ^ 64 →
  ∃ s', slice c s = (Ok (Some t), s') ∧ inv s' ∧ current s' !! c = Some None ∧
    queues s' !! c = Some (rest ++ [t]) ∧
    ∀ t' r', t' ≠ t → tasks s !! t' = Some r' → tasks s' !! t' = Some r'.
Proof.
  intros Hinv Hc Hq Ht Hg. destruct (dispatch_cases s c Hinv Hc) as (q & Hq' & H).
  rewrite Hq in Hq'. injection Hq' as <-. destruct H as (r' & Ht' & Hst & Hd).
  rewrite Ht in Ht'. injection Ht' as <-.
  pose proof (dispatch_inv s c Hinv) as Hinv1. rewrite Hd in Hinv1. cbn in Hinv1.
  set (s1 := dispatched _ _ _ _ _ _ _) in *.
  pose proof (yield_cases s1 c Hinv1) as Hy. unfold s1 in Hy. cbn in Hy.
  rewrite lookup_insert_eq in Hy. destruct Hy as (r1 & q1 & Hr1 & Hq1 & Hy).
  rewrite lookup_insert_eq in Hr1. rewrite lookup_insert_eq in Hq1. injection Hr1 as <-. injection Hq1 as <-.
  cbn in Hy. fold s1 in Hy. destruct Hy as [[? _]|Hy]; [lia|].
  pose proof (yield_inv s1 c Hinv1) as Hinv2. rewrite Hy in Hinv2. specialize (Hinv2 ltac:(done)).
  eexists. unfold slice. op_unfold. rewrite Hd, Hy. split_and!; [done|exact Hinv2|..]; cbn.
  - by rewrite lookup_insert_eq.
  - by rewrite lookup_insert_eq.
  - intros t' r' Hne Ht'. by rewrite !lookup_insert_ne.
Qed.

Lemma slices_rotate todo done_ s c :
  inv s → current s !! c = Some None → queues s !! c = Some (todo ++ done_) →
  (∀ t, t ∈ todo → ∃ r, tasks s !! t = Some r ∧ t_generation r + 1 < 2 ^ 64) →
  ∃ s', slices c (length todo) s = (Ok (Some <$> todo), s') ∧
    current s' !! c = Some None ∧ queues s' !! c = Some (done_ ++ todo).
Proof.
  revert done_ s. induction todo as [|t todo IH]; intros dn s Hinv Hc Hq Hg; cbn.
  { exists s. by rewrite app_nil_r. }
  destruct (Hg t) as (r & Ht & Hr); [set_solver|]. cbn in Hq.
  destruct (slice_spec s c t (todo ++ dn) r) as (s1 & Hs & Hinv1 & Hc1 & Hq1 & Htasks); [done..|].
  assert (t ∉ todo) as Hnt.
  { destruct (concat_values_split _ _ _ Hq) as (rest & Hp & _).
    pose proof (inv_nodup s Hinv) as Hnd. unfold queued in Hnd. rewrite Hp in Hnd. cbn in Hnd.
    apply NoDup_cons in Hnd as [? _]. set_solver. }
  destruct (IH (dn ++ [t]) s1 Hinv1 Hc1) as (s2 & Hs2 & Hc2 & Hq2).
  - by rewrite Hq1, app_assoc.
  - intros t' Ht'. destruct (Hg t') as (r' & Hr' & Hlt); [set_solver|].
    exists r'. split; [|done]. apply Htasks; [set_solver|done].
  - exists s2. op_unfold. rewrite Hs, Hs2. by rewrite <-app_assoc in Hq2.
Qed.

(** Time slicing is round robin: on an idle CPU with a queue of [n] tasks, [n]
    dispatch-and-yield slices run each queued task exactly once, in queue order, and
    leave the queue as it was. *)
Theorem round_robin cpus s c q :
  trace (with_online_cpus cpus) s → current s !! c = Some None → queues s !! c = Some q →
  (∀ t r, t ∈ q → tasks s !! t = Some r → t_generation r + 1 < 2 ^ 64) →
  ∃ s', slices c (length q) s = (Ok (Some <$> q), s') ∧ queues s' !! c = Some q.
Proof.
  intros Hinv%sched_trace_inv Hc Hq Hg.
  destruct (slices_rotate q [] s c) as (s' & ? & _ & ?); [done|done|by rewrite app_nil_r| |].
  - intros t Ht. destruct (queued_task s c q t) as (r & Hr & _); [done..|]. eauto.
  - by exists s'.
Qed.

Lemma round_robin_witness :
  ∃ s', slices 0 2 demo_sched = (Ok [Some 2; Some 1], s') ∧ queues s' !! 0 = Some [2; 1].
Proof.
  apply (round_robin (Smp.from_ids [0; 1]) demo_sched 0 [2; 1] demo_trace);
    [vm_compute; reflexivity..|].
  intros t r [->|[->|[]%elem_of_nil]%elem_of_cons]%elem_of_cons H; vm_compute in H;
    injection H as <-; vm_compute; done.
Defined.

(** The exception of [scheduler_consistent] is real: when a running task whose generation is
    exhausted yields, the call fails with [GenerationOverflow] after it has taken the task
    from its CPU, and the kernel's own check, which held before, fails. *)
Theorem overflow_breaks_consistency :
  let s := MkScheduler {[0 := []]} {[1 := MkTask (Running 0) (2 ^ 64 - 1)]} {[0 := Some 1]} 1 0 in
  invariant_holds s = true ∧ (yield_current 0 s).1 = Err GenerationOverflow ∧
  invariant_holds (yield_current 0 s).2 = false.
Proof. vm_compute. by split_and!. Qed.

End SchedulerProps.
