(* ===== verification/Sync.v ===== *)
(** * Synchronisation objects: [kernel/src/sync.rs]

    Ticket lock, once cell, bounded multi-producer queue and barrier, each with
    a run function over call sequences that also records what the clients saw. *)
From S2P Require Import Prelude Smp.

Module Sync.
Import Smp (CpuSet, MkCpuSet, members, cpuset_contains, cpuset_len).

Inductive SyncError : Type :=
| TicketOverflow | UnknownTicket | OutOfOrderRelease | AlreadyInitialized
| Uninitialized | QueueFull | QueueEmpty | DuplicateParticipant
| ForeignParticipant | StaleGeneration | GenerationOverflow.

#[global] Instance SyncError_eq_dec : EqDecision SyncError.
Proof. solve_decision. Defined.

(** ** Ticket lock *)

Record LockGuard : Type := MkGuard { guard_ticket : Z }.

#[global] Instance LockGuard_eq_dec : EqDecision LockGuard.
Proof. solve_decision. Defined.

Record TicketLock : Type := MkLock {
  lock_next : Z;
  lock_owner : Z;
  outstanding : gset Z;
}.

Definition lock_new : TicketLock := MkLock 0 0 ∅.

Definition set_lock_next (n : Z) (l : TicketLock) : TicketLock :=
  MkLock n (lock_owner l) (outstanding l).
Definition set_lock_owner (n : Z) (l : TicketLock) : TicketLock :=
  MkLock (lock_next l) n (outstanding l).
Definition set_outstanding (o : gset Z) (l : TicketLock) : TicketLock :=
  MkLock (lock_next l) (lock_owner l) o.

Definition enqueue : op TicketLock SyncError Z :=
  ticket ← reads lock_next;
  next ← readr (λ l, ok_or TicketOverflow (checked_add 64 (lock_next l) 1));
  modify (set_lock_next next);;
  modify (λ l, set_outstanding ({[ticket]} ∪ outstanding l) l);;
  mret ticket.

Definition acquire (l : TicketLock) (ticket : Z) : res SyncError LockGuard :=
  bail_if (negb (bool_decide (ticket ∈ outstanding l))) UnknownTicket;;
  bail_if (negb (ticket =? lock_owner l)) OutOfOrderRelease;;
  Ok (MkGuard ticket).

(** [||] is lazy: the ticket is only removed when it is the owner's. *)
Definition release (guard : LockGuard) : op TicketLock SyncError unit :=
  foreign ← reads (λ l, negb (guard_ticket guard =? lock_owner l));
  lift (bail_if foreign OutOfOrderRelease);;
  removed ← reads (λ l, bool_decide (guard_ticket guard ∈ outstanding l));
  modify (λ l, set_outstanding (outstanding l ∖ {[guard_ticket guard]}) l);;
  lift (bail_if (negb removed) OutOfOrderRelease);;
  next ← readr (λ l, ok_or TicketOverflow (checked_add 64 (lock_owner l) 1));
  modify (set_lock_owner next).

Inductive lock_call : Type :=
| Enqueue
| Release (guard : LockGuard).

(** Tickets issued and tickets released, oldest first, and the final lock. *)
Fixpoint lock_run (cs : list lock_call) (l : TicketLock) : list Z * list Z * TicketLock :=
  match cs with
  | [] => ([], [], l)
  | Enqueue :: cs' =>
    let '(r, l1) := enqueue l in
    let '(issued, released, l2) := lock_run cs' l1 in
    (match r with Ok t => t :: issued | _ => issued end, released, l2)
  | Release g :: cs' =>
    let '(r, l1) := release g l in
    let '(issued, released, l2) := lock_run cs' l1 in
    (issued, match r with Ok _ => guard_ticket g :: released | _ => released end, l2)
  end.

(** ** Once cell *)

Section once.
Context {T : Type}.

Record OnceCell : Type := MkOnce { once_value : option T }.

Definition once_new : OnceCell := MkOnce None.

Definition once_initialize (value : T) : op OnceCell SyncError T :=
  set ← reads (λ c, bool_decide (is_Some (once_value c)));
  lift (bail_if set AlreadyInitialized);;
  modify (λ _, MkOnce (Some value));;
  readr (λ c, ok_or Uninitialized (once_value c)).

Definition once_get (c : OnceCell) : res SyncError T := ok_or Uninitialized (once_value c).
End once.

(** ** Bounded queue *)

Section mpsc.
Context {T : Type}.

Record BoundedMpsc : Type := MkMpsc {
  capacity : Z;
  queue : list (Z * T);
  pushes : gmap Z Z;
  pops : Z;
}.

Definition mpsc_new (cap : Z) : BoundedMpsc := MkMpsc cap [] ∅ 0.

Definition set_queue (q : list (Z * T)) (m : BoundedMpsc) : BoundedMpsc :=
  MkMpsc (capacity m) q (pushes m) (pops m).
Definition set_pushes (p : gmap Z Z) (m : BoundedMpsc) : BoundedMpsc :=
  MkMpsc (capacity m) (queue m) p (pops m).
Definition set_pops (n : Z) (m : BoundedMpsc) : BoundedMpsc :=
  MkMpsc (capacity m) (queue m) (pushes m) n.

Definition push (producer : Z) (value : T) : op BoundedMpsc SyncError unit :=
  full ← reads (λ m, Z.of_nat (length (queue m)) =? capacity m);
  lift (bail_if full QueueFull);;
  modify (λ m, set_queue (queue m ++ [(producer, value)]) m);;
  count ← readr (λ m, uadd 64 (default 0 (pushes m !! producer)) 1);
  modify (λ m, set_pushes (<[producer := count]> (pushes m)) m).

Definition pop : op BoundedMpsc SyncError (Z * T) :=
  value ← readr (λ m, ok_or QueueEmpty (head (queue m)));
  modify (λ m, set_queue (tail (queue m)) m);;
  modify (λ m, set_pops (saturating_add 64 (pops m) 1) m);;
  mret value.

Definition mpsc_len (m : BoundedMpsc) : Z := length (queue m).

(** [values().copied().sum::<u64>()] panics when it overflows. *)
Definition accounting_holds (m : BoundedMpsc) : res SyncError bool :=
  total ← foldl (λ acc p, sum ← acc; uadd 64 sum p) (Ok 0) (values (pushes m));
  Ok (total =? saturating_add 64 (pops m) (length (queue m))).

Inductive mpsc_call : Type :=
| Push (producer : Z) (value : T)
| Pop.

(** Accepted values and delivered values, oldest first, and the final queue. *)
Fixpoint mpsc_run (cs : list mpsc_call) (m : BoundedMpsc)
    : list (Z * T) * list (Z * T) * BoundedMpsc :=
  match cs with
  | [] => ([], [], m)
  | Push p v :: cs' =>
    let '(r, m1) := push p v m in
    let '(sent, received, m2) := mpsc_run cs' m1 in
    (match r with Ok _ => (p, v) :: sent | _ => sent end, received, m2)
  | Pop :: cs' =>
    let '(r, m1) := pop m in
    let '(sent, received, m2) := mpsc_run cs' m1 in
    (sent, match r with Ok x => x :: received | _ => received end, m2)
  end.
End mpsc.
Arguments BoundedMpsc : clear implicits.
Arguments OnceCell : clear implicits.
Arguments mpsc_call : clear implicits.

(** ** Barrier *)

Record Barrier : Type := MkBarrier {
  participants : CpuSet;
  arrived : gset Z;
  generation : Z;
}.

Definition barrier_new (p : CpuSet) : Barrier := MkBarrier p ∅ 0.

Definition arrive (cpu gen : Z) : op Barrier SyncError bool :=
  stale ← reads (λ b, negb (gen =? generation b));
  lift (bail_if stale StaleGeneration);;
  foreign ← reads (λ b, negb (cpuset_contains (participants b) cpu));
  lift (bail_if foreign ForeignParticipant);;
  twice ← reads (λ b, bool_decide (cpu ∈ arrived b));
  lift (bail_if twice DuplicateParticipant);;
  modify (λ b, MkBarrier (participants b) ({[cpu]} ∪ arrived b) (generation b));;
  reads (λ b, Z.of_nat (size (arrived b)) =? cpuset_len (participants b)).

Definition advance : op Barrier SyncError Z :=
  early ← reads (λ b, negb (Z.of_nat (size (arrived b)) =? cpuset_len (participants b)));
  lift (bail_if early ForeignParticipant);;
  next ← readr (λ b, ok_or GenerationOverflow (checked_add 64 (generation b) 1));
  modify (λ b, MkBarrier (participants b) (arrived b) next);;
  modify (λ b, MkBarrier (participants b) ∅ (generation b));;
  reads generation.

Inductive barrier_call : Type :=
| Arrive (cpu gen : Z)
| Advance.

(** The calls that succeed along a sequence, and the final barrier. *)
Fixpoint barrier_run (cs : list barrier_call) (b : Barrier) : list barrier_call * Barrier :=
  match cs with
  | [] => ([], b)
  | c :: cs' =>
    let '(ok, b1) :=
      match c with
      | Arrive cpu gen => let '(r, b1) := arrive cpu gen b in
          (match r with Ok _ => true | _ => false end, b1)
      | Advance => let '(r, b1) := advance b in
          (match r with Ok _ => true | _ => false end, b1)
      end in
    let '(log, b2) := barrier_run cs' b1 in
    (if ok then c :: log else log, b2)
  end.

(** ** Ticket lock: mutual exclusion and order *)

Definition lock_inv (l : TicketLock) : Prop :=
  0 ≤ lock_owner l ≤ lock_next l ∧ lock_next l < 2 ^ 64 ∧
  ∀ t, t ∈ outstanding l ↔ lock_owner l ≤ t < lock_next l.

Lemma enqueue_cases l :
  lock_inv l →
  (lock_next l + 1 = 2 ^ 64 ∧ enqueue l = (Err TicketOverflow, l)) ∨
  (∃ l', enqueue l = (Ok (lock_next l), l') ∧ lock_inv l' ∧
     lock_next l' = lock_next l + 1 ∧ lock_owner l' = lock_owner l).
Proof.
  intros (Ho & Hn & Hout). unfold enqueue. op_unfold.
  destruct (Z.ltb_spec (lock_next l + 1) (2 ^ 64)); cbn; [right|left; split; [lia|done]].
  eexists. split_and!; [done| |done|done]. split_and!; cbn; [lia..|].
  intros t. rewrite elem_of_union, elem_of_singleton, Hout. lia.
Qed.

Lemma release_cases g l :
  lock_inv l →
  release g l = (Err OutOfOrderRelease, l) ∨
  (guard_ticket g = lock_owner l ∧ lock_owner l < lock_next l ∧
   ∃ l', release g l = (Ok (), l') ∧ lock_inv l' ∧
     lock_next l' = lock_next l ∧ lock_owner l' = lock_owner l + 1).
Proof.
  intros (Ho & Hn & Hout). unfold release. op_unfold.
  destruct (Z.eqb_spec (guard_ticket g) (lock_owner l)) as [He|]; cbn; [|by left].
  case_bool_decide as Hin; cbn.
  - right. apply Hout in Hin. split_and!; [done|lia|].
    rewrite (proj2 (Z.ltb_lt _ _)) by lia. cbn. eexists. split_and!; [done| |done|done].
    split_and!; cbn; [lia..|]. intros t. rewrite elem_of_difference, elem_of_singleton, Hout. lia.
  - left. f_equal. unfold set_outstanding. rewrite difference_disjoint_L by set_solver.
    by destruct l.
Qed.

Lemma lock_run_spec cs l issued released l' :
  lock_inv l → lock_run cs l = (issued, released, l') →
  lock_inv l' ∧
  issued = seqZ (lock_next l) (lock_next l' - lock_next l) ∧
  released = seqZ (lock_owner l) (lock_owner l' - lock_owner l) ∧
  lock_next l ≤ lock_next l' ∧ lock_owner l ≤ lock_owner l'.
Proof.
  revert l issued released. induction cs as [|[|g] cs IH]; cbn [lock_run];
    intros l issued released Hinv Hr.
  - simplify_eq. rewrite !Z.sub_diag. split_and!; (done || lia).
  - destruct (enqueue_cases l Hinv) as [[_ He]|(l1 & He & Hi1 & Hn1 & Ho1)]; rewrite He in Hr;
      destruct (lock_run cs _) as [[i r] l2] eqn:Hrun; simplify_eq.
    + by eapply IH.
    + destruct (IH l1 i released Hi1 Hrun) as (? & -> & -> & ? & ?). rewrite Hn1, Ho1 in *.
      split_and!; (done || lia || idtac).
      rewrite (seqZ_cons (lock_next l)) by lia. f_equal. f_equal; lia.
  - destruct (release_cases g l Hinv) as [He|(Hg & Hlt & l1 & He & Hi1 & Hn1 & Ho1)];
      rewrite He in Hr; destruct (lock_run cs _) as [[i r] l2] eqn:Hrun; simplify_eq.
    + by eapply IH.
    + destruct (IH l1 issued r Hi1 Hrun) as (? & -> & -> & ? & ?). rewrite Hn1, Ho1 in *.
      split_and!; (done || lia || idtac).
      rewrite Hg, (seqZ_cons (lock_owner l)) by lia. f_equal. f_equal; lia.
Qed.

Lemma lock_new_inv : lock_inv lock_new.
Proof. split_and!; cbn; try done; [lia..|]. intros t. split; [set_solver|lia]. Qed.

(** The ticket lock is a fair lock: along any enqueues and releases (of any guards,
    stale copies included) tickets are released exactly in the order they were issued,
    without gaps; at most one ticket can be acquired at a time, it is the oldest
    outstanding one, and when a ticket is outstanding some ticket can be acquired. *)
Theorem ticket_lock_fair cs issued released l :
  lock_run cs lock_new = (issued, released, l) →
  (∃ waiting, issued = released ++ waiting ∧
     ∀ t, t ∈ waiting ↔ t ∈ outstanding l) ∧
  (∀ t g, acquire l t = Ok g ↔
     g = MkGuard t ∧ t ∈ outstanding l ∧ ∀ t', t' ∈ outstanding l → t ≤ t') ∧
  (outstanding l ≠ ∅ → ∃ t, acquire l t = Ok (MkGuard t)).
Proof.
  intros Hr. destruct (lock_run_spec _ _ _ _ _ lock_new_inv Hr)
    as ((Ho & Hn & Hout) & -> & -> & _ & _). cbn. rewrite !Z.sub_0_r. split_and!.
  - exists (seqZ (lock_owner l) (lock_next l - lock_owner l)). split.
    + rewrite <-seqZ_app by lia. f_equal. lia.
    + intros t. rewrite elem_of_seqZ, Hout. lia.
  - intros t g. unfold acquire, bail_if. case_bool_decide as Hin; cbn; [|naive_solver].
    pose proof (proj1 (Hout t) Hin) as Ht.
    destruct (Z.eqb_spec t (lock_owner l)) as [->|Hne]; cbn.
    + split; [intros [= <-]|intros (-> & _)]; [|done]. split_and!; [done..|].
      intros t' ?%Hout. lia.
    + split; [done|]. intros (_ & _ & Hmin). specialize (Hmin (lock_owner l)).
      rewrite Hout in Hmin. lia.
  - intros [t Ht%Hout]%set_choose_L. exists (lock_owner l). unfold acquire.
    rewrite bool_decide_true by (apply Hout; lia). cbn. by rewrite Z.eqb_refl.
Qed.

Lemma ticket_lock_fair_witness :
  let cs := [Enqueue; Enqueue; Release (MkGuard 1); Release (MkGuard 0); Enqueue;
             Release (MkGuard 0)] in
  lock_run cs lock_new = ([0; 1; 2], [0], MkLock 3 1 {[1; 2]}) ∧
  ∃ waiting, [0; 1; 2] = [0] ++ waiting ∧ ∀ t, t ∈ waiting ↔ t ∈ ({[1; 2]} : gset Z).
Proof.
  intros cs. assert (lock_run cs lock_new = ([0; 1; 2], [0], MkLock 3 1 {[1; 2]})) as H
    by (vm_compute; reflexivity).
  split; [exact H|]. exact (proj1 (ticket_lock_fair cs _ _ _ H)).
Defined.

(** ** Bounded queue: order, bound and accounting *)

Section mpsc_props.
Context {T : Type}.
Implicit Types (m : BoundedMpsc T).

Record mpsc_ok (m : BoundedMpsc T) : Prop := {
  mo_counts : ∀ p n, pushes m !! p = Some n → 0 ≤ n;
  mo_total : zsum (values (pushes m)) = pops m + length (queue m);
  mo_pops : 0 ≤ pops m;
  mo_len : length (queue m) ≤ capacity m;
}.

Lemma zsum_nonneg l : Forall (λ x, 0 ≤ x) l → 0 ≤ zsum l.
Proof. unfold zsum. induction 1; cbn; lia. Qed.

Lemma pushes_nonneg m : mpsc_ok m → Forall (λ x, 0 ≤ x) (values (pushes m)).
Proof.
  intros Hm. apply Forall_forall. intros n [p Hp]%elem_of_values. by eapply mo_counts.
Qed.

(** Crediting one producer adds one to the total. *)
Lemma zsum_credit (c : gmap Z Z) p :
  zsum (values (<[p := default 0 (c !! p) + 1]> c)) = zsum (values c) + 1.
Proof.
  rewrite values_insert. destruct (c !! p) as [n|] eqn:Hp; cbn.
  - rewrite (values_lookup c p n Hp). unfold zsum. cbn. lia.
  - rewrite delete_id by done. unfold zsum. cbn. lia.
Qed.

Lemma push_count_le m p : mpsc_ok m → default 0 (pushes m !! p) ≤ zsum (values (pushes m)).
Proof.
  intros Hm. pose proof (pushes_nonneg m Hm) as Hnn. destruct (pushes m !! p) as [n|] eqn:Hp; cbn.
  - rewrite (values_lookup _ _ _ Hp) in Hnn |- *. apply Forall_cons in Hnn as [? Hnn].
    apply zsum_nonneg in Hnn. unfold zsum in *. cbn. lia.
  - by apply zsum_nonneg.
Qed.

Lemma push_cases p v m :
  mpsc_ok m → zsum (values (pushes m)) + 1 < 2 ^ 64 →
  (length (queue m) = capacity m :> Z ∧ push p v m = (Err QueueFull, m)) ∨
  (∃ m', push p v m = (Ok (), m') ∧ mpsc_ok m' ∧ queue m' = queue m ++ [(p, v)] ∧
     capacity m' = capacity m ∧
     zsum (values (pushes m')) = zsum (values (pushes m)) + 1).
Proof.
  intros Hm Hlt. pose proof (push_count_le m p Hm) as Hle. destruct Hm as [Hc Ht Hp Hl].
  unfold push. op_unfold. destruct (Z.eqb_spec (length (queue m)) (capacity m)); cbn; [by left|].
  right. rewrite (proj2 (Z.ltb_lt _ _)) by lia. cbn. eexists. split; [done|].
  split; [split; cbn|split_and!; cbn; [done..|apply zsum_credit]].
  - intros p' n'. rewrite lookup_insert_Some. intros [[<- <-]|[_ ?]]; [|eauto].
    destruct (pushes m !! p) eqn:E; cbn; [|lia]. specialize (Hc _ _ E). lia.
  - rewrite zsum_credit, Ht, length_app. cbn. lia.
  - done.
  - rewrite length_app. cbn. lia.
Qed.

Lemma pop_cases m :
  mpsc_ok m → zsum (values (pushes m)) < 2 ^ 64 →
  (queue m = [] ∧ pop m = (Err QueueEmpty, m)) ∨
  (∃ x rest m', queue m = x :: rest ∧ pop m = (Ok x, m') ∧ mpsc_ok m' ∧ queue m' = rest ∧
     capacity m' = capacity m ∧ pushes m' = pushes m).
Proof.
  intros [Hc Ht Hp Hl] Hlt. unfold pop. op_unfold.
  destruct (queue m) as [|x rest] eqn:Hq; cbn in *; [by left|right].
  exists x, rest. eexists. split_and!; [done..| |done|done|done].
  split; cbn; unfold saturating_add, umax; [done|rewrite Ht; lia|lia..].
Qed.

Lemma mpsc_run_spec cs m sent received m' :
  mpsc_ok m → zsum (values (pushes m)) + length cs < 2 ^ 64 →
  mpsc_run cs m = (sent, received, m') →
  mpsc_ok m' ∧ queue m ++ sent = received ++ queue m' ∧ capacity m' = capacity m ∧
  zsum (values (pushes m')) < 2 ^ 64.
Proof.
  revert m sent received. induction cs as [|[p v|] cs IH]; cbn [mpsc_run length];
    intros m sent received Hm Hlt Hr.
  - simplify_eq. rewrite app_nil_r. split_and!; (done || cbn in *; lia).
  - destruct (push_cases p v m Hm) as [[_ He]|(m1 & He & Hm1 & Hq1 & Hc1 & Hs1)]; [lia|..];
      rewrite He in Hr; destruct (mpsc_run cs _) as [[a b] m2] eqn:Hrun; simplify_eq.
    + eapply IH; [done| |done]. lia.
    + destruct (IH m1 a received Hm1) as (? & Hq & ? & ?); [lia|done|].
      split_and!; [done| |congruence|done]. by rewrite <-Hq, Hq1, <-app_assoc.
  - destruct (pop_cases m Hm) as [[_ He]|(x & rest & m1 & Hq0 & He & Hm1 & Hq1 & Hc1 & Hs1)]; [lia|..];
      rewrite He in Hr; destruct (mpsc_run cs _) as [[a b] m2] eqn:Hrun; simplify_eq.
    + eapply IH; [done| |done]. lia.
    + destruct (IH m1 sent b Hm1) as (? & Hq & ? & ?); [rewrite Hs1; lia|done|].
      split_and!; [done| |congruence|done]. rewrite Hq0. cbn. by rewrite Hq.
Qed.

(** The bounded queue is a FIFO channel: along any fewer than 2^64 pushes and pops
    the delivered values are exactly the accepted ones in order, short of those still
    queued; the queue never exceeds its capacity, no counter overflows, and the kernel's
    own check [accounting_holds] returns true. *)
Theorem mpsc_fifo_accounted cap cs sent received m :
  0 ≤ cap → length cs < 2 ^ 64 →
  mpsc_run cs (mpsc_new cap : BoundedMpsc T) = (sent, received, m) →
  sent = received ++ queue m ∧ mpsc_len m ≤ cap ∧ accounting_holds m = Ok true.
Proof.
  intros Hcap Hlen Hr. assert (mpsc_ok (mpsc_new cap : BoundedMpsc T)) as Hnew.
  { split; cbn; [intros ??; by rewrite lookup_empty| |done..]. unfold values. rewrite entries_empty. reflexivity. }
  destruct (mpsc_run_spec _ _ _ _ _ Hnew ltac:(cbn; unfold values; rewrite entries_empty; exact Hlen) Hr)
    as (Hm & Hq & Hc & Hs).
  pose proof (pushes_nonneg m Hm) as Hnn. cbn in *. destruct Hm as [_ Ht Hp Hl].
  split_and!; [done|unfold mpsc_len; lia|]. unfold accounting_holds.
  rewrite foldl_uadd by (done || lia). cbn. f_equal. apply Z.eqb_eq.
  unfold saturating_add, umax. lia.
Qed.
End mpsc_props.

Lemma mpsc_fifo_accounted_witness :
  let cs := [Push 0 10; Push 1 20; Push 0 30; Pop; Push 1 40] in
  let m := MkMpsc 2 [(1, 20); (1, 40)] {[0 := 1; 1 := 2]} 1 in
  mpsc_run cs (mpsc_new 2) = ([(0, 10); (1, 20); (1, 40)], [(0, 10)], m) ∧
  accounting_holds m = Ok true.
Proof.
  intros cs m.
  assert (mpsc_run cs (mpsc_new 2) = ([(0, 10); (1, 20); (1, 40)], [(0, 10)], m)) as H
    by (vm_compute; reflexivity).
  split; [exact H|].
  apply (mpsc_fifo_accounted 2 cs [(0, 10); (1, 20); (1, 40)] [(0, 10)] m); [done|done|exact H].
Defined.

(** ** Barrier: nobody passes before everybody has arrived *)

Record barrier_inv (b : Barrier) : Prop := {
  bi_sub : arrived b ⊆ members (participants b);
  bi_gen : u64 (generation b);
}.

Lemma arrived_all b :
  barrier_inv b →
  (Z.of_nat (size (arrived b)) =? cpuset_len (participants b)) =
  bool_decide (arrived b = members (participants b)).
Proof.
  intros [Hsub _]. apply eq_true_iff_eq. rewrite Z.eqb_eq, bool_decide_eq_true. split.
  - intros Hsz. apply set_subseteq_size_eq; [done|]. unfold cpuset_len in Hsz. lia.
  - by intros ->.
Qed.

Lemma arrive_cases cpu gen b :
  barrier_inv b →
  (∃ e, arrive cpu gen b = (Err e, b)) ∨
  (gen = generation b ∧ cpu ∈ members (participants b) ∧ cpu ∉ arrived b ∧
   let b' := MkBarrier (participants b) ({[cpu]} ∪ arrived b) gen in
   barrier_inv b' ∧
   arrive cpu gen b = (Ok (bool_decide (arrived b' = members (participants b'))), b')).
Proof.
  intros Hb. unfold arrive. op_unfold. destruct (Z.eqb_spec gen (generation b)) as [->|];
    cbn; [|by left; eexists].
  unfold cpuset_contains. case_bool_decide as Hin; cbn; [|by left; eexists].
  case_bool_decide as Ha; cbn; [by left; eexists|right].
  set (b' := MkBarrier _ _ _). assert (barrier_inv b') as Hb'.
  { destruct Hb. split; cbn; [set_solver|done]. }
  pose proof (arrived_all b' Hb') as Hall. cbn in Hall.
  split_and!; [done..|]. cbn. by rewrite Hall.
Qed.

Lemma advance_cases b :
  barrier_inv b →
  (∃ e, advance b = (Err e, b)) ∨
  (arrived b = members (participants b) ∧
   let b' := MkBarrier (participants b) ∅ (generation b + 1) in
   barrier_inv b' ∧ advance b = (Ok (generation b + 1), b')).
Proof.
  intros Hb. unfold advance. op_unfold. rewrite arrived_all by done.
  case_bool_decide as Ha; cbn; [|by left; eexists].
  destruct (Z.ltb_spec (generation b + 1) (2 ^ 64)); cbn; [right|by left; eexists].
  destruct Hb. split_and!; [done| |done]. split; cbn; [set_solver|ulia].
Qed.

Lemma barrier_run_spec cs b log b' :
  barrier_inv b → barrier_run cs b = (log, b') →
  barrier_inv b' ∧ participants b' = participants b ∧
  ∀ cpu g, cpu ∈ members (participants b) → generation b ≤ g < generation b' →
    (g = generation b ∧ cpu ∈ arrived b) ∨ Arrive cpu g ∈ log.
Proof.
  revert b log. induction cs as [|[cpu gen|] cs IH]; cbn [barrier_run]; intros b log Hb Hr.
  - simplify_eq. split_and!; [done..|]. lia.
  - destruct (arrive_cases cpu gen b Hb) as [[e He]|(-> & Hin & Ha & Hb1 & He)]; rewrite He in Hr;
      destruct (barrier_run cs _) as [log1 b1] eqn:Hrun; simplify_eq; [by eapply IH|].
    destruct (IH _ _ Hb1 Hrun) as (? & Hp & Hlog). cbn in Hp, Hlog. split_and!; [done..|].
    intros c g Hc Hg. destruct (Hlog c g Hc Hg) as [[-> Hx]|Hx]; [|right; set_solver].
    apply elem_of_union in Hx as [->%elem_of_singleton|?]; [right; set_solver|by left].
  - destruct (advance_cases b Hb) as [[e He]|(Hall & Hb1 & He)]; rewrite He in Hr;
      destruct (barrier_run cs _) as [log1 b1] eqn:Hrun; simplify_eq; [by eapply IH|].
    destruct (IH _ _ Hb1 Hrun) as (? & Hp & Hlog). cbn in Hp, Hlog. split_and!; [done..|].
    intros c g Hc Hg. destruct (decide (g = generation b)) as [->|Hne].
    + left. by rewrite Hall.
    + destruct (Hlog c g Hc ltac:(lia)) as [[_ Hx]|Hx]; [set_solver|right; set_solver].
Qed.

(** The barrier holds everybody back: whatever calls are made, once the barrier has
    left a generation every participant has arrived in that generation; [advance]
    succeeds exactly when all have arrived (up to the last 64-bit generation), starts
    the next generation empty, and until then [arrive] announces exactly the last one. *)
Theorem barrier_waits_for_all p cs log b :
  barrier_run cs (barrier_new p) = (log, b) →
  (∀ cpu g, cpu ∈ members p → 0 ≤ g < generation b → Arrive cpu g ∈ log) ∧
  (∀ g b', advance b = (Ok g, b') ↔
     arrived b = members p ∧ g = generation b + 1 ∧ g < 2 ^ 64 ∧ b' = MkBarrier p ∅ g) ∧
  (∀ cpu gen last b', arrive cpu gen b = (Ok last, b') →
     last = true ↔ arrived b' = members p).
Proof.
  intros Hr. assert (barrier_inv (barrier_new p)) as Hnew by (split; cbn; [set_solver|done]).
  destruct (barrier_run_spec _ _ _ _ Hnew Hr) as (Hb & Hp & Hlog). cbn in Hp, Hlog. split_and!.
  - intros cpu g Hc Hg. destruct (Hlog cpu g Hc Hg) as [[_ ?]|?]; [set_solver|done].
  - intros g b'. unfold advance. op_unfold. rewrite arrived_all, Hp by done.
    case_bool_decide; cbn; [|naive_solver].
    destruct (Z.ltb_spec (generation b + 1) (2 ^ 64)); cbn; naive_solver lia.
  - intros cpu gen last b' Ha.
    destruct (arrive_cases cpu gen b Hb) as [[e He]|(_ & _ & _ & _ & He)]; rewrite He in Ha; [done|].
    injection Ha as <- <-. rewrite bool_decide_eq_true. cbn. by rewrite Hp.
Qed.

Lemma barrier_waits_for_all_witness :
  let p := MkCpuSet {[0; 1]} in
  let cs := [Arrive 0 0; Advance; Arrive 1 0; Arrive 1 0; Advance; Arrive 1 1] in
  let r := barrier_run cs (barrier_new p) in
  r.1 = [Arrive 0 0; Arrive 1 0; Advance; Arrive 1 1] ∧
  ∀ cpu g, cpu ∈ members p → 0 ≤ g < generation r.2 → Arrive cpu g ∈ r.1.
Proof.
  intros p cs r. split; [vm_compute; reflexivity|].
  exact (proj1 (barrier_waits_for_all p cs r.1 r.2 (surjective_pairing r))).
Defined.

End Sync.
