(* ===== verification/Storage.v ===== *)
(** * Fixed-capacity storage: [kernel/src/storage.rs]

    Arrays with a length, an unordered array map, a bitmap and a ring buffer,
    all without allocation.  Each refines an unbounded mathematical object: a
    list, a finite map, a set of bits and a queue. *)
From S2P Require Import Prelude.

Module Storage.

Inductive StorageError : Type := OutOfBounds | Full | Empty | DuplicateKey | MissingKey.

#[global] Instance StorageError_eq_dec : EqDecision StorageError.
Proof. solve_decision. Defined.

(** ** [FixedVec] *)

Section fixed_vec.
Context {T : Type} (default_T : T) (N : Z).

Record FixedVec : Type := MkVec { v_values : list T; v_len : Z }.

Definition vec_new : FixedVec := MkVec (replicate (Z.to_nat N) default_T) 0.

Definition vec_capacity (v : FixedVec) : Z := N.
Definition vec_is_empty (v : FixedVec) : bool := v_len v =? 0.

Definition vec_get (v : FixedVec) (i : Z) : res StorageError T :=
  bail_if (v_len v <=? i) OutOfBounds;;
  index (v_values v) i.

Definition vec_set (i : Z) (value : T) : op FixedVec StorageError unit :=
  outside ← reads (λ v, v_len v <=? i);
  lift (bail_if outside OutOfBounds);;
  values ← readr (λ v, index_set (v_values v) i value);
  modify (λ v, MkVec values (v_len v)).

Definition vec_push (value : T) : op FixedVec StorageError unit :=
  full ← reads (λ v, v_len v =? N);
  lift (bail_if full Full);;
  values ← readr (λ v, index_set (v_values v) (v_len v) value);
  modify (λ v, MkVec values (v_len v));;
  len ← readr (λ v, uadd 64 (v_len v) 1);
  modify (λ v, MkVec (v_values v) len).

Definition vec_pop : op FixedVec StorageError T :=
  empty ← reads vec_is_empty;
  lift (bail_if empty Empty);;
  len ← readr (λ v, usub (v_len v) 1);
  modify (λ v, MkVec (v_values v) len);;
  readr (λ v, index (v_values v) (v_len v)).

Definition as_slice (v : FixedVec) : list T := take (Z.to_nat (v_len v)) (v_values v).

(** The slice [as_mut_slice] lends can be written but not resized: what a borrower leaves in it
    is what the array holds up to the length. *)
Definition as_mut_slice {E A} (borrower : op (list T) E A) : op FixedVec E A :=
  zoom as_slice (λ slice v, MkVec (slice ++ drop (Z.to_nat (v_len v)) (v_values v)) (v_len v)) borrower.
End fixed_vec.
Arguments FixedVec : clear implicits.

(** ** [FixedMap] *)

Section fixed_map.
Context {K V : Type} `{Countable K} (N : Z).

Record FixedMap : Type := MkMap { slots : list (option (K * V)); m_len : Z }.

Definition map_new : FixedMap := MkMap (replicate (Z.to_nat N) None) 0.

(** [entries.iter().flatten()] *)
Definition flatten (l : list (option (K * V))) : list (K * V) := omap id l.

Definition map_insert (key : K) (value : V) : op FixedMap StorageError unit :=
  known ← reads (λ m, existsb (λ '(stored, _), bool_decide (stored = key)) (flatten (slots m)));
  lift (bail_if known DuplicateKey);;
  full ← reads (λ m, m_len m =? N);
  lift (bail_if full Full);;
  s ← readr (λ m, index_set (slots m) (m_len m) (Some (key, value)));
  modify (λ m, MkMap s (m_len m));;
  len ← readr (λ m, uadd 64 (m_len m) 1);
  modify (λ m, MkMap (slots m) len).

Definition map_get (m : FixedMap) (key : K) : res StorageError V :=
  ok_or MissingKey
    (find_map (λ '(stored, value), if bool_decide (stored = key) then Some value else None)
       (flatten (slots m))).

(** [Iterator::position] *)
Fixpoint position {A} (f : A → bool) (l : list A) : option Z :=
  match l with
  | [] => None
  | x :: rest => if f x then Some 0 else Z.succ <$> position f rest
  end.

Definition holds_key (key : K) (entry : option (K * V)) : bool :=
  match entry with Some (stored, _) => bool_decide (stored = key) | None => false end.

Definition map_remove (key : K) : op FixedMap StorageError V :=
  found ← reads (λ m, position (holds_key key) (take (Z.to_nat (m_len m)) (slots m)));
  match found with
  | None => lift (Err MissingKey)
  | Some i =>
    entry ← readr (λ m, index (slots m) i);
    match entry with
    | None => lift (Err MissingKey)
    | Some (_, value) =>
      last ← readr (λ m, usub (m_len m) 1);
      moved ← readr (λ m, index (slots m) last);
      s ← readr (λ m, index_set (slots m) i moved);
      modify (λ m, MkMap s (m_len m));;
      s ← readr (λ m, index_set (slots m) last None);
      modify (λ m, MkMap s (m_len m));;
      modify (λ m, MkMap (slots m) last);;
      mret value
    end
  end.
End fixed_map.
Arguments FixedMap : clear implicits.

(** ** [Bitmap] *)

Section bitmap.
Context (WORDS : Z).

Record Bitmap : Type := MkBitmap { words : list Z }.

Definition bitmap_new : Bitmap := MkBitmap (replicate (Z.to_nat WORDS) 0).

Definition bit_set (bit : Z) (value : bool) : op Bitmap StorageError unit :=
  let word := bit / 64 in
  lift (bail_if (WORDS <=? word) OutOfBounds);;
  let mask := Z.shiftl 1 (bit mod 64) in
  w ← readr (λ b, index (words b) word);
  let w := if value then Z.lor w mask else Z.land w (bnot 64 mask) in
  ws ← readr (λ b, index_set (words b) word w);
  modify (λ _, MkBitmap ws).

Definition bit_get (b : Bitmap) (bit : Z) : res StorageError bool :=
  let word := bit / 64 in
  bail_if (WORDS <=? word) OutOfBounds;;
  w ← index (words b) word;
  Ok (negb (Z.land w (Z.shiftl 1 (bit mod 64)) =? 0)).

(** [u64::trailing_zeros] *)
Fixpoint trailing_zeros_from (x : Z) (i : Z) (fuel : nat) : Z :=
  match fuel with
  | O => i
  | S n => if Z.testbit x i then i else trailing_zeros_from x (i + 1) n
  end.
Definition trailing_zeros (x : Z) : Z := trailing_zeros_from x 0 64.

Fixpoint first_clear_from (i : Z) (ws : list Z) : option Z :=
  match ws with
  | [] => None
  | w :: rest =>
    if w =? umax 64 then first_clear_from (i + 1) rest
    else Some (i * 64 + trailing_zeros (bnot 64 w))
  end.
Definition first_clear (b : Bitmap) : option Z := first_clear_from 0 (words b).
End bitmap.

(** ** [RingBuffer] *)

Section ring.
Context {T : Type} (default_T : T) (N : Z).

Record RingBuffer : Type := MkRing { r_values : list T; r_head : Z; r_len : Z }.

Definition ring_new : RingBuffer := MkRing (replicate (Z.to_nat N) default_T) 0 0.

Definition ring_push (value : T) : op RingBuffer StorageError unit :=
  full ← reads (λ r, (r_len r =? N) || (N =? 0));
  lift (bail_if full Full);;
  sum ← readr (λ r, uadd 64 (r_head r) (r_len r));
  let tail := sum mod N in
  values ← readr (λ r, index_set (r_values r) tail value);
  modify (λ r, MkRing values (r_head r) (r_len r));;
  len ← readr (λ r, uadd 64 (r_len r) 1);
  modify (λ r, MkRing (r_values r) (r_head r) len).

Definition ring_pop : op RingBuffer StorageError T :=
  empty ← reads (λ r, (r_len r =? 0) || (N =? 0));
  lift (bail_if empty Empty);;
  value ← readr (λ r, index (r_values r) (r_head r));
  sum ← readr (λ r, uadd 64 (r_head r) 1);
  modify (λ r, MkRing (r_values r) (sum mod N) (r_len r));;
  len ← readr (λ r, usub (r_len r) 1);
  modify (λ r, MkRing (r_values r) (r_head r) len);;
  mret value.
End ring.
Arguments RingBuffer : clear implicits.

(** ** The bounded abstract objects *)

Definition list_set {T} (i : Z) (value : T) : op (list T) StorageError unit :=
  outside ← reads (λ l, Z.of_nat (length l) <=? i);
  lift (bail_if outside OutOfBounds);;
  modify (<[Z.to_nat i := value]>).

Definition list_push {T} (cap : Z) (value : T) : op (list T) StorageError unit :=
  full ← reads (λ l, Z.of_nat (length l) =? cap);
  lift (bail_if full Full);;
  modify (λ l, l ++ [value]).

Definition list_pop_last {T} : op (list T) StorageError T :=
  x ← readr (λ l, ok_or Empty (last l));
  modify (λ l, removelast l);;
  mret x.

Definition list_pop_first {T} : op (list T) StorageError T :=
  x ← readr (λ l, ok_or Empty (head l));
  modify (λ l, tail l);;
  mret x.

Definition gmap_insert {K V} `{Countable K} (cap : Z) (k : K) (v : V)
    : op (gmap K V) StorageError unit :=
  known ← reads (λ g : gmap K V, bool_decide (is_Some (g !! k)));
  lift (bail_if known DuplicateKey);;
  full ← reads (λ g : gmap K V, Z.of_nat (size g) =? cap);
  lift (bail_if full Full);;
  modify (<[k := v]>).

Definition gmap_remove {K V} `{Countable K} (k : K) : op (gmap K V) StorageError V :=
  v ← readr (λ g : gmap K V, ok_or MissingKey (g !! k));
  modify (delete k);;
  mret v.

End Storage.
