(* ===== verification/StorageProps.v ===== *)
(** * Fixed-capacity storage: refinement of the abstract objects *)
From S2P Require Import Prelude Storage.

Module StorageProps.
Import Storage.

(** ** Arrays *)

Lemma index_app_middle {E A} (l k : list A) x (i : Z) :
  i = length l → (index (l ++ x :: k) i : res E A) = Ok x.
Proof. intros ->. unfold index. rewrite Nat2Z.id. by rewrite list_lookup_middle. Qed.

Lemma index_set_app_middle {E A} (l k : list A) x y (i : Z) :
  i = length l → (index_set (l ++ x :: k) i y : res E (list A)) = Ok (l ++ y :: k).
Proof.
  intros ->. unfold index_set. rewrite Nat2Z.id, length_app. cbn [length].
  rewrite (proj2 (Z.ltb_lt _ _)) by lia. f_equal.
  rewrite insert_app_r_alt by lia. by rewrite Nat.sub_diag.
Qed.

Lemma index_lookup {E A} (l : list A) i x :
  l !! Z.to_nat i = Some x → (index l i : res E A) = Ok x.
Proof. unfold index. by intros ->. Qed.

(** ** [FixedVec] refines a bounded list *)

Section vec.
Context {T : Type} (d : T) (N : Z).
Hypothesis HN : 0 ≤ N < 2 ^ 64.

(** The used part of the array is the list; the rest is arbitrary. *)
Definition vec_rel (v : FixedVec T) (l : list T) : Prop :=
  ∃ spare, v_values v = l ++ spare ∧ v_len v = length l ∧ length (l ++ spare) = N :> Z.

Lemma vec_new_rel : vec_rel (vec_new d N) [].
Proof using HN.
  exists (replicate (Z.to_nat N) d). cbn. rewrite length_replicate. split_and!; (done || lia).
Qed.

Lemma vec_push_refines x : Refines vec_rel (vec_push N x) (list_push N x).
Proof using HN.
  intros v l (spare & Hv & Hl & Hn). unfold vec_push, list_push. op_unfold.
  rewrite Hl. destruct (Z.eqb_spec (length l) N) as [He|Hne]; cbn; [by split; [|exists spare]|].
  destruct spare as [|y spare]; [rewrite app_nil_r in Hn; lia|].
  rewrite Hv, index_set_app_middle by done. cbn.
  rewrite length_app in Hn. cbn in Hn. rewrite ?Hl, (proj2 (Z.ltb_lt _ _)) by lia. cbn.
  split; [done|]. exists spare. cbn. rewrite <-app_assoc, !length_app. cbn.
  split_and!; [done|lia|lia].
Qed.

Lemma vec_pop_refines : Refines vec_rel vec_pop list_pop_last.
Proof.
  intros v l (spare & Hv & Hl & Hn). unfold vec_pop, vec_is_empty, list_pop_last. op_unfold.
  rewrite Hl. destruct l as [|y l0 _] using rev_ind; cbn; [by split; [|by exists spare]|].
  rewrite last_snoc, length_app. cbn. destruct (Z.eqb_spec (length l0 + 1)%nat 0); [lia|]. cbn.
  rewrite (proj2 (Z.leb_le _ _)) by lia. cbn. rewrite removelast_last.
  rewrite Hv, <-app_assoc. cbn. rewrite index_app_middle by lia. split; [done|].
  exists (y :: spare). cbn. rewrite <-app_assoc in Hn. split_and!; [done|lia|done].
Qed.

Lemma vec_set_refines i x : 0 ≤ i → Refines vec_rel (vec_set i x) (list_set i x).
Proof.
  intros Hi v l (spare & Hv & Hl & Hn). unfold vec_set, list_set. op_unfold.
  rewrite Hl. destruct (Z.leb_spec (length l) i) as [He|Hne]; cbn; [by split; [|exists spare]|].
  unfold index_set. rewrite Hv, (proj2 (Z.ltb_lt _ _)) by (rewrite length_app; lia). cbn.
  split; [done|]. exists spare. cbn. rewrite insert_app_l by lia.
  rewrite !length_app, length_insert in *. split_and!; (done || lia).
Qed.

(** A borrower keeps the length of the slice. *)
Definition keeps_length {E A} (borrower : op (list T) E A) : Prop :=
  ∀ l, length (borrower l).2 = length l.

Lemma as_mut_slice_refines {E A} (borrower : op (list T) E A) :
  keeps_length borrower → Refines vec_rel (as_mut_slice borrower) borrower.
Proof.
  intros Hb v l (spare & Hv & Hl & Hn). unfold as_mut_slice, zoom, as_slice. rewrite Hl, Nat2Z.id, Hv, take_app_length.
  specialize (Hb l). destruct (borrower l) as [r l'] eqn:E1. cbn in *. split; [done|].
  exists spare. cbn. rewrite drop_app_length, length_app, Hb.
  rewrite length_app in Hn. by split_and!.
Qed.

(** A [FixedVec] of capacity [N] is a list of at most [N] elements: it starts empty,
    every [push], [set] and [pop] returns what the bounded list returns and keeps
    representing it, so does a write through [as_mut_slice], [get] and [as_slice] read the list,
    and no array access is out of
    bounds. *)
Theorem fixed_vec_refines_list :
  vec_rel (vec_new d N) [] ∧
  (∀ x, Refines vec_rel (vec_push N x) (list_push N x)) ∧
  (∀ i x, 0 ≤ i → Refines vec_rel (vec_set i x) (list_set i x)) ∧
  Refines vec_rel vec_pop list_pop_last ∧
  (∀ E A (borrower : op (list T) E A), keeps_length borrower → Refines vec_rel (as_mut_slice borrower) borrower) ∧
  (∀ v l, vec_rel v l → as_slice v = l ∧ v_len v = length l ∧
     ∀ i, 0 ≤ i → vec_get v i = ok_or OutOfBounds (l !! Z.to_nat i)).
Proof using HN.
  split_and!; [apply vec_new_rel|apply vec_push_refines|apply vec_set_refines|apply vec_pop_refines|intros E A; apply as_mut_slice_refines|].
  intros v l (spare & Hv & Hl & Hn). unfold as_slice, vec_get. rewrite Hv, Hl, Nat2Z.id.
  split_and!; [by apply take_app_length|done|].
  intros i Hi. unfold bail_if. destruct (Z.leb_spec (length l) i); cbn.
  - by rewrite lookup_ge_None_2 by lia.
  - destruct (lookup_lt_is_Some_2 l (Z.to_nat i)) as [x Hx]; [lia|].
    rewrite Hx. apply index_lookup. by apply lookup_app_l_Some.
Qed.
End vec.

(** A client program over the interface, run on both sides. *)
Definition demo_prog {S} (push : Z → op S StorageError unit) (pop : op S StorageError Z)
    : op S StorageError Z :=
  push 1;; push 2;; x ← pop; push 3;; mret x.

Lemma fixed_vec_refines_list_witness :
  let m := demo_prog (vec_push 2) vec_pop in
  let m' := demo_prog (list_push 2) list_pop_last in
  (m (vec_new 0 2)).1 = (m' []).1 ∧ (m' []).1 = Ok 2 ∧ as_slice (m (vec_new 0 2)).2 = [1; 3].
Proof.
  intros m m'.
  destruct (fixed_vec_refines_list 0 2 ltac:(done)) as (Hnew & Hpush & _ & Hpop & _ & Hread).
  assert (Refines (vec_rel 2) m m') as H by (unfold m, m', demo_prog; apply _).
  destruct (H _ _ Hnew) as [Hr HR]. split_and!; [exact Hr|reflexivity|].
  exact (proj1 (Hread _ _ HR)).
Defined.

(** ** [RingBuffer] refines a bounded queue *)

Lemma ring_mod N h j :
  0 ≤ h < N → 0 ≤ j ≤ N → (h + j) mod N = if h + j <? N then h + j else h + j - N.
Proof.
  intros Hh Hj. destruct (Z.ltb_spec (h + j) N); [by rewrite Z.mod_small by lia|].
  replace (h + j) with (h + j - N + 1 * N) at 1 by lia. rewrite Z.mod_add by lia.
  by rewrite Z.mod_small by lia.
Qed.

Section ring.
Context {T : Type} (d : T) (N : Z).
(** No array is longer than the largest [isize]. *)
Hypothesis HN : 0 ≤ N < 2 ^ 63.

Definition ring_rel (r : RingBuffer T) (l : list T) : Prop :=
  length (r_values r) = N :> Z ∧ r_len r = length l ∧ length l ≤ N ∧
  0 ≤ r_head r ∧ (N ≠ 0 → r_head r < N) ∧
  ∀ j : nat, (j < length l)%nat →
    r_values r !! Z.to_nat ((r_head r + j) mod N) = l !! j.

Lemma ring_new_rel : ring_rel (ring_new d N) [].
Proof using HN.
  unfold ring_rel. cbn. rewrite length_replicate. split_and!; (done || lia).
Qed.

Lemma ring_push_refines x : Refines ring_rel (ring_push N x) (list_push N x).
Proof using HN.
  intros r l Hrel. pose proof Hrel as (Hv & Hl & Hle & Hh & Hhn & Hj).
  unfold ring_push, list_push. op_unfold. rewrite Hl.
  destruct (Z.eqb_spec (length l) N) as [He|Hne]; cbn; [done|].
  destruct (Z.eqb_spec N 0) as [He|HN0]; cbn; [lia|]. specialize (Hhn HN0).
  rewrite (proj2 (Z.ltb_lt (r_head r + _) _)) by lia. cbn.
  pose proof (Z.mod_pos_bound (r_head r + length l) N ltac:(lia)) as Hb.
  unfold index_set. rewrite Hv, (proj2 (Z.ltb_lt _ N)) by lia. cbn.
  rewrite (proj2 (Z.ltb_lt (length l + 1) _)) by lia. cbn. split; [done|].
  unfold ring_rel. cbn. rewrite length_insert, length_app. cbn. split_and!; try (done || lia).
  intros j Hjl. destruct (decide (j = length l)) as [->|Hj'].
  - rewrite list_lookup_insert_eq by lia. by rewrite list_lookup_middle.
  - rewrite lookup_app_l by lia. rewrite list_lookup_insert_ne; [apply Hj; lia|].
    rewrite !ring_mod by lia. zcase; lia.
Qed.

Lemma ring_pop_refines : Refines ring_rel (ring_pop N) list_pop_first.
Proof using HN.
  intros r l Hrel. pose proof Hrel as (Hv & Hl & Hle & Hh & Hhn & Hj).
  unfold ring_pop, list_pop_first. op_unfold. rewrite Hl.
  destruct l as [|x l]; cbn [length head]; [done|]. cbn [length] in *.
  destruct (Z.eqb_spec (S (length l)) 0); [lia|]. destruct (Z.eqb_spec N 0); [lia|]. cbn.
  specialize (Hhn n0). pose proof (Hj 0%nat ltac:(lia)) as H0.
  rewrite Z.add_0_r, Z.mod_small in H0 by lia. cbn in H0.
  rewrite (index_lookup _ _ _ H0). cbn.
  rewrite (proj2 (Z.ltb_lt (r_head r + 1) _)) by lia. cbn.
  rewrite (proj2 (Z.leb_le 1 _)) by lia. cbn. split; [done|].
  pose proof (Z.mod_pos_bound (r_head r + 1) N ltac:(lia)) as Hb.
  unfold ring_rel. cbn. split_and!; try (done || lia).
  intros j Hjl. rewrite Zplus_mod_idemp_l. etrans; [|exact (Hj (S j) ltac:(lia))].
  do 3 f_equal. lia.
Qed.

(** A [RingBuffer] of capacity [N] is a first-in first-out queue of at most [N]
    elements: it starts empty, and every [push] and [pop] returns what the bounded queue
    returns and keeps representing it, wrap-around included; no index is out of bounds
    and no sum of indices overflows. *)
Theorem ring_refines_queue :
  ring_rel (ring_new d N) [] ∧
  (∀ x, Refines ring_rel (ring_push N x) (list_push N x)) ∧
  Refines ring_rel (ring_pop N) list_pop_first.
Proof using HN.
  split_and!; [apply ring_new_rel|apply ring_push_refines|apply ring_pop_refines].
Qed.
End ring.

Lemma ring_refines_queue_witness :
  let m := demo_prog (ring_push 2) (ring_pop 2) in
  let m' := demo_prog (list_push 2) list_pop_first in
  (m (ring_new 0 2)).1 = (m' []).1 ∧ (m' []) = (Ok 1, [2; 3]) ∧
  r_values (m (ring_new 0 2)).2 = [3; 2].
Proof.
  intros m m'. destruct (ring_refines_queue 0 2 ltac:(done)) as (Hnew & Hpush & Hpop).
  assert (Refines (ring_rel 2) m m') as H by (unfold m, m', demo_prog; apply _).
  destruct (H _ _ Hnew) as [Hr HR]. split_and!; [exact Hr|reflexivity|vm_compute; reflexivity].
Defined.

(** ** [Bitmap] is a set of bits *)

Section bitmap.
Context (W : Z).
Hypothesis HW : 0 ≤ W.

Definition bitmap_ok (b : Bitmap) : Prop :=
  length (words b) = W :> Z ∧ Forall u64 (words b).

(** Bit [i] of the bitmap. *)
Definition bit_at (b : Bitmap) (i : Z) : bool :=
  match words b !! Z.to_nat (i / 64) with
  | Some w => Z.testbit w (i mod 64)
  | None => false
  end.

Lemma land_bit_nonzero w k :
  0 ≤ k → negb (Z.land w (Z.shiftl 1 k) =? 0) = Z.testbit w k.
Proof.
  intros Hk. apply eq_true_iff_eq. rewrite negb_true_iff, Z.eqb_neq. split.
  - intros Hne. destruct (Z.testbit w k) eqn:Hb; [done|]. destruct Hne.
    apply Z.bits_inj'. intros i Hi. rewrite Z.land_spec, Z.shiftl_spec, Z.bits_0 by lia.
    destruct (decide (i = k)) as [->|]; [by rewrite Hb|].
    apply andb_false_iff. right. rewrite <-Z.shiftl_spec by lia. rewrite Z.shiftl_1_l.
    apply Z.pow2_bits_false. lia.
  - intros Hb H. apply (f_equal (λ z, Z.testbit z k)) in H.
    rewrite Z.land_spec, Hb, Z.shiftl_1_l, Z.pow2_bits_true, Z.bits_0 in H by lia. done.
Qed.

Lemma shiftl_1_testbit k i : 0 ≤ k → 0 ≤ i → Z.testbit (Z.shiftl 1 k) i = (i =? k).
Proof.
  intros Hk Hi. rewrite Z.shiftl_1_l. destruct (Z.eqb_spec i k) as [->|].
  - by apply Z.pow2_bits_true.
  - apply Z.pow2_bits_false. lia.
Qed.

(** The word [set] stores: one bit changed, still 64 bits wide. *)
Lemma set_word_spec w k (v : bool) :
  u64 w → 0 ≤ k < 64 →
  let w' := if v then Z.lor w (Z.shiftl 1 k) else Z.land w (bnot 64 (Z.shiftl 1 k)) in
  u64 w' ∧ ∀ i, 0 ≤ i → Z.testbit w' i = if i =? k then v else Z.testbit w i.
Proof.
  intros [Hw0 Hw]%in_u_bits Hk w'; [|lia].
  assert (∀ i, 0 ≤ i → Z.testbit w' i = if i =? k then v else Z.testbit w i) as Hb.
  { intros i Hi. unfold w'. destruct v.
    - rewrite Z.lor_spec, shiftl_1_testbit by lia. by destruct (i =? k); rewrite ?orb_true_r, ?orb_false_r.
    - rewrite Z.land_spec, bnot_spec, shiftl_1_testbit by lia.
      destruct (Z.eqb_spec i k), (Z.ltb_spec i 64); cbn; rewrite ?andb_true_r, ?andb_false_r; try done;
        [lia|]. symmetry. apply Hw. lia. }
  split; [|done]. apply in_u_bits; [lia|]. split.
  - unfold w'. destruct v; [apply Z.lor_nonneg; split; [lia|apply Z.shiftl_nonneg; lia]|].
    apply Z.land_nonneg. by left.
  - intros i Hi. rewrite Hb by lia. destruct (Z.eqb_spec i k); [lia|]. apply Hw. lia.
Qed.

Lemma bit_word b i :
  bitmap_ok b → 0 ≤ i < 64 * W →
  ∃ w, words b !! Z.to_nat (i / 64) = Some w ∧ u64 w ∧ i / 64 < W ∧ 0 ≤ i / 64 ∧ 0 ≤ i mod 64 < 64.
Proof.
  intros [Hl Hw] Hi. assert (0 ≤ i / 64 < W) by (split; [apply Z.div_pos; lia|apply Z.div_lt_upper_bound; lia]).
  destruct (lookup_lt_is_Some_2 (words b) (Z.to_nat (i / 64))) as [w Hx]; [lia|].
  exists w. pose proof (Z.mod_pos_bound i 64). split_and!; try (done || lia).
  all: eapply (Forall_lookup_1 _ _ _ _ Hw Hx).
Qed.

Lemma bit_get_spec b i :
  bitmap_ok b → 0 ≤ i →
  bit_get W b i = if i <? 64 * W then Ok (bit_at b i) else Err OutOfBounds.
Proof.
  intros Hb Hi. unfold bit_get, bit_at. destruct (Z.ltb_spec i (64 * W)) as [Hlt|Hge].
  - destruct (bit_word b i Hb ltac:(lia)) as (w & Hw & _ & H1 & _ & H2).
    rewrite (proj2 (Z.leb_gt _ _)) by lia. cbn. rewrite (index_lookup _ _ _ Hw), Hw. cbn.
    by rewrite land_bit_nonzero by lia.
  - rewrite (proj2 (Z.leb_le _ _)); [done|]. apply Z.div_le_lower_bound; lia.
Qed.

Lemma bit_set_spec b i v :
  bitmap_ok b → 0 ≤ i →
  if i <? 64 * W then
    ∃ b', bit_set W i v b = (Ok (), b') ∧ bitmap_ok b' ∧
      ∀ j, 0 ≤ j → bit_at b' j = if j =? i then v else bit_at b j
  else bit_set W i v b = (Err OutOfBounds, b).
Proof.
  intros Hb Hi. unfold bit_set. op_unfold. destruct (Z.ltb_spec i (64 * W)) as [Hlt|Hge].
  - destruct (bit_word b i Hb ltac:(lia)) as (w & Hw & Hu & H1 & H1' & H2).
    rewrite (proj2 (Z.leb_gt _ _)) by lia. cbn. rewrite (index_lookup _ _ _ Hw). cbn.
    destruct (set_word_spec w (i mod 64) v Hu H2) as [Hu' Hbits]. set (w' := if v then _ else _) in *.
    destruct Hb as [Hl Hf]. unfold index_set. rewrite Hl, (proj2 (Z.ltb_lt _ _)) by lia. cbn.
    eexists. split; [done|]. split; [split; cbn; [by rewrite length_insert|by apply Forall_insert]|].
    intros j Hj. unfold bit_at. cbn.
    pose proof (Z.div_mod i 64) as Di. pose proof (Z.div_mod j 64) as Dj.
    pose proof (Z.div_pos j 64 Hj ltac:(lia)).
    destruct (decide (j / 64 = i / 64)) as [He|Hne].
    + rewrite He, list_lookup_insert_eq, Hw by lia.
      rewrite Hbits by (apply Z.mod_pos_bound; lia).
      destruct (Z.eqb_spec j i), (Z.eqb_spec (j mod 64) (i mod 64)); (done || congruence || lia).
    + rewrite list_lookup_insert_ne by lia.
      destruct (Z.eqb_spec j i) as [->|]; [done|reflexivity].
  - rewrite (proj2 (Z.leb_le _ _)); [done|]. apply Z.div_le_lower_bound; lia.
Qed.

Lemma trailing_zeros_spec x fuel i :
  let r := trailing_zeros_from x i fuel in
  i ≤ r ≤ i + fuel ∧ (∀ k, i ≤ k < r → Z.testbit x k = false) ∧
  (r < i + fuel → Z.testbit x r = true).
Proof.
  revert i. induction fuel as [|n IH]; intros i; cbn; [split_and!; lia|].
  destruct (Z.testbit x i) eqn:Hb; [split_and!; (lia || done)|].
  destruct (IH (i + 1)) as (H1 & H2 & H3). split_and!; [lia|lia| |intros; apply H3; lia].
  intros k Hk. destruct (decide (k = i)) as [->|]; [done|]. apply H2. lia.
Qed.

(** The lowest clear bit of a word that is not all ones. *)
Lemma word_first_clear w :
  u64 w → w ≠ umax 64 →
  let k := trailing_zeros (bnot 64 w) in
  0 ≤ k < 64 ∧ Z.testbit w k = false ∧ ∀ i, 0 ≤ i < k → Z.testbit w i = true.
Proof.
  intros Hu Hne k. unfold k, trailing_zeros.
  destruct (trailing_zeros_spec (bnot 64 w) 64 0) as (H1 & H2 & H3).
  set (r := trailing_zeros_from _ _ _) in *.
  assert (∀ i, 0 ≤ i < 64 → Z.testbit (bnot 64 w) i = negb (Z.testbit w i)) as Hn.
  { intros i Hi. rewrite bnot_spec, (proj2 (Z.ltb_lt _ _)) by lia. by destruct (Z.testbit w i). }
  assert (∀ i, 0 ≤ i < r → Z.testbit w i = true) as Hlow.
  { intros i Hi. specialize (H2 i Hi). rewrite Hn in H2 by lia. by apply negb_false_iff. }
  destruct (decide (r = 64)) as [He|Hr].
  - destruct Hne. apply in_u_bits in Hu as [_ Hu]; [|lia].
    transitivity (Z.ones 64); [|reflexivity]. apply Z.bits_inj'. intros i Hi.
    rewrite Z.testbit_ones_nonneg by lia. destruct (Z.ltb_spec i 64); [apply Hlow|apply Hu]; lia.
  - split_and!; [lia|lia| |done]. specialize (H3 ltac:(lia)). rewrite Hn in H3 by lia.
    by apply negb_true_iff.
Qed.

Lemma first_clear_from_spec ws i0 :
  Forall u64 ws → 0 ≤ i0 →
  match first_clear_from i0 ws with
  | Some i => ∃ (k : nat) w r, i = (i0 + k) * 64 + r ∧ ws !! k = Some w ∧ 0 ≤ r < 64 ∧
      Z.testbit w r = false ∧ (∀ j, 0 ≤ j < r → Z.testbit w j = true) ∧
      ∀ (k' : nat) w', (k' < k)%nat → ws !! k' = Some w' → w' = umax 64
  | None => ∀ (k' : nat) w', ws !! k' = Some w' → w' = umax 64
  end.
Proof.
  revert i0. induction ws as [|w ws IH]; intros i0 Hf Hi; cbn [first_clear_from]; [done|].
  apply Forall_cons in Hf as [Hu Hf]. destruct (Z.eqb_spec w (umax 64)) as [->|Hne].
  - specialize (IH (i0 + 1) Hf ltac:(lia)). destruct (first_clear_from (i0 + 1) ws) as [i|].
    + destruct IH as (k & w & r & -> & Hk & Hr & Hb & Hlow & Hfull). exists (S k), w, r.
      split_and!; try (done || lia). intros [|k'] w' Hk' Hw'; cbn in Hw'; [by simplify_eq|].
      apply (Hfull k'); [lia|done].
    + intros [|k'] w' Hw'; cbn in Hw'; [by simplify_eq|]. by eapply IH.
  - destruct (word_first_clear w Hu Hne) as (Hr & Hb & Hlow).
    exists 0%nat, w, (trailing_zeros (bnot 64 w)). split_and!; (done || lia || (intros; lia)).
Qed.

Lemma umax_bits i : 0 ≤ i < 64 → Z.testbit (umax 64) i = true.
Proof.
  intros Hi. change (umax 64) with (Z.ones 64). rewrite Z.testbit_ones_nonneg by lia.
  apply Z.ltb_lt. lia.
Qed.

(** A [Bitmap] of [W] words is an array of [64 * W] bits: [get] reads a bit, [set]
    changes exactly that bit, both refuse exactly the indices beyond the end, and
    [first_clear] finds the lowest clear bit or reports that every bit is set. *)
Theorem bitmap_is_bit_array b :
  bitmap_ok b →
  (∀ i, 0 ≤ i →
     bit_get W b i = if i <? 64 * W then Ok (bit_at b i) else Err OutOfBounds) ∧
  (∀ i v, 0 ≤ i →
     if i <? 64 * W then
       ∃ b', bit_set W i v b = (Ok (), b') ∧ bitmap_ok b' ∧
         ∀ j, 0 ≤ j → bit_at b' j = if j =? i then v else bit_at b j
     else bit_set W i v b = (Err OutOfBounds, b)) ∧
  match first_clear b with
  | Some i => 0 ≤ i < 64 * W ∧ bit_at b i = false ∧ ∀ j, 0 ≤ j < i → bit_at b j = true
  | None => ∀ j, 0 ≤ j < 64 * W → bit_at b j = true
  end.
Proof.
  intros Hb. split_and!; [intros; by apply bit_get_spec|intros; by apply bit_set_spec|].
  pose proof (first_clear_from_spec (words b) 0 (proj2 Hb) ltac:(lia)) as H. unfold first_clear.
  assert (∀ j, 0 ≤ j < 64 * W → words b !! Z.to_nat (j / 64) = Some (umax 64) →
    bit_at b j = true) as Hfull.
  { intros j Hj Hw. unfold bit_at. rewrite Hw. apply umax_bits, Z.mod_pos_bound. lia. }
  destruct (first_clear_from 0 (words b)) as [i|].
  - destruct H as (k & w & r & -> & Hk & Hr & Hbit & Hlow & Hprev).
    rewrite Z.add_0_l. pose proof (lookup_lt_Some _ _ _ Hk) as Hlt. destruct Hb as [Hl Hf].
    assert (∀ x, 0 ≤ x < 64 → (k * 64 + x) / 64 = k ∧ (k * 64 + x) mod 64 = x) as Hdm.
    { intros x Hx. rewrite (Z.add_comm (k * 64)), Z.div_add, Z.mod_add by lia.
      rewrite Z.div_small, Z.mod_small by lia. lia. }
    split_and!; [lia|lia| |].
    + unfold bit_at. destruct (Hdm r Hr) as [-> ->]. by rewrite Nat2Z.id, Hk.
    + intros j Hj. destruct (bit_word b j (conj Hl Hf) ltac:(lia)) as (w' & Hw' & _ & _ & Hd0 & Hm).
      destruct (Z.lt_ge_cases (j / 64) k) as [Hjk|Hjk].
      * apply Hfull; [lia|]. by rewrite Hw', (Hprev (Z.to_nat (j / 64)) w' ltac:(lia) Hw').
      * pose proof (Z.div_mod j 64 ltac:(lia)). assert (j / 64 = k) as Hjk' by lia.
        unfold bit_at. rewrite Hjk', Nat2Z.id, Hk. apply Hlow. lia.
  - intros j Hj. destruct (bit_word b j Hb Hj) as (w & Hw & _). apply Hfull; [done|].
    by rewrite Hw, (H _ _ Hw).
Qed.

End bitmap.

Lemma bitmap_is_bit_array_witness :
  let b := MkBitmap [umax 64; 5] in
  first_clear b = Some 65 ∧ bit_at b 65 = false ∧ ∀ j, 0 ≤ j < 65 → bit_at b j = true.
Proof.
  intros b. assert (first_clear b = Some 65) as H by (vm_compute; reflexivity).
  split; [exact H|].
  assert (bitmap_ok 2 b) as Hb by (split; [done|repeat constructor; ulia]).
  pose proof (bitmap_is_bit_array 2 b Hb) as (_ & _ & Hc). rewrite H in Hc. by destruct Hc as (_ & ? & ?).
Defined.

(** ** [FixedMap] refines a bounded finite map *)

Section fixed_map.
Context {K V : Type} `{Countable K} (N : Z).
Hypothesis HN : 0 ≤ N < 2 ^ 64.

(** The used slots hold the entries of the map, in any order, then [None]s. *)
Definition map_rel (m : FixedMap K V) (g : gmap K V) : Prop :=
  ∃ l (n : nat), slots m = (Some <$> l) ++ replicate n None ∧ m_len m = length l ∧
    length l + n = N ∧ NoDup l.*1 ∧ list_to_map l = g.

Lemma flatten_slots (l : list (K * V)) n : flatten ((Some <$> l) ++ replicate n None) = l.
Proof.
  unfold flatten. rewrite omap_app. replace (omap id (replicate n None)) with (@nil (K * V)).
  - rewrite app_nil_r. induction l as [|x l IH]; cbn in *; [done|by rewrite IH].
  - by induction n.
Qed.

Lemma find_key (l : list (K * V)) k :
  find_map (λ '(stored, value), if bool_decide (stored = k) then Some value else None) l
  = (list_to_map l : gmap K V) !! k.
Proof.
  induction l as [|[k' v] l IH]; cbn; [by rewrite lookup_empty|].
  case_bool_decide as Hk; subst; [by rewrite lookup_insert_eq|by rewrite lookup_insert_ne].
Qed.

Lemma exists_key (l : list (K * V)) k :
  existsb (λ '(stored, _), bool_decide (stored = k)) l
  = bool_decide (is_Some ((list_to_map l : gmap K V) !! k)).
Proof.
  induction l as [|[k' v] l IH]; cbn; [by rewrite lookup_empty|].
  destruct (decide (k' = k)) as [->|Hk].
  - by rewrite lookup_insert_eq, bool_decide_true.
  - by rewrite lookup_insert_ne, bool_decide_false.
Qed.

Lemma list_to_map_size (l : list (K * V)) :
  NoDup l.*1 → size (list_to_map l : gmap K V) = length l.
Proof.
  intros Hnd. rewrite <-length_map_to_list. by rewrite map_to_list_to_map.
Qed.

Lemma map_insert_refines k v : Refines map_rel (map_insert N k v) (gmap_insert N k v).
Proof using HN.
  intros m g (l & n & Hs & Hl & Hn & Hnd & <-). unfold map_insert, gmap_insert. op_unfold.
  rewrite Hs, flatten_slots, exists_key.
  case_bool_decide as Hk; cbn; [by split; [|exists l, n]|].
  rewrite Hl, list_to_map_size by done.
  destruct (Z.eqb_spec (length l) N); cbn; [by split; [|exists l, n]|].
  destruct n as [|n']; [lia|]. cbn.
  rewrite index_set_app_middle by (by rewrite length_fmap). cbn.
  rewrite (proj2 (Z.ltb_lt _ _)) by lia. cbn. split; [done|].
  apply eq_None_not_Some, not_elem_of_list_to_map_2 in Hk.
  exists (l ++ [(k, v)]), n'. cbn. rewrite !fmap_app, <-app_assoc, length_app. cbn.
  split_and!; [done|lia|lia| |].
  - rewrite (comm (++)). cbn. by constructor.
  - rewrite list_to_map_snoc by done. done.
Qed.

(** The slot found by [position] splits the entries at the key. *)
Lemma position_key (l : list (K * V)) n k :
  position (holds_key k) (take (length l) ((Some <$> l) ++ replicate n None)) =
  match list_find (λ e, e.1 = k) l with Some (i, _) => Some (Z.of_nat i) | None => None end.
Proof.
  rewrite take_app_length' by (by rewrite length_fmap).
  induction l as [|[k' v] l IH]; cbn; [done|].
  destruct (decide (k' = k)) as [->|Hk]; [by rewrite bool_decide_true|].
  rewrite bool_decide_false, IH by done.
  destruct (list_find _ l) as [[i e]|]; cbn; [f_equal; lia|done].
Qed.

(** [remove] moves the last entry into the hole. *)
Lemma map_remove_found (l1 l2 : list (K * V)) k v (n : nat) (len : Z) :
  len = length (l1 ++ (k, v) :: l2) →
  position (holds_key k) (take (Z.to_nat len)
    ((Some <$> l1 ++ (k, v) :: l2) ++ replicate n None)) = Some (Z.of_nat (length l1)) →
  ∃ l', l' ≡ₚ l1 ++ l2 ∧
    map_remove k (MkMap ((Some <$> l1 ++ (k, v) :: l2) ++ replicate n None) len)
    = (Ok v, MkMap ((Some <$> l') ++ replicate (S n) None) (length l')).
Proof.
  intros -> Hpos. unfold map_remove. op_unfold. cbv beta iota; cbn [slots m_len]. rewrite Hpos.
  cbv beta iota; cbn [slots m_len]. rewrite fmap_app, fmap_cons, <-app_assoc, <-app_comm_cons.
  rewrite index_app_middle by (by rewrite length_fmap). cbv beta iota; cbn [slots m_len].
  rewrite length_app. cbn [length]. rewrite (proj2 (Z.leb_le _ _)) by lia.
  destruct l2 as [|y l2 _] using rev_ind.
  - exists l1. split; [by rewrite app_nil_r|]. cbn [length fmap list_fmap app].
    rewrite index_app_middle by (rewrite length_fmap; lia). cbv beta iota; cbn [slots m_len].
    rewrite index_set_app_middle by (by rewrite length_fmap). cbv beta iota; cbn [slots m_len].
    rewrite index_set_app_middle by (rewrite length_fmap; lia). cbv beta iota; cbn [slots m_len].
    do 2 f_equal. lia.
  - exists (l1 ++ y :: l2). split; [by rewrite (comm (++) l2)|].
    rewrite fmap_app. cbn [fmap list_fmap]. rewrite <-app_assoc, length_app.
    assert (∀ e : option (K * V), (Some <$> l1) ++ e :: (Some <$> l2) ++ [Some y] ++ replicate n None
      = ((Some <$> l1) ++ e :: (Some <$> l2)) ++ Some y :: replicate n None) as Hsplit.
    { intros e. by rewrite <-app_assoc. }
    rewrite Hsplit, index_app_middle by (rewrite length_app; cbn; rewrite !length_fmap; lia).
    cbv beta iota; cbn [slots m_len]. rewrite <-Hsplit.
    rewrite index_set_app_middle by (by rewrite length_fmap). cbv beta iota; cbn [slots m_len].
    rewrite Hsplit, index_set_app_middle by (rewrite length_app; cbn; rewrite !length_fmap; lia).
    cbv beta iota; cbn [slots m_len]. rewrite fmap_app, fmap_cons, length_app. cbn [length].
    do 2 f_equal. lia.
Qed.

Lemma map_remove_refines k : Refines map_rel (map_remove k) (gmap_remove k).
Proof using HN.
  intros m g (l & n & Hs & Hl & Hn & Hnd & <-). destruct m as [sl len]. cbn in Hs, Hl. subst sl.
  pose proof (position_key l n k) as Hpos. unfold gmap_remove. op_unfold.
  destruct (list_find (λ e, e.1 = k) l) as [[i e]|] eqn:Hf.
  - apply list_find_Some in Hf as (Hi & Hk & _). destruct e as [k' v]. cbn in Hk. subst k'.
    destruct (list_elem_of_split_length _ _ _ Hi) as (l1 & l2 & -> & ->).
    assert ((list_to_map (l1 ++ (k, v) :: l2) : gmap K V) !! k = Some v) as ->.
    { apply elem_of_list_to_map_1; [done|set_solver]. }
    destruct (map_remove_found l1 l2 k v n len) as (l' & Hl' & ->); [done|by rewrite Hl, Nat2Z.id|].
    cbn. split; [done|]. exists l', (S n). rewrite fmap_app, fmap_cons in Hnd. cbn in Hnd.
    rewrite <-Permutation_middle in Hnd. apply NoDup_cons in Hnd as [Hk Hnd].
    assert (NoDup l'.*1) as Hnd' by (by rewrite Hl', fmap_app).
    rewrite length_app in Hn. cbn in Hn. split_and!; [done|done| |done|].
    + rewrite Hl', length_app. lia.
    + rewrite (list_to_map_proper l' (l1 ++ l2) Hnd' Hl').
      rewrite <-(list_to_map_proper ((k, v) :: l1 ++ l2) (l1 ++ (k, v) :: l2)).
      * cbn. rewrite delete_insert_id; [done|].
        apply not_elem_of_list_to_map_1. by rewrite fmap_app.
      * cbn. rewrite fmap_app. by constructor.
      * apply Permutation_middle.
  - assert ((list_to_map l : gmap K V) !! k = None) as ->.
    { apply not_elem_of_list_to_map_1. intros ([k' v] & -> & Hin)%list_elem_of_fmap.
      apply list_find_None in Hf. rewrite Forall_forall in Hf. by apply (Hf _ Hin). }
    unfold map_remove. op_unfold. cbn [slots m_len]. rewrite Hl, Nat2Z.id, Hpos. cbn.
    split; [done|]. by exists l, n.
Qed.

(** A [FixedMap] of capacity [N] is a finite map of at most [N] keys: it starts
    empty, every [insert] and [remove] returns what the bounded map returns (duplicates
    refused before a full table, the removed value given back) and keeps representing
    it although removal reorders the slots, and [get] and [len] read it. *)
Theorem fixed_map_refines_map :
  map_rel (map_new N) ∅ ∧
  (∀ k v, Refines map_rel (map_insert N k v) (gmap_insert N k v)) ∧
  (∀ k, Refines map_rel (map_remove k) (gmap_remove k)) ∧
  (∀ m g, map_rel m g → m_len m = size g ∧ ∀ k, map_get m k = ok_or MissingKey (g !! k)).
Proof using HN.
  split_and!; [|apply map_insert_refines|apply map_remove_refines|].
  - exists [], (Z.to_nat N). cbn. split_and!; [done|done|lia|constructor|done].
  - intros m g (l & n & Hs & Hl & Hn & Hnd & <-). rewrite list_to_map_size by done.
    split; [done|]. intros k. unfold map_get. by rewrite Hs, flatten_slots, find_key.
Qed.
End fixed_map.

Lemma fixed_map_refines_map_witness :
  let prog {S} (ins : Z → Z → op S StorageError unit) (rem : Z → op S StorageError Z) :=
    (ins 1 10;; ins 2 20;; x ← rem 1; ins 3 30;; mret x) : op S StorageError Z in
  let r := prog (map_insert 2) map_remove (map_new 2) in
  r.1 = Ok 10 ∧ map_get r.2 3 = Ok 30 ∧ map_get r.2 1 = Err MissingKey.
Proof.
  intros prog r.
  destruct (fixed_map_refines_map (K := Z) (V := Z) 2 ltac:(done)) as (Hnew & Hins & Hrem & Hget).
  assert (Refines (map_rel 2) (prog _ (map_insert 2) map_remove)
    (prog _ (gmap_insert 2) gmap_remove)) as Hr by (unfold prog; apply _).
  destruct (Hr _ _ Hnew) as [Hv HR]. destruct (Hget _ _ HR) as [_ Hread].
  unfold r. rewrite Hv, !Hread. vm_compute. done.
Defined.

End StorageProps.
