(* ===== verification/DmaState.v ===== *)
(** * DMA: [kernel/src/dma.rs]

    Pinned regions with generations and CPU/device ownership, IOMMU domains
    and the segments mapped into them. *)
From S2P Require Import Prelude Capability.

Module DmaState.

Inductive DmaDirection : Type := ToDevice | FromDevice | Bidirectional.
Inductive DmaOwnership : Type := CpuOwned | DeviceOwned.
Inductive IommuMode : Type := AbsentIdentity | Present.

#[global] Instance DmaOwnership_eq_dec : EqDecision DmaOwnership.
Proof. solve_decision. Defined.

Record DmaMapping : Type := MkMapping {
  m_device : Z;
  m_domain : Z;
  m_base : Z;
  m_len : Z;
  m_direction : DmaDirection;
  m_generation : Z;
  m_ownership : DmaOwnership;
}.

Record DmaPin : Type := MkPin {
  p_slot : Z;
  p_device : Z;
  p_domain : Z;
  p_base : Z;
  p_len : Z;
  p_direction : DmaDirection;
}.

Inductive DmaError : Type :=
| WrongCapability | MissingRights | OutOfRange | DuplicateMapping | UnknownMapping
| StaleGeneration | ForeignDevice | ForeignDomain | GenerationOverflow | ZeroLength
| WrongOwnership | DuplicateDomain | UnknownDomain | DomainCapability | IommuRequired
| AlreadyMapped | NotMapped | SegmentOverflow.

#[global] Instance DmaError_eq_dec : EqDecision DmaError.
Proof. solve_decision. Defined.

Record IommuDomain : Type := MkDomain {
  d_id : Z;
  d_device : Z;
  aperture_base : Z;
  aperture_len : Z;
  mode : IommuMode;
}.

Record DmaSegment : Type := MkSegment { device_address : Z; seg_len : Z }.

Record DmaState : Type := MkDma {
  mappings : gmap Z DmaMapping;
  generations : gmap Z Z;
  domains : gmap Z IommuDomain;
  segments : gmap Z (list DmaSegment);
}.

Definition dma_new : DmaState := MkDma ∅ ∅ ∅ ∅.

Definition set_mappings (m : gmap Z DmaMapping) (s : DmaState) : DmaState :=
  MkDma m (generations s) (domains s) (segments s).
Definition set_generations (g : gmap Z Z) (s : DmaState) : DmaState :=
  MkDma (mappings s) g (domains s) (segments s).
Definition set_domains (d : gmap Z IommuDomain) (s : DmaState) : DmaState :=
  MkDma (mappings s) (generations s) d (segments s).
Definition set_segments (g : gmap Z (list DmaSegment)) (s : DmaState) : DmaState :=
  MkDma (mappings s) (generations s) (domains s) g.

Definition pin (region : Capability) (request : DmaPin) : op DmaState DmaError DmaMapping :=
  lift (bail_if (negb (bool_decide (cap_kind region = Dma)
                       || bool_decide (cap_kind region = Frame)
                       || bool_decide (cap_kind region = PhysRegion))) WrongCapability);;
  lift (bail_if (negb (rights_contains (cap_rights region) (rights_union READ WRITE)))
          MissingRights);;
  lift (bail_if (p_len request =? 0) ZeroLength);;
  lift (bail_if (negb (contains_range region (p_base request) (p_len request))) OutOfRange);;
  busy ← reads (λ s, bool_decide (is_Some (mappings s !! p_slot request)));
  lift (bail_if busy DuplicateMapping);;
  generation ← reads (λ s, default 0 (generations s !! p_slot request));
  let mapping := MkMapping (p_device request) (p_domain request) (p_base request)
    (p_len request) (p_direction request) generation CpuOwned in
  modify (λ s, set_mappings (<[p_slot request := mapping]> (mappings s)) s);;
  mret mapping.

(** [insert] has replaced the domain before the duplicate is reported. *)
Definition register_domain (domain : IommuDomain) : op DmaState DmaError unit :=
  lift (bail_if ((aperture_len domain =? 0)
                 || bool_decide (checked_add 64 (aperture_base domain) (aperture_len domain) = None))
          SegmentOverflow);;
  previous ← reads (λ s, domains s !! d_id domain);
  modify (λ s, set_domains (<[d_id domain := domain]> (domains s)) s);;
  lift (bail_if (bool_decide (is_Some previous)) DuplicateDomain).

(** The lookup and generation test every handle goes through. *)
Definition live_mapping (s : DmaState) (slot : Z) (mapping : DmaMapping)
    : res DmaError DmaMapping :=
  live ← ok_or UnknownMapping (mappings s !! slot);
  bail_if (negb (m_generation live =? m_generation mapping)) StaleGeneration;;
  Ok live.

(** The [match domain.mode] of [map_domain]. *)
Definition check_mode (domain : IommuDomain) (mapping : DmaMapping)
    (capability : option Capability) (address : Z) : res DmaError unit :=
  match mode domain with
  | AbsentIdentity =>
    bail_if (bool_decide (is_Some capability) || negb (address =? m_base mapping)) IommuRequired
  | Present =>
    c ← ok_or DomainCapability capability;
    bail_if (negb (bool_decide (cap_kind c = IommuDomainKind))
             || negb (rights_contains (cap_rights c) MAP)
             || negb (cap_slot c =? d_id domain)) DomainCapability;;
    end_ ← ok_or SegmentOverflow (checked_add 64 address (m_len mapping));
    aperture_end ← ok_or SegmentOverflow
      (checked_add 64 (aperture_base domain) (aperture_len domain));
    bail_if ((address <? aperture_base domain) || (aperture_end <? end_)) OutOfRange
  end.

Definition map_domain (slot : Z) (mapping : DmaMapping) (capability : option Capability)
    (address : Z) : op DmaState DmaError (list DmaSegment) :=
  _ ← readr (λ s, live_mapping s slot mapping);
  mapped ← reads (λ s, bool_decide (is_Some (segments s !! slot)));
  lift (bail_if mapped AlreadyMapped);;
  domain ← readr (λ s, ok_or UnknownDomain (domains s !! m_domain mapping));
  lift (bail_if (negb (d_device domain =? m_device mapping)) ForeignDevice);;
  lift (check_mode domain mapping capability address);;
  let segs := [MkSegment address (m_len mapping)] in
  modify (λ s, set_segments (<[slot := segs]> (segments s)) s);;
  mret segs.

Definition unmap_domain (slot : Z) (mapping : DmaMapping)
    : op DmaState DmaError (list DmaSegment) :=
  live ← readr (λ s, live_mapping s slot mapping);
  lift (bail_if (negb (bool_decide (m_ownership live = CpuOwned))) WrongOwnership);;
  segs ← readr (λ s, ok_or NotMapped (segments s !! slot));
  modify (λ s, set_segments (delete slot (segments s)) s);;
  mret segs.

Definition validate (s : DmaState) (slot : Z) (mapping : DmaMapping) (device domain : Z)
    : res DmaError unit :=
  live ← live_mapping s slot mapping;
  bail_if (negb (m_device live =? device) || negb (m_device mapping =? device)) ForeignDevice;;
  bail_if (negb (m_domain live =? domain) || negb (m_domain mapping =? domain)) ForeignDomain.

Definition unpin (slot : Z) (mapping : DmaMapping) : op DmaState DmaError unit :=
  live ← readr (λ s, live_mapping s slot mapping);
  lift (bail_if (negb (bool_decide (m_ownership live = CpuOwned))) WrongOwnership);;
  mapped ← reads (λ s, bool_decide (is_Some (segments s !! slot)));
  lift (bail_if mapped AlreadyMapped);;
  next ← lift (ok_or GenerationOverflow (checked_add 64 (m_generation live) 1));
  modify (λ s, set_mappings (delete slot (mappings s)) s);;
  modify (λ s, set_generations (<[slot := next]> (generations s)) s).

Definition with_ownership (m : DmaMapping) (o : DmaOwnership) : DmaMapping :=
  MkMapping (m_device m) (m_domain m) (m_base m) (m_len m) (m_direction m) (m_generation m) o.

Definition transition_ownership (slot : Z) (mapping : DmaMapping)
    (expected next : DmaOwnership) : op DmaState DmaError DmaMapping :=
  live ← readr (λ s, live_mapping s slot mapping);
  lift (bail_if (negb (bool_decide (m_ownership live = expected))
                 || negb (bool_decide (m_ownership mapping = expected))) WrongOwnership);;
  let live := with_ownership live next in
  modify (λ s, set_mappings (<[slot := live]> (mappings s)) s);;
  mret live.

Definition sync_for_device (slot : Z) (mapping : DmaMapping) : op DmaState DmaError DmaMapping :=
  transition_ownership slot mapping CpuOwned DeviceOwned.
Definition sync_for_cpu (slot : Z) (mapping : DmaMapping) : op DmaState DmaError DmaMapping :=
  transition_ownership slot mapping DeviceOwned CpuOwned.

(** ** Calls *)

Inductive call : Type :=
| Pin (region : Capability) (request : DmaPin)
| RegisterDomain (domain : IommuDomain)
| MapDomain (slot : Z) (mapping : DmaMapping) (capability : option Capability) (address : Z)
| UnmapDomain (slot : Z) (mapping : DmaMapping)
| Unpin (slot : Z) (mapping : DmaMapping)
| SyncForDevice (slot : Z) (mapping : DmaMapping)
| SyncForCpu (slot : Z) (mapping : DmaMapping).

Definition exec (c : call) (s : DmaState) : DmaState :=
  match c with
  | Pin region request => (pin region request s).2
  | RegisterDomain domain => (register_domain domain s).2
  | MapDomain slot mapping capability address => (map_domain slot mapping capability address s).2
  | UnmapDomain slot mapping => (unmap_domain slot mapping s).2
  | Unpin slot mapping => (unpin slot mapping s).2
  | SyncForDevice slot mapping => (sync_for_device slot mapping s).2
  | SyncForCpu slot mapping => (sync_for_cpu slot mapping s).2
  end.

(** ** What the calls do to one slot

    [slot_step c s s' k]: the six ways a call may leave slot [k]; every call is
    one of them at every slot. *)

Inductive slot_step (c : call) (s s' : DmaState) (k : Z) : Prop :=
| slot_same :
    mappings s' !! k = mappings s !! k → segments s' !! k = segments s !! k →
    generations s' !! k = generations s !! k → slot_step c s s' k
| slot_pinned m :
    mappings s !! k = None → mappings s' !! k = Some m →
    m_generation m = default 0 (generations s !! k) → m_ownership m = CpuOwned →
    segments s' !! k = segments s !! k → generations s' !! k = generations s !! k →
    slot_step c s s' k
| slot_mapped segs :
    mappings s' !! k = mappings s !! k → is_Some (mappings s !! k) →
    segments s !! k = None → segments s' !! k = Some segs →
    generations s' !! k = generations s !! k → slot_step c s s' k
| slot_unmapped m :
    mappings s !! k = Some m → m_ownership m = CpuOwned → mappings s' !! k = Some m →
    segments s' !! k = None → generations s' !! k = generations s !! k → slot_step c s s' k
| slot_unpinned m :
    mappings s !! k = Some m → m_ownership m = CpuOwned → segments s !! k = None →
    mappings s' !! k = None → segments s' !! k = None →
    generations s' !! k = Some (m_generation m + 1) → slot_step c s s' k
| slot_synced m h o :
    c = (match o with CpuOwned => SyncForCpu k h | DeviceOwned => SyncForDevice k h end) →
    mappings s !! k = Some m → m_ownership m ≠ o →
    mappings s' !! k = Some (with_ownership m o) → segments s' !! k = segments s !! k →
    generations s' !! k = generations s !! k → slot_step c s s' k.

Lemma live_mapping_Ok s slot m live :
  live_mapping s slot m = Ok live ↔
  mappings s !! slot = Some live ∧ m_generation live = m_generation m.
Proof.
  unfold live_mapping, bail_if. destruct (mappings s !! slot) as [l|]; cbn; [|naive_solver].
  destruct (Z.eqb_spec (m_generation l) (m_generation m)); cbn; naive_solver.
Qed.

#[global] Instance live_mapping_returns s slot m : Returns (live_mapping s slot m).
Proof. unfold live_mapping. solve_no_panic. Qed.
#[global] Instance check_mode_returns d m c a : Returns (check_mode d m c a).
Proof. unfold check_mode. solve_no_panic. Qed.

(** Every method but [register_domain] checks first and mutates last. *)
Lemma pin_closed region r : FailClosed (pin region r) ∧ NoPanic (pin region r).
Proof. unfold pin. split; [solve_fail_closed|solve_no_panic]. Qed.
Lemma map_domain_closed k m c a : FailClosed (map_domain k m c a) ∧ NoPanic (map_domain k m c a).
Proof. unfold map_domain. split; [solve_fail_closed|solve_no_panic]. Qed.
Lemma unmap_domain_closed k m : FailClosed (unmap_domain k m) ∧ NoPanic (unmap_domain k m).
Proof. unfold unmap_domain. split; [solve_fail_closed|solve_no_panic]. Qed.
Lemma unpin_closed k m : FailClosed (unpin k m) ∧ NoPanic (unpin k m).
Proof. unfold unpin. split; [solve_fail_closed|solve_no_panic]. Qed.
Lemma transition_closed k m e n :
  FailClosed (transition_ownership k m e n) ∧ NoPanic (transition_ownership k m e n).
Proof. unfold transition_ownership. split; [solve_fail_closed|solve_no_panic]. Qed.

Lemma unpin_Ok slot m s u s' :
  unpin slot m s = (Ok u, s') →
  ∃ live, mappings s !! slot = Some live ∧ m_generation live = m_generation m ∧
    m_ownership live = CpuOwned ∧ segments s !! slot = None ∧
    s' = MkDma (delete slot (mappings s)) (<[slot := m_generation live + 1]> (generations s))
           (domains s) (segments s).
Proof.
  unfold unpin. intros H. op_inv H. guards. apply live_mapping_Ok in H0 as [? ?].
  apply eq_None_not_Some in H2. eexists. by split_and!.
Qed.

Lemma transition_Ok slot m e n s r s' :
  transition_ownership slot m e n s = (Ok r, s') →
  ∃ live, mappings s !! slot = Some live ∧ m_generation live = m_generation m ∧
    m_ownership live = e ∧ r = with_ownership live n ∧
    s' = set_mappings (<[slot := with_ownership live n]> (mappings s)) s.
Proof.
  unfold transition_ownership. intros H. op_inv H. guards. apply live_mapping_Ok in H0 as [? ?].
  eexists. by split_and!.
Qed.

(** The slot a call touches, against any other. *)
Ltac other_slot k slot :=
  destruct (decide (k = slot)) as [->|Hne];
  [|apply slot_same; cbn; rewrite ?lookup_insert_ne, ?lookup_delete_ne by done; done].

Lemma transition_slot_step slot m e n s k :
  let c := match n with CpuOwned => SyncForCpu slot m | DeviceOwned => SyncForDevice slot m end in
  e ≠ n → slot_step c s (transition_ownership slot m e n s).2 k.
Proof.
  intros c Hen. destruct (closed_cases (transition_ownership slot m e n) s) as [->|[r Hr]];
    [apply transition_closed..|by apply slot_same|].
  apply transition_Ok in Hr as (live & Hl & _ & Ho & _ & ->). other_slot k slot.
  apply (slot_synced _ _ _ _ live m n); cbn; [done|done|congruence|by rewrite lookup_insert_eq|done|done].
Qed.

Lemma exec_slot_step c s k : slot_step c s (exec c s) k.
Proof.
  destruct c as [region r|domain|slot m cap a|slot m|slot m|slot m|slot m]; cbn [exec].
  - destruct (closed_cases (pin region r) s) as [->|[x H]]; [apply pin_closed..|by apply slot_same|].
    unfold pin in H at 1. op_inv H. guards. other_slot k (p_slot r).
    apply eq_None_not_Some in H4. eapply slot_pinned; cbn; by rewrite ?lookup_insert_eq.
  - unfold register_domain. op_unfold. repeat (case_match; simplify_eq/=); by apply slot_same.
  - destruct (closed_cases (map_domain slot m cap a) s) as [->|[x H]];
      [apply map_domain_closed..|by apply slot_same|].
    unfold map_domain in H at 1. op_inv H. guards. other_slot k slot.
    apply live_mapping_Ok in H0 as [? _]. apply eq_None_not_Some in H1.
    eapply slot_mapped; cbn; rewrite ?lookup_insert_eq; done.
  - destruct (closed_cases (unmap_domain slot m) s) as [->|[x H]];
      [apply unmap_domain_closed..|by apply slot_same|].
    unfold unmap_domain in H at 1. op_inv H. guards. other_slot k slot.
    apply live_mapping_Ok in H0 as [? _].
    eapply slot_unmapped; cbn; rewrite ?lookup_delete_eq; done.
  - destruct (closed_cases (unpin slot m) s) as [->|[x H]]; [apply unpin_closed..|by apply slot_same|].
    apply unpin_Ok in H as (live & Hl & _ & Ho & Hs & ->). other_slot k slot.
    eapply slot_unpinned; cbn; rewrite ?lookup_delete_eq, ?lookup_insert_eq; done.
  - by apply (transition_slot_step slot m CpuOwned DeviceOwned).
  - by apply (transition_slot_step slot m DeviceOwned CpuOwned).
Qed.

(** ** Properties *)

(** C29. Memory a device owns stays put: from the moment a slot is handed to its device,
    and along any calls other than a [sync_for_cpu] of that slot, the pinned mapping is
    unchanged and a segment mapped for it stays mapped, so neither [unpin] nor
    [unmap_domain] can take the memory away while the device may still use it. *)
Theorem device_owned_memory_stays k h s m s1 s2 :
  sync_for_device k h s = (Ok m, s1) →
  reach (λ c : {c | ∀ h', c ≠ SyncForCpu k h'}, exec (`c)) s1 s2 →
  mappings s2 !! k = Some m ∧
  (∀ segs, segments s !! k = Some segs → segments s2 !! k = Some segs) ∧
  (∀ h', (unpin k h' s2).1 ≠ Ok ()) ∧ (∀ h' segs, (unmap_domain k h' s2).1 ≠ Ok segs).
Proof.
  intros H Hr. apply transition_Ok in H as (live & Hl & _ & _ & -> & ->).
  set (m := with_ownership live DeviceOwned) in *. set (s1 := set_mappings _ _) in *.
  assert (mappings s2 !! k = Some m ∧
    ∀ segs, segments s !! k = Some segs → segments s2 !! k = Some segs) as [Hm Hs].
  { revert Hr. apply (reach_invariant _ (λ t, mappings t !! k = Some m ∧
      ∀ segs, segments s !! k = Some segs → segments t !! k = Some segs));
      [|by split; [apply lookup_insert_eq|]].
    intros [c Hc] t [Hm Hs]. cbn. destruct (exec_slot_step c t k) as
      [E1 E2 _|m' E1|segs' E1 _ E3 _ _|m' E1 E2|m' E1 E2|m' h' o Ec E1 E2 _ _ _].
    - rewrite E1, E2. done.
    - congruence.
    - rewrite E1. split; [done|]. intros segs Hx. specialize (Hs _ Hx). congruence.
    - by simplify_eq.
    - by simplify_eq.
    - destruct o; [by destruct (Hc h')|]. by simplify_eq. }
  split_and!; [done..| |].
  - intros h' Hu. destruct (unpin k h' s2) as [r s3] eqn:Hx. cbn in Hu. subst r.
    apply unpin_Ok in Hx as (l & Hl2 & _ & Ho & _). by simplify_eq.
  - intros h' segs Hu. destruct (unmap_domain k h' s2) as [r s3] eqn:Hx. cbn in Hu. subst r.
    unfold unmap_domain in Hx. op_inv Hx. guards. apply live_mapping_Ok in H as [? _].
    by simplify_eq.
Qed.

Definition demo_region : Capability := MkCapability Dma 0 0 ALL 0 4096 8192.
Definition demo_pin : DmaPin := MkPin 0 7 3 4096 4096 Bidirectional.
Definition demo_handle : DmaMapping := MkMapping 7 3 4096 4096 Bidirectional 0 CpuOwned.
Definition demo_dma : DmaState :=
  exec (RegisterDomain (MkDomain 3 7 0 65536 AbsentIdentity))
    (exec (Pin demo_region demo_pin) dma_new).

Lemma device_owned_memory_stays_witness :
  let s := exec (MapDomain 0 demo_handle None 4096) demo_dma in
  let s1 := (sync_for_device 0 demo_handle s).2 in
  let s2 := exec (Unpin 0 demo_handle) s1 in
  mappings s2 !! 0 = Some (with_ownership demo_handle DeviceOwned) ∧
  (∀ segs, segments s !! 0 = Some segs → segments s2 !! 0 = Some segs).
Proof.
  intros s s1 s2.
  destruct (device_owned_memory_stays 0 demo_handle s (with_ownership demo_handle DeviceOwned) s1 s2)
    as (Hm & Hs & _); [vm_compute; reflexivity| |exact (conj Hm Hs)].
  assert (∀ h', Unpin 0 demo_handle ≠ SyncForCpu 0 h') as Hc by done.
  exact (reach_step (λ c : {c | ∀ h', c ≠ SyncForCpu 0 h'}, exec (`c)) s1
    (exist (λ c, ∀ h', c ≠ SyncForCpu 0 h') (Unpin 0 demo_handle) Hc) s1
    (reach_refl _ s1)).
Defined.

(** Every generation still in use for slot [k] is above [g]. *)
Definition retired (k g : Z) (s : DmaState) : Prop :=
  g < default 0 (generations s !! k) ∧ ∀ m, mappings s !! k = Some m → g < m_generation m.

Lemma retired_step k g c s : retired k g s → retired k g (exec c s).
Proof.
  intros [Hg Hm]. destruct (exec_slot_step c s k) as
    [E1 _ E3|m _ E2 E3 _ _ E6|segs E1 _ _ _ E5|m E1 _ E3 _ E5|m E1 _ _ E4 _ E6|m h o _ E1 _ E3 _ E5].
  - split; [by rewrite E3|]. rewrite E1. exact Hm.
  - split; [by rewrite E6|]. rewrite E2. intros m' [= <-]. by rewrite E3.
  - split; [by rewrite E5|]. rewrite E1. exact Hm.
  - split; [by rewrite E5|]. rewrite E3. intros m' [= <-]. by apply Hm.
  - specialize (Hm m E1). split; [rewrite E6; cbn; lia|]. by rewrite E4.
  - split; [by rewrite E5|]. rewrite E3. intros m' [= <-]. exact (Hm m E1).
Qed.

(** The two ways a dead handle is refused. *)
Definition refused {A} (r : res DmaError A) : Prop :=
  r = Err UnknownMapping ∨ r = Err StaleGeneration.

(** A DMA handle dies with its pin: after a successful [unpin], and whatever is called
    later (other pins of the same slot included), every use of the old handle is refused
    as unknown or stale, whatever the other fields of the handle say. *)
Theorem unpinned_handle_stays_dead k h s s1 s2 h' :
  unpin k h s = (Ok (), s1) → reach exec s1 s2 → m_generation h' = m_generation h →
  (∀ device domain, refused (validate s2 k h' device domain)) ∧
  refused (unpin k h' s2).1 ∧ refused (unmap_domain k h' s2).1 ∧
  (∀ c a, refused (map_domain k h' c a s2).1) ∧
  refused (sync_for_device k h' s2).1 ∧ refused (sync_for_cpu k h' s2).1.
Proof.
  intros (live & _ & Hg & _ & _ & ->)%unpin_Ok Hr Hgen.
  assert (retired k (m_generation h') s2) as [_ Hret].
  { revert Hr. apply reach_invariant; [intros; by apply retired_step|]. split; cbn.
    - rewrite lookup_insert_eq. cbn. lia.
    - intros m. by rewrite lookup_delete_eq. }
  assert (live_mapping s2 k h' = Err UnknownMapping ∨ live_mapping s2 k h' = Err StaleGeneration) as Hl.
  { unfold live_mapping. destruct (mappings s2 !! k) as [m|] eqn:Hm; cbn; [right|by left].
    specialize (Hret m eq_refl). unfold bail_if. by destruct (Z.eqb_spec (m_generation m) (m_generation h')); [lia|]. }
  unfold refused, validate, unpin, unmap_domain, map_domain, sync_for_device, sync_for_cpu,
    transition_ownership. op_unfold.
  split_and!; intros; destruct Hl as [-> | ->]; auto.
Qed.

Lemma unpinned_handle_stays_dead_witness :
  let s1 := (unpin 0 demo_handle demo_dma).2 in
  let s2 := exec (Pin demo_region demo_pin) s1 in
  (mappings s2 !! 0) = Some (MkMapping 7 3 4096 4096 Bidirectional 1 CpuOwned) ∧
  refused (validate s2 0 demo_handle 7 3).
Proof.
  intros s1 s2. split; [vm_compute; reflexivity|].
  apply (unpinned_handle_stays_dead 0 demo_handle demo_dma s1 s2 demo_handle);
    [vm_compute; reflexivity| |reflexivity].
  apply (reach_step exec s1 (Pin demo_region demo_pin) s1). apply reach_refl.
Defined.

(** [map_domain] trusts the caller's handle: only the generation is compared with the
    live mapping, so a handle whose length field is larger than what was pinned gets a
    device segment that reaches beyond the pinned region (here 4096 bytes are pinned and
    61440 are opened to the device). *)
Theorem map_domain_trusts_handle :
  ∃ s h live segs s',
    reach exec dma_new s ∧ mappings s !! 0 = Some live ∧ m_len live = 4096 ∧
    map_domain 0 h None (m_base live) s = (Ok segs, s') ∧
    segs = [MkSegment (m_base live) 61440].
Proof.
  exists demo_dma, (MkMapping 7 3 4096 61440 Bidirectional 0 CpuOwned), demo_handle.
  do 2 eexists. split_and!; [|vm_compute; reflexivity..].
  apply (reach_step exec dma_new (RegisterDomain _)), (reach_step exec dma_new (Pin _ _)), reach_refl.
Qed.

End DmaState.
