(* ===== verification/IrqCtl.v ===== *)
(** * Interrupt controller: [kernel/src/irq.rs]

    Per-CPU interrupt enable state with one-shot restore tokens, vector
    routing and the in-service set. *)
From S2P Require Import Prelude Capability.

Module IrqCtl.

Record IrqStateToken : Type := MkToken {
  tok_cpu : Z;
  tok_generation : Z;
  was_enabled : bool;
}.

Record LocalIrqState : Type := MkLocal {
  enabled : bool;
  l_generation : Z;
  l_outstanding : bool;
}.

Record IrqRoute : Type := MkRoute { rt_cpu : Z; rt_vector : Z; masked : bool }.

Inductive IrqError : Type :=
| WrongCapability | MissingRights | UnknownCpu | NestedDisable | ForeignCpu
| StaleGeneration | AlreadyRestored | GenerationOverflow | InvalidVector
| UnknownRoute | DuplicateRoute | SpuriousAcknowledgement.

#[global] Instance IrqError_eq_dec : EqDecision IrqError.
Proof. solve_decision. Defined.

#[global] Instance irq_cap_errors : CapErrors IrqError :=
  { wrong_capability := WrongCapability; missing_rights := MissingRights }.

Record IrqController : Type := MkIrq {
  locals : gmap Z LocalIrqState;
  routes : gmap Z IrqRoute;
  in_service : gmap (Z * Z) bool;
}.

Definition irq_new : IrqController := MkIrq ∅ ∅ ∅.

Definition set_locals (l : gmap Z LocalIrqState) (s : IrqController) : IrqController :=
  MkIrq l (routes s) (in_service s).
Definition set_routes (r : gmap Z IrqRoute) (s : IrqController) : IrqController :=
  MkIrq (locals s) r (in_service s).
Definition set_in_service (i : gmap (Z * Z) bool) (s : IrqController) : IrqController :=
  MkIrq (locals s) (routes s) i.

(** [insert] has replaced the state before the duplicate is reported. *)
Definition add_cpu (cpu : Z) : op IrqController IrqError unit :=
  previous ← reads (λ s, locals s !! cpu);
  modify (λ s, set_locals (<[cpu := MkLocal true 0 false]> (locals s)) s);;
  lift (bail_if (bool_decide (is_Some previous)) UnknownCpu).

Definition save_disable (cpu : Z) (local : Capability) : op IrqController IrqError IrqStateToken :=
  lift (require local CpuLocal CONTROL);;
  state ← readr (λ s, ok_or UnknownCpu (locals s !! cpu));
  lift (bail_if (l_outstanding state) NestedDisable);;
  generation ← lift (ok_or GenerationOverflow (checked_add 64 (l_generation state) 1));
  let token := MkToken cpu generation (enabled state) in
  modify (λ s, set_locals (<[cpu := MkLocal false generation true]> (locals s)) s);;
  mret token.

Definition restore (cpu : Z) (local : Capability) (token : IrqStateToken)
    : op IrqController IrqError unit :=
  lift (require local CpuLocal CONTROL);;
  lift (bail_if (negb (tok_cpu token =? cpu)) ForeignCpu);;
  state ← readr (λ s, ok_or UnknownCpu (locals s !! cpu));
  lift (bail_if (negb (tok_generation token =? l_generation state)) StaleGeneration);;
  lift (bail_if (negb (l_outstanding state)) AlreadyRestored);;
  modify (λ s, set_locals
    (<[cpu := MkLocal (was_enabled token) (l_generation state) false]> (locals s)) s).

Definition route (capability : Capability) (vector cpu : Z) : op IrqController IrqError unit :=
  lift (require capability Irq ROUTE);;
  lift (bail_if (vector <? 32) InvalidVector);;
  known ← reads (λ s, bool_decide (is_Some (locals s !! cpu)));
  lift (bail_if (negb known) UnknownCpu);;
  previous ← reads (λ s, routes s !! vector);
  modify (λ s, set_routes (<[vector := MkRoute cpu vector false]> (routes s)) s);;
  lift (bail_if (bool_decide (is_Some previous)) DuplicateRoute).

Definition set_masked (vector : Z) (mask : bool) : op IrqController IrqError unit :=
  r ← readr (λ s, ok_or UnknownRoute (routes s !! vector));
  modify (λ s, set_routes (<[vector := MkRoute (rt_cpu r) (rt_vector r) mask]> (routes s)) s).

Definition deliver (vector : Z) : op IrqController IrqError Z :=
  r ← readr (λ s, ok_or UnknownRoute (routes s !! vector));
  lift (bail_if (masked r) UnknownRoute);;
  modify (λ s, set_in_service (<[(rt_cpu r, vector) := true]> (in_service s)) s);;
  mret (rt_cpu r).

Definition end_of_interrupt (cpu vector : Z) : op IrqController IrqError unit :=
  served ← reads (λ s, in_service s !! (cpu, vector));
  modify (λ s, set_in_service (delete (cpu, vector) (in_service s)) s);;
  lift (bail_if (negb (bool_decide (served = Some true))) SpuriousAcknowledgement).

Definition interrupts_enabled (s : IrqController) (cpu : Z) : option bool :=
  enabled <$> locals s !! cpu.

(** ** Calls, and the log of those that succeeded *)

Inductive call : Type :=
| AddCpu (cpu : Z)
| SaveDisable (cpu : Z) (local : Capability)
| Restore (cpu : Z) (local : Capability) (token : IrqStateToken)
| Route (capability : Capability) (vector cpu : Z)
| SetMasked (vector : Z) (mask : bool)
| Deliver (vector : Z)
| EndOfInterrupt (cpu vector : Z).

Definition exec (c : call) (s : IrqController) : bool * IrqController :=
  let fin {A} (r : res IrqError A * IrqController) :=
    (match r.1 with Ok _ => true | _ => false end, r.2) in
  match c with
  | AddCpu cpu => fin (add_cpu cpu s)
  | SaveDisable cpu local => fin (save_disable cpu local s)
  | Restore cpu local token => fin (restore cpu local token s)
  | Route capability vector cpu => fin (route capability vector cpu s)
  | SetMasked vector mask => fin (set_masked vector mask s)
  | Deliver vector => fin (deliver vector s)
  | EndOfInterrupt cpu vector => fin (end_of_interrupt cpu vector s)
  end.

Fixpoint run (cs : list call) (s : IrqController) : list call * IrqController :=
  match cs with
  | [] => ([], s)
  | c :: cs' =>
    let '(ok, s1) := exec c s in
    let '(log, s2) := run cs' s1 in
    (if ok then c :: log else log, s2)
  end.

(** ** What a call does to one CPU's local state *)

Inductive local_step (c : call) (ok : bool) (k : Z) (l l' : LocalIrqState) : Prop :=
| local_same : l' = l → local_step c ok k l l'
| local_disabled :
    l_outstanding l = false → l_generation l' = l_generation l + 1 →
    enabled l' = false → l_outstanding l' = true → local_step c ok k l l'
| local_restored cap token :
    c = Restore k cap token → ok = true → tok_cpu token = k →
    tok_generation token = l_generation l → l_outstanding l = true →
    l' = MkLocal (was_enabled token) (l_generation l) false → local_step c ok k l l'.

Lemma save_disable_closed k c : FailClosed (save_disable k c) ∧ NoPanic (save_disable k c).
Proof. unfold save_disable. split; [solve_fail_closed|solve_no_panic]. Qed.
Lemma restore_closed k c t : FailClosed (restore k c t) ∧ NoPanic (restore k c t).
Proof. unfold restore. split; [solve_fail_closed|solve_no_panic]. Qed.

Lemma save_disable_Ok cpu cap s tok s' :
  save_disable cpu cap s = (Ok tok, s') →
  ∃ l, locals s !! cpu = Some l ∧ l_outstanding l = false ∧ l_generation l + 1 < 2 ^ 64 ∧
    tok = MkToken cpu (l_generation l + 1) (enabled l) ∧
    s' = set_locals (<[cpu := MkLocal false (l_generation l + 1) true]> (locals s)) s.
Proof. unfold save_disable. intros H. op_inv H. guards. eexists. by split_and!. Qed.

Lemma restore_Ok cpu cap tok s u s' :
  restore cpu cap tok s = (Ok u, s') →
  ∃ l, locals s !! cpu = Some l ∧ tok_cpu tok = cpu ∧ tok_generation tok = l_generation l ∧
    l_outstanding l = true ∧
    s' = set_locals (<[cpu := MkLocal (was_enabled tok) (l_generation l) false]> (locals s)) s.
Proof. unfold restore. intros H. op_inv H. guards. eexists. by split_and!. Qed.

Lemma exec_local_step c s k l :
  locals s !! k = Some l → c ≠ AddCpu k →
  ∃ l', locals (exec c s).2 !! k = Some l' ∧ local_step c (exec c s).1 k l l'.
Proof.
  intros Hl Hc.
  assert (∀ s' ok, locals s' !! k = locals s !! k → ∃ l', locals s' !! k = Some l' ∧
    local_step c ok k l l') as Hsame.
  { intros s' ok ->. exists l. split; [done|by apply local_same]. }
  destruct c as [cpu|cpu cap|cpu cap token|cap v cpu|v b|v|cpu v]; cbn [exec snd fst].
  - apply Hsame. cbn. apply lookup_insert_ne. congruence.
  - destruct (closed_cases (save_disable cpu cap) s) as [Hs|[tok Hx]]; [apply save_disable_closed..| |].
    { apply Hsame. by rewrite Hs. }
    rewrite Hx. apply save_disable_Ok in Hx as (l0 & Hl0 & Ho & _ & _ & ->).
    destruct (decide (cpu = k)) as [->|Hne]; [|by apply Hsame, lookup_insert_ne].
    cbn. eexists. rewrite lookup_insert_eq. split; [done|]. simplify_eq. by apply local_disabled.
  - destruct (closed_cases (restore cpu cap token) s) as [Hs|[[] Hx]]; [apply restore_closed..| |].
    { apply Hsame. by rewrite Hs. }
    rewrite Hx. apply restore_Ok in Hx as (l0 & Hl0 & Ht & Hg & Ho & ->).
    destruct (decide (cpu = k)) as [->|Hne]; [|by apply Hsame, lookup_insert_ne].
    cbn. eexists. rewrite lookup_insert_eq. split; [done|]. simplify_eq. by eapply local_restored.
  - apply Hsame. unfold route. op_unfold. repeat (case_match; simplify_eq/=); done.
  - apply Hsame. unfold set_masked. op_unfold. repeat (case_match; simplify_eq/=); done.
  - apply Hsame. unfold deliver. op_unfold. repeat (case_match; simplify_eq/=); done.
  - apply Hsame. unfold end_of_interrupt. op_unfold. repeat (case_match; simplify_eq/=); done.
Qed.

(** Interrupts stay off until the token comes back: after a successful [save_disable]
    on a CPU, and along any calls that do not register that CPU again, interrupts on it
    are still disabled unless a [restore] with the token of that very disable succeeded
    in between; in particular a second [save_disable] or a stale token cannot enable them. *)
Theorem irq_disabled_until_restored cpu cap s tok s1 cs log s2 :
  save_disable cpu cap s = (Ok tok, s1) → run cs s1 = (log, s2) → AddCpu cpu ∉ cs →
  interrupts_enabled s2 cpu = Some false ∨
  ∃ cap' tok', tok_generation tok' = tok_generation tok ∧ tok_cpu tok' = cpu ∧
    Restore cpu cap' tok' ∈ log.
Proof.
  intros (l & _ & _ & _ & -> & ->)%save_disable_Ok Hr Hcs. cbn.
  set (g := l_generation l + 1) in *.
  assert (locals (set_locals (<[cpu:=MkLocal false g true]> (locals s)) s) !! cpu
    = Some (MkLocal false g true)) as Hl by apply lookup_insert_eq.
  revert Hr Hl. generalize (set_locals (<[cpu:=MkLocal false g true]> (locals s)) s).
  clear s. revert log Hcs. induction cs as [|c cs IH]; intros log Hcs s Hr Hl; cbn in Hr.
  - simplify_eq. left. unfold interrupts_enabled. by rewrite Hl.
  - destruct (exec_local_step c s cpu _ Hl) as (l' & Hl' & Hstep); [set_solver|].
    destruct (exec c s) as [ok s1] eqn:Hx. destruct (run cs s1) as [log1 s1'] eqn:Hrun.
    injection Hr as <- ->. cbn in *. destruct Hstep as [->|Hf _ _ _|cap' tok' -> -> Ht Hg _ _].
    + destruct (IH log1 ltac:(set_solver) s1 Hrun Hl') as [?|(cap' & tok' & Hx1 & Hx2 & Hx3)]; [by left|].
      right. exists cap', tok'. split_and!; [done..|]. destruct ok; set_solver.
    + done.
    + right. exists cap', tok'. split_and!; [done..|set_solver].
Qed.

Definition demo_local : Capability := MkCapability CpuLocal 0 0 ALL 0 0 0.
Definition demo_irq : IrqController := (exec (AddCpu 2) irq_new).2.

Lemma irq_disabled_until_restored_witness :
  let s1 := (save_disable 2 demo_local demo_irq).2 in
  let cs := [SaveDisable 2 demo_local; Restore 2 demo_local (MkToken 2 0 true)] in
  run cs s1 = ([], s1) ∧
  (interrupts_enabled s1 2 = Some false ∨
   ∃ cap' tok', tok_generation tok' = 1 ∧ tok_cpu tok' = 2 ∧ Restore 2 cap' tok' ∈ []).
Proof.
  intros s1 cs. assert (run cs s1 = ([], s1)) as Hr by (vm_compute; reflexivity).
  split; [exact Hr|].
  apply (irq_disabled_until_restored 2 demo_local demo_irq (MkToken 2 1 true) s1 cs [] s1);
    [vm_compute; reflexivity|exact Hr|]. unfold cs. set_solver.
Defined.

(** The token of generation [g] has been spent on CPU [k]. *)
Definition spent (k g : Z) (s : IrqController) : Prop :=
  ∃ l, locals s !! k = Some l ∧ g ≤ l_generation l ∧ (l_generation l = g → l_outstanding l = false).

(** A restore token works once: a successful [restore] puts back the enable state the
    disable found, and the same token is refused ever after, along any calls that do not
    register its CPU again. *)
Theorem irq_token_single_use cpu cap s tok s1 s2 cap' :
  restore cpu cap tok s = (Ok (), s1) →
  reach (λ c : {c | c ≠ AddCpu cpu}, λ s, (exec (`c) s).2) s1 s2 →
  interrupts_enabled s1 cpu = Some (was_enabled tok) ∧ (restore cpu cap' tok s2).1 ≠ Ok ().
Proof.
  intros (l & Hl & Ht & Hg & Ho & ->)%restore_Ok Hr. split.
  { unfold interrupts_enabled. cbn. by rewrite lookup_insert_eq. }
  assert (spent cpu (tok_generation tok) s2) as (l2 & Hl2 & Hle & Hout).
  { revert Hr. apply (reach_invariant _ (spent cpu (tok_generation tok))).
    - intros [c Hc] t (lt & Hlt & Hle & Hout). cbn.
      destruct (exec_local_step c t cpu lt Hlt Hc) as (l' & Hl' & Hstep). exists l'.
      split; [done|]. destruct Hstep as [->|_ Hg' _ _|? ? _ _ _ _ _ ->];
        [done|split; [lia|intros; exfalso; lia]|done].
    - exists (MkLocal (was_enabled tok) (l_generation l) false). cbn.
      rewrite lookup_insert_eq. split_and!; [done|lia|done]. }
  destruct (restore cpu cap' tok s2) as [r s3] eqn:Hx. cbn. intros ->.
  apply restore_Ok in Hx as (l3 & Hl3 & _ & Hg3 & Ho3 & _). simplify_eq.
  rewrite Hout in Ho3; done.
Qed.

Lemma irq_token_single_use_witness :
  let tok := MkToken 2 1 true in
  let s := (save_disable 2 demo_local demo_irq).2 in
  let s1 := (restore 2 demo_local tok s).2 in
  let s2 := (exec (SaveDisable 2 demo_local) s1).2 in
  interrupts_enabled s1 2 = Some true ∧ interrupts_enabled s2 2 = Some false ∧
  (restore 2 demo_local tok s2).1 ≠ Ok ().
Proof.
  intros tok s s1 s2.
  destruct (irq_token_single_use 2 demo_local s tok s1 s2 demo_local) as [H1 H2];
    [vm_compute; reflexivity| |].
  - assert (SaveDisable 2 demo_local ≠ AddCpu 2) as Hc by done.
    exact (reach_step (λ c : {c | c ≠ AddCpu 2}, λ s, (exec (`c) s).2) s1
      (exist (λ c, c ≠ AddCpu 2) (SaveDisable 2 demo_local) Hc) s1 (reach_refl _ s1)).
  - split_and!; [exact H1|vm_compute; reflexivity|exact H2].
Defined.

End IrqCtl.
