(* ===== verification/Device.v ===== *)
(** * Device bus: [kernel/src/device.rs]

    Memory-mapped and port I/O of 1, 2, 4 or 8 bytes, little endian, guarded
    by capabilities. *)
From S2P Require Import Prelude Capability.

Module Device.

Inductive DeviceWidth : Type := U8 | U16 | U32 | U64.

#[global] Instance DeviceWidth_eq_dec : EqDecision DeviceWidth.
Proof. solve_decision. Defined.

Definition width_bytes (w : DeviceWidth) : Z :=
  match w with U8 => 1 | U16 => 2 | U32 => 4 | U64 => 8 end.

Definition width_mask (w : DeviceWidth) : Z :=
  match w with U8 => umax 8 | U16 => umax 16 | U32 => umax 32 | U64 => umax 64 end.

Inductive DeviceBarrier : Type := Compiler | Read | Write | FullBarrier.

Inductive DeviceError : Type :=
| WrongCapability | MissingRights | OutOfRange | Misaligned | UnsupportedWidth | RangeOverflow.

#[global] Instance DeviceError_eq_dec : EqDecision DeviceError.
Proof. solve_decision. Defined.

Record DeviceBus : Type := MkBus {
  mmio : gmap Z Z;
  pio : gmap Z Z;
  barrier_epoch : Z;
}.

Definition bus_new : DeviceBus := MkBus ∅ ∅ 0.

Definition set_mmio (m : gmap Z Z) (b : DeviceBus) : DeviceBus :=
  MkBus m (pio b) (barrier_epoch b).
Definition set_pio (m : gmap Z Z) (b : DeviceBus) : DeviceBus :=
  MkBus (mmio b) m (barrier_epoch b).

Definition validate_range (c : Capability) (kind : CapabilityKind) (rights : Rights)
    (address : Z) (width : DeviceWidth) : res DeviceError unit :=
  bail_if (negb (bool_decide (cap_kind c = kind))) WrongCapability;;
  bail_if (negb (rights_contains (cap_rights c) rights)) MissingRights;;
  bail_if (negb (address mod width_bytes width =? 0)) Misaligned;;
  bail_if (negb (contains_range c address (width_bytes width))) OutOfRange.

(** The byte loops.  [key i] is the address of byte [i], which each caller
    computes in its own way. *)

(** [((value >> (index * 8)) & 0xff) as u8] *)
Definition byte_of (value i : Z) : Z := wrap 8 (Z.land (Z.shiftr value (i * 8)) 255).

Fixpoint write_loop (key : Z → res DeviceError Z) (value i : Z) (n : nat)
    : op (gmap Z Z) DeviceError unit :=
  match n with
  | O => mret ()
  | S n =>
    a ← lift (key i);
    modify (<[a := byte_of value i]>);;
    write_loop key value (i + 1) n
  end.

Fixpoint read_loop (key : Z → res DeviceError Z) (values : gmap Z Z) (acc i : Z) (n : nat)
    : res DeviceError Z :=
  match n with
  | O => Ok acc
  | S n =>
    a ← key i;
    let byte := default 0 (values !! a) in
    read_loop key values (Z.lor acc (wrap 64 (Z.shiftl byte (i * 8)))) (i + 1) n
  end.

Definition read_bytes (values : gmap Z Z) (address : Z) (width : DeviceWidth)
    : res DeviceError Z :=
  read_loop (uadd 64 address) values 0 0 (Z.to_nat (width_bytes width)).

Definition write_bytes (address : Z) (width : DeviceWidth) (value : Z)
    : op (gmap Z Z) DeviceError unit :=
  write_loop (uadd 64 address) value 0 (Z.to_nat (width_bytes width)).

Definition read_port_bytes (values : gmap Z Z) (port : Z) (width : DeviceWidth)
    : res DeviceError Z :=
  read_loop (λ i, Ok (saturating_add 16 port (wrap 16 i))) values 0 0
    (Z.to_nat (width_bytes width)).

Definition mmio_read (b : DeviceBus) (c : Capability) (address : Z) (width : DeviceWidth)
    : res DeviceError Z :=
  validate_range c Mmio READ address width;;
  value ← read_bytes (mmio b) address width;
  Ok (Z.land value (width_mask width)).

Definition mmio_write (c : Capability) (address : Z) (width : DeviceWidth) (value : Z)
    : op DeviceBus DeviceError unit :=
  lift (validate_range c Mmio WRITE address width);;
  zoom mmio set_mmio (write_bytes address width value).

Definition pio_read (b : DeviceBus) (c : Capability) (port : Z) (width : DeviceWidth)
    : res DeviceError Z :=
  bail_if (bool_decide (width = U64)) UnsupportedWidth;;
  validate_range c IoPort READ port width;;
  value ← read_port_bytes (pio b) port width;
  Ok (wrap 32 value).

Definition pio_write (c : Capability) (port : Z) (width : DeviceWidth) (value : Z)
    : op DeviceBus DeviceError unit :=
  lift (bail_if (bool_decide (width = U64)) UnsupportedWidth);;
  lift (validate_range c IoPort WRITE port width);;
  zoom pio set_pio (write_loop
    (λ i, ok_or RangeOverflow (checked_add 16 port (wrap 16 i))) value 0
    (Z.to_nat (width_bytes width))).

Definition barrier (kind : DeviceBarrier) : op DeviceBus DeviceError Z :=
  next ← readr (λ b, ok_or RangeOverflow (checked_add 64 (barrier_epoch b) 1));
  modify (λ b, MkBus (mmio b) (pio b) next);;
  reads barrier_epoch.

(** ** The byte loops against plain little-endian integers *)

Lemma write_loop_spec key a value i (n : nat) m :
  (∀ j, i ≤ j < i + n → key j = Ok (a + j)) →
  ∃ m', write_loop key value i n m = (Ok (), m') ∧
    (∀ j, i ≤ j < i + n → m' !! (a + j) = Some (byte_of value j)) ∧
    (∀ b, b < a + i ∨ a + i + n ≤ b → m' !! b = m !! b).
Proof.
  revert i m. induction n as [|n IH]; intros i m Hkey; cbn [write_loop].
  { exists m. split_and!; [done|lia|done]. }
  op_unfold. rewrite Hkey by lia. cbv beta iota.
  destruct (IH (i + 1) (<[a + i := byte_of value i]> m)) as (m' & -> & Hin & Hout);
    [intros; apply Hkey; lia|].
  exists m'. split_and!; [done| |].
  - intros j Hj. destruct (decide (j = i)) as [->|]; [|apply Hin; lia].
    rewrite Hout by lia. by rewrite lookup_insert_eq.
  - intros b Hb. rewrite Hout by lia. apply lookup_insert_ne. lia.
Qed.

Lemma byte_of_mod value i : 0 ≤ i → byte_of value i = (value / 2 ^ (8 * i)) mod 2 ^ 8.
Proof.
  intros Hi. unfold byte_of, wrap. rewrite Z.shiftr_div_pow2 by lia.
  change 255 with (Z.ones 8). rewrite Z.land_ones by lia. rewrite Z.mod_mod by lia.
  by rewrite (Z.mul_comm i).
Qed.

(** Appending byte [i] to the low [8 * i] bits. *)
Lemma assemble_step value i :
  0 ≤ i < 8 →
  Z.lor (value mod 2 ^ (8 * i)) (wrap 64 (Z.shiftl (byte_of value i) (i * 8)))
  = value mod 2 ^ (8 * (i + 1)).
Proof.
  intros Hi. apply Z.bits_inj'. intros k Hk. rewrite Z.lor_spec. unfold wrap.
  assert (Z.testbit (Z.shiftl (byte_of value i) (i * 8) mod 2 ^ 64) k
    = (8 * i <=? k) && (k <? 8 * (i + 1)) && Z.testbit value k) as ->.
  { destruct (Z.ltb_spec k (8 * (i + 1))) as [Hk'|Hk'].
    - rewrite Z.mod_pow2_bits_low by lia. rewrite Z.shiftl_spec by lia.
      destruct (Z.leb_spec (8 * i) k); cbn; [|by rewrite Z.testbit_neg_r by lia].
      rewrite byte_of_mod by lia. rewrite Z.mod_pow2_bits_low by lia.
      rewrite Z.div_pow2_bits by lia. f_equal. lia.
    - rewrite andb_false_r. cbn. destruct (Z.lt_ge_cases k 64) as [H64|H64].
      + rewrite Z.mod_pow2_bits_low, Z.shiftl_spec, byte_of_mod by lia.
        apply Z.mod_pow2_bits_high. lia.
      + apply Z.mod_pow2_bits_high. lia. }
  destruct (Z.lt_ge_cases k (8 * i)) as [H1|H1].
  - rewrite !Z.mod_pow2_bits_low by lia. rewrite (proj2 (Z.leb_gt _ _)) by lia. apply orb_false_r.
  - rewrite (Z.mod_pow2_bits_high _ (8 * i)) by lia. rewrite (proj2 (Z.leb_le _ _)) by lia. cbn.
    destruct (Z.ltb_spec k (8 * (i + 1))); cbn.
    + by rewrite Z.mod_pow2_bits_low by lia.
    + by rewrite Z.mod_pow2_bits_high by lia.
Qed.

Lemma read_loop_spec key a value m i (n : nat) :
  0 ≤ i → i + n ≤ 8 →
  (∀ j, i ≤ j < i + n → key j = Ok (a + j) ∧ m !! (a + j) = Some (byte_of value j)) →
  read_loop key m (value mod 2 ^ (8 * i)) i n = Ok (value mod 2 ^ (8 * (i + n))).
Proof.
  revert i. induction n as [|n IH]; intros i Hi Hn Hk; cbn [read_loop].
  { do 2 f_equal. f_equal. lia. }
  destruct (Hk i) as [-> Hm]; [lia|]. unfold mbind, res_bind. rewrite Hm. cbn [default].
  rewrite assemble_step by lia. rewrite IH by (lia || (intros; apply Hk; lia)).
  do 3 f_equal. lia.
Qed.

Lemma width_facts w : 0 < width_bytes w ≤ 8 ∧ ∀ v, Z.land v (width_mask w) = v mod 2 ^ (8 * width_bytes w).
Proof.
  split; [by destruct w|]. intros v.
  assert (width_mask w = Z.ones (8 * width_bytes w)) as -> by (by destruct w).
  by apply Z.land_ones; destruct w.
Qed.

Lemma validate_range_Ok c kind rights a w u :
  validate_range c kind rights a w = Ok u →
  cap_kind c = kind ∧ rights_contains (cap_rights c) rights = true ∧
  a mod width_bytes w = 0 ∧ contains_range c a (width_bytes w) = true.
Proof. unfold validate_range. intros H. op_inv H. guards. by split_and!. Qed.

Lemma validate_range_iff c kind rights a w :
  validate_range c kind rights a w = Ok () ↔
  cap_kind c = kind ∧ rights_contains (cap_rights c) rights = true ∧
  a mod width_bytes w = 0 ∧ contains_range c a (width_bytes w) = true.
Proof.
  split; [apply validate_range_Ok|]. intros (H1 & H2 & H3 & H4). unfold validate_range.
  by rewrite bool_decide_true, H2, H3, H4.
Qed.

Lemma validate_range_fails c kind rights a w :
  validate_range c kind rights a w ≠ Panic ∧
  validate_range c kind rights a w ≠ Err RangeOverflow.
Proof.
  unfold validate_range, bail_if.
  destruct (negb (bool_decide _)), (negb (rights_contains _ _)), (negb (_ =? _)),
    (negb (contains_range _ _ _)); done.
Qed.

(** Memory-mapped I/O is memory: a successful write of any width changes only the
    bytes of its range and never panics, and reading the same address and width back,
    with a capability that also allows reading, gives the value truncated to the width. *)
Theorem mmio_write_read c a w v b r b' :
  0 ≤ a → mmio_write c a w v b = (r, b') →
  match r with
  | Ok _ =>
    (rights_contains (cap_rights c) READ = true →
     mmio_read b' c a w = Ok (v mod 2 ^ (8 * width_bytes w))) ∧
    (∀ x, x < a ∨ a + width_bytes w ≤ x → mmio b' !! x = mmio b !! x) ∧ pio b' = pio b
  | Err _ => b' = b
  | Panic => False
  end.
Proof.
  intros Ha H. destruct (width_facts w) as [Hw Hmask]. unfold mmio_write in H. op_unfold.
  destruct (validate_range c Mmio WRITE a w) as [[]|e|] eqn:Hv; [|by simplify_eq|].
  2: { by destruct (validate_range_fails c Mmio WRITE a w). }
  apply validate_range_iff in Hv as (Hk & _ & Hal & Hc).
  pose proof (proj1 (contains_range_spec _ _ _) Hc) as (_ & Hc2 & Hc3).
  assert (∀ j, 0 ≤ j < 0 + Z.to_nat (width_bytes w) → @uadd DeviceError 64 a j = Ok (a + j)) as Hkey.
  { intros j Hj. unfold uadd. by rewrite (proj2 (Z.ltb_lt _ _)) by lia. }
  unfold zoom, write_bytes in H.
  destruct (write_loop_spec (uadd 64 a) a v 0 (Z.to_nat (width_bytes w)) (mmio b) Hkey)
    as (m' & Hwr & Hin & Hout). rewrite Hwr in H. injection H as <- <-. cbn. split_and!; [|..|done].
  - intros Hr. unfold mmio_read, read_bytes. cbn.
    rewrite (proj2 (validate_range_iff c Mmio READ a w)) by done. cbn.
    rewrite <-(Z.mod_1_r v) at 1. change 1 with (2 ^ (8 * 0)) at 1.
    rewrite (read_loop_spec (uadd 64 a) a v m' 0) by (lia || (intros; split; [apply Hkey|apply Hin]; lia)).
    cbn. rewrite Hmask. rewrite Z.add_0_l, Z2Nat.id by lia. by rewrite Z.mod_mod by lia.
  - intros x Hx. apply Hout. lia.
Qed.

Definition demo_window : Capability := MkCapability Mmio 0 0 ALL 0 4096 4096.

Lemma mmio_write_read_witness :
  let r := mmio_write demo_window 4100 U32 1311768467463790320 bus_new in
  r.1 = Ok () ∧ mmio_read r.2 demo_window 4100 U32 = Ok 2596069104.
Proof.
  intros r. assert (r.1 = Ok ()) as Hr by (vm_compute; reflexivity). split; [exact Hr|].
  pose proof (mmio_write_read demo_window 4100 U32 1311768467463790320 bus_new r.1 r.2
    ltac:(done) (surjective_pairing r)) as H. rewrite Hr in H. exact (proj1 H eq_refl).
Defined.

(** Port I/O round trips too: an accepted port write of 1, 2 or 4 bytes never runs past
    the last port (the mid-loop overflow error cannot occur on an aligned port), and
    reading it back gives the value truncated to the width; 8-byte accesses are refused. *)
Theorem pio_write_read c p w v b r b' :
  u16 p → pio_write c p w v b = (r, b') →
  match r with
  | Ok _ => w ≠ U64 ∧
    (rights_contains (cap_rights c) READ = true →
     pio_read b' c p w = Ok (v mod 2 ^ (8 * width_bytes w))) ∧
    (∀ x, x < p ∨ p + width_bytes w ≤ x → pio b' !! x = pio b !! x) ∧ mmio b' = mmio b
  | Err e => b' = b ∧ e ≠ RangeOverflow
  | Panic => False
  end.
Proof.
  intros Hp H. destruct (width_facts w) as [Hw _]. unfold pio_write in H. op_unfold.
  destruct (decide (w = U64)) as [->|Hw64].
  { rewrite bool_decide_true in H by done. injection H as <- <-. done. }
  rewrite bool_decide_false in H by done.
  destruct (validate_range c IoPort WRITE p w) as [[]|e|] eqn:Hv.
  2: { injection H as <- <-. split; [done|]. intros ->.
       by destruct (validate_range_fails c IoPort WRITE p w). }
  2: { by destruct (validate_range_fails c IoPort WRITE p w). }
  apply validate_range_iff in Hv as (Hk & _ & Hal & Hc).
  assert (p + width_bytes w ≤ 2 ^ 16) as Hfit.
  { unfold in_u in Hp. change (2 ^ 16) with 65536 in *.
    destruct w; cbn [width_bytes] in *; try done; Z.to_euclidean_division_equations; lia. }
  assert (∀ j, 0 ≤ j < 0 + Z.to_nat (width_bytes w) →
    ok_or RangeOverflow (checked_add 16 p (wrap 16 j)) = Ok (p + j)) as Hkey.
  { intros j Hj. unfold wrap, checked_add. rewrite Z.mod_small by lia.
    by rewrite (proj2 (Z.ltb_lt _ _)) by lia. }
  unfold zoom in H.
  destruct (write_loop_spec _ p v 0 (Z.to_nat (width_bytes w)) (pio b) Hkey)
    as (m' & Hwr & Hin & Hout). unfold ok_or, checked_add in Hwr. rewrite Hwr in H.
  injection H as <- <-. cbn. split_and!; [done| |..|done].
  - intros Hr. unfold pio_read, read_port_bytes. rewrite bool_decide_false by done. cbn.
    rewrite (proj2 (validate_range_iff c IoPort READ p w)) by done. cbn.
    rewrite <-(Z.mod_1_r v) at 1. change 1 with (2 ^ (8 * 0)) at 1.
    rewrite (read_loop_spec _ p v m' 0) by (lia || (intros; split; [|apply Hin; lia];
      unfold saturating_add, wrap, umax; rewrite Z.mod_small by lia; f_equal; ulia)).
    cbn. unfold wrap. f_equal. rewrite Z.add_0_l, Z2Nat.id by lia. apply Z.mod_small.
    pose proof (Z.mod_pos_bound v (2 ^ (8 * width_bytes w)) ltac:(lia)).
    assert (2 ^ (8 * width_bytes w) ≤ 2 ^ 32) by (apply Z.pow_le_mono_r; [lia|by destruct w]). lia.
  - intros x Hx. apply Hout. lia.
Qed.

Lemma pio_write_read_witness :
  let c := MkCapability IoPort 0 0 ALL 0 0 65536 in
  let r := pio_write c 65534 U16 74565 bus_new in
  r.1 = Ok () ∧ pio_read r.2 c 65534 U16 = Ok 9029.
Proof.
  intros c r. assert (r.1 = Ok ()) as Hr by (vm_compute; reflexivity). split; [exact Hr|].
  pose proof (pio_write_read c 65534 U16 74565 bus_new r.1 r.2
    ltac:(ulia) (surjective_pairing r)) as H. rewrite Hr in H.
  exact (proj1 (proj2 H) eq_refl).
Defined.

End Device.
