(* ===== verification/Context.v ===== *)
(** * User contexts: [kernel/src/context.rs]

    Creation, entry, trap, resumption and termination of a user context, with
    trap frames stamped by the context's generation. *)
From S2P Require Import Prelude Capability Memory.

Module Context.
Import Memory (is_canonical_x86_64).

Inductive Privilege : Type := Kernel | User.
Inductive TrapOrigin : Type := Interrupt (v : Z) | Exception (v : Z) | Syscall (n : Z).

#[global] Instance Privilege_eq_dec : EqDecision Privilege.
Proof. solve_decision. Defined.

Record Registers : Type := MkRegs {
  instruction_pointer : Z;
  stack_pointer : Z;
  flags : Z;
  argument0 : Z;
  result : Z;
}.

Record UserContext : Type := MkContext {
  c_id : Z;
  address_space : Z;
  c_registers : Registers;
  c_generation : Z;
  runnable : bool;
}.

Record TrapFrame : Type := MkFrame {
  f_context : Z;
  origin : TrapOrigin;
  f_registers : Registers;
  privilege : Privilege;
  f_generation : Z;
}.

Inductive ContextError : Type :=
| WrongCapability | MissingRights | NonCanonical | MisalignedStack | KernelAddress
| NotRunnable | WrongContext | WrongGeneration | WrongPrivilege | GenerationOverflow.

#[global] Instance context_cap_errors : CapErrors ContextError :=
  { wrong_capability := WrongCapability; missing_rights := MissingRights }.

Definition create (capability : Capability) (id space ip sp : Z)
    : res ContextError UserContext :=
  require capability UserContextKind CONTROL;;
  bail_if (negb (is_canonical_x86_64 ip) || negb (is_canonical_x86_64 sp)) NonCanonical;;
  bail_if ((140737488355328 <=? ip) || (140737488355328 <=? sp)) KernelAddress;;
  bail_if (negb (Z.land sp 15 =? 0)) MisalignedStack;;
  Ok (MkContext id space (MkRegs ip sp 514 0 0) 0 true).

Definition set_runnable (b : bool) (c : UserContext) : UserContext :=
  MkContext (c_id c) (address_space c) (c_registers c) (c_generation c) b.
Definition set_registers (r : Registers) (c : UserContext) : UserContext :=
  MkContext (c_id c) (address_space c) r (c_generation c) (runnable c).
Definition set_generation (g : Z) (c : UserContext) : UserContext :=
  MkContext (c_id c) (address_space c) (c_registers c) g (runnable c).

Definition enter (capability : Capability) : op UserContext ContextError TrapFrame :=
  lift (require capability UserContextKind CONTROL);;
  ready ← reads runnable;
  lift (bail_if (negb ready) NotRunnable);;
  modify (set_runnable false);;
  reads (λ c, MkFrame (c_id c) (Syscall 0) (c_registers c) User (c_generation c)).

Definition trap (frame_capability : Capability) (o : TrapOrigin) (r : Registers)
    : op UserContext ContextError TrapFrame :=
  lift (require frame_capability TrapFrameKind CONTROL);;
  reads (λ c, MkFrame (c_id c) o r User (c_generation c)).

(** The registers are written before the generation is advanced. *)
Definition resume (capability : Capability) (frame : TrapFrame) (value : Z)
    : op UserContext ContextError unit :=
  lift (require capability UserContextKind CONTROL);;
  foreign ← reads (λ c, negb (f_context frame =? c_id c));
  lift (bail_if foreign WrongContext);;
  stale ← reads (λ c, negb (f_generation frame =? c_generation c));
  lift (bail_if stale WrongGeneration);;
  lift (bail_if (negb (bool_decide (privilege frame = User))) WrongPrivilege);;
  modify (set_registers (f_registers frame));;
  modify (λ c, let r := c_registers c in
    set_registers (MkRegs (instruction_pointer r) (stack_pointer r) (flags r) (argument0 r) value) c);;
  generation ← readr (λ c, ok_or GenerationOverflow (checked_add 64 (c_generation c) 1));
  modify (set_generation generation);;
  modify (set_runnable true).

Definition terminate : op UserContext ContextError unit := modify (set_runnable false).

(** ** Calls *)

Inductive call : Type :=
| Enter (capability : Capability)
| Trap (capability : Capability) (o : TrapOrigin) (r : Registers)
| Resume (capability : Capability) (frame : TrapFrame) (value : Z)
| Terminate.

Definition exec (k : call) (c : UserContext) : UserContext :=
  match k with
  | Enter capability => (enter capability c).2
  | Trap capability o r => (trap capability o r c).2
  | Resume capability frame value => (resume capability frame value c).2
  | Terminate => (terminate c).2
  end.

Lemma create_Ok cap id space ip sp c :
  create cap id space ip sp = Ok c →
  cap_kind cap = UserContextKind ∧ rights_contains (cap_rights cap) CONTROL = true ∧
  ip < 2 ^ 47 ∧ sp < 2 ^ 47 ∧ Z.land sp 15 = 0 ∧
  c = MkContext id space (MkRegs ip sp 514 0 0) 0 true.
Proof.
  unfold create. intros H. op_inv H. guards.
  match goal with H : require _ _ _ = Ok _ |- _ => apply require_Ok in H as [? ?] end.
  split_and!; (done || lia || congruence).
Qed.

(** Identity and address space never change; the generation never decreases. *)
Lemma exec_mono k c :
  c_id (exec k c) = c_id c ∧ address_space (exec k c) = address_space c ∧
  c_generation c ≤ c_generation (exec k c).
Proof.
  destruct k as [cap|cap o r|cap f v|]; cbn [exec].
  - unfold enter. op_unfold. repeat (case_match; simplify_eq/=); split_and!; (done || lia).
  - unfold trap. op_unfold. repeat (case_match; simplify_eq/=); split_and!; (done || lia).
  - unfold resume. op_unfold. repeat (case_match; simplify_eq/=); split_and!; (done || lia).
  - cbn. lia.
Qed.

Lemma resume_Ok cap f v c u c' :
  resume cap f v c = (Ok u, c') →
  f_context f = c_id c ∧ f_generation f = c_generation c ∧ privilege f = User ∧
  c' = MkContext (c_id c) (address_space c)
         (MkRegs (instruction_pointer (f_registers f)) (stack_pointer (f_registers f))
            (flags (f_registers f)) (argument0 (f_registers f)) v)
         (c_generation c + 1) true.
Proof. unfold resume. intros H. op_inv H. guards. by split_and!. Qed.

(** A trap frame resumes its context at most once: a successful [resume] loads exactly
    the frame's registers with the given result and makes the context runnable, and after
    it, along any further calls, the same frame and every other frame of that generation
    is refused; the context's id and address space never change. *)
Theorem trap_frame_single_use cap f v c c1 c2 cap' f' v' :
  resume cap f v c = (Ok (), c1) → reach exec c1 c2 →
  f_generation f' = f_generation f →
  runnable c1 = true ∧ result (c_registers c1) = v ∧
  instruction_pointer (c_registers c1) = instruction_pointer (f_registers f) ∧
  stack_pointer (c_registers c1) = stack_pointer (f_registers f) ∧
  c_id c2 = c_id c ∧ address_space c2 = address_space c ∧
  (resume cap' f' v' c2).1 ≠ Ok ().
Proof.
  intros (Hf & Hg & _ & ->)%resume_Ok Hr Hf'.
  assert (c_id c2 = c_id c ∧ address_space c2 = address_space c ∧
    c_generation c + 1 ≤ c_generation c2) as (Hid & Hsp & Hgen).
  { revert Hr. apply (reach_invariant exec (λ t, c_id t = c_id c ∧
      address_space t = address_space c ∧ c_generation c + 1 ≤ c_generation t)); [|done].
    intros k t (H1 & H2 & H3). destruct (exec_mono k t) as (-> & -> & ?). split_and!; (done || lia). }
  split_and!; try done. destruct (resume cap' f' v' c2) as [r c3] eqn:Hx. cbn. intros ->.
  apply resume_Ok in Hx as (_ & Hg' & _). lia.
Qed.

Definition demo_cap : Capability := MkCapability UserContextKind 0 0 ALL 0 0 0.
Definition demo_context : UserContext := MkContext 7 3 (MkRegs 4194304 4096 514 0 0) 0 true.
Definition demo_frame : TrapFrame := MkFrame 7 (Syscall 1) (MkRegs 4194306 4080 514 0 0) User 0.

Lemma trap_frame_single_use_witness :
  let c1 := (resume demo_cap demo_frame 42 demo_context).2 in
  create demo_cap 7 3 4194304 4096 = Ok demo_context ∧
  runnable c1 = true ∧ result (c_registers c1) = 42 ∧
  (resume demo_cap demo_frame 43 c1).1 ≠ Ok ().
Proof.
  intros c1. split; [vm_compute; reflexivity|].
  destruct (trap_frame_single_use demo_cap demo_frame 42 demo_context c1 c1 demo_cap demo_frame 43)
    as (H1 & H2 & _ & _ & _ & _ & H3); [vm_compute; reflexivity|apply reach_refl|done|].
  by split_and!.
Defined.

(** Termination does not hold: a context that was terminated while a trap frame of its
    current generation was outstanding becomes runnable again when that frame is resumed,
    for every context, frame and caller that could have resumed before the termination. *)
Theorem terminate_does_not_prevent_resume cap f v c c1 :
  resume cap f v c = (Ok (), c1) →
  ∃ c2, resume cap f v (exec Terminate c) = (Ok (), c2) ∧ runnable (exec Terminate c) = false ∧
    runnable c2 = true.
Proof.
  intros H. exists c1. unfold resume in *. op_unfold. cbn in *.
  repeat (case_match; simplify_eq/=); done.
Qed.

Lemma terminate_does_not_prevent_resume_witness :
  ∃ c2, resume demo_cap demo_frame 42 (exec Terminate demo_context) = (Ok (), c2) ∧
    runnable (exec Terminate demo_context) = false ∧ runnable c2 = true.
Proof.
  apply (terminate_does_not_prevent_resume demo_cap demo_frame 42 demo_context
    (resume demo_cap demo_frame 42 demo_context).2). vm_compute. reflexivity.
Defined.

End Context.
