(* ===== verification/Services.v ===== *)
(** * Platform services: [kernel/src/services.rs]

    Clock, per-CPU deadlines, the entropy generator and the terminal power
    state. *)
From S2P Require Import Prelude Capability.

Module Services.

Record Instant : Type := MkInstant {
  i_ticks : Z;
  i_numerator : Z;
  i_denominator : Z;
  i_error : Z;
}.

Inductive TerminalState : Type := Running | Reboot | PowerOff | Halt.

#[global] Instance TerminalState_eq_dec : EqDecision TerminalState.
Proof. solve_decision. Defined.

Inductive ServiceError : Type :=
| WrongCapability | MissingRights | ClockWentBackward | InvalidScale | DeadlineInPast
| NoDeadline | EntropyUnavailable | BufferTooLarge | AlreadyTerminal.

#[global] Instance service_cap_errors : CapErrors ServiceError :=
  { wrong_capability := WrongCapability; missing_rights := MissingRights }.

Record PlatformServices : Type := MkServices {
  now : Z;
  scale_numerator : Z;
  scale_denominator : Z;
  error_ticks : Z;
  deadlines : gmap Z Z;
  entropy_state : Z;
  entropy_healthy : bool;
  terminal : TerminalState;
}.

Definition services_new (numerator denominator : Z) : res ServiceError PlatformServices :=
  bail_if ((numerator =? 0) || (denominator =? 0)) InvalidScale;;
  Ok (MkServices 0 numerator denominator 0 ∅ 7640891576956012809 true Running).

Definition set_clock (t e : Z) (s : PlatformServices) : PlatformServices :=
  MkServices t (scale_numerator s) (scale_denominator s) e (deadlines s) (entropy_state s)
    (entropy_healthy s) (terminal s).
Definition set_deadlines (d : gmap Z Z) (s : PlatformServices) : PlatformServices :=
  MkServices (now s) (scale_numerator s) (scale_denominator s) (error_ticks s) d
    (entropy_state s) (entropy_healthy s) (terminal s).
Definition set_entropy (x : Z) (s : PlatformServices) : PlatformServices :=
  MkServices (now s) (scale_numerator s) (scale_denominator s) (error_ticks s) (deadlines s)
    x (entropy_healthy s) (terminal s).
Definition set_health (b : bool) (s : PlatformServices) : PlatformServices :=
  MkServices (now s) (scale_numerator s) (scale_denominator s) (error_ticks s) (deadlines s)
    (entropy_state s) b (terminal s).
Definition set_terminal (t : TerminalState) (s : PlatformServices) : PlatformServices :=
  MkServices (now s) (scale_numerator s) (scale_denominator s) (error_ticks s) (deadlines s)
    (entropy_state s) (entropy_healthy s) t.

Definition update_clock (ticks error : Z) : op PlatformServices ServiceError unit :=
  backward ← reads (λ s, ticks <? now s);
  lift (bail_if backward ClockWentBackward);;
  modify (set_clock ticks error).

Definition read_clock (s : PlatformServices) (c : Capability) : res ServiceError Instant :=
  require c Clock READ;;
  Ok (MkInstant (now s) (scale_numerator s) (scale_denominator s) (error_ticks s)).

Definition arm_deadline (c : Capability) (cpu deadline : Z)
    : op PlatformServices ServiceError unit :=
  lift (require c Clock CONTROL);;
  past ← reads (λ s, deadline <=? now s);
  lift (bail_if past DeadlineInPast);;
  modify (λ s, set_deadlines (<[cpu := deadline]> (deadlines s)) s).

Definition cancel_deadline (c : Capability) (cpu : Z) : op PlatformServices ServiceError Z :=
  lift (require c Clock CONTROL);;
  d ← readr (λ s, ok_or NoDeadline (deadlines s !! cpu));
  modify (λ s, set_deadlines (delete cpu (deadlines s)) s);;
  mret d.

Definition due (s : PlatformServices) : list Z :=
  omap (λ '(cpu, deadline), if deadline <=? now s then Some cpu else None)
    (entries (deadlines s)).

Definition set_entropy_health (healthy : bool) : op PlatformServices ServiceError unit :=
  modify (set_health healthy).

(** One step of the generator; [<<] drops the bits beyond 64. *)
Definition xorshift (x : Z) : Z :=
  let x := Z.lxor x (wrap 64 (Z.shiftl x 13)) in
  let x := Z.lxor x (Z.shiftr x 7) in
  Z.lxor x (wrap 64 (Z.shiftl x 17)).

(** The loop over the output: the bytes produced and the state left. *)
Fixpoint entropy_loop (n : nat) (x : Z) : list Z * Z :=
  match n with
  | O => ([], x)
  | S n =>
    let x := xorshift x in
    let '(out, y) := entropy_loop n x in (wrap 8 x :: out, y)
  end.

(** Returns the bytes written over the caller's buffer of length [n]. *)
Definition fill_entropy (c : Capability) (n : nat) : op PlatformServices ServiceError (list Z) :=
  lift (require c Entropy READ);;
  healthy ← reads entropy_healthy;
  lift (bail_if (negb healthy) EntropyUnavailable);;
  lift (bail_if (4096 <? Z.of_nat n) BufferTooLarge);;
  r ← reads (λ s, entropy_loop n (entropy_state s));
  modify (set_entropy r.2);;
  mret r.1.

Definition go_terminal (c : Capability) (state : TerminalState)
    : op PlatformServices ServiceError unit :=
  lift (require c Power CONTROL);;
  refused ← reads (λ s, negb (bool_decide (terminal s = Running))
                        || bool_decide (state = Running));
  lift (bail_if refused AlreadyTerminal);;
  modify (set_terminal state).

(** ** Calls *)

Inductive call : Type :=
| UpdateClock (ticks error : Z)
| ArmDeadline (c : Capability) (cpu deadline : Z)
| CancelDeadline (c : Capability) (cpu : Z)
| SetEntropyHealth (healthy : bool)
| FillEntropy (c : Capability) (n : nat)
| GoTerminal (c : Capability) (state : TerminalState).

Definition exec (k : call) (s : PlatformServices) : PlatformServices :=
  match k with
  | UpdateClock ticks error => (update_clock ticks error s).2
  | ArmDeadline c cpu deadline => (arm_deadline c cpu deadline s).2
  | CancelDeadline c cpu => (cancel_deadline c cpu s).2
  | SetEntropyHealth healthy => (set_entropy_health healthy s).2
  | FillEntropy c n => (fill_entropy c n s).2
  | GoTerminal c state => (go_terminal c state s).2
  end.

(** ** The generator never reaches the fixed point zero *)

(** Adding a left-shifted copy keeps the lowest set bit. *)
Lemma lxor_shiftl_nonzero x k :
  u64 x → x ≠ 0 → 0 < k → Z.lxor x (wrap 64 (Z.shiftl x k)) ≠ 0.
Proof.
  intros Hx Hne Hk Heq. apply Z.lxor_eq in Heq.
  assert (∀ n : nat, Z.testbit x n = false) as Hz.
  { intros n. induction n as [n IH] using lt_wf_ind.
    destruct (Z.lt_ge_cases n 64) as [Hn|Hn].
    - rewrite Heq. unfold wrap. rewrite Z.mod_pow2_bits_low, Z.shiftl_spec by lia.
      destruct (Z.lt_ge_cases (n - k) 0); [by rewrite Z.testbit_neg_r by lia|].
      rewrite <-(Z2Nat.id (n - k)) by lia. apply IH. lia.
    - apply in_u_bits in Hx as [_ Hx]; [|lia]. by apply Hx. }
  apply Hne, Z.bits_inj'. intros i Hi. rewrite Z.bits_0.
  rewrite <-(Z2Nat.id i) by lia. apply Hz.
Qed.

(** Adding a right-shifted copy keeps the highest set bit. *)
Lemma lxor_shiftr_nonzero x k :
  u64 x → x ≠ 0 → 0 < k → Z.lxor x (Z.shiftr x k) ≠ 0.
Proof.
  intros Hx Hne Hk Heq. apply Z.lxor_eq in Heq. unfold in_u in Hx.
  assert (Z.shiftr x k < x).
  { rewrite Z.shiftr_div_pow2 by lia. apply Z.div_lt; [lia|]. apply Z.pow_gt_1; lia. }
  lia.
Qed.

Lemma lxor_u64 x y : u64 x → u64 y → u64 (Z.lxor x y).
Proof.
  intros [Hx0 Hx]%in_u_bits [Hy0 Hy]%in_u_bits; [|lia..]. apply in_u_bits; [lia|]. split.
  - by apply Z.lxor_nonneg.
  - intros k Hk. by rewrite Z.lxor_spec, Hx, Hy.
Qed.

Lemma wrap_u64 x : u64 (wrap 64 x).
Proof. apply Z.mod_pos_bound. lia. Qed.

Lemma shiftr_u64 x k : u64 x → 0 ≤ k → u64 (Z.shiftr x k).
Proof.
  intros [Hx0 Hx]%in_u_bits Hk; [|lia]. apply in_u_bits; [lia|]. split.
  - by apply Z.shiftr_nonneg.
  - intros i Hi. rewrite Z.shiftr_spec by lia. apply Hx. lia.
Qed.

Lemma xorshift_ok x : u64 x → x ≠ 0 → u64 (xorshift x) ∧ xorshift x ≠ 0.
Proof.
  intros Hx Hne. unfold xorshift.
  set (y := Z.lxor x _). set (z := Z.lxor y _).
  assert (u64 y ∧ y ≠ 0) as [Hy Hy0].
  { split; [apply lxor_u64; [done|apply wrap_u64]|by apply lxor_shiftl_nonzero]. }
  assert (u64 z ∧ z ≠ 0) as [Hz Hz0].
  { split; [apply lxor_u64; [done|by apply shiftr_u64]|by apply lxor_shiftr_nonzero]. }
  split; [apply lxor_u64; [done|apply wrap_u64]|by apply lxor_shiftl_nonzero].
Qed.

Lemma entropy_loop_ok n x :
  u64 x → x ≠ 0 →
  length (entropy_loop n x).1 = n ∧ Forall u8 (entropy_loop n x).1 ∧
  u64 (entropy_loop n x).2 ∧ (entropy_loop n x).2 ≠ 0.
Proof.
  revert x. induction n as [|n IH]; intros x Hx Hne; cbn; [done|].
  destruct (xorshift_ok x Hx Hne) as [Hx' Hne'].
  destruct (IH _ Hx' Hne') as (H1 & H2 & H3 & H4). destruct (entropy_loop n _) as [out y]. cbn in *.
  split_and!; [lia| |done|done]. constructor; [|done]. apply Z.mod_pos_bound. lia.
Qed.

Definition entropy_ok (s : PlatformServices) : Prop :=
  u64 (entropy_state s) ∧ entropy_state s ≠ 0.

Lemma exec_entropy_ok k s : entropy_ok s → entropy_ok (exec k s).
Proof.
  intros Hs. destruct k as [t e|c cpu d|c cpu|b|c n|c st]; cbn [exec].
  - unfold update_clock. op_cases; done.
  - unfold arm_deadline. op_cases; done.
  - unfold cancel_deadline. op_cases; done.
  - done.
  - unfold fill_entropy. destruct Hs as [Hs Hne]. destruct (entropy_loop_ok n _ Hs Hne) as (_ & _ & ? & ?).
    op_unfold. repeat (case_match; simplify_eq/=); done.
  - unfold go_terminal. op_cases; done.
Qed.

(** The entropy generator never degenerates: from the initial services, along any
    calls, its 64-bit state stays in range and never becomes the absorbing value zero,
    and an accepted request returns exactly the requested number of bytes. *)
Theorem entropy_never_degenerates a b s0 s c n out s' :
  services_new a b = Ok s0 → reach exec s0 s →
  u64 (entropy_state s) ∧ entropy_state s ≠ 0 ∧
  (fill_entropy c n s = (Ok out, s') → length out = n ∧ n ≤ 4096 ∧ Forall u8 out).
Proof.
  intros Hnew Hr. assert (entropy_ok s) as [Hs Hne].
  { revert Hr. apply reach_invariant; [intros; by apply exec_entropy_ok|].
    unfold services_new in Hnew. op_inv Hnew. by split. }
  split_and!; [done|done|]. intros H. unfold fill_entropy in H. op_inv H. guards.
  destruct (entropy_loop_ok n _ Hs Hne) as (H1' & H2' & _). split_and!; (done || lia).
Qed.

Definition demo_services : PlatformServices :=
  MkServices 0 1 1 0 ∅ 7640891576956012809 true Running.

Lemma entropy_never_degenerates_witness :
  let c := MkCapability Entropy 0 0 ALL 0 0 0 in
  let r := fill_entropy c 3 demo_services in
  (∃ out, r.1 = Ok out ∧ length out = 3%nat) ∧ entropy_state demo_services ≠ 0.
Proof.
  intros c r.
  assert (∃ out, r.1 = Ok out) as [out Hout] by (eexists; vm_compute; reflexivity).
  assert (r = (Ok out, r.2)) as Hr by (by rewrite (surjective_pairing r), Hout).
  destruct (entropy_never_degenerates 1 1 demo_services demo_services c 3 out r.2)
    as (_ & Hne & Hlen); [vm_compute; reflexivity|apply reach_refl|].
  split; [exists out; split; [exact Hout|apply (Hlen Hr)]|exact Hne].
Defined.

(** Time and power only move one way: along any calls the clock never goes back, and
    once a terminal state has been entered (which [go_terminal] does exactly once, with
    the power capability) it never changes again. *)
Theorem clock_and_power_irreversible s s' :
  reach exec s s' →
  now s ≤ now s' ∧ (terminal s ≠ Running → terminal s' = terminal s) ∧
  (∀ c st s'', go_terminal c st s' = (Ok (), s'') →
     terminal s' = Running ∧ terminal s'' = st ∧ st ≠ Running ∧
     cap_kind c = Power ∧ rights_contains (cap_rights c) CONTROL = true).
Proof.
  intros Hr. assert (now s ≤ now s' ∧ (terminal s ≠ Running → terminal s' = terminal s)) as [H1 H2].
  { induction Hr as [|k t _ [IH1 IH2]]; [done|].
    destruct k as [tk e|c cpu d|c cpu|b|c n|c st]; cbn [exec].
    - unfold update_clock. op_unfold. destruct (Z.ltb_spec tk (now t)); cbn; [done|]. split; [lia|done].
    - unfold arm_deadline. op_cases; done.
    - unfold cancel_deadline. op_cases; done.
    - done.
    - unfold fill_entropy. op_unfold. repeat (case_match; simplify_eq/=); done.
    - unfold go_terminal. op_unfold. destruct (require c Power CONTROL); cbn; [|done..].
      case_bool_decide; cbn; [|done]. case_bool_decide; cbn; [done|]. split; [done|].
      intros Hne. specialize (IH2 Hne). congruence. }
  split_and!; [done..|]. intros c st s'' H. unfold go_terminal in H. op_inv H. guards.
  apply require_Ok in H0 as [? ?]. by split_and!.
Qed.

Lemma clock_and_power_irreversible_witness :
  let c := MkCapability Power 0 0 ALL 0 0 0 in
  let s := exec (GoTerminal c Halt) (exec (UpdateClock 9 0) demo_services) in
  let s' := exec (GoTerminal c Reboot) (exec (UpdateClock 5 0) s) in
  now s ≤ now s' ∧ terminal s' = terminal s ∧ terminal s = Halt.
Proof.
  intros c s s'. destruct (clock_and_power_irreversible s s') as (H1 & H2 & _).
  - apply (reach_step exec s (GoTerminal c Reboot)), (reach_step exec s (UpdateClock 5 0)), reach_refl.
  - assert (terminal s = Halt) as Hs by (vm_compute; reflexivity).
    split_and!; [exact H1|apply H2; rewrite Hs; discriminate|exact Hs].
Defined.

End Services.
