(* ===== verification/Event.v ===== *)
(** * Events and actions: [kernel/src/event.rs]

    The event sequencer that numbers and screens ingress, the executor's
    authority table for privileged actions, and completions. *)
From S2P Require Import Prelude Capability Memory Smp DmaState.

Module Event.
Import Smp (CpuSet, cpuset_contains).
Abbreviation PageSize := Memory.PageSize.
Abbreviation PagePermissions := Memory.PagePermissions.

Inductive EventKind : Type :=
| Boot
| CpuOnline
| CpuStartFailed (failure : Smp.CpuFailure)
| IrqEvent (vector : Z)
| Timer
| Ipi (vector epoch : Z)
| DmaComplete (slot : Z)
| SyscallEvent (number : Z)
| UserFaultEvent (address code : Z)
| DeviceFault (device code : Z)
| ActionComplete
| ShutdownRequest.

Record Event : Type := MkEvent {
  ev_cpu : Z;
  ev_id : Z;
  correlation : option Z;
  ev_kind : EventKind;
}.

Inductive Action : Type :=
| StartCpu (cpu : Z)
| SendIpi (targets : CpuSet) (vector epoch : Z)
| TlbShootdown (targets : CpuSet) (epoch virtual_base len : Z)
| AckIrq (vector : Z)
| MaskIrq (vector : Z)
| UnmaskIrq (vector : Z)
| MapAction (virtual_base : Z) (page_size : PageSize) (pages : Z) (permissions : PagePermissions)
| UnmapAction (virtual_base : Z)
| ProtectAction (virtual_base : Z) (permissions : PagePermissions)
| MmioRead (address width : Z)
| MmioWrite (address width value : Z)
| PioRead (port width : Z)
| PioWrite (port width value : Z)
| SubmitDma (slot : Z)
| ArmTimer (deadline : Z)
| CancelTimer
| EnqueueTask (task cpu : Z)
| EnterContext (context : Z)
| Reboot
| PowerOff
| Halt.

Inductive PlatformError : Type :=
| CapabilityFault (e : Ledger.CapabilityError)
| Atomic
| SmpFault (e : Smp.SmpError)
| MemoryFault (e : Memory.MapError)
| DmaFault (e : DmaState.DmaError)
| InvalidEventId | InvalidCorrelation | InvalidPayload | Terminal | RangeOverflow
| InvalidWidth | UnknownCpu | UnownedVector | UnownedDmaSlot | InvalidTrapOrigin.

#[global] Instance PlatformError_eq_dec : EqDecision PlatformError.
Proof. solve_decision. Defined.

Record IssuedAction : Type := MkIssued { act_id : Z; action : Action }.

Record AuthorizedAction : Type := MkAuthorized {
  au_action : Action;
  capability_slot : Z;
  capability_generation : Z;
}.

Record Completion : Type := MkCompletion {
  co_action : Z;
  co_event : Z;
  co_result : option PlatformError;
}.

(** ** Action checks *)

Definition validate_action (a : Action) : res PlatformError unit :=
  match a with
  | TlbShootdown _ _ virtual_base len =>
    if len =? 0 then Err InvalidPayload
    else if bool_decide (checked_add 64 virtual_base len = None) then Err RangeOverflow
    else Ok ()
  | MmioRead _ width | MmioWrite _ width _ =>
    if negb ((width =? 1) || (width =? 2) || (width =? 4) || (width =? 8))
    then Err InvalidWidth else Ok ()
  | PioRead _ width | PioWrite _ width _ =>
    if negb ((width =? 1) || (width =? 2) || (width =? 4))
    then Err InvalidWidth else Ok ()
  | _ => Ok ()
  end.

Record ActionAuthority : Type := MkAuthority {
  at_kind : CapabilityKind;
  at_rights : Rights;
  at_base : Z;
  at_len : Z;
}.

Definition action_authority (a : Action) : res PlatformError ActionAuthority :=
  match a with
  | StartCpu cpu => Ok (MkAuthority Cpu CONTROL cpu 1)
  | SendIpi _ _ _ | TlbShootdown _ _ _ _ => Ok (MkAuthority CpuSetKind CONTROL 0 0)
  | AckIrq vector | MaskIrq vector | UnmaskIrq vector => Ok (MkAuthority Irq CONTROL vector 1)
  | MapAction virtual_base page_size pages _ =>
    bytes ← ok_or RangeOverflow (checked_mul 64 (Memory.page_bytes page_size) pages);
    Ok (MkAuthority AddressSpaceKind MAP virtual_base bytes)
  | UnmapAction virtual_base | ProtectAction virtual_base _ =>
    Ok (MkAuthority AddressSpaceKind MAP virtual_base 1)
  | MmioRead address width => Ok (MkAuthority Mmio READ address width)
  | MmioWrite address width _ => Ok (MkAuthority Mmio WRITE address width)
  | PioRead port width => Ok (MkAuthority IoPort READ port width)
  | PioWrite port width _ => Ok (MkAuthority IoPort WRITE port width)
  | SubmitDma slot => Ok (MkAuthority Dma CONTROL slot 1)
  | ArmTimer _ | CancelTimer => Ok (MkAuthority Clock CONTROL 0 0)
  | EnqueueTask _ cpu => Ok (MkAuthority Cpu CONTROL cpu 1)
  | EnterContext context => Ok (MkAuthority UserContextKind CONTROL context 1)
  | Reboot | PowerOff | Halt => Ok (MkAuthority Power CONTROL 0 0)
  end.

(** The executor, over any ledger that keeps the authority interface. *)
Definition authorize {L} `{Ledger.CapabilityAuthority L} (ledger : L) (owner : Z)
    (c : Capability) (a : Action) : res PlatformError AuthorizedAction :=
  validate_action a;;
  authority ← action_authority a;
  bail_if (negb (bool_decide (cap_kind c = at_kind authority)))
    (CapabilityFault Ledger.WrongKind);;
  map_err CapabilityFault
    (Ledger.auth_validate ledger c owner (at_rights authority) (at_base authority)
       (at_len authority));;
  Ok (MkAuthorized a (cap_slot c) (cap_generation c)).

(** ** The sequencer *)

Record EventSequencer : Type := MkSequencer {
  next_event : Z;
  next_action : Z;
  online : option CpuSet;
  irq_owners : gmap Z Z;
  dma_slots : gset Z;
  max_syscall : Z;
}.

Definition sequencer_new : EventSequencer := MkSequencer 1 1 None ∅ ∅ 0.
Definition with_topology (cpus : CpuSet) (max : Z) : EventSequencer :=
  MkSequencer 1 1 (Some cpus) ∅ ∅ max.

Definition set_next_event (n : Z) (s : EventSequencer) : EventSequencer :=
  MkSequencer n (next_action s) (online s) (irq_owners s) (dma_slots s) (max_syscall s).
Definition set_next_action (n : Z) (s : EventSequencer) : EventSequencer :=
  MkSequencer (next_event s) n (online s) (irq_owners s) (dma_slots s) (max_syscall s).
Definition set_irq_owners (m : gmap Z Z) (s : EventSequencer) : EventSequencer :=
  MkSequencer (next_event s) (next_action s) (online s) m (dma_slots s) (max_syscall s).
Definition set_dma_slots (d : gset Z) (s : EventSequencer) : EventSequencer :=
  MkSequencer (next_event s) (next_action s) (online s) (irq_owners s) d (max_syscall s).

(** [self.online.as_ref().is_some_and(|online| !online.contains(cpu))] *)
Definition offline (s : EventSequencer) (cpu : Z) : bool :=
  match online s with Some cpus => negb (cpuset_contains cpus cpu) | None => false end.

(** [||] is lazy, and the last disjunct inserts before it tests. *)
Definition assign_irq (vector cpu : Z) : op EventSequencer PlatformError unit :=
  refused ← reads (λ s, (vector <? 32) || offline s cpu);
  lift (bail_if refused UnownedVector);;
  previous ← reads (λ s, irq_owners s !! vector);
  modify (λ s, set_irq_owners (<[vector := cpu]> (irq_owners s)) s);;
  lift (bail_if (bool_decide (is_Some previous)) UnownedVector).

Definition allow_dma_slot (slot : Z) : op EventSequencer PlatformError unit :=
  present ← reads (λ s, bool_decide (slot ∈ dma_slots s));
  modify (λ s, set_dma_slots ({[slot]} ∪ dma_slots s) s);;
  lift (bail_if present UnownedDmaSlot).

(** The [match kind] of [ingress]. *)
Definition screen (s : EventSequencer) (cpu : Z) (kind : EventKind) : res PlatformError unit :=
  match kind with
  | IrqEvent vector =>
    bail_if ((vector <? 32) || negb (bool_decide (irq_owners s !! vector = Some cpu)))
      UnownedVector
  | Ipi vector epoch => bail_if ((vector <? 32) || (epoch =? 0)) InvalidPayload
  | DmaComplete slot => bail_if (negb (bool_decide (slot ∈ dma_slots s))) UnownedDmaSlot
  | SyscallEvent number => bail_if (max_syscall s <? number) InvalidPayload
  | UserFaultEvent address _ =>
    bail_if (negb (Memory.is_canonical_x86_64 address)) InvalidTrapOrigin
  | _ => Ok ()
  end.

(** The id is consumed before the correlation is checked. *)
Definition ingress (cpu : Z) (kind : EventKind) (corr : option Z)
    : op EventSequencer PlatformError Event :=
  gone ← reads (λ s, offline s cpu);
  lift (bail_if gone UnknownCpu);;
  readr (λ s, screen s cpu kind);;
  id ← reads next_event;
  next ← readr (λ s, ok_or InvalidEventId (checked_add 64 (next_event s) 1));
  modify (set_next_event next);;
  unissued ← reads (λ s, match corr with
                         | Some a => (a =? 0) || (next_action s <=? a)
                         | None => false
                         end);
  lift (bail_if unissued InvalidCorrelation);;
  mret (MkEvent cpu id corr kind).

Definition issue (a : Action) : op EventSequencer PlatformError IssuedAction :=
  lift (validate_action a);;
  id ← reads next_action;
  next ← readr (λ s, ok_or InvalidCorrelation (checked_add 64 (next_action s) 1));
  modify (set_next_action next);;
  mret (MkIssued id a).

Definition platform_error_code (e : PlatformError) : Z :=
  match e with
  | CapabilityFault _ => 1 | Atomic => 2 | SmpFault _ => 3 | MemoryFault _ => 4
  | DmaFault _ => 5 | InvalidEventId => 6 | InvalidCorrelation => 7 | InvalidPayload => 8
  | Terminal => 9 | RangeOverflow => 10 | InvalidWidth => 11 | UnknownCpu => 12
  | UnownedVector => 13 | UnownedDmaSlot => 14 | InvalidTrapOrigin => 15
  end.

(** [result] is [None] for [Ok(())]. *)
Definition completion_kind (a : Action) (result : option PlatformError) : EventKind :=
  match result with
  | Some e => DeviceFault 0 (platform_error_code e)
  | None =>
    match a with
    | StartCpu _ => CpuOnline
    | SendIpi _ vector epoch => Ipi vector epoch
    | SubmitDma slot => DmaComplete slot
    | ArmTimer _ | CancelTimer => Timer
    | Reboot | PowerOff | Halt => ShutdownRequest
    | _ => ActionComplete
    end
  end.

Definition complete (issued : IssuedAction) (cpu : Z) (result : option PlatformError)
    : op EventSequencer PlatformError (Completion * Event) :=
  unissued ← reads (λ s, (act_id issued =? 0) || (next_action s <=? act_id issued));
  lift (bail_if unissued InvalidCorrelation);;
  event ← ingress cpu (completion_kind (action issued) result) (Some (act_id issued));
  mret (MkCompletion (act_id issued) (ev_id event) result, event).

(** ** Authority *)

Lemma validate_action_returns a : validate_action a ≠ Panic.
Proof. destruct a; cbn; repeat case_match; done. Qed.

Lemma authorize_Ok {L} `{Ledger.CapabilityAuthority L} (l : L) owner c a aa :
  authorize l owner c a = Ok aa ↔
  ∃ authority, validate_action a = Ok () ∧ action_authority a = Ok authority ∧
    cap_kind c = at_kind authority ∧
    Ledger.auth_validate l c owner (at_rights authority) (at_base authority) (at_len authority)
      = Ok () ∧
    aa = MkAuthorized a (cap_slot c) (cap_generation c).
Proof.
  unfold authorize. split.
  - intros Ha. op_inv Ha. guards. destruct a0. exists a1. split_and!; try done.
    unfold map_err in *. by destruct (Ledger.auth_validate l c owner _ _ _) as [[]| |].
  - intros (au & -> & -> & Hk & Hv & ->). cbn. rewrite bool_decide_true by done. cbn.
    by rewrite Hv.
Qed.

(** The bytes, ports, CPUs, vectors or slots an action names. *)
Definition touches (a : Action) (x : Z) : Prop :=
  ∃ au, action_authority a = Ok au ∧ at_base au ≤ x < at_base au + at_len au.

(** C5. Complete mediation: an authorised action is well formed, its capability has the
    kind and the rights the authority table demands, belongs to the caller and covers
    everything the action touches; and once that capability has been transferred or
    released, no later ledger state authorises any action with it again. *)
Theorem authorized_actions_mediated (l l1 l2 : Ledger.CapabilityLedger) owner c a aa :
  authorize l owner c a = Ok aa →
  validate_action a = Ok () ∧
  (∃ au, action_authority a = Ok au ∧ cap_kind c = at_kind au ∧ cap_owner c = owner ∧
     rights_contains (cap_rights c) (at_rights au) = true) ∧
  (∀ x, touches a x → cap_base c ≤ x < cap_base c + cap_len c) ∧
  ((∃ o rt c', Ledger.transfer c o rt l = (Ok c', l1)) ∨ Ledger.release c l = (Ok (), l1) →
   reach Ledger.ledger_step l1 l2 → ∀ owner' a' aa', authorize l2 owner' c a' ≠ Ok aa').
Proof.
  intros (au & Hval & Hau & Hk & Hv & _)%authorize_Ok.
  destruct (Ledger.auth_within _ _ _ _ _ _ Hv) as (Ho & Hr & Hc).
  apply contains_range_spec in Hc as (Hc1 & Hc2 & Hc3).
  split_and!; [done|by exists au| |].
  - intros x (au' & Hau' & Hx). rewrite Hau in Hau'. injection Hau' as <-. lia.
  - intros Hcall Hreach owner' a' aa' (au' & _ & _ & _ & Hv' & _)%authorize_Ok.
    revert Hv'. apply (Ledger.auth_refuses l1 l2); [|done]. cbn.
    destruct Hcall as [(o & rt & c' & H)|H];
      [by eapply Ledger.transfer_revokes|by eapply Ledger.release_revokes].
Qed.

Definition demo_root : Capability := MkCapability Mmio 4 9 ALL 0 4096 4096.
Definition demo_ledger : Ledger.CapabilityLedger :=
  (Ledger.mint_root Mmio 4 9 ALL 4096 4096 Ledger.ledger_new).2.

Lemma authorized_actions_mediated_witness :
  let a := MmioWrite 4104 4 77 in
  let l1 := (Ledger.transfer demo_root 5 READ demo_ledger).2 in
  authorize demo_ledger 9 demo_root a = Ok (MkAuthorized a 4 0) ∧
  (∀ x, touches a x → 4096 ≤ x < 4096 + 4096) ∧
  ∀ owner' a' aa', authorize l1 owner' demo_root a' ≠ Ok aa'.
Proof.
  intros a l1.
  assert (authorize demo_ledger 9 demo_root a = Ok (MkAuthorized a 4 0)) as H
    by (vm_compute; reflexivity).
  destruct (authorized_actions_mediated demo_ledger l1 l1 9 demo_root a _ H) as (_ & _ & Ht & Hr).
  split_and!; [exact H|exact Ht|]. apply Hr; [|apply reach_refl].
  left. exists 5, READ. eexists. vm_compute. reflexivity.
Defined.

(** ** Numbering *)

Lemma ingress_Ok cpu kind corr s e s' :
  ingress cpu kind corr s = (Ok e, s') →
  offline s cpu = false ∧ screen s cpu kind = Ok () ∧ next_event s + 1 < 2 ^ 64 ∧
  (∀ a, corr = Some a → a ≠ 0 ∧ a < next_action s) ∧
  e = MkEvent cpu (next_event s) corr kind ∧ s' = set_next_event (next_event s + 1) s.
Proof.
  unfold ingress. intros H. op_inv H. guards. split_and!; try done.
  - match goal with u : unit |- _ => by destruct u end.
  - intros x ->. cbn in *. guards. lia.
Qed.

End Event.
