(* ===== verification/Policy.v ===== *)
(** * Kernel policy: [kernel/src/policy.rs]

    The per-CPU shards and the step function that turns an event into a batch
    of at most four actions; how the policy composes with the sequencer. *)
From S2P Require Import Prelude Capability Memory Smp DmaState Event.

Module Policy.
Import Event.

Record CpuShard : Type := MkShard {
  sh_cpu : Z;
  last_event : Z;
  ticks : Z;
  runnable_tasks : Z;
  sh_terminal : bool;
}.

Inductive PolicyError : Type :=
| UnknownCpu | DuplicateCpu | StaleEvent | CorrelationRequired | UnexpectedCorrelation
| ActionOverflow | TickOverflow | TaskOverflow | Terminal | Platform (e : PlatformError).

#[global] Instance PolicyError_eq_dec : EqDecision PolicyError.
Proof. solve_decision. Defined.

(** ** [ActionBatch<N>] *)

Section batch.
Context (N : Z).

Record ActionBatch : Type := MkBatch { actions : list (option Action); b_len : Z }.

Definition batch_new : ActionBatch := MkBatch (replicate (Z.to_nat N) None) 0.

Definition batch_push (a : Action) : op ActionBatch PolicyError unit :=
  full ← reads (λ b, b_len b =? N);
  lift (bail_if full ActionOverflow);;
  l ← readr (λ b, index_set (actions b) (b_len b) (Some a));
  modify (λ b, MkBatch l (b_len b));;
  len ← readr (λ b, uadd 64 (b_len b) 1);
  modify (λ b, MkBatch (actions b) len).

Definition batch_iter (b : ActionBatch) : list Action :=
  omap id (take (Z.to_nat (b_len b)) (actions b)).
End batch.

(** ** [KernelPolicy] *)

Record KernelPolicy : Type := MkPolicy {
  shards : gmap Z CpuShard;
  last_global_event : Z;
}.

Definition policy_default : KernelPolicy := MkPolicy ∅ 0.

Definition set_shard (cpu : Z) (s : CpuShard) (p : KernelPolicy) : KernelPolicy :=
  MkPolicy (<[cpu := s]> (shards p)) (last_global_event p).

(** [insert] has replaced the shard before the duplicate is reported. *)
Definition add_cpu (cpu : Z) : op KernelPolicy PolicyError unit :=
  previous ← reads (λ p, shards p !! cpu);
  modify (set_shard cpu (MkShard cpu 0 0 0 false));;
  lift (bail_if (bool_decide (is_Some previous)) DuplicateCpu).

Definition is_completion (k : EventKind) : bool :=
  match k with CpuOnline | CpuStartFailed _ | DmaComplete _ => true | _ => false end.

Definition set_last_event (n : Z) (s : CpuShard) : CpuShard :=
  MkShard (sh_cpu s) n (ticks s) (runnable_tasks s) (sh_terminal s).
Definition set_ticks (n : Z) (s : CpuShard) : CpuShard :=
  MkShard (sh_cpu s) (last_event s) n (runnable_tasks s) (sh_terminal s).
Definition set_tasks (n : Z) (s : CpuShard) : CpuShard :=
  MkShard (sh_cpu s) (last_event s) (ticks s) n (sh_terminal s).
Definition set_terminal (s : CpuShard) : CpuShard :=
  MkShard (sh_cpu s) (last_event s) (ticks s) (runnable_tasks s) true.

(** One [push] onto the fresh batch of the step. *)
Definition push1 (a : Action) : res PolicyError ActionBatch :=
  match batch_push 4 a (batch_new 4) with
  | (Ok _, b) => Ok b
  | (Err e, _) => Err e
  | (Panic, _) => Panic
  end.

(** The [match event.kind] of [step]: on the shard, which keeps what was
    written before a failing [?]. *)
Definition react (e : Event) : op CpuShard PolicyError ActionBatch :=
  match ev_kind e with
  | Boot => lift (push1 (ArmTimer 1))
  | CpuOnline =>
    n ← readr (λ s, ok_or TaskOverflow (checked_add 32 (runnable_tasks s) 1));
    modify (set_tasks n);;
    lift (push1 (EnqueueTask (ev_cpu e) (ev_cpu e)))
  | CpuStartFailed _ => mret (batch_new 4)
  | IrqEvent vector => lift (push1 (AckIrq vector))
  | Timer =>
    t ← readr (λ s, ok_or TickOverflow (checked_add 64 (ticks s) 1));
    modify (set_ticks t);;
    deadline ← readr (λ s, uadd 64 (ticks s) 1);
    lift (push1 (ArmTimer deadline))
  | Ipi vector epoch => lift (push1 (SendIpi (Smp.from_ids [ev_cpu e]) vector epoch))
  | DmaComplete _ =>
    n ← readr (λ s, ok_or TaskOverflow (checked_add 32 (runnable_tasks s) 1));
    modify (set_tasks n);;
    mret (batch_new 4)
  | SyscallEvent number =>
    if number =? 0 then
      n ← reads runnable_tasks;
      lift (push1 (EnqueueTask n (ev_cpu e)))
    else lift (push1 (EnterContext (wrap 32 number)))
  | UserFaultEvent _ _ => lift (push1 (EnterContext 0))
  | DeviceFault _ _ => lift (push1 (MaskIrq 0))
  | ActionComplete => mret (batch_new 4)
  | ShutdownRequest =>
    modify set_terminal;;
    lift (push1 PowerOff)
  end.

Definition step (e : Event) : op KernelPolicy PolicyError ActionBatch :=
  stale ← reads (λ p, ev_id e <=? last_global_event p);
  lift (bail_if stale StaleEvent);;
  shard ← readr (λ p, ok_or UnknownCpu (shards p !! ev_cpu e));
  lift (bail_if (sh_terminal shard) Terminal);;
  let completion_event := is_completion (ev_kind e) in
  lift (bail_if (completion_event && bool_decide (correlation e = None)) CorrelationRequired);;
  lift (bail_if (negb completion_event && bool_decide (is_Some (correlation e)))
          UnexpectedCorrelation);;
  modify (λ p, MkPolicy (shards p) (ev_id e));;
  let shard := set_last_event (ev_id e) shard in
  modify (set_shard (ev_cpu e) shard);;
  zoom (λ p, default shard (shards p !! ev_cpu e)) (set_shard (ev_cpu e)) (react e).

Definition shard (p : KernelPolicy) (cpu : Z) : option CpuShard := shards p !! cpu.

(** ** Calls *)

Inductive call : Type :=
| AddCpu (cpu : Z)
| Step (e : Event).

Definition exec (c : call) (p : KernelPolicy) : KernelPolicy :=
  match c with
  | AddCpu cpu => (add_cpu cpu p).2
  | Step e => (step e p).2
  end.

(** ** One step *)

Lemma push1_spec a : ∃ b, push1 a = Ok b ∧ batch_iter b = [a].
Proof. eexists. split; reflexivity. Qed.

(** The reaction keeps the shard's identity and last event; only a shutdown
    makes it terminal; it yields at most one action. *)
Lemma react_spec e s :
  u64 (ticks s) → ticks s + 2 < 2 ^ 64 →
  ∃ r s', react e s = (r, s') ∧ r ≠ Panic ∧ r ≠ Err ActionOverflow ∧
    (∀ b, r = Ok b → (length (batch_iter b) ≤ 1)%nat) ∧
    last_event s' = last_event s ∧ ticks s ≤ ticks s' ≤ ticks s + 1 ∧
    (sh_terminal s' = true ↔ sh_terminal s = true ∨ ev_kind e = ShutdownRequest).
Proof.
  intros Ht Hlt.
  assert (∀ a, ∃ b, push1 a = Ok b ∧ (length (batch_iter b) ≤ 1)%nat) as Hp.
  { intros a. destruct (push1_spec a) as (b & -> & Hb). exists b. by rewrite Hb. }
  assert (length (batch_iter (batch_new 4)) ≤ 1)%nat as Hnew by (vm_compute; lia).
  unfold react. op_unfold.
  destruct (ev_kind e) as [| |f|v| |v ep|sl|n|a c|dv c| |] eqn:Hk; cbn;
    try (match goal with |- context [push1 ?a] => destruct (Hp a) as (b & Hb & Hlen) end);
    try (destruct (Z.ltb_spec (runnable_tasks s + 1) (2 ^ 32)); cbn);
    try (rewrite (proj2 (Z.ltb_lt (ticks s + 1) _)) by ulia; cbn;
         rewrite (proj2 (Z.ltb_lt (ticks s + 1 + 1) _)) by ulia);
    try (destruct (Z.eqb_spec n 0); cbn).
  all: try (match goal with |- context [push1 ?a] => destruct (Hp a) as (b' & Hb' & Hlen') end;
    rewrite Hb').
  all: do 2 eexists; split; [reflexivity|]; cbn.
  all: split_and!; try done; try lia; try naive_solver.
Qed.

(** The guards of [step], in order. *)
Definition refusal (e : Event) (p : KernelPolicy) : option PolicyError :=
  if ev_id e <=? last_global_event p then Some StaleEvent else
  match shards p !! ev_cpu e with
  | None => Some UnknownCpu
  | Some sh =>
    if sh_terminal sh then Some Terminal
    else if is_completion (ev_kind e) && bool_decide (correlation e = None)
    then Some CorrelationRequired
    else if negb (is_completion (ev_kind e)) && bool_decide (is_Some (correlation e))
    then Some UnexpectedCorrelation else None
  end.

(** A refused event changes nothing; an accepted one is stamped, then reacted to. *)
Lemma step_cases e p :
  match refusal e p with
  | Some er => step e p = (Err er, p)
  | None => ∃ sh, shards p !! ev_cpu e = Some sh ∧ sh_terminal sh = false ∧
      last_global_event p < ev_id e ∧
      let '(r, sh') := react e (set_last_event (ev_id e) sh) in
      step e p = (r, MkPolicy (<[ev_cpu e := sh']> (shards p)) (ev_id e))
  end.
Proof.
  unfold refusal, step. op_unfold.
  destruct (Z.leb_spec (ev_id e) (last_global_event p)); cbn; [done|].
  destruct (shards p !! ev_cpu e) as [sh|] eqn:Hs; cbn; [|done].
  destruct (sh_terminal sh) eqn:Ht; cbn; [done|].
  destruct (is_completion (ev_kind e) && _); cbn; [done|].
  destruct (negb (is_completion (ev_kind e)) && _); cbn; [done|].
  exists sh. split_and!; [done..|]. unfold zoom. cbn. rewrite lookup_insert_eq. cbn.
  destruct (react e _) as [r sh']. unfold set_shard. cbn. by rewrite insert_insert_eq.
Qed.

Lemma exec_terminal c cpu p sh :
  c ≠ AddCpu cpu → shards p !! cpu = Some sh → sh_terminal sh = true →
  shards (exec c p) !! cpu = Some sh.
Proof.
  intros Hc Hs Ht. destruct c as [cpu'|e]; cbn [exec].
  - unfold add_cpu. op_unfold. assert (cpu' ≠ cpu) by congruence.
    cbn. by rewrite lookup_insert_ne.
  - pose proof (step_cases e p) as H. destruct (refusal e p) as [er|] eqn:Hr; [by rewrite H|].
    destruct H as (sh' & Hs' & Ht' & _ & H). destruct (react e _) as [r sh2]. rewrite H. cbn.
    assert (ev_cpu e ≠ cpu) by (intros <-; congruence). by rewrite lookup_insert_ne.
Qed.

(** Shutdown is final: the shutdown event powers the CPU off with exactly one action,
    and afterwards, whatever other CPUs do, every event for that CPU is refused and
    changes nothing, as long as the CPU is not registered again. *)
Theorem shutdown_is_final e p b p1 p2 e' :
  ev_kind e = ShutdownRequest → step e p = (Ok b, p1) →
  reach (λ c : {c | c ≠ AddCpu (ev_cpu e)}, exec (`c)) p1 p2 → ev_cpu e' = ev_cpu e →
  batch_iter b = [PowerOff] ∧
  ∃ er, step e' p2 = (Err er, p2) ∧ (er = Terminal ∨ er = StaleEvent).
Proof.
  intros Hk Hstep Hr Hcpu. pose proof (step_cases e p) as H.
  destruct (refusal e p) as [er|]; [congruence|]. destruct H as (sh & _ & _ & _ & H).
  unfold react in H. rewrite Hk in H. cbn in H. rewrite H in Hstep. injection Hstep as <- <-.
  split; [reflexivity|].
  assert (∃ sh, shards p2 !! ev_cpu e = Some sh ∧ sh_terminal sh = true) as (sh2 & Hs2 & Ht2).
  { revert Hr. apply (reach_invariant _ (λ q, ∃ sh, shards q !! ev_cpu e = Some sh ∧
      sh_terminal sh = true)).
    - intros [c Hc] q (sh' & Hs' & Ht'). exists sh'. split; [|done]. by apply exec_terminal.
    - eexists. cbn. rewrite lookup_insert_eq. by split. }
  pose proof (step_cases e' p2) as H2. unfold refusal in H2. rewrite Hcpu, Hs2, Ht2 in H2.
  destruct (ev_id e' <=? last_global_event p2); eauto.
Qed.

Definition demo_policy : KernelPolicy := exec (AddCpu 1) (exec (AddCpu 0) policy_default).

Lemma shutdown_is_final_witness :
  let e := MkEvent 1 1 None ShutdownRequest in
  let p1 := exec (Step e) demo_policy in
  let p2 := exec (Step (MkEvent 0 2 None Timer)) p1 in
  ∃ er, step (MkEvent 1 3 None Timer) p2 = (Err er, p2) ∧ (er = Terminal ∨ er = StaleEvent).
Proof.
  intros e p1 p2.
  apply (shutdown_is_final e demo_policy _ p1 p2 (MkEvent 1 3 None Timer) eq_refl
    (eq_trans (surjective_pairing (step e demo_policy)) eq_refl)); [|reflexivity].
  assert (Step (MkEvent 0 2 None Timer) ≠ AddCpu 1) as Hc by done.
  exact (reach_step (λ c : {c | c ≠ AddCpu 1}, exec (`c)) p1
    (exist (λ c, c ≠ AddCpu 1) (Step (MkEvent 0 2 None Timer)) Hc) p1 (reach_refl _ p1)).
Defined.

(** ** The sequencer feeding the policy *)

Inductive sys_call : Type :=
| SysAssign (vector cpu : Z)
| SysAllow (slot : Z)
| SysIssue (a : Action)
| SysIngress (cpu : Z) (kind : EventKind) (corr : option Z)
| SysComplete (issued : IssuedAction) (cpu : Z) (result : option PlatformError)
| SysAddCpu (cpu : Z).

(** An accepted event goes straight to the policy. *)
Definition sys_exec (c : sys_call) (st : EventSequencer * KernelPolicy)
    : EventSequencer * KernelPolicy :=
  let '(s, p) := st in
  match c with
  | SysAssign vector cpu => ((assign_irq vector cpu s).2, p)
  | SysAllow slot => ((allow_dma_slot slot s).2, p)
  | SysIssue a => ((issue a s).2, p)
  | SysIngress cpu kind corr =>
    match ingress cpu kind corr s with
    | (Ok e, s') => (s', (step e p).2)
    | (_, s') => (s', p)
    end
  | SysComplete issued cpu result =>
    match complete issued cpu result s with
    | (Ok (_, e), s') => (s', (step e p).2)
    | (_, s') => (s', p)
    end
  | SysAddCpu cpu => (s, (add_cpu cpu p).2)
  end.

(** The policy is always behind the sequencer. *)
Definition behind (st : EventSequencer * KernelPolicy) : Prop :=
  last_global_event st.2 < next_event st.1.

Lemma step_last_event e p :
  (step e p).2 = p ∨ last_global_event (step e p).2 = ev_id e.
Proof.
  pose proof (step_cases e p) as H. destruct (refusal e p); [rewrite H; by left|].
  destruct H as (sh & _ & _ & _ & H). destruct (react e _). rewrite H. by right.
Qed.

Lemma ingress_next cpu kind corr s :
  next_event s ≤ next_event (ingress cpu kind corr s).2.
Proof.
  unfold ingress. op_unfold. repeat (case_match; simplify_eq/=); lia.
Qed.

Lemma sys_exec_behind c st : behind st → behind (sys_exec c st).
Proof.
  unfold behind. destruct st as [s p]. intros Hb. cbn in Hb.
  assert (∀ cpu kind corr e s', ingress cpu kind corr s = (Ok e, s') →
    last_global_event (step e p).2 < next_event s') as Hstep.
  { intros cpu kind corr e s' (_ & _ & _ & _ & -> & ->)%ingress_Ok. cbn.
    destruct (step_last_event (MkEvent cpu (next_event s) corr kind) p) as [->| ->]; cbn; lia. }
  destruct c as [v cpu|sl|a|cpu kind corr|is_ cpu r|cpu]; cbn.
  - unfold assign_irq. op_cases; done.
  - done.
  - unfold issue. op_unfold. repeat (case_match; simplify_eq/=); lia.
  - pose proof (ingress_next cpu kind corr s) as Hn.
    destruct (ingress cpu kind corr s) as [[e|er|] s'] eqn:Hi; cbn in *; [by eapply Hstep|lia..].
  - unfold complete. op_unfold. cbn. set (k := completion_kind _ _).
    destruct ((act_id is_ =? 0) || (next_action s <=? act_id is_)); cbn; [done|].
    pose proof (ingress_next cpu k (Some (act_id is_)) s) as Hn.
    destruct (ingress cpu k _ s) as [[e|er|] s'] eqn:Hi; cbn in *; [by eapply Hstep|lia..].
  - done.
Qed.

(** Sequencer and policy agree on order: in every state the two reach together, from a
    fresh sequencer and a policy that has seen nothing, the next event the sequencer
    numbers is never stale for the policy; the policy refuses it only for an unregistered
    or terminal CPU or a correlation mismatch, and otherwise records exactly its id. *)
Theorem sequenced_events_never_stale s0 s p cpu kind corr e s' :
  next_event s0 = 1 → reach sys_exec (s0, policy_default) (s, p) →
  ingress cpu kind corr s = (Ok e, s') →
  match refusal e p with
  | Some er => step e p = (Err er, p) ∧
      (er = UnknownCpu ∨ er = Terminal ∨ er = CorrelationRequired ∨ er = UnexpectedCorrelation)
  | None => last_global_event p < ev_id e ∧ last_global_event (step e p).2 = ev_id e ∧
      ev_id e < next_event s'
  end.
Proof.
  intros H0 Hr Hi. assert (behind (s, p)) as Hb.
  { revert Hr. apply (reach_invariant sys_exec behind); [intros; by apply sys_exec_behind|].
    unfold behind. cbn. lia. }
  apply ingress_Ok in Hi as (_ & _ & _ & _ & He & ->).
  assert ((ev_id e <=? last_global_event p) = false) as Hns.
  { apply Z.leb_gt. rewrite He. exact Hb. }
  pose proof (step_cases e p) as H. destruct (refusal e p) as [er|] eqn:Href.
  - split; [done|]. unfold refusal in Href. rewrite Hns in Href.
    repeat case_match; simplify_eq; auto.
  - destruct H as (sh & _ & _ & Hlt & H). destruct (react e _). rewrite H. cbn.
    split_and!; [done..|]. rewrite He. cbn. lia.
Qed.

Lemma sequenced_events_never_stale_witness :
  let s := sys_exec (SysIngress 0 Boot None)
             (sys_exec (SysAddCpu 0) (sequencer_new, policy_default)) in
  let e := MkEvent 0 2 None Timer in
  ingress 0 Timer None s.1 = (Ok e, set_next_event 3 s.1) ∧
  last_global_event (step e s.2).2 = 2.
Proof.
  intros s e.
  assert (ingress 0 Timer None s.1 = (Ok e, set_next_event 3 s.1)) as Hi by (vm_compute; reflexivity).
  split; [exact Hi|].
  assert (reach sys_exec (sequencer_new, policy_default) (s.1, s.2)) as Hr.
  { rewrite <-surjective_pairing.
    exact (reach_step sys_exec _ (SysIngress 0 Boot None) _
      (reach_step sys_exec _ (SysAddCpu 0) _ (reach_refl _ _))). }
  pose proof (sequenced_events_never_stale sequencer_new s.1 s.2 0 Timer None e _ eq_refl Hr Hi) as H.
  assert (refusal e s.2 = None) as Href by (vm_compute; reflexivity). rewrite Href in H. apply H.
Defined.

(** C40. Most completions cannot be consumed: the sequencer's completion of any action other
    than starting a CPU or submitting DMA, and of any action that failed, carries a
    correlation, and the policy refuses every such event, so the kernel never sees that
    (for example) its timer was armed or its device access failed. *)
Theorem completions_refused_by_policy issued cpu result s c e s' p sh :
  complete issued cpu result s = (Ok (c, e), s') →
  result ≠ None ∨ (∀ k, action issued ≠ StartCpu k) ∧ (∀ k, action issued ≠ SubmitDma k) →
  last_global_event p < ev_id e → shards p !! cpu = Some sh → sh_terminal sh = false →
  step e p = (Err UnexpectedCorrelation, p).
Proof.
  intros Hc Hact Hlt Hs Ht. unfold complete in Hc. op_inv Hc. injection Hc as -> ->.
  match goal with H : ingress _ _ _ _ = _ |- _ => apply ingress_Ok in H as (_ & _ & _ & _ & -> & _) end.
  pose proof (step_cases (MkEvent cpu (next_event s) (Some (act_id issued))
    (completion_kind (action issued) result)) p) as Hp. cbn in *.
  unfold refusal in Hp. cbn in Hp. rewrite (proj2 (Z.leb_gt _ _)) in Hp by lia.
  rewrite Hs, Ht in Hp.
  assert (is_completion (completion_kind (action issued) result) = false) as Hk.
  { destruct result; [done|]. destruct Hact as [?|[Ha Hb]]; [done|]. cbn.
    destruct (action issued) as [k| | | | | | | | | | | | |k| | | | | | |]; try done;
      [by destruct (Ha k)|by destruct (Hb k)]. }
  by rewrite Hk in Hp.
Qed.

Lemma completions_refused_by_policy_witness :
  let s := (issue (ArmTimer 1) sequencer_new).2 in
  let e := MkEvent 0 1 (Some 1) Timer in
  complete (MkIssued 1 (ArmTimer 1)) 0 None s = (Ok (MkCompletion 1 1 None, e), set_next_event 2 s) ∧
  step e demo_policy = (Err UnexpectedCorrelation, demo_policy).
Proof.
  intros s e.
  assert (complete (MkIssued 1 (ArmTimer 1)) 0 None s
    = (Ok (MkCompletion 1 1 None, e), set_next_event 2 s)) as Hc by (vm_compute; reflexivity).
  split; [exact Hc|].
  apply (completions_refused_by_policy _ _ _ _ _ _ _ demo_policy (MkShard 0 0 0 0 false) Hc).
  - right. by split.
  - done.
  - vm_compute. reflexivity.
  - reflexivity.
Defined.

End Policy.
