(* ===== verification/AtomicModel.v ===== *)
(** * Atomics: [kernel/src/atomic.rs]

    The sequential cell with its ordering checks, and the executable memory
    model that logs one event per operation. *)
From S2P Require Import Prelude Capability.

Module AtomicModel.

Inductive AtomicOrdering : Type := Relaxed | Acquire | Release | AcqRel | SeqCst.
Inductive AtomicWidth : Type := WBool | WU32 | WU64 | WUsize.

#[global] Instance AtomicOrdering_eq_dec : EqDecision AtomicOrdering.
Proof. solve_decision. Defined.

Definition width_bytes (w : AtomicWidth) : Z :=
  match w with WBool => 1 | WU32 => 4 | WU64 | WUsize => 8 end.
Definition width_mask (w : AtomicWidth) : Z :=
  match w with WBool => 1 | WU32 => umax 32 | WU64 | WUsize => umax 64 end.

Inductive AtomicError : Type :=
| WrongCapability | MissingRights | Misaligned | OutOfRange | IllegalLoadOrdering
| IllegalStoreOrdering | IllegalFailureOrdering | FailureStrongerThanSuccess
| UnknownCell | DuplicateCell | IllegalFenceOrdering | EventOverflow.

#[global] Instance AtomicError_eq_dec : EqDecision AtomicError.
Proof. solve_decision. Defined.

Record CompareExchange : Type := MkCas { previous : Z; exchanged : bool }.

(** ** [AtomicCell] *)

Record AtomicCell : Type := MkCell {
  c_width : AtomicWidth;
  c_address : Z;
  c_value : Z;
  c_order : Z;
}.

Definition validate_compare_exchange (success failure : AtomicOrdering) : res AtomicError unit :=
  bail_if (match failure with Release | AcqRel => true | _ => false end) IllegalFailureOrdering;;
  let permitted :=
    match success with
    | Relaxed => match failure with Relaxed => true | _ => false end
    | Acquire => match failure with Relaxed | Acquire => true | _ => false end
    | Release => match failure with Relaxed => true | _ => false end
    | AcqRel => match failure with Relaxed | Acquire => true | _ => false end
    | SeqCst => match failure with Relaxed | Acquire | SeqCst => true | _ => false end
    end in
  if permitted then Ok () else Err FailureStrongerThanSuccess.

Definition cell_create (backing : Capability) (width : AtomicWidth) (address initial : Z)
    : res AtomicError AtomicCell :=
  bail_if (negb (bool_decide (cap_kind backing = PhysRegion)
                 || bool_decide (cap_kind backing = VirtRegion)
                 || bool_decide (cap_kind backing = CpuLocal))) WrongCapability;;
  bail_if (negb (rights_contains (cap_rights backing) (rights_union READ WRITE)))
    MissingRights;;
  bail_if (negb (address mod width_bytes width =? 0)) Misaligned;;
  bail_if (negb (contains_range backing address (width_bytes width))) OutOfRange;;
  Ok (MkCell width address (Z.land initial (width_mask width)) 0).

Definition cell_load (c : AtomicCell) (ordering : AtomicOrdering) : res AtomicError Z :=
  bail_if (match ordering with Release | AcqRel => true | _ => false end) IllegalLoadOrdering;;
  Ok (c_value c).

Definition cell_write (value : Z) : op AtomicCell AtomicError unit :=
  modify (λ c, MkCell (c_width c) (c_address c) (Z.land value (width_mask (c_width c)))
                 (wrap 64 (c_order c + 1))).

Definition cell_store (value : Z) (ordering : AtomicOrdering) : op AtomicCell AtomicError unit :=
  lift (bail_if (match ordering with Acquire | AcqRel => true | _ => false end)
          IllegalStoreOrdering);;
  cell_write value.

(** [swap] and the [fetch_*] family: read, write a function of it, return it. *)
Definition cell_rmw (f : Z → Z) : op AtomicCell AtomicError Z :=
  previous ← reads c_value;
  cell_write (f previous);;
  mret previous.

Definition cell_swap (value : Z) (ordering : AtomicOrdering) : op AtomicCell AtomicError Z :=
  cell_rmw (λ _, value).
Definition cell_fetch_add (value : Z) (ordering : AtomicOrdering) : op AtomicCell AtomicError Z :=
  cell_rmw (λ previous, wrap 64 (previous + value)).
Definition cell_fetch_sub (value : Z) (ordering : AtomicOrdering) : op AtomicCell AtomicError Z :=
  cell_rmw (λ previous, wrap 64 (previous - value)).
Definition cell_fetch_and (value : Z) (ordering : AtomicOrdering) : op AtomicCell AtomicError Z :=
  cell_rmw (λ previous, Z.land previous value).
Definition cell_fetch_or (value : Z) (ordering : AtomicOrdering) : op AtomicCell AtomicError Z :=
  cell_rmw (λ previous, Z.lor previous value).
Definition cell_fetch_xor (value : Z) (ordering : AtomicOrdering) : op AtomicCell AtomicError Z :=
  cell_rmw (λ previous, Z.lxor previous value).

Definition cell_compare_exchange (current new : Z) (success failure : AtomicOrdering)
    : op AtomicCell AtomicError CompareExchange :=
  lift (validate_compare_exchange success failure);;
  previous ← reads c_value;
  exchanged ← reads (λ c, previous =? Z.land current (width_mask (c_width c)));
  (if exchanged then cell_write new else mret ());;
  mret (MkCas previous exchanged).

Definition cell_compare_exchange_weak (current new : Z) (success failure : AtomicOrdering)
    (spurious_failure : bool) : op AtomicCell AtomicError CompareExchange :=
  lift (validate_compare_exchange success failure);;
  previous ← reads c_value;
  spurious ← reads (λ c, spurious_failure
                         && (previous =? Z.land current (width_mask (c_width c))));
  if (spurious : bool) then mret (MkCas previous false)
  else cell_compare_exchange current new success failure.

(** ** [AtomicMemoryModel] *)

Inductive FenceKind : Type := FCompiler | FHardware.
Inductive AtomicEventKind : Type := Load | Store | ReadModifyWrite | Fence (k : FenceKind).

Record AtomicEvent : Type := MkEvent {
  e_id : Z;
  e_cpu : Z;
  e_cell : option Z;
  e_kind : AtomicEventKind;
  e_ordering : AtomicOrdering;
  e_value : Z;
  reads_from : option Z;
  e_modification_order : option Z;
  e_sc : option Z;
  happens_after_release : option Z;
}.

Record MemoryCell : Type := MkMemory {
  m_value : Z;
  m_order : Z;
  last_write : Z;
  last_write_ordering : AtomicOrdering;
}.

Record AtomicMemoryModel : Type := MkModel {
  cells : gmap Z MemoryCell;
  events : list AtomicEvent;
  next_event : Z;
  next_sc : Z;
}.

Definition model_new : AtomicMemoryModel := MkModel ∅ [] 1 1.

Definition set_cells (c : gmap Z MemoryCell) (s : AtomicMemoryModel) : AtomicMemoryModel :=
  MkModel c (events s) (next_event s) (next_sc s).
Definition set_events (l : list AtomicEvent) (s : AtomicMemoryModel) : AtomicMemoryModel :=
  MkModel (cells s) l (next_event s) (next_sc s).
Definition set_next_event (n : Z) (s : AtomicMemoryModel) : AtomicMemoryModel :=
  MkModel (cells s) (events s) n (next_sc s).
Definition set_next_sc (n : Z) (s : AtomicMemoryModel) : AtomicMemoryModel :=
  MkModel (cells s) (events s) (next_event s) n.

Definition push_event (e : AtomicEvent) : op AtomicMemoryModel AtomicError unit :=
  modify (λ s, set_events (events s ++ [e]) s).

Definition is_release (o : AtomicOrdering) : bool :=
  match o with Release | AcqRel | SeqCst => true | _ => false end.

(** [insert] has reset the cell before the duplicate is reported. *)
Definition register (cell initial : Z) : op AtomicMemoryModel AtomicError unit :=
  previous ← reads (λ s, cells s !! cell);
  modify (λ s, set_cells (<[cell := MkMemory initial 0 0 Relaxed]> (cells s)) s);;
  lift (bail_if (bool_decide (is_Some previous)) DuplicateCell).

Definition next_event_id : op AtomicMemoryModel AtomicError Z :=
  event ← reads next_event;
  next ← readr (λ s, ok_or EventOverflow (checked_add 64 (next_event s) 1));
  modify (set_next_event next);;
  mret event.

Definition sc_index (ordering : AtomicOrdering) : op AtomicMemoryModel AtomicError (option Z) :=
  if negb (bool_decide (ordering = SeqCst)) then mret None
  else
    idx ← reads next_sc;
    next ← readr (λ s, ok_or EventOverflow (checked_add 64 (next_sc s) 1));
    modify (set_next_sc next);;
    mret (Some idx).

Definition write_event (cpu cell value : Z) (ordering : AtomicOrdering)
    (kind : AtomicEventKind) (rf : option Z) : op AtomicMemoryModel AtomicError Z :=
  event ← next_event_id;
  sc ← sc_index ordering;
  state ← readr (λ s, ok_or UnknownCell (cells s !! cell));
  order ← lift (ok_or EventOverflow (checked_add 64 (m_order state) 1));
  modify (λ s, set_cells (<[cell := MkMemory value order event ordering]> (cells s)) s);;
  push_event (MkEvent event cpu (Some cell) kind ordering value rf (Some order) sc None);;
  mret event.

Definition model_store (cpu cell value : Z) (ordering : AtomicOrdering)
    : op AtomicMemoryModel AtomicError Z :=
  lift (bail_if (match ordering with Acquire | AcqRel => true | _ => false end)
          IllegalStoreOrdering);;
  write_event cpu cell value ordering Store None.

Definition model_load (cpu cell : Z) (ordering : AtomicOrdering)
    : op AtomicMemoryModel AtomicError (Z * Z) :=
  lift (bail_if (match ordering with Release | AcqRel => true | _ => false end)
          IllegalLoadOrdering);;
  state ← readr (λ s, ok_or UnknownCell (cells s !! cell));
  let after := if match ordering with Acquire | SeqCst => true | _ => false end
                  && is_release (last_write_ordering state)
                  && negb (last_write state =? 0)
               then Some (last_write state) else None in
  event ← next_event_id;
  sc ← sc_index ordering;
  let rf := if negb (last_write state =? 0) then Some (last_write state) else None in
  push_event (MkEvent event cpu (Some cell) Load ordering (m_value state) rf None sc after);;
  mret (m_value state, event).

(** [self.events.iter().rev().nth(1)], kept if it modified this cell. *)
Definition prior_write (cell : Z) (l : list AtomicEvent) : option Z :=
  match rev l !! 1%nat with
  | Some e => if bool_decide (e_cell e = Some cell) && bool_decide (is_Some (e_modification_order e))
              then Some (e_id e) else None
  | None => None
  end.

(** [if let Some(last) = self.events.last_mut()] *)
Definition update_last (f : AtomicEvent → AtomicEvent) (l : list AtomicEvent) : list AtomicEvent :=
  match last l with Some e => removelast l ++ [f e] | None => l end.

Definition set_sources (rf after : option Z) (e : AtomicEvent) : AtomicEvent :=
  MkEvent (e_id e) (e_cpu e) (e_cell e) (e_kind e) (e_ordering e) (e_value e) rf
    (e_modification_order e) (e_sc e) after.

Definition model_fetch_add (cpu cell value : Z) (ordering : AtomicOrdering)
    : op AtomicMemoryModel AtomicError (Z * Z) :=
  state ← readr (λ s, ok_or UnknownCell (cells s !! cell));
  let old := m_value state in
  event ← write_event cpu cell (wrap 64 (old + value)) ordering ReadModifyWrite None;
  prior ← reads (λ s, prior_write cell (events s));
  after ← reads (λ s,
    if match ordering with Acquire | AcqRel | SeqCst => true | _ => false end then
      match prior with
      | Some id => if existsb (λ e, (e_id e =? id) && is_release (e_ordering e)) (events s)
                   then Some id else None
      | None => None
      end
    else None);
  modify (λ s, set_events (update_last (set_sources prior after) (events s)) s);;
  mret (old, event).

Definition fence (cpu : Z) (kind : FenceKind) (ordering : AtomicOrdering)
    : op AtomicMemoryModel AtomicError Z :=
  lift (bail_if (bool_decide (ordering = Relaxed)) IllegalFenceOrdering);;
  event ← next_event_id;
  sc ← sc_index ordering;
  push_event (MkEvent event cpu None (Fence kind) ordering 0 None None sc None);;
  mret event.

(** ** The cell *)

Definition width_bits (w : AtomicWidth) : Z :=
  match w with WBool => 1 | WU32 => 32 | WU64 | WUsize => 64 end.

Lemma land_mask v w : Z.land v (width_mask w) = v mod 2 ^ width_bits w.
Proof.
  assert (width_mask w = Z.ones (width_bits w)) as -> by (by destruct w).
  apply Z.land_ones. by destruct w.
Qed.

(** Reducing modulo [2^64] first does not matter for a narrower cell. *)
Lemma wrap_mod v w : wrap 64 v mod 2 ^ width_bits w = v mod 2 ^ width_bits w.
Proof.
  unfold wrap. assert (2 ^ 64 = 2 ^ width_bits w * 2 ^ (64 - width_bits w)) as ->.
  { rewrite <-Z.pow_add_r by (by destruct w). f_equal. by destruct w. }
  rewrite Z.rem_mul_r by (by destruct w).
  rewrite Z.mul_comm, Z.mod_add by (by destruct w). apply Z.mod_mod. by destruct w.
Qed.

Definition cell_ok (c : AtomicCell) : Prop := 0 ≤ c_value c < 2 ^ width_bits (c_width c).

(** The cell after one modification. *)
Definition written (c : AtomicCell) (v : Z) : AtomicCell :=
  MkCell (c_width c) (c_address c) (v mod 2 ^ width_bits (c_width c)) (wrap 64 (c_order c + 1)).

Lemma cell_write_spec v c : cell_write v c = (Ok (), written c v).
Proof. unfold cell_write. op_unfold. unfold written. by rewrite land_mask. Qed.

Lemma written_ok c v : cell_ok (written c v).
Proof. unfold cell_ok, written. cbn. apply Z.mod_pos_bound. by destruct (c_width c). Qed.

Lemma written_wrap c v : written c (wrap 64 v) = written c v.
Proof. unfold written. by rewrite wrap_mod. Qed.

Lemma cell_rmw_spec f c : cell_rmw f c = (Ok (c_value c), written c (f (c_value c))).
Proof. unfold cell_rmw. op_unfold. by rewrite cell_write_spec. Qed.

(** An atomic cell behaves as an integer of its own width: creation and every
    operation keep the value in range; additions and subtractions wrap at the cell's
    width (not at 64 bits) and return the old value; compare-exchange writes exactly when
    the old value equals the expected one at that width, and the weak form differs only
    by reporting no exchange, never by a wrong one. *)
Theorem atomic_cell_exact c x y ord s f sp :
  cell_ok c → validate_compare_exchange s f = Ok () →
  cell_fetch_add x ord c = (Ok (c_value c), written c (c_value c + x)) ∧
  cell_fetch_sub x ord c = (Ok (c_value c), written c (c_value c - x)) ∧
  cell_swap x ord c = (Ok (c_value c), written c x) ∧
  cell_compare_exchange x y s f c =
    (if c_value c =? x mod 2 ^ width_bits (c_width c)
     then (Ok (MkCas (c_value c) true), written c y) else (Ok (MkCas (c_value c) false), c)) ∧
  (cell_compare_exchange_weak x y s f sp c = (Ok (MkCas (c_value c) false), c) ∨
   cell_compare_exchange_weak x y s f sp c = cell_compare_exchange x y s f c) ∧
  (∀ v, cell_ok (written c v)).
Proof.
  intros Hok Hcx.
  assert (cell_compare_exchange x y s f c =
    (if c_value c =? x mod 2 ^ width_bits (c_width c)
     then (Ok (MkCas (c_value c) true), written c y) else (Ok (MkCas (c_value c) false), c))) as Hcas.
  { unfold cell_compare_exchange. op_unfold. rewrite Hcx, land_mask.
    destruct (c_value c =? _); [by rewrite cell_write_spec|done]. }
  split_and!.
  - unfold cell_fetch_add. by rewrite cell_rmw_spec, written_wrap.
  - unfold cell_fetch_sub. by rewrite cell_rmw_spec, written_wrap.
  - apply cell_rmw_spec.
  - exact Hcas.
  - unfold cell_compare_exchange_weak. op_unfold. rewrite Hcx.
    destruct (sp && _); [by left|by right].
  - apply written_ok.
Qed.

Definition demo_backing : Capability := MkCapability PhysRegion 0 0 ALL 0 4096 4096.
Definition demo_cell : AtomicCell := MkCell WU32 4096 4294967295 0.

Lemma atomic_cell_exact_witness :
  cell_create demo_backing WU32 4096 (umax 64) = Ok demo_cell ∧
  cell_fetch_add 2 Relaxed demo_cell = (Ok 4294967295, MkCell WU32 4096 1 1).
Proof.
  split; [vm_compute; reflexivity|].
  refine (eq_trans (proj1 (atomic_cell_exact demo_cell 2 0 Relaxed SeqCst Acquire false _ _)) _);
    [split; vm_compute; done|reflexivity|vm_compute; reflexivity].
Defined.

(** ** The event log *)

Inductive call : Type :=
| Register (cell initial : Z)
| StoreCall (cpu cell value : Z) (o : AtomicOrdering)
| LoadCall (cpu cell : Z) (o : AtomicOrdering)
| FetchAdd (cpu cell value : Z) (o : AtomicOrdering)
| FenceCall (cpu : Z) (k : FenceKind) (o : AtomicOrdering).

Definition exec (c : call) (s : AtomicMemoryModel) : AtomicMemoryModel :=
  match c with
  | Register cell initial => (register cell initial s).2
  | StoreCall cpu cell value o => (model_store cpu cell value o s).2
  | LoadCall cpu cell o => (model_load cpu cell o s).2
  | FetchAdd cpu cell value o => (model_fetch_add cpu cell value o s).2
  | FenceCall cpu k o => (fence cpu k o s).2
  end.

(** Traces that register each cell at most once. *)
Inductive trace : list call → AtomicMemoryModel → Prop :=
| trace_new : trace [] model_new
| trace_step l c s :
    trace l s → (∀ k v, c = Register k v → cells s !! k = None) → trace (l ++ [c]) (exec c s).

(** [e] modified cell [k]. *)
Definition modifies (k : Z) (e : AtomicEvent) : Prop :=
  e_cell e = Some k ∧ is_Some (e_modification_order e).

(** [e] is the latest modification of [k], and the cell still shows it. *)
Definition latest (l : list AtomicEvent) (k : Z) (m : MemoryCell) (e : AtomicEvent) : Prop :=
  e ∈ l ∧ modifies k e ∧ e_id e = last_write m ∧ e_value e = m_value m ∧
  e_ordering e = last_write_ordering m ∧
  ∀ e', e' ∈ l → modifies k e' → e_id e' ≤ e_id e.

Record inv (s : AtomicMemoryModel) : Prop := {
  inv_next : 1 ≤ next_event s;
  inv_ids : ∀ e, e ∈ events s → 1 ≤ e_id e < next_event s;
  inv_cells : ∀ k m, cells s !! k = Some m →
    (last_write m = 0 ∧ ∀ e, e ∈ events s → ¬ modifies k e) ∨ ∃ e, latest (events s) k m e;
  inv_free : ∀ k e, cells s !! k = None → e ∈ events s → ¬ modifies k e;
}.

(** Growing the id counters alone is harmless. *)
Lemma inv_counters s n sc :
  inv s → next_event s ≤ n → inv (MkModel (cells s) (events s) n sc).
Proof.
  intros [H1 H2 H3 H4] Hn. split; cbn; [lia| |done|done].
  intros e He. specialize (H2 e He). lia.
Qed.

(** A fresh event that modifies nothing. *)
Lemma inv_push s e n sc :
  inv s → e_id e = next_event s → next_event s + 1 ≤ n → (∀ k, ¬ modifies k e) →
  inv (MkModel (cells s) (events s ++ [e]) n sc).
Proof.
  intros [H1 H2 H3 H4] He Hn Hm. split; cbn; [lia|..].
  - intros e' [Hin| ->%list_elem_of_singleton]%elem_of_app; [specialize (H2 e' Hin)|]; lia.
  - intros k m Hk. destruct (H3 k m Hk) as [[? Hno]|(w & Hin & Hw & ? & ? & ? & Hmax)].
    + left. split; [done|]. intros e' [?| ->%list_elem_of_singleton]%elem_of_app; auto.
    + right. exists w. split_and!; try done; [set_solver|].
      intros e' [?| ->%list_elem_of_singleton]%elem_of_app ?; [auto|by destruct (Hm k)].
  - intros k e' Hk [?| ->%list_elem_of_singleton]%elem_of_app; [by eapply H4|apply Hm].
Qed.

(** A fresh write to a registered cell. *)
Lemma inv_write s k m v ord o cpu kind rf after sc sc' n :
  inv s → cells s !! k = Some m → n = next_event s + 1 →
  inv (MkModel (<[k := MkMemory v o (next_event s) ord]> (cells s))
         (events s ++ [MkEvent (next_event s) cpu (Some k) kind ord v rf (Some o) sc after]) n sc').
Proof.
  intros [H1 H2 H3 H4] Hk ->. set (e := MkEvent _ _ _ _ _ _ _ _ _ _).
  assert (∀ k', modifies k' e → k' = k) as Hmod by (by intros k' [ [= ->] _]).
  split; cbn; [lia|..].
  - intros e' [Hin| ->%list_elem_of_singleton]%elem_of_app; [specialize (H2 e' Hin); lia|cbn; lia].
  - intros k' m'. rewrite lookup_insert_Some. intros [[<- <-]|[Hne Hk']].
    + right. exists e. split_and!; [set_solver|by split; [|eexists]|done..|].
      intros e' [Hin| ->%list_elem_of_singleton]%elem_of_app _; [specialize (H2 e' Hin); cbn; lia|done].
    + destruct (H3 k' m' Hk') as [[? Hno]|(w & Hin & Hw & ? & ? & ? & Hmax)].
      * left. split; [done|]. intros e' [?| ->%list_elem_of_singleton]%elem_of_app; [auto|].
        intros ?%Hmod. congruence.
      * right. exists w. split_and!; try done; [set_solver|].
        intros e' [?| ->%list_elem_of_singleton]%elem_of_app Hm'; [auto|].
        apply Hmod in Hm'. congruence.
  - intros k' e'. rewrite lookup_insert_None. intros [Hk' Hne] [?| ->%list_elem_of_singleton]%elem_of_app;
      [by eapply H4|]. intros ?%Hmod. congruence.
Qed.

Lemma next_event_id_cases s :
  next_event_id s = (Err EventOverflow, s) ∨
  next_event_id s = (Ok (next_event s), set_next_event (next_event s + 1) s).
Proof. unfold next_event_id. op_unfold. destruct (_ <? _); auto. Qed.

Lemma sc_index_cases o s :
  sc_index o s = (Err EventOverflow, s) ∨
  ∃ x sc, sc_index o s = (Ok x, MkModel (cells s) (events s) (next_event s) sc).
Proof.
  unfold sc_index. case_bool_decide; cbn.
  - op_unfold. destruct (_ <? _); [right|by left]. by do 2 eexists.
  - right. exists None, (next_sc s). by destruct s.
Qed.

Lemma write_event_cases cpu k v o kind rf s :
  (∃ e n sc, write_event cpu k v o kind rf s = (Err e, MkModel (cells s) (events s) n sc) ∧
     next_event s ≤ n) ∨
  ∃ m ord x sc, cells s !! k = Some m ∧
    write_event cpu k v o kind rf s =
      (Ok (next_event s),
       MkModel (<[k := MkMemory v ord (next_event s) o]> (cells s))
         (events s ++ [MkEvent (next_event s) cpu (Some k) kind o v rf (Some ord) x None])
         (next_event s + 1) sc).
Proof.
  unfold write_event. op_unfold. destruct (next_event_id_cases s) as [->| ->].
  { left. exists EventOverflow, (next_event s), (next_sc s). destruct s. split; [done|cbn; lia]. }
  destruct (sc_index_cases o (set_next_event (next_event s + 1) s)) as [->|(x & sc & ->)].
  { left. do 3 eexists. split; [reflexivity|]. lia. }
  cbn. destruct (cells s !! k) as [m|] eqn:Hk; cbn; [|left; do 3 eexists; split; [reflexivity|lia]].
  destruct (_ <? _); cbn; [right; by repeat eexists|left; do 3 eexists; split; [reflexivity|lia]].
Qed.

Lemma update_last_snoc f l e : update_last f (l ++ [e]) = l ++ [f e].
Proof. unfold update_last. by rewrite last_snoc, removelast_last. Qed.

(** A successful load logs what the cell shows; a failing one logs nothing. *)
Lemma model_load_cases cpu k o s :
  (∃ e n sc, model_load cpu k o s = (Err e, MkModel (cells s) (events s) n sc) ∧
     next_event s ≤ n) ∨
  ∃ m sc x, cells s !! k = Some m ∧
    let rf := if negb (last_write m =? 0) then Some (last_write m) else None in
    let after := if match o with Acquire | SeqCst => true | _ => false end
                    && is_release (last_write_ordering m) then rf else None in
    model_load cpu k o s =
      (Ok (m_value m, next_event s),
       MkModel (cells s)
         (events s ++ [MkEvent (next_event s) cpu (Some k) Load o (m_value m) rf None x after])
         (next_event s + 1) sc).
Proof.
  assert (∀ e : AtomicError, ∃ e' n sc,
    (Err e : res AtomicError (Z * Z), s) = (Err e', MkModel (cells s) (events s) n sc) ∧
    next_event s ≤ n) as Hs.
  { intros e. exists e, (next_event s), (next_sc s). destruct s. split; [done|cbn; lia]. }
  unfold model_load. op_unfold. destruct (match o with Release | AcqRel => true | _ => false end);
    cbn; [left; apply Hs|].
  destruct (cells s !! k) as [m|] eqn:Hk; cbn; [|left; apply Hs].
  destruct (next_event_id_cases s) as [->| ->]; [left; apply Hs|].
  destruct (sc_index_cases o (set_next_event (next_event s + 1) s)) as [->|(x & sc & ->)].
  { left. do 3 eexists. split; [reflexivity|]. lia. }
  right. exists m, sc, x. split; [done|]. cbn. do 5 f_equal.
  by destruct (match o with Acquire | SeqCst => true | _ => false end), (is_release _), (_ =? _).
Qed.

Lemma fetch_add_inv cpu k v o s : inv s → inv (model_fetch_add cpu k v o s).2.
Proof.
  intros Hs. unfold model_fetch_add. op_unfold. destruct (cells s !! k) as [m|] eqn:Hk; cbn; [|done].
  destruct (write_event_cases cpu k (wrap 64 (m_value m + v)) o ReadModifyWrite None s)
    as [(e & n & sc & -> & Hn)|(m' & ord & x & sc & Hk' & ->)]; [by apply inv_counters|].
  cbn. unfold set_events. cbn. rewrite update_last_snoc. by eapply inv_write.
Qed.

Lemma atomic_exec_inv c s :
  inv s → (∀ k v, c = Register k v → cells s !! k = None) → inv (exec c s).
Proof.
  intros Hs Hreg. destruct c as [k v|cpu k v o|cpu k o|cpu k v o|cpu kd o]; cbn [exec].
  - specialize (Hreg k v eq_refl). destruct Hs as [H1 H2 H3 H4].
    unfold register. op_unfold. split; cbn; [done|done|..].
    + intros k' m'. rewrite lookup_insert_Some. intros [[<- <-]|[_ ?]]; [|by apply H3].
      left. split; [done|]. intros e He. by eapply H4.
    + intros k' e. rewrite lookup_insert_None. intros [? _]. by apply H4.
  - unfold model_store. op_unfold.
    destruct (match o with Acquire | AcqRel => true | _ => false end); cbn; [done|].
    destruct (write_event_cases cpu k v o Store None s)
      as [(e & n & sc & -> & Hn)|(m' & ord & x & sc & Hk' & ->)]; [by apply inv_counters|].
    by eapply inv_write.
  - destruct (model_load_cases cpu k o s) as [(e & n & sc & -> & Hn)|(m & sc & x & Hk & ->)];
      [by apply inv_counters|].
    apply inv_push; [done|done|lia|]. by intros k' [_ [? ?]].
  - by apply fetch_add_inv.
  - unfold fence. op_unfold. case_bool_decide; cbn; [done|].
    destruct (next_event_id_cases s) as [->| ->]; [done|].
    destruct (sc_index_cases o (set_next_event (next_event s + 1) s)) as [->|(x & sc & ->)].
    + apply (inv_counters s); [done|cbn; lia].
    + apply (inv_push s); [done|done|cbn; lia|]. by intros k' [? _].
Qed.

Lemma atomic_trace_inv l s : trace l s → inv s.
Proof.
  induction 1; [|by apply atomic_exec_inv]. split; cbn; try done; set_solver.
Qed.

(** A cell without a write is as it was, or is the one just registered. *)
Lemma exec_unwritten c s k m :
  inv s → cells (exec c s) !! k = Some m → last_write m = 0 →
  cells s !! k = Some m ∨ c = Register k (m_value m).
Proof.
  intros [H1 _ _ _] Hk Hw. assert (∀ k' v ord o, <[k' := MkMemory v ord (next_event s) o]> (cells s) !! k = Some m →
    cells s !! k = Some m) as Hwr.
  { intros k' v ord o. rewrite lookup_insert_Some. intros [[_ <-]|[_ ?]]; [cbn in Hw; lia|done]. }
  destruct c as [k' v|cpu k' v o|cpu k' o|cpu k' v o|cpu kd o]; cbn [exec] in Hk.
  - unfold register in Hk. op_unfold. cbn in Hk.
    apply lookup_insert_Some in Hk as [[<- <-]|[_ ?]]; [by right|by left].
  - left. unfold model_store in Hk. op_unfold.
    destruct (match o with Acquire | AcqRel => true | _ => false end); cbn in Hk; [exact Hk|].
    destruct (write_event_cases cpu k' v o Store None s)
      as [(e & n & sc & E & Hn)|(m' & ord & x & sc & Hk' & E)]; rewrite E in Hk; [exact Hk|exact (Hwr _ _ _ _ Hk)].
  - left. destruct (model_load_cases cpu k' o s) as [(e & n & sc & E & Hn)|(m' & sc & x & Hk' & E)]; rewrite E in Hk; exact Hk.
  - left. unfold model_fetch_add in Hk. op_unfold. destruct (cells s !! k') as [m0|] eqn:Hk0; cbn in Hk; [|exact Hk].
    destruct (write_event_cases cpu k' (wrap 64 (m_value m0 + v)) o ReadModifyWrite None s)
      as [(e & n & sc & E & Hn)|(m' & ord & x & sc & Hk' & E)]; rewrite E in Hk; [exact Hk|].
    cbn in Hk. unfold set_events in Hk. cbn in Hk. exact (Hwr _ _ _ _ Hk).
  - left. unfold fence in Hk. op_unfold. case_bool_decide; cbn in Hk; [exact Hk|].
    destruct (next_event_id_cases s) as [E|E]; rewrite E in Hk; [exact Hk|].
    destruct (sc_index_cases o (set_next_event (next_event s + 1) s)) as [E2|(x & sc & E2)]; rewrite E2 in Hk; exact Hk.
Qed.

Lemma trace_registered l s k m :
  trace l s → cells s !! k = Some m → last_write m = 0 → Register k (m_value m) ∈ l.
Proof.
  intros Ht. revert k m. induction Ht as [|l c s Ht IH Hr]; intros k m Hk Hw; [done|].
  apply elem_of_app. destruct (exec_unwritten c s k m (atomic_trace_inv _ _ Ht) Hk Hw) as [Hk'| ->]; [left; by apply IH|].
  right. apply list_elem_of_here.
Qed.

(** C37. Loads are coherent: in every state reached by any interleaving of registrations of
    cells that are not there yet, stores, loads, fetch-adds and fences, a load of a cell
    returns the value of its latest logged modification and records that write as its
    reads-from edge; when the cell has never been modified it returns the value the cell was
    registered with and records no edge.  An acquire or sequentially consistent load records
    the synchronisation edge exactly when that write releases. *)
Theorem loads_read_latest_write l s cpu k o v id s' :
  trace l s → model_load cpu k o s = (Ok (v, id), s') →
  ∃ ev, events s' = events s ++ [ev] ∧ e_id ev = id ∧ e_value ev = v ∧ e_kind ev = Load ∧
  (∀ e, e ∈ events s → e_id e < id) ∧
  ((Register k v ∈ l ∧ reads_from ev = None ∧ happens_after_release ev = None ∧
    ∀ e, e ∈ events s → ¬ modifies k e) ∨
   ∃ w, w ∈ events s ∧ modifies k w ∧ e_value w = v ∧ reads_from ev = Some (e_id w) ∧
     (∀ e, e ∈ events s → modifies k e → e_id e ≤ e_id w) ∧
     (happens_after_release ev = Some (e_id w) ↔
        (o = Acquire ∨ o = SeqCst) ∧ is_release (e_ordering w) = true)).
Proof.
  intros Ht H. pose proof (atomic_trace_inv _ _ Ht) as Hinv.
  destruct (model_load_cases cpu k o s) as [(e & n & sc & He & _)|(m & sc & x & Hk & He)];
    rewrite He in H; [done|]. injection H as <- <- <-. cbn. eexists. split; [done|]. cbn.
  split_and!; try done. { intros e Hin. by apply (inv_ids s Hinv). }
  destruct (inv_cells s Hinv k m Hk) as [[Hlw Hno]|(w & Hin & Hw & Hid & Hval & Hord & Hmax)].
  - left. pose proof (trace_registered _ _ _ _ Ht Hk Hlw). rewrite Hlw. cbn. split_and!; [done|done| |done]. by destruct (_ && _).
  - right. exists w. pose proof (inv_ids s Hinv w Hin) as Hge.
    rewrite <-Hid. destruct (Z.eqb_spec (e_id w) 0); [lia|]. cbn. rewrite <-Hord.
    split_and!; try done.
    destruct (is_release (e_ordering w)), o; cbn; naive_solver.
Qed.

Definition demo_calls : list call :=
  [Register 0 5; StoreCall 0 0 9 Release; FenceCall 1 FHardware SeqCst].
Definition demo_model : AtomicMemoryModel := foldl (λ s c, exec c s) model_new demo_calls.

Lemma demo_model_trace : trace demo_calls demo_model.
Proof.
  unfold demo_model, demo_calls. cbn [foldl].
  apply (trace_step [Register 0 5; StoreCall 0 0 9 Release]); [|by intros ? ? [=]].
  apply (trace_step [Register 0 5]); [|by intros ? ? [=]].
  apply (trace_step []); [apply trace_new|by intros ? ? [= <- <-]].
Qed.

Lemma loads_read_latest_write_witness :
  let r := model_load 1 0 Acquire demo_model in
  r.1 = Ok (9, 3) ∧
  ∃ ev, events r.2 = events demo_model ++ [ev] ∧ e_value ev = 9 ∧
    (reads_from ev = None ∨ ∃ w, w ∈ events demo_model ∧ reads_from ev = Some (e_id w)).
Proof.
  intros r. assert (r.1 = Ok (9, 3)) as Hr by (vm_compute; reflexivity). split; [exact Hr|].
  destruct (loads_read_latest_write demo_calls demo_model 1 0 Acquire 9 3 r.2 demo_model_trace) as (ev & H1 & _ & H2 & _ & _ & H3).
  - rewrite <-Hr. apply surjective_pairing.
  - exists ev. split_and!; [exact H1|exact H2|].
    destruct H3 as [(_ & H & _)|(w & Hw & _ & _ & H & _)]; [by left|right; by exists w].
Defined.

(** A fetch-add can lose its reads-from edge: the source looks only at the event logged
    just before, so after any unrelated event (here a fence) an acquire-release fetch-add
    that reads a release store records neither the reads-from nor the synchronisation
    edge, although it returns the stored value. *)
Theorem fetch_add_loses_reads_from :
  ∃ l s w s' id ev, trace l s ∧ w ∈ events s ∧ modifies 0 w ∧ e_ordering w = Release ∧
    e_value w = 9 ∧ model_fetch_add 1 0 1 AcqRel s = (Ok (9, id), s') ∧
    last (events s') = Some ev ∧ e_id ev = id ∧
    reads_from ev = None ∧ happens_after_release ev = None.
Proof.
  exists demo_calls, demo_model, (MkEvent 1 0 (Some 0) Store Release 9 None (Some 1) None None).
  do 3 eexists. split_and!; [apply demo_model_trace| |by split; [|eexists]|done|done|..].
  - vm_compute. left.
  - vm_compute. reflexivity.
  - reflexivity.
  - reflexivity.
  - reflexivity.
  - reflexivity.
Qed.

End AtomicModel.
