(* ===== verification/Registry.v ===== *)
(** * The frozen platform registry: [kernel/src/registry.rs]

    The 104 operations of the [x86_64-pc-uefi-smp-v1] profile, entry by entry,
    the table of canonical names, the field-by-field drift check
    [exact_match] and the by-name [lookup].  The table is cut at the changes
    of key prefix (and once inside the two long ones), in the order of the
    source; the constants [BOOT], [CPU], ... carry the prefix [C_] and the
    constructors of [PlatformDomain] the prefix [D]. *)
From stdpp Require Import strings.
From S2P Require Import Prelude Capability.

Module Registry.
#[local] Open Scope string_scope.
#[local] Open Scope list_scope.

Definition X86_64_PC_UEFI_SMP_V1_OPERATION_COUNT : nat := 104.

Inductive PlatformDomain : Type :=
| DBoot | DMemory | DMmio | DPio | DIrq | DCpu | DAtomic | DSmp | DDma | DClock
| DEntropy | DPower.

#[global] Instance PlatformDomain_eq_dec : EqDecision PlatformDomain.
Proof. solve_decision. Defined.

Record PlatformOperation : Type := MkOperation {
  key : string;
  signature : string;
  contract : string;
  domain : PlatformDomain;
  capability : option CapabilityKind;
  rights : Rights;
  symbol : string;
  source_contract_sha256 : option string;
  source_reachable : bool;
  secondary_domains : list PlatformDomain;
  abi : string;
  alignment : Z;
  ownership : string;
  model : string;
  concurrency : string;
  failure : string;
  evidence : string;
}.

Inductive RegistryError : Type :=
| UnknownName | DuplicateName | SignatureDrift | ContractDrift | DomainDrift
| CapabilityDrift | RightsDrift | SymbolDrift | SourceContractDrift
| ReachabilityDrift | MetadataDrift.

#[global] Instance RegistryError_eq_dec : EqDecision RegistryError.
Proof. solve_decision. Defined.

(** The arms of the [match] in [canonical_name], in order. *)
Definition canonical_arms : list (string * string) := [
  ("boot.handoff", "kernel::boot::handoff@v1");
  ("memory.frame_split", "kernel::memory::frame_split@v1");
  ("memory.frame_join", "kernel::memory::frame_join@v1");
  ("memory.frame_zero", "kernel::memory::frame_zero@v1");
  ("memory.frame_query", "kernel::memory::frame_query@v1");
  ("memory.frame_lend", "kernel::memory::frame_lend@v1");
  ("memory.frame_reclaim", "kernel::memory::frame_reclaim@v1");
  ("memory.temporary_map", "kernel::memory::temporary_map@v1");
  ("memory.temporary_revoke", "kernel::memory::temporary_revoke@v1");
  ("memory.space_create", "kernel::memory::space_create@v1");
  ("memory.map", "kernel::memory::map@v1");
  ("memory.unmap", "kernel::memory::unmap@v1");
  ("memory.protect", "kernel::memory::protect@v1");
  ("memory.activate", "kernel::memory::activate@v1");
  ("memory.inspect", "kernel::memory::inspect@v1");
  ("memory.destroy", "kernel::memory::destroy@v1");
  ("memory.translation_validate", "kernel::memory::translation_validate@v1");
  ("memory.tlb_local", "kernel::memory::tlb_local@v1");
  ("memory.tlb_space", "kernel::memory::tlb_space@v1");
  ("memory.user_copy_in", "kernel::memory::user_copy_in@v1");
  ("memory.user_copy_out", "kernel::memory::user_copy_out@v1");
  ("mmio.read8", "kernel::mmio::read8@v1");
  ("mmio.read16", "kernel::mmio::read16@v1");
  ("mmio.read32", "kernel::mmio::read32@v1");
  ("mmio.read64", "kernel::mmio::read64@v1");
  ("mmio.write8", "kernel::mmio::write8@v1");
  ("mmio.write16", "kernel::mmio::write16@v1");
  ("mmio.write32", "kernel::mmio::write32@v1");
  ("mmio.write64", "kernel::mmio::write64@v1");
  ("mmio.compiler_fence", "kernel::mmio::compiler_fence@v1");
  ("mmio.read_barrier", "kernel::mmio::read_barrier@v1");
  ("mmio.write_barrier", "kernel::mmio::write_barrier@v1");
  ("mmio.full_barrier", "kernel::mmio::full_barrier@v1");
  ("mmio.feature_query", "kernel::mmio::feature_query@v1");
  ("pio.read8", "kernel::pio::read8@v1");
  ("pio.read16", "kernel::pio::read16@v1");
  ("pio.read32", "kernel::pio::read32@v1");
  ("pio.write8", "kernel::pio::write8@v1");
  ("pio.write16", "kernel::pio::write16@v1");
  ("pio.write32", "kernel::pio::write32@v1");
  ("pio.pci_config", "kernel::pio::pci_config@v1");
  ("irq.save_disable", "kernel::irq::save_disable@v1");
  ("irq.restore", "kernel::irq::restore@v1");
  ("irq.mask", "kernel::irq::mask@v1");
  ("irq.unmask", "kernel::irq::unmask@v1");
  ("irq.route", "kernel::irq::route@v1");
  ("irq.eoi", "kernel::irq::eoi@v1");
  ("irq.state_validate", "kernel::irq::state_validate@v1");
  ("cpu.logical_id", "kernel::cpu::logical_id@v1");
  ("cpu.features", "kernel::cpu::features@v1");
  ("cpu.control_state", "kernel::cpu::control_state@v1");
  ("cpu.msr_read", "kernel::cpu::msr_read@v1");
  ("cpu.msr_write", "kernel::cpu::msr_write@v1");
  ("cpu.supported_widths", "kernel::cpu::supported_widths@v1");
  ("cpu.install_gdt", "kernel::cpu::install_gdt@v1");
  ("cpu.install_idt", "kernel::cpu::install_idt@v1");
  ("cpu.install_tss", "kernel::cpu::install_tss@v1");
  ("cpu.install_syscall", "kernel::cpu::install_syscall@v1");
  ("cpu.install_local", "kernel::cpu::install_local@v1");
  ("cpu.enter_context", "kernel::cpu::enter_context@v1");
  ("cpu.trap_construct", "kernel::cpu::trap_construct@v1");
  ("cpu.context_switch", "kernel::cpu::context_switch@v1");
  ("cpu.return_kernel", "kernel::cpu::return_kernel@v1");
  ("cpu.return_user", "kernel::cpu::return_user@v1");
  ("cpu.pause", "kernel::cpu::pause@v1");
  ("cpu.halt_interruptible", "kernel::cpu::halt_interruptible@v1");
  ("cpu.rendezvous", "kernel::cpu::rendezvous@v1");
  ("atomic.load", "kernel::atomic::load@v1");
  ("atomic.store", "kernel::atomic::store@v1");
  ("atomic.swap", "kernel::atomic::swap@v1");
  ("atomic.compare_exchange", "kernel::atomic::compare_exchange@v1");
  ("atomic.compare_exchange_weak", "kernel::atomic::compare_exchange_weak@v1");
  ("atomic.fetch", "kernel::atomic::fetch@v1");
  ("atomic.compiler_fence", "kernel::atomic::compiler_fence@v1");
  ("atomic.hardware_fence", "kernel::atomic::hardware_fence@v1");
  ("smp.discover", "kernel::smp::discover@v1");
  ("smp.start", "kernel::smp::start@v1");
  ("smp.ipi", "kernel::smp::ipi@v1");
  ("smp.rendezvous", "kernel::smp::rendezvous@v1");
  ("smp.online_snapshot", "kernel::smp::online_snapshot@v1");
  ("smp.stop_request", "kernel::smp::stop_request@v1");
  ("smp.shootdown", "kernel::smp::shootdown@v1");
  ("dma.pin", "kernel::dma::pin@v1");
  ("dma.domain_create", "kernel::dma::domain_create@v1");
  ("dma.map", "kernel::dma::map@v1");
  ("dma.segments", "kernel::dma::segments@v1");
  ("dma.sync", "kernel::dma::sync@v1");
  ("dma.unmap", "kernel::dma::unmap@v1");
  ("dma.unpin", "kernel::dma::unpin@v1");
  ("clock.read", "kernel::clock::read@v1");
  ("clock.arm", "kernel::clock::arm@v1");
  ("clock.cancel", "kernel::clock::cancel@v1");
  ("entropy.fill", "kernel::entropy::fill@v1");
  ("power.reboot", "kernel::power::reboot@v1");
  ("power.off", "kernel::power::off@v1");
  ("power.halt", "kernel::power::halt@v1");
  ("runtime.memcpy", "kernel::boot::memcpy@v1");
  ("runtime.memmove", "kernel::boot::memmove@v1");
  ("runtime.memset", "kernel::boot::memset@v1");
  ("runtime.panic", "kernel::boot::panic@v1");
  ("runtime.contract_violation", "kernel::boot::contract_violation@v1");
  ("runtime.allocation_failure", "kernel::boot::allocation_failure@v1");
  ("runtime.stack_probe", "kernel::boot::stack_probe@v1");
  ("runtime.terminal_fault", "kernel::boot::terminal_fault@v1")
].

Fixpoint first_arm (arms : list (string * string)) (k : string) : string :=
  match arms with
  | [] => "kernel::invalid@v1"
  | (pattern, value) :: arms' => if String.eqb k pattern then value else first_arm arms' k
  end.

Definition canonical_name (k : string) : string := first_arm canonical_arms k.

Definition name (self : PlatformOperation) : string := canonical_name (key self).
Arguments name : simpl never.
Arguments canonical_name : simpl never.

(** [a != b] on any type with a decidable equality. *)
Definition differs {A} `{EqDecision A} (a b : A) : bool := negb (bool_decide (a = b)).

Definition exact_match (self candidate : PlatformOperation) : res RegistryError unit :=
  bail_if (differs (key self) (key candidate)) UnknownName;;
  bail_if (differs (signature self) (signature candidate)) SignatureDrift;;
  bail_if (differs (contract self) (contract candidate)) ContractDrift;;
  bail_if (differs (domain self) (domain candidate)) DomainDrift;;
  bail_if (differs (capability self) (capability candidate)) CapabilityDrift;;
  bail_if (differs (rights self) (rights candidate)) RightsDrift;;
  bail_if (differs (symbol self) (symbol candidate)) SymbolDrift;;
  bail_if (differs (source_contract_sha256 self) (source_contract_sha256 candidate))
    SourceContractDrift;;
  bail_if (differs (source_reachable self) (source_reachable candidate)) ReachabilityDrift;;
  bail_if (differs (secondary_domains self) (secondary_domains candidate)
           || differs (abi self) (abi candidate)
           || differs (alignment self) (alignment candidate)
           || differs (ownership self) (ownership candidate)
           || differs (model self) (model candidate)
           || differs (concurrency self) (concurrency candidate)
           || differs (failure self) (failure candidate)
           || differs (evidence self) (evidence candidate)) MetadataDrift;;
  Ok ().

(** ** The table *)

Definition C_NONE : option CapabilityKind := None.
Definition C_BOOT : option CapabilityKind := Some BootInfo.
Definition C_CPU : option CapabilityKind := Some Cpu.
Definition C_CPU_SET : option CapabilityKind := Some CpuSetKind.
Definition C_CPU_LOCAL : option CapabilityKind := Some CpuLocal.
Definition C_PHYS : option CapabilityKind := Some PhysRegion.
Definition C_FRAME : option CapabilityKind := Some Frame.
Definition C_SPACE : option CapabilityKind := Some AddressSpaceKind.
Definition C_VIRT : option CapabilityKind := Some VirtRegion.
Definition C_MMIO : option CapabilityKind := Some Mmio.
Definition C_PIO : option CapabilityKind := Some IoPort.
Definition C_IRQ : option CapabilityKind := Some Irq.
Definition C_IRQ_STATE : option CapabilityKind := Some IrqState.
Definition C_TRAP : option CapabilityKind := Some TrapFrameKind.
Definition C_USER : option CapabilityKind := Some UserContextKind.
Definition C_DMA : option CapabilityKind := Some Dma.
Definition C_IOMMU : option CapabilityKind := Some IommuDomainKind.
Definition C_CLOCK : option CapabilityKind := Some Clock.
Definition C_ENTROPY : option CapabilityKind := Some Entropy.
Definition C_POWER : option CapabilityKind := Some Power.

Definition op (k sig con : string) (dom : PlatformDomain) (cap : option CapabilityKind)
    (rts : Rights) (sym : string) : PlatformOperation := {|
  key := k;
  signature := sig;
  contract := con;
  domain := dom;
  capability := cap;
  rights := rts;
  symbol := sym;
  source_contract_sha256 := None;
  source_reachable := false;
  secondary_domains := [];
  abi := "C";
  alignment := 1;
  ownership := "capability-generation-preserved-unless-contract-consumes";
  model := con;
  concurrency := "registry-model-defined";
  failure := "typed-platform-error-or-declared-terminal";
  evidence := "model-tests+symbol-inventory+qemu-transcript";
|}.

Definition source_op (o : PlatformOperation) (sha : string) : PlatformOperation := {|
  key := key o;
  signature := signature o;
  contract := contract o;
  domain := domain o;
  capability := capability o;
  rights := rights o;
  symbol := symbol o;
  source_contract_sha256 := Some sha;
  source_reachable := true;
  secondary_domains := secondary_domains o;
  abi := abi o;
  alignment := alignment o;
  ownership := ownership o;
  model := model o;
  concurrency := concurrency o;
  failure := failure o;
  evidence := evidence o;
|}.

Definition boot_ops : list PlatformOperation := [
  op "boot.handoff" "fn(BootInfo)->BootBytes" "bounded_handoff"
    DBoot C_BOOT READ "tpl_boot_handoff"
].

Definition memory_ops : list PlatformOperation := [
  op "memory.frame_split" "fn(Frame,u64)->(Frame,Frame)" "partition_exact"
    DMemory C_FRAME TRANSFER "tpl_frame_split";
  op "memory.frame_join" "fn(Frame,Frame)->Frame" "adjacent_join"
    DMemory C_FRAME TRANSFER "tpl_frame_join";
  op "memory.frame_zero" "fn(Frame)->Frame" "zero_exact"
    DMemory C_FRAME WRITE "tpl_frame_zero";
  op "memory.frame_query" "fn(Frame)->FrameInfo" "query_exact_generation"
    DMemory C_FRAME READ "tpl_frame_query";
  op "memory.frame_lend" "fn(Frame,u32)->Frame" "consume_generation_to_borrower"
    DMemory C_FRAME TRANSFER "tpl_frame_lend";
  op "memory.frame_reclaim" "fn(Frame,u32)->Frame" "matching_borrower_next_generation"
    DMemory C_FRAME TRANSFER "tpl_frame_reclaim";
  op "memory.temporary_map" "fn(VirtRegion,Frame)->TemporaryMapping" "bounded_window_generation"
    DMemory C_VIRT MAP "tpl_temporary_map";
  op "memory.temporary_revoke" "fn(VirtRegion,TemporaryMapping)->()" "revoke_exact_generation"
    DMemory C_VIRT MAP "tpl_temporary_revoke";
  op "memory.space_create" "fn(AddressSpace)->AddressSpace" "fresh_inactive_root"
    DMemory C_SPACE CONTROL "tpl_space_create";
  op "memory.map" "fn(AddressSpace,Frame,MapRequest)->Mapping" "map_cap_bounded"
    DMemory C_SPACE MAP "tpl_map";
  op "memory.unmap" "fn(AddressSpace,u64)->Mapping" "unmap_exact"
    DMemory C_SPACE MAP "tpl_unmap";
  op "memory.protect" "fn(AddressSpace,u64,Perm)->()" "protect_exact"
    DMemory C_SPACE MAP "tpl_protect";
  op "memory.activate" "fn(AddressSpace)->()" "activate_root"
    DMemory C_SPACE CONTROL "tpl_activate";
  op "memory.inspect" "fn(AddressSpace,u64)->Result<Mapping>" "inspect_exact_mapping"
    DMemory C_SPACE READ "tpl_space_inspect";
  op "memory.destroy" "fn(AddressSpace)->()" "inactive_empty_consume_root"
    DMemory C_SPACE CONTROL "tpl_space_destroy";
  op "memory.translation_validate" "fn(u64,PageSize,Perm,CachePolicy)->Result" "canonical_aligned_profile_translation"
    DMemory C_NONE rights_empty "tpl_translation_validate"
].

Definition memory_ops2 : list PlatformOperation := [
  op "memory.tlb_local" "fn(AddressSpace,u64)->()" "invalidate_local"
    DMemory C_SPACE MAP "tpl_tlb_local";
  op "memory.tlb_space" "fn(AddressSpace)->()" "invalidate_active_space"
    DMemory C_SPACE MAP "tpl_tlb_space";
  op "memory.user_copy_in" "fn(AddressSpace,u64,&mut[u8])->Result" "copy_all_or_fault"
    DMemory C_SPACE READ "tpl_user_copy_in";
  op "memory.user_copy_out" "fn(AddressSpace,u64,&[u8])->Result" "copy_all_or_fault"
    DMemory C_SPACE WRITE "tpl_user_copy_out"
].

Definition mmio_ops : list PlatformOperation := [
  op "mmio.read8" "fn(Mmio,u64)->u8" "aligned_in_range"
    DMmio C_MMIO READ "tpl_mmio_read8";
  op "mmio.read16" "fn(Mmio,u64)->u16" "aligned_in_range"
    DMmio C_MMIO READ "tpl_mmio_read16";
  op "mmio.read32" "fn(Mmio,u64)->u32" "aligned_in_range"
    DMmio C_MMIO READ "tpl_mmio_read32";
  op "mmio.read64" "fn(Mmio,u64)->u64" "aligned_in_range"
    DMmio C_MMIO READ "tpl_mmio_read64";
  op "mmio.write8" "fn(Mmio,u64,u8)->()" "aligned_in_range"
    DMmio C_MMIO WRITE "tpl_mmio_write8";
  op "mmio.write16" "fn(Mmio,u64,u16)->()" "aligned_in_range"
    DMmio C_MMIO WRITE "tpl_mmio_write16";
  op "mmio.write32" "fn(Mmio,u64,u32)->()" "aligned_in_range"
    DMmio C_MMIO WRITE "tpl_mmio_write32";
  op "mmio.write64" "fn(Mmio,u64,u64)->()" "aligned_in_range"
    DMmio C_MMIO WRITE "tpl_mmio_write64"
].

Definition pio_ops : list PlatformOperation := [
  op "pio.read8" "fn(IoPort,u16)->u8" "port_in_range"
    DPio C_PIO READ "tpl_pio_read8";
  op "pio.read16" "fn(IoPort,u16)->u16" "port_in_range"
    DPio C_PIO READ "tpl_pio_read16";
  op "pio.read32" "fn(IoPort,u16)->u32" "port_in_range"
    DPio C_PIO READ "tpl_pio_read32";
  op "pio.write8" "fn(IoPort,u16,u8)->()" "port_in_range"
    DPio C_PIO WRITE "tpl_pio_write8";
  op "pio.write16" "fn(IoPort,u16,u16)->()" "port_in_range"
    DPio C_PIO WRITE "tpl_pio_write16";
  op "pio.write32" "fn(IoPort,u16,u32)->()" "port_in_range"
    DPio C_PIO WRITE "tpl_pio_write32"
].

Definition mmio_ops2 : list PlatformOperation := [
  op "mmio.compiler_fence" "fn()->()" "compiler_ordering_barrier"
    DMmio C_NONE rights_empty "tpl_mmio_compiler_fence";
  op "mmio.read_barrier" "fn()->()" "device_reads_before_after"
    DMmio C_NONE rights_empty "tpl_mmio_read_barrier";
  op "mmio.write_barrier" "fn()->()" "device_writes_before_after"
    DMmio C_NONE rights_empty "tpl_mmio_write_barrier";
  op "mmio.full_barrier" "fn()->()" "device_full_ordering_barrier"
    DMmio C_NONE rights_empty "tpl_mmio_full_barrier"
].

Definition pio_ops2 : list PlatformOperation := [
  op "pio.pci_config" "fn(IoPort,PciAddress,u32,Option<u32>)->u32" "bounded_pci_configuration"
    DPio C_PIO (rights_union READ WRITE) "tpl_pci_config"
].

Definition mmio_ops3 : list PlatformOperation := [
  op "mmio.feature_query" "fn(Mmio,u32)->FeatureRecord" "bounded_device_feature_record"
    DMmio C_MMIO READ "tpl_device_feature_query"
].

Definition irq_ops : list PlatformOperation := [
  op "irq.save_disable" "fn(CpuLocal)->IrqState" "cpu_local_generation"
    DIrq C_CPU_LOCAL CONTROL "tpl_irq_save_disable";
  op "irq.restore" "fn(CpuLocal,IrqState)->()" "matching_cpu_generation"
    DIrq C_CPU_LOCAL CONTROL "tpl_irq_restore";
  op "irq.mask" "fn(Irq)->()" "mask_owned_route"
    DIrq C_IRQ CONTROL "tpl_irq_mask";
  op "irq.unmask" "fn(Irq)->()" "unmask_owned_route"
    DIrq C_IRQ CONTROL "tpl_irq_unmask";
  op "irq.route" "fn(Irq,Cpu,u8)->()" "route_owned_vector"
    DIrq C_IRQ ROUTE "tpl_irq_route";
  op "irq.eoi" "fn(Irq,u8)->()" "ack_owned_vector"
    DIrq C_IRQ CONTROL "tpl_irq_eoi";
  op "irq.state_validate" "fn(IrqState,CpuLocal)->Result" "matching_cpu_single_use_generation"
    DIrq C_IRQ_STATE CONTROL "tpl_irq_state_validate"
].

Definition cpu_ops : list PlatformOperation := [
  op "cpu.logical_id" "fn(Cpu)->u16" "stable_logical_id"
    DCpu C_CPU READ "tpl_cpu_logical_id";
  op "cpu.features" "fn(Cpu)->FeatureBits" "profile_subset"
    DCpu C_CPU READ "tpl_cpu_features";
  op "cpu.control_state" "fn(Cpu)->ControlState" "profile_masked_control_registers"
    DCpu C_CPU READ "tpl_cpu_control_state";
  op "cpu.msr_read" "fn(Cpu,u32)->u64" "allowlisted_model_specific_register"
    DCpu C_CPU READ "tpl_cpu_msr_read";
  op "cpu.msr_write" "fn(Cpu,u32,u64)->()" "allowlisted_model_specific_register"
    DCpu C_CPU CONTROL "tpl_cpu_msr_write";
  op "cpu.supported_widths" "fn(Cpu)->WidthRecord" "page_and_atomic_width_subset"
    DCpu C_CPU READ "tpl_cpu_supported_widths";
  op "cpu.install_gdt" "fn(CpuLocal,DescriptorTable)->()" "checked_gdt_install"
    DCpu C_CPU_LOCAL CONTROL "tpl_cpu_install_gdt";
  op "cpu.install_idt" "fn(CpuLocal,DescriptorTable)->()" "checked_idt_install"
    DCpu C_CPU_LOCAL CONTROL "tpl_cpu_install_idt";
  op "cpu.install_tss" "fn(CpuLocal,TssDescriptor)->()" "checked_per_cpu_tss_install"
    DCpu C_CPU_LOCAL CONTROL "tpl_cpu_install_tss";
  op "cpu.install_syscall" "fn(CpuLocal,SyscallDescriptor)->()" "checked_syscall_msr_install"
    DCpu C_CPU_LOCAL CONTROL "tpl_cpu_install_syscall";
  op "cpu.install_local" "fn(Cpu,CpuLocal)->()" "install_once"
    DCpu C_CPU_LOCAL CONTROL "tpl_cpu_install_local";
  op "cpu.enter_context" "fn(Cpu,UserContext)->!" "exact_context_transition"
    DCpu C_CPU CONTROL "tpl_enter_context";
  op "cpu.trap_construct" "fn(TrapFrame,TrapInput)->TrapRecord" "checked_trap_origin_and_frame"
    DCpu C_TRAP CONTROL "tpl_trap_construct";
  op "cpu.context_switch" "fn(UserContext,UserContext)->()" "unique_context_owner_transition"
    DCpu C_USER CONTROL "tpl_context_switch";
  op "cpu.return_kernel" "fn(TrapFrame)->!" "exact_kernel_return_frame"
    DCpu C_TRAP CONTROL "tpl_return_kernel";
  op "cpu.return_user" "fn(UserContext)->!" "exact_user_return_frame"
    DCpu C_USER CONTROL "tpl_return_user"
].

Definition cpu_ops2 : list PlatformOperation := [
  op "cpu.pause" "fn(Cpu)->()" "bounded_spin_hint"
    DCpu C_CPU CONTROL "tpl_cpu_pause";
  op "cpu.halt_interruptible" "fn(Cpu)->()" "interrupt_aware_idle"
    DCpu C_CPU CONTROL "tpl_cpu_halt_interruptible";
  op "cpu.rendezvous" "fn(Cpu,u64)->()" "bounded_architecture_rendezvous"
    DCpu C_CPU CONTROL "tpl_cpu_rendezvous"
].

Definition atomic_ops : list PlatformOperation := [
  op "atomic.load" "fn(Atomic,Ordering)->u64" "legal_load_order"
    DAtomic C_PHYS READ "tpl_atomic_load";
  op "atomic.store" "fn(Atomic,u64,Ordering)->()" "legal_store_order"
    DAtomic C_PHYS WRITE "tpl_atomic_store";
  op "atomic.swap" "fn(Atomic,u64,Ordering)->u64" "modification_order"
    DAtomic C_PHYS (rights_union READ WRITE) "tpl_atomic_swap";
  op "atomic.compare_exchange" "fn(Atomic,u64,u64,Ordering,Ordering)->Cas" "legal_cas_orders"
    DAtomic C_PHYS (rights_union READ WRITE) "tpl_atomic_compare_exchange";
  op "atomic.compare_exchange_weak" "fn(Atomic,u64,u64,Ordering,Ordering)->Cas" "legal_cas_orders_and_spurious_failure"
    DAtomic C_PHYS (rights_union READ WRITE) "tpl_atomic_compare_exchange_weak";
  op "atomic.fetch" "fn(Atomic,FetchOp,u64,Ordering)->u64" "modification_order"
    DAtomic C_PHYS (rights_union READ WRITE) "tpl_atomic_fetch";
  op "atomic.compiler_fence" "fn(Ordering)->()" "legal_compiler_fence_order"
    DAtomic C_NONE rights_empty "tpl_atomic_compiler_fence";
  op "atomic.hardware_fence" "fn(Ordering)->()" "legal_hardware_fence_order"
    DAtomic C_NONE rights_empty "tpl_atomic_hardware_fence"
].

Definition smp_ops : list PlatformOperation := [
  op "smp.discover" "fn(CpuSet)->Topology" "unique_stable_ids"
    DSmp C_CPU_SET READ "tpl_smp_discover";
  op "smp.start" "fn(Cpu,CpuLocal)->StartResult" "monotonic_lifecycle"
    DSmp C_CPU CONTROL "tpl_smp_start";
  op "smp.ipi" "fn(CpuSet,u8,u64)->()" "epoch_targets_exact"
    DSmp C_CPU_SET CONTROL "tpl_smp_ipi";
  op "smp.rendezvous" "fn(CpuSet,u64)->AckMask" "epoch_ack_exact"
    DSmp C_CPU_SET CONTROL "tpl_smp_rendezvous";
  op "smp.online_snapshot" "fn(CpuSet)->OnlineSnapshot" "release_acquire_online_mask"
    DSmp C_CPU_SET READ "tpl_smp_online_snapshot";
  op "smp.stop_request" "fn(CpuSet,u64)->AckMask" "epoch_correlated_stop_ack"
    DSmp C_CPU_SET CONTROL "tpl_smp_stop_request";
  op "smp.shootdown" "fn(CpuSet,u64,u64,u64)->AckMask" "mapping_epoch_exact"
    DSmp C_CPU_SET CONTROL "tpl_smp_shootdown"
].

Definition dma_ops : list PlatformOperation := [
  op "dma.pin" "fn(Dma,PhysRegion)->DmaMapping" "device_domain_generation"
    DDma C_DMA TRANSFER "tpl_dma_pin";
  op "dma.domain_create" "fn(IommuDomain,Device,Aperture)->Domain" "device_aperture_exact"
    DDma C_IOMMU MAP "tpl_dma_domain_create";
  op "dma.map" "fn(IommuDomain,DmaMapping,u64)->Segments" "iommu_or_identity_domain_exact"
    DDma C_IOMMU MAP "tpl_dma_map";
  op "dma.segments" "fn(DmaMapping)->Segments" "device_visible_segments_exact"
    DDma C_DMA READ "tpl_dma_segments";
  op "dma.sync" "fn(DmaMapping,Direction)->()" "coherence_transition"
    DDma C_DMA CONTROL "tpl_dma_sync";
  op "dma.unmap" "fn(IommuDomain,DmaMapping)->Segments" "consume_domain_mapping"
    DDma C_IOMMU MAP "tpl_dma_unmap";
  op "dma.unpin" "fn(DmaMapping)->()" "consume_generation"
    DDma C_DMA TRANSFER "tpl_dma_unpin"
].

Definition clock_ops : list PlatformOperation := [
  source_op (op "clock.read" "fn(Clock)->Instant" "monotonic_with_error"
    DClock C_CLOCK READ "tpl_clock_read")
    "2a1b32cc68f553037a9d886f1d87aef36120a4a1b96b49534eb334e4ea62378c";
  op "clock.arm" "fn(Clock,Cpu,u64)->()" "per_cpu_deadline"
    DClock C_CLOCK CONTROL "tpl_clock_arm";
  op "clock.cancel" "fn(Clock,Cpu)->()" "cancel_current_per_cpu_deadline"
    DClock C_CLOCK CONTROL "tpl_clock_cancel"
].

Definition entropy_ops : list PlatformOperation := [
  op "entropy.fill" "fn(Entropy,&mut[u8])->Result" "exact_or_failure"
    DEntropy C_ENTROPY READ "tpl_entropy_fill"
].

Definition power_ops : list PlatformOperation := [
  op "power.reboot" "fn(Power)->!" "terminal_reboot"
    DPower C_POWER CONTROL "tpl_power_reboot";
  op "power.off" "fn(Power)->!" "terminal_poweroff"
    DPower C_POWER CONTROL "tpl_power_off";
  op "power.halt" "fn(Power)->!" "terminal_halt"
    DPower C_POWER CONTROL "tpl_power_halt"
].

Definition runtime_ops : list PlatformOperation := [
  op "runtime.memcpy" "fn(*mut u8,*const u8,usize)->*mut u8" "exact_nonoverlap"
    DBoot C_NONE rights_empty "memcpy";
  op "runtime.memmove" "fn(*mut u8,*const u8,usize)->*mut u8" "exact_overlap"
    DBoot C_NONE rights_empty "memmove";
  op "runtime.memset" "fn(*mut u8,u8,usize)->*mut u8" "exact_fill"
    DBoot C_NONE rights_empty "memset";
  op "runtime.panic" "fn(PanicInfo)->!" "terminal_named_panic"
    DBoot C_NONE rights_empty "tpl_runtime_panic";
  op "runtime.contract_violation" "fn(ContractFailure)->!" "terminal_named_contract_failure"
    DBoot C_NONE rights_empty "tpl_contract_violation";
  op "runtime.allocation_failure" "fn(Layout)->!" "terminal_named_allocation_failure"
    DBoot C_NONE rights_empty "tpl_allocation_failure";
  op "runtime.stack_probe" "fn(usize)->()" "bounded_stack_probe"
    DBoot C_NONE rights_empty "tpl_stack_probe";
  op "runtime.terminal_fault" "fn(FaultRecord)->!" "terminal_named_platform_fault"
    DBoot C_NONE rights_empty "tpl_terminal_fault"
].

Definition X86_64_PC_UEFI_SMP_V1 : list PlatformOperation :=
  boot_ops ++ memory_ops ++ memory_ops2 ++ mmio_ops ++ pio_ops ++ mmio_ops2 ++ pio_ops2
  ++ mmio_ops3 ++ irq_ops ++ cpu_ops ++ cpu_ops2 ++ atomic_ops ++ smp_ops ++ dma_ops
  ++ clock_ops ++ entropy_ops ++ power_ops ++ runtime_ops.

(** ** Lookup *)

Fixpoint lookup_loop (table : list PlatformOperation) (n : string)
    (found : option PlatformOperation) : res RegistryError PlatformOperation :=
  match table with
  | [] => ok_or UnknownName found
  | entry :: table' =>
    if String.eqb (name entry) n then
      bail_if (bool_decide (is_Some found)) DuplicateName;;
      lookup_loop table' n (Some entry)
    else lookup_loop table' n found
  end.

Definition lookup (n : string) : res RegistryError PlatformOperation :=
  lookup_loop X86_64_PC_UEFI_SMP_V1 n None.
Arguments lookup : simpl never.

(** ** Facts *)

Lemma differs_false {A} `{EqDecision A} (a b : A) : differs a b = false ↔ a = b.
Proof. unfold differs. rewrite negb_false_iff. apply bool_decide_eq_true. Qed.

Lemma bail_if_bind {E A} b (e : E) (k : res E A) a :
  (bail_if b e;; k) = Ok a ↔ b = false ∧ k = Ok a.
Proof. destruct b; cbn; naive_solver. Qed.

(** The drift check is exact: [exact_match] accepts a candidate only when every one
    of the seventeen fields of the frozen entry is equal, and accepts every equal one. *)
Theorem exact_match_iff (e c : PlatformOperation) : exact_match e c = Ok () ↔ e = c.
Proof.
  unfold exact_match. rewrite !bail_if_bind, !orb_false_iff, !differs_false.
  split; [|by intros ->]. destruct e, c; cbn. intros. by destruct_and!; subst.
Qed.

Lemma lookup_loop_found n table e :
  n ∉ name <$> table → lookup_loop table n (Some e) = Ok e.
Proof.
  induction table as [|x table IH]; cbn; [done|].
  intros [Hx Ht]%not_elem_of_cons. rewrite (proj2 (String.eqb_neq _ _)) by done. auto.
Qed.

(** Over a table of distinct names the scan finds the entry of that name, or
    reports that there is none. *)
Lemma lookup_loop_NoDup n table :
  NoDup (name <$> table) →
  match lookup_loop table n None with
  | Ok e => e ∈ table ∧ name e = n
  | Err err => err = UnknownName ∧ n ∉ name <$> table
  | Panic => False
  end.
Proof.
  induction table as [|x table IH]; cbn; [intros _; split; [done|]; set_solver|].
  intros [Hx Ht]%NoDup_cons. destruct (String.eqb_spec (name x) n) as [<-|Hne].
  - rewrite lookup_loop_found by done. split; [set_solver|done].
  - specialize (IH Ht). case_match.
    + destruct IH; split; [set_solver|done].
    + destruct IH; split; [done|]. set_solver.
    + done.
Qed.
Lemma registry_names_distinct : NoDup (name <$> X86_64_PC_UEFI_SMP_V1).
Proof. apply (bool_decide_unpack _). vm_compute. exact I. Qed.

Lemma lookup_spec n :
  match lookup n with
  | Ok e => e ∈ X86_64_PC_UEFI_SMP_V1 ∧ name e = n
  | Err err => err = UnknownName ∧ n ∉ name <$> X86_64_PC_UEFI_SMP_V1
  | Panic => False
  end.
Proof. apply lookup_loop_NoDup, registry_names_distinct. Qed.

Lemma registry_names_inj e e' :
  e ∈ X86_64_PC_UEFI_SMP_V1 → e' ∈ X86_64_PC_UEFI_SMP_V1 → name e = name e' → e = e'.
Proof.
  intros [i Hi]%list_elem_of_lookup [j Hj]%list_elem_of_lookup Heq.
  enough (i = j) as -> by congruence.
  eapply (NoDup_lookup _ i j (name e) registry_names_distinct);
    rewrite list_lookup_fmap; [by rewrite Hi|by rewrite Hj, Heq].
Qed.

Lemma lookup_Ok n e : lookup n = Ok e ↔ e ∈ X86_64_PC_UEFI_SMP_V1 ∧ name e = n.
Proof.
  pose proof (lookup_spec n) as H. split; [by intros Hn; rewrite Hn in H|].
  intros [He <-]. case_match.
  - destruct H as [Hm Hn]. f_equal. by apply registry_names_inj.
  - destruct H as [_ []]. by apply list_elem_of_fmap_2.
  - done.
Qed.

(** What an entry is called agrees with what it is: its domain names the module of its
    canonical name, it demands a capability exactly when it demands rights. *)
Definition domain_path (d : PlatformDomain) : string :=
  match d with
  | DBoot => "kernel::boot::" | DMemory => "kernel::memory::" | DMmio => "kernel::mmio::"
  | DPio => "kernel::pio::" | DIrq => "kernel::irq::" | DCpu => "kernel::cpu::"
  | DAtomic => "kernel::atomic::" | DSmp => "kernel::smp::" | DDma => "kernel::dma::"
  | DClock => "kernel::clock::" | DEntropy => "kernel::entropy::"
  | DPower => "kernel::power::"
  end.

Definition entry_coherent (e : PlatformOperation) : bool :=
  String.prefix (domain_path (domain e)) (name e)
  && bool_decide (capability e = None ↔ rights e = rights_empty)
  && rights_contains ALL (rights e).

(** C38. The frozen profile is well formed: it has exactly the published number of
    operations, [lookup] of the canonical name of an entry returns that entry and of any
    other string [UnknownName] (never [DuplicateName]), linker symbols are distinct, and
    every entry is filed under its own domain with rights exactly when it has a kind. *)
Theorem registry_well_formed :
  length X86_64_PC_UEFI_SMP_V1 = X86_64_PC_UEFI_SMP_V1_OPERATION_COUNT ∧
  (∀ e, e ∈ X86_64_PC_UEFI_SMP_V1 → lookup (name e) = Ok e ∧ entry_coherent e = true) ∧
  (∀ n, n ∉ name <$> X86_64_PC_UEFI_SMP_V1 → lookup n = Err UnknownName) ∧
  NoDup (symbol <$> X86_64_PC_UEFI_SMP_V1).
Proof.
  split_and!.
  - vm_compute. reflexivity.
  - intros e He. split; [by apply lookup_Ok|].
    revert e He. apply Forall_forall, (bool_decide_unpack _). vm_compute. exact I.
  - intros n Hn. pose proof (lookup_spec n) as H. case_match.
    + destruct H as [H <-]. destruct Hn. by apply list_elem_of_fmap_2.
    + by destruct H as [-> _].
    + done.
  - apply (bool_decide_unpack _). vm_compute. exact I.
Qed.

End Registry.
