(* ===== verification/Boundary.v ===== *)
(** * Boundary closure: [kernel/src/boundary.rs]

    [BoundaryInventory::close] checks the declarations a program makes at the
    platform boundary against the frozen registry.  The [BTreeSet<&str>] it
    fills is a strictly increasing list of names; string order is the byte
    order of [String.compare]. *)
From stdpp Require Import strings.
From S2P Require Import Prelude Capability Registry.

Module Boundary.
Import Registry.

Record BoundaryDeclaration : Type := MkDeclaration {
  d_name : string;
  d_signature : string;
  d_contract : string;
  d_domain : PlatformDomain;
  d_capability : option CapabilityKind;
  d_rights : Rights;
  d_symbol : string;
  d_source_contract_sha256 : option string;
  d_source_reachable : bool;
}.

Inductive ClosureError : Type :=
| RegistryFault (e : RegistryError)
| DuplicateDeclaration
| MissingReachableEntry
| UnreachableFrozenEntry.

Record BoundaryInventory : Type := MkInventory { names : list string }.

(** ** [BTreeSet<&str>] *)

(** [set.insert(x)]: whether [x] was new, and the set with [x]. *)
Fixpoint set_insert (x : string) (s : list string) : bool * list string :=
  match s with
  | [] => (true, [x])
  | y :: s' =>
    if String.eqb x y then (false, s)
    else if String.leb x y then (true, x :: s)
    else let '(fresh, s'') := set_insert x s' in (fresh, y :: s'')
  end.

Definition set_contains (x : string) (s : list string) : bool :=
  existsb (String.eqb x) s.

(** ** Closing the boundary *)

(** The comparisons of the loop body, in order. *)
Definition check_declaration (registered : PlatformOperation) (d : BoundaryDeclaration)
    : res ClosureError unit :=
  bail_if (differs (signature registered) (d_signature d)) (RegistryFault SignatureDrift);;
  bail_if (differs (contract registered) (d_contract d)) (RegistryFault ContractDrift);;
  bail_if (differs (domain registered) (d_domain d)) (RegistryFault DomainDrift);;
  bail_if (differs (capability registered) (d_capability d)) (RegistryFault CapabilityDrift);;
  bail_if (differs (rights registered) (d_rights d)) (RegistryFault RightsDrift);;
  bail_if (differs (symbol registered) (d_symbol d)) (RegistryFault SymbolDrift);;
  bail_if (differs (source_contract_sha256 registered) (d_source_contract_sha256 d))
    (RegistryFault SourceContractDrift);;
  bail_if (differs (source_reachable registered) (d_source_reachable d))
    (RegistryFault ReachabilityDrift);;
  Ok ().

Fixpoint close_loop (declarations : list BoundaryDeclaration) (seen : list string)
    : res ClosureError (list string) :=
  match declarations with
  | [] => Ok seen
  | d :: rest =>
    let '(fresh, seen') := set_insert (d_name d) seen in
    bail_if (negb fresh) DuplicateDeclaration;;
    registered ← map_err RegistryFault (Registry.lookup (d_name d));
    check_declaration registered d;;
    close_loop rest seen'
  end.

Definition close (declarations : list BoundaryDeclaration) (require_complete_profile : bool)
    : res ClosureError BoundaryInventory :=
  seen ← close_loop declarations [];
  bail_if (match declarations with [] => true | _ => false end) MissingReachableEntry;;
  bail_if (require_complete_profile
           && existsb (λ entry, source_reachable entry && negb (set_contains (name entry) seen))
                X86_64_PC_UEFI_SMP_V1) UnreachableFrozenEntry;;
  Ok (MkInventory seen).

(** ** The set is a set *)

Lemma set_insert_spec x s :
  StronglySorted String.le s →
  let '(fresh, s') := set_insert x s in
  fresh = bool_decide (x ∉ s) ∧ StronglySorted String.le s' ∧
  (∀ y, y ∈ s' ↔ y = x ∨ y ∈ s) ∧ (fresh = true → s' ≡ₚ x :: s).
Proof.
  induction s as [|y s IH]; cbn; intros Hs.
  { split_and!; [done|repeat constructor|set_solver|done]. }
  apply StronglySorted_inv in Hs as [Hs Hy].
  destruct (String.eqb_spec x y) as [->|Hne].
  { rewrite bool_decide_false by set_solver.
    split_and!; [done|by constructor|set_solver|done]. }
  destruct (String.leb x y) eqn:Hle.
  - assert (x ∉ s) as Hx.
    { intros Hx. destruct Hne. apply (anti_symm String.le).
      - by unfold String.le; rewrite Hle.
      - rewrite Forall_forall in Hy. by apply Hy. }
    rewrite bool_decide_true by set_solver.
    split_and!; [done| |set_solver|done].
    constructor; [by constructor|]. constructor; [by unfold String.le; rewrite Hle|].
    eapply Forall_impl; [exact Hy|]. intros z Hz. etrans; [|exact Hz].
    by unfold String.le; rewrite Hle.
  - specialize (IH Hs). destruct (set_insert x s) as [fresh s'].
    destruct IH as (-> & Hs' & Hin & Hp). split_and!.
    + apply bool_decide_ext. set_solver.
    + constructor; [done|]. apply Forall_forall. intros z [->|Hz]%Hin.
      * destruct (total String.le x y) as [Hxy|?]; [|done].
        unfold String.le in Hxy. by rewrite Hle in Hxy.
      * by rewrite Forall_forall in Hy; apply Hy.
    + set_solver.
    + intros Hf. rewrite (Hp Hf). apply Permutation_swap.
Qed.

Lemma set_contains_spec x s : set_contains x s = true ↔ x ∈ s.
Proof.
  unfold set_contains. rewrite existsb_exists. setoid_rewrite String.eqb_eq.
  setoid_rewrite list_elem_of_In. naive_solver.
Qed.

(** ** What closure accepts *)

(** Every field a declaration carries agrees with the frozen entry. *)
Definition agrees (e : PlatformOperation) (d : BoundaryDeclaration) : Prop :=
  d = MkDeclaration (name e) (signature e) (contract e) (domain e) (capability e) (rights e)
        (symbol e) (source_contract_sha256 e) (source_reachable e).

Lemma check_declaration_Ok e d :
  check_declaration e d = Ok () ∧ name e = d_name d ↔ agrees e d.
Proof.
  assert (check_declaration e d = Ok () ↔
    signature e = d_signature d ∧ contract e = d_contract d ∧ domain e = d_domain d ∧
    capability e = d_capability d ∧ rights e = d_rights d ∧ symbol e = d_symbol d ∧
    source_contract_sha256 e = d_source_contract_sha256 d ∧
    source_reachable e = d_source_reachable d) as ->.
  { unfold check_declaration. rewrite !bail_if_bind, !differs_false. tauto. }
  unfold agrees. destruct d; cbn. split; [intros; by destruct_and!; subst|by intros [= -> -> -> -> -> -> -> -> ->]].
Qed.

Lemma close_loop_Ok ds seen final :
  StronglySorted String.le seen → NoDup seen →
  close_loop ds seen = Ok final ↔
  NoDup ((d_name <$> ds) ++ seen) ∧
  (∀ d, d ∈ ds → ∃ e, e ∈ X86_64_PC_UEFI_SMP_V1 ∧ agrees e d) ∧
  StronglySorted String.le final ∧ final ≡ₚ (d_name <$> ds) ++ seen.
Proof.
  revert seen. induction ds as [|d ds IH]; cbn; intros seen Hs Hn.
  { split; [intros [= <-]; split_and!; [done|set_solver|done|done]|].
    intros (_ & _ & Hf & Hp). f_equal. symmetry.
    by apply (StronglySorted_unique String.le). }
  pose proof (set_insert_spec (d_name d) seen Hs) as H.
  destruct (set_insert (d_name d) seen) as [fresh s']. destruct H as (-> & Hs' & Hin & Hp).
  rewrite bail_if_bind, negb_false_iff, bool_decide_eq_true. split.
  - intros [Hf H]. rewrite bool_decide_true in Hp by done. specialize (Hp eq_refl).
    apply res_bind_Ok in H as (e & He & H). apply res_bind_Ok in H as ([] & Hc & H).
    destruct (Registry.lookup (d_name d)) as [e'| |] eqn:Hl; simplify_eq/=.
    apply lookup_Ok in Hl as [Hl Hname].
    apply IH in H as (Hnd & Hd & Hf' & Hpf); [|done|by rewrite Hp; constructor].
    rewrite Hp, <- Permutation_middle in Hnd. rewrite Hp, <- Permutation_middle in Hpf.
    split_and!; [done| |done|done].
    intros d' [->|Hd']%elem_of_cons; [|by apply Hd].
    exists e. split; [done|]. by apply check_declaration_Ok.
  - intros (Hnd & Hd & Hf' & Hpf). apply NoDup_cons in Hnd as [Hx Hnd].
    assert (d_name d ∉ seen) as Hns by (clear -Hx; set_solver). split; [done|].
    rewrite bool_decide_true in Hp by done. specialize (Hp eq_refl).
    destruct (Hd d) as (e & He & Ha); [apply elem_of_cons; auto|].
    apply check_declaration_Ok in Ha as [Hc Hname].
    rewrite (proj2 (lookup_Ok (d_name d) e)) by done. cbn. rewrite Hc. cbn.
    apply IH; [done|by rewrite Hp; constructor|].
    rewrite Hp, <- Permutation_middle. split_and!; [by constructor| |done|done].
    intros d' Hd'. apply Hd, elem_of_cons. auto.
Qed.

Lemma nothing_missing (table : list PlatformOperation) seen :
  existsb (λ entry, source_reachable entry && negb (set_contains (name entry) seen)) table
    = false ↔
  ∀ e, e ∈ table → source_reachable e = true → name e ∈ seen.
Proof.
  rewrite <- not_true_iff_false, existsb_exists. setoid_rewrite <- list_elem_of_In.
  setoid_rewrite andb_true_iff. setoid_rewrite negb_true_iff.
  setoid_rewrite <- set_contains_spec. split.
  - intros H e He Hr. destruct (set_contains (name e) seen) eqn:Hm; [done|].
    destruct H. by exists e.
  - intros H (e & He & Hr & Hm). by rewrite (H e He Hr) in Hm.
Qed.

(** C27. Boundary closure is exact.  It accepts a list of declarations precisely when the
    list is not empty, names no operation twice, agrees with a frozen entry in every
    declared field and, if a complete profile is demanded, declares every source-reachable
    entry; the inventory it returns is the sorted list of the declared names. *)
Theorem close_exact ds complete inv :
  close ds complete = Ok inv ↔
  ds ≠ [] ∧ NoDup (d_name <$> ds) ∧
  (∀ d, d ∈ ds → ∃ e, e ∈ X86_64_PC_UEFI_SMP_V1 ∧ agrees e d) ∧
  (complete = true → ∀ e, e ∈ X86_64_PC_UEFI_SMP_V1 → source_reachable e = true →
     name e ∈ d_name <$> ds) ∧
  StronglySorted String.le (names inv) ∧ names inv ≡ₚ d_name <$> ds.
Proof.
  unfold close. split.
  - intros (seen & Hl & H)%res_bind_Ok. rewrite !bail_if_bind in H.
    destruct H as (Hne & Hc & [= <-]).
    apply close_loop_Ok in Hl as (Hnd & Hd & Hs & Hp); [|constructor..].
    rewrite app_nil_r in *. split_and!; [by intros ->|done|done| |done|done].
    intros ->. rewrite andb_true_l, nothing_missing in Hc. by setoid_rewrite <- Hp.
  - intros (Hne & Hnd & Hd & Hc & Hs & Hp).
    assert (close_loop ds [] = Ok (names inv)) as ->.
    { apply close_loop_Ok; [constructor..|]. by rewrite app_nil_r. }
    unfold mbind at 1, res_bind. rewrite !bail_if_bind. split_and!.
    + by destruct ds.
    + apply andb_false_iff. destruct complete; [right|by left].
      apply nothing_missing. setoid_rewrite Hp. by apply Hc.
    + by destruct inv.
Qed.

(** The declaration that copies a frozen entry. *)
Definition declare (e : PlatformOperation) : BoundaryDeclaration :=
  MkDeclaration (name e) (signature e) (contract e) (domain e) (capability e) (rights e)
    (symbol e) (source_contract_sha256 e) (source_reachable e).

Example close_whole_profile :
  match close (declare <$> X86_64_PC_UEFI_SMP_V1) true with
  | Ok inv => length (names inv) = 104%nat
  | _ => False
  end.
Proof. vm_compute. reflexivity. Qed.

Example close_incomplete :
  close (declare <$> boot_ops) true = Err UnreachableFrozenEntry ∧
  close [] false = Err MissingReachableEntry.
Proof. split; vm_compute; reflexivity. Qed.

End Boundary.
