(* ===== verification/Target.v ===== *)
(** * The target layer: what its files share
      ([platform/x86_64-pc-uefi-smp-v1/runtime/src/post_firmware.rs])

    The errors of the post-firmware runtime with their codes, CPU masks, the
    bounded loops, and the machine the runtime talks to: port I/O, memory-mapped
    registers and model-specific registers, as classes whose instances are the
    hardware. *)
From S2P Require Import Prelude.

Module Target.

Definition MAX_CPUS : Z := 64.
Definition SUCCESS : Z := 0.

Inductive PostFirmwareError : Type :=
| UnsupportedApic | InvalidCpuId | TrampolineTooLarge
| TrampolineAllocation (status : Z) | MemoryMap (status : Z) | ExitBootServices (status : Z)
| ApStartup | Scheduler | Ipi | Timer | Tlb | Dma | Entropy | Injection | UserMode
| Heap (status : Z) | Device | Model.

#[global] Instance PostFirmwareError_eq_dec : EqDecision PostFirmwareError.
Proof. solve_decision. Defined.

Definition code (e : PostFirmwareError) : Z :=
  match e with
  | UnsupportedApic => 1
  | InvalidCpuId => 2
  | TrampolineTooLarge => 3
  | TrampolineAllocation status => status
  | MemoryMap status => status
  | ExitBootServices status => status
  | ApStartup => 7
  | Scheduler => 8
  | Ipi => 9
  | Timer => 10
  | Tlb => 11
  | Dma => 12
  | Entropy => 13
  | Injection => 14
  | UserMode => 15
  | Heap status => status
  | Device => 16
  | Model => 17
  end.

(** ** CPU masks *)

(** [1_u64.checked_shl(cpu as u32).ok_or(InvalidCpuId)] *)
Definition bit (cpu : Z) : res PostFirmwareError Z :=
  if wrap 32 cpu <? 64 then Ok (Z.shiftl 1 (wrap 32 cpu)) else Err InvalidCpuId.

Fixpoint expected_mask_loop (apic_ids : list Z) (mask : Z) : res PostFirmwareError Z :=
  match apic_ids with
  | [] => Ok mask
  | apic :: rest =>
    member ← bit apic;
    bail_if (negb (Z.land mask member =? 0)) InvalidCpuId;;
    expected_mask_loop rest (Z.lor mask member)
  end.

Definition expected_mask (apic_ids : list Z) : res PostFirmwareError Z :=
  expected_mask_loop apic_ids 0.

(** ** Bounded loops

    [for _ in 0..n] around a body that may leave the loop with a value.  The
    bound is written in binary, so that the limits of the source (up to fifty
    million turns) can be evaluated. *)

Section loops.
Context {S E A : Type}.

Fixpoint for_pos (n : positive) (body : op S E (option A)) : op S E (option A) :=
  match n with
  | xH => body
  | xO n =>
    r ← for_pos n body;
    match r with Some a => mret (Some a) | None => for_pos n body end
  | xI n =>
    r ← body;
    match r with
    | Some a => mret (Some a)
    | None =>
      r ← for_pos n body;
      match r with Some a => mret (Some a) | None => for_pos n body end
    end
  end.

(** The same loop in unary: the reference the binary one is read against. *)
Fixpoint for_nat (n : nat) (body : op S E (option A)) : op S E (option A) :=
  match n with
  | O => mret None
  | Datatypes.S n =>
    r ← body;
    match r with Some a => mret (Some a) | None => for_nat n body end
  end.

Lemma for_nat_add n m body s :
  for_nat (n + m) body s =
  (r ← for_nat n body; match r with Some a => mret (Some a) | None => for_nat m body end) s.
Proof.
  revert s. induction n as [|n IH]; intros s; [done|].
  cbn. unfold mbind, op_bind. destruct (body s) as [[[a|]|e|] s']; cbn; done || apply IH.
Qed.

Lemma for_pos_nat n body s : for_pos n body s = for_nat (Pos.to_nat n) body s.
Proof.
  revert s. induction n as [n IH|n IH|]; intros s.
  - rewrite Pos2Nat.inj_xI. cbn [for_pos for_nat]. unfold mbind, op_bind.
    destruct (body s) as [[[a|]|e|] s']; cbn; try done.
    rewrite Nat.add_0_r, for_nat_add, IH. unfold mbind, op_bind.
    destruct (for_nat _ body s') as [[[a|]|e|] s'']; cbn; try done.
  - rewrite Pos2Nat.inj_xO. cbn [for_pos]. replace (2 * Pos.to_nat n)%nat
      with (Pos.to_nat n + Pos.to_nat n)%nat by lia.
    rewrite for_nat_add. unfold mbind, op_bind. rewrite IH.
    destruct (for_nat _ body s) as [[[a|]|e|] s'']; cbn; try done.
  - change (Pos.to_nat 1) with 1%nat. cbn [for_pos for_nat]. unfold mbind, op_bind.
    by destruct (body s) as [[[a|]|e|] s'].
Qed.

(** [for x in l] *)
Fixpoint for_each {X} (l : list X) (body : X → op S E unit) : op S E unit :=
  match l with
  | [] => mret ()
  | x :: l => body x;; for_each l body
  end.

(** [for _ in 0..n] collecting what each turn reads: a filled array. *)
Fixpoint fill {B} (n : nat) (body : op S E B) : op S E (list B) :=
  match n with
  | O => mret []
  | Datatypes.S n => x ← body; l ← fill n body; mret (x :: l)
  end.
End loops.

(** ** The machine *)

(** [in] and [out] on an I/O port, [width] in bytes. *)
Class PortIo (W : Type) := {
  port_in (width port : Z) : W → Z * W;
  port_out (width port value : Z) : W → W;
}.

(** [read_volatile] and [write_volatile] of a device register. *)
Class MmioRegs (W : Type) := {
  reg_read (width address : Z) : W → Z * W;
  reg_write (width address value : Z) : W → W;
}.

(** [rdmsr] and [wrmsr]. *)
Class Msrs (W : Type) := {
  msr_read (msr : Z) : W → Z * W;
  msr_write (msr value : Z) : W → W;
}.

(** A device access never fails by itself. *)
Definition access {W E A} (f : W → A * W) : op W E A := λ w, let '(a, w) := f w in (Ok a, w).

(** Polling: [for _ in 0..50_000_000 { if value.load() .. { return true; } } false].
    What another CPU stores between two loads is the machine's business. *)
Definition POLL_LIMIT : positive := 50000000.

Definition wait_for_mask {W} (load : W → Z * W) (wanted : Z) : op W PostFirmwareError bool :=
  r ← for_pos POLL_LIMIT
        (v ← access load; mret (if Z.land v wanted =? wanted then Some () else None));
  mret (match r with Some _ => true | None => false end).

Definition wait_for_count {W} (load : W → Z * W) (wanted : Z) : op W PostFirmwareError bool :=
  r ← for_pos POLL_LIMIT
        (v ← access load; mret (if wanted <=? v then Some () else None));
  mret (match r with Some _ => true | None => false end).

(** ** Lemmas *)

(** Symbolic execution of a method. *)
Lemma res_bind_run {E A B} (k : A → res E B) a : (Ok a ≫= k) = k a.
Proof. done. Qed.

Lemma op_bind_run {S E A B} (m : op S E A) (k : A → op S E B) s a s' :
  m s = (Ok a, s') → (m ≫= k) s = k a s'.
Proof. unfold mbind, op_bind. by intros ->. Qed.

Lemma bit_ok cpu : 0 ≤ cpu < 64 → bit cpu = Ok (2 ^ cpu).
Proof.
  intros H. unfold bit, wrap. rewrite Z.mod_small by lia.
  rewrite (proj2 (Z.ltb_lt _ _)) by lia. by rewrite Z.shiftl_1_l.
Qed.

Lemma bit_err cpu : u32 cpu → 64 ≤ cpu → bit cpu = Err InvalidCpuId.
Proof.
  intros Hu H. unfold bit, wrap. rewrite Z.mod_small by ulia.
  by rewrite (proj2 (Z.ltb_ge _ _)) by lia.
Qed.

Lemma land_pow2_zero m i : 0 ≤ i → (Z.land m (2 ^ i) =? 0) = negb (Z.testbit m i).
Proof.
  intros Hi. destruct (Z.testbit m i) eqn:E; cbn.
  - apply Z.eqb_neq. intros H. apply (f_equal (λ x, Z.testbit x i)) in H.
    rewrite Z.land_spec, E, Z.pow2_bits_true, Z.testbit_0_l in H by lia. done.
  - apply Z.eqb_eq, Z.bits_inj'. intros j Hj. rewrite Z.land_spec, Z.testbit_0_l.
    destruct (decide (i = j)) as [->|Hn]; [by rewrite E|].
    by rewrite Z.pow2_bits_false, andb_false_r by lia.
Qed.

Lemma lor_pow2_testbit m i j :
  0 ≤ i → 0 ≤ j → Z.testbit (Z.lor m (2 ^ i)) j = Z.testbit m j || (i =? j).
Proof.
  intros Hi Hj. rewrite Z.lor_spec. f_equal. destruct (Z.eqb_spec i j) as [->|Hn].
  - by apply Z.pow2_bits_true.
  - by apply Z.pow2_bits_false.
Qed.

(** The mask of CPU ids: it exists exactly for distinct ids below 64, and is then the
    set of them; every refusal is [InvalidCpuId]. *)
Lemma expected_mask_loop_spec ids m0 :
  (∀ i, i ∈ ids → u32 i) → 0 ≤ m0 →
  match expected_mask_loop ids m0 with
  | Ok m => NoDup ids ∧ (∀ i, i ∈ ids → i < 64 ∧ Z.testbit m0 i = false) ∧ 0 ≤ m ∧
            ∀ i, 0 ≤ i → Z.testbit m i = true ↔ Z.testbit m0 i = true ∨ i ∈ ids
  | Err e => e = InvalidCpuId ∧
      ¬ (NoDup ids ∧ ∀ i, i ∈ ids → i < 64 ∧ Z.testbit m0 i = false)
  | Panic => False
  end.
Proof.
  revert m0. induction ids as [|i ids IH]; intros m0 Hu Hm0; cbn.
  { split_and!; try done; [constructor|set_solver|set_solver]. }
  assert (u32 i) as Hi by (apply Hu; set_solver).
  destruct (decide (i < 64)) as [Hlt|Hge].
  2:{ rewrite bit_err by (done || lia). cbn. split; [done|].
      intros [_ H]. specialize (H i ltac:(set_solver)). lia. }
  rewrite bit_ok by ulia. cbn. rewrite land_pow2_zero by ulia.
  destruct (Z.testbit m0 i) eqn:E; cbn.
  { split; [done|]. intros [_ H]. destruct (H i ltac:(set_solver)). congruence. }
  specialize (IH (Z.lor m0 (2 ^ i))). 
  assert (0 ≤ Z.lor m0 (2 ^ i)) as H0 by (apply Z.lor_nonneg; split; [done|lia]).
  specialize (IH ltac:(set_solver) H0).
  assert (∀ j, j ∈ ids → 0 ≤ j) as Hpos by (intros j Hj; assert (u32 j) by set_solver; ulia).
  destruct (expected_mask_loop ids (Z.lor m0 (2 ^ i))) as [m|e|]; [| |done].
  - destruct IH as (Hnd & Hall & Hm & Hb).
    split_and!; [| |done|].
    + constructor; [|done]. intros [_ Hf]%Hall. rewrite lor_pow2_testbit, Z.eqb_refl in Hf by ulia.
      by rewrite orb_true_r in Hf.
    + intros j [->|Hj]%elem_of_cons; [done|]. pose proof (Hpos j Hj).
      apply Hall in Hj as [? Hf]. rewrite lor_pow2_testbit in Hf by ulia.
      by apply orb_false_iff in Hf as [? ?].
    + intros j Hj. rewrite Hb, lor_pow2_testbit by ulia. rewrite elem_of_cons, orb_true_iff, Z.eqb_eq.
      naive_solver.
  - destruct IH as [-> Hn]. split; [done|]. intros [[Hi' Hnd]%NoDup_cons Hall].
    apply Hn. split; [done|]. intros j Hj. pose proof (Hpos j Hj).
    destruct (Hall j ltac:(set_solver)). split; [done|].
    rewrite lor_pow2_testbit by ulia. apply orb_false_iff. split; [done|].
    apply Z.eqb_neq. naive_solver.
Qed.

Lemma expected_mask_Ok ids m :
  (∀ i, i ∈ ids → u32 i) → expected_mask ids = Ok m →
  NoDup ids ∧ (∀ i, i ∈ ids → i < 64) ∧ 0 ≤ m ∧
  ∀ i, 0 ≤ i → Z.testbit m i = true ↔ i ∈ ids.
Proof.
  intros Hu Hm. pose proof (expected_mask_loop_spec ids 0 Hu ltac:(lia)) as H.
  unfold expected_mask in Hm. rewrite Hm in H. destruct H as (Hnd & Hall & H0 & Hb).
  split_and!; [done| |done|].
  - intros i Hi. by apply Hall.
  - intros i Hi. rewrite Hb, Z.testbit_0_l by done. naive_solver.
Qed.

Lemma expected_mask_complete ids :
  NoDup ids → (∀ i, i ∈ ids → 0 ≤ i < 64) → ∃ m, expected_mask ids = Ok m.
Proof.
  intros Hnd Hall.
  pose proof (expected_mask_loop_spec ids 0 ltac:(intros i Hi; apply Hall in Hi; ulia) ltac:(lia)) as H.
  unfold expected_mask. destruct (expected_mask_loop ids 0) as [m|e|]; [by exists m| |done].
  exfalso. apply H. split; [done|]. intros i Hi. rewrite Z.testbit_0_l. split; [|done].
  by apply Hall.
Qed.

(** A polled loop answers yes exactly when one of the observations it is allowed to
    make satisfies the test. *)
Section polling.
Context {W : Type} (load : W → Z * W) (ok : Z → bool).

Fixpoint observations (n : nat) (w : W) : list Z :=
  match n with O => [] | S n => (load w).1 :: observations n (load w).2 end.

Lemma poll_spec n w :
  ∃ w', for_nat (E := PostFirmwareError) n
          (v ← access load; mret (if ok v then Some () else None)) w =
        (Ok (if existsb ok (observations n w) then Some () else None), w').
Proof.
  revert w. induction n as [|n IH]; intros w; cbn; [by eexists|].
  unfold mbind, op_bind, access. destruct (load w) as [v w'] eqn:E. cbn.
  destruct (ok v) eqn:Ev; cbn; [by eexists|]. apply IH.
Qed.
End polling.

Lemma wait_for_mask_spec {W} (load : W → Z * W) wanted w :
  (wait_for_mask load wanted w).1 =
  Ok (existsb (λ v, Z.land v wanted =? wanted) (observations load (Pos.to_nat POLL_LIMIT) w)).
Proof.
  unfold wait_for_mask, mbind at 1, op_bind at 1. rewrite for_pos_nat.
  destruct (poll_spec load (λ v, Z.land v wanted =? wanted) (Pos.to_nat POLL_LIMIT) w) as [w' ->].
  cbn. by destruct (existsb _ _).
Qed.

Lemma wait_for_count_spec {W} (load : W → Z * W) wanted w :
  (wait_for_count load wanted w).1 =
  Ok (existsb (λ v, wanted <=? v) (observations load (Pos.to_nat POLL_LIMIT) w)).
Proof.
  unfold wait_for_count, mbind at 1, op_bind at 1. rewrite for_pos_nat.
  destruct (poll_spec load (λ v, wanted <=? v) (Pos.to_nat POLL_LIMIT) w) as [w' ->].
  cbn. by destruct (existsb _ _).
Qed.

End Target.
