(* ===== verification/Heap.v ===== *)
(** * The target's page heap: [KernelAllocator] in
      [platform/x86_64-pc-uefi-smp-v1/runtime/src/post_firmware.rs]

    The global allocator hands out runs of 4 KiB pages of one 64-page arena,
    claimed in a shared bitmap by compare-and-exchange.  [alloc] and
    [dealloc] are programs whose steps are their accesses to shared memory;
    [step] interleaves any number of them with clients that write to the
    memory they own. *)
From stdpp Require Import functions.
From S2P Require Import Prelude Target.

Module Heap.

Definition HEAP_PAGES : Z := 64.
Definition HEAP_BYTES : Z := HEAP_PAGES * 4096.

(** [core::alloc::Layout] *)
Record Layout : Type := MkLayout { size : Z; align : Z }.

(** The statics [HEAP_BASE], [HEAP_BITMAP], [HEAP_ALLOCATIONS] and the bytes
    of memory. *)
Record HeapState : Type := MkHeap {
  heap_base : Z;
  heap_bitmap : Z;
  heap_allocations : Z;
  memory : gmap Z Z;
}.

Definition set_bitmap (b : Z) (h : HeapState) : HeapState :=
  MkHeap (heap_base h) b (heap_allocations h) (memory h).
Definition set_allocations (n : Z) (h : HeapState) : HeapState :=
  MkHeap (heap_base h) (heap_bitmap h) n (memory h).
Definition write_byte (a v : Z) (h : HeapState) : HeapState :=
  MkHeap (heap_base h) (heap_bitmap h) (heap_allocations h) (<[a := v]> (memory h)).

(** [n.div_ceil(d)] *)
Definition div_ceil (n d : Z) : Z := (n + d - 1) / d.

(** [layout.size().max(1).div_ceil(4096)] *)
Definition layout_pages (l : Layout) : Z := div_ceil (Z.max (size l) 1) 4096.

Definition page_mask (pages first : Z) : Z :=
  if pages =? 64 then umax 64
  else wrap 64 (Z.shiftl (Z.shiftl 1 pages - 1) first).

(** What [allocate_pages] of the firmware reports is an input: its status
    and the address it wrote. *)
Definition reserve_boot_heap (status address : Z) (mem : gmap Z Z)
    : res Target.PostFirmwareError HeapState :=
  bail_if (negb (status =? 0) || (address =? 0) || (umax 32 <? address)
           || negb (Z.land address 4095 =? 0)) (Target.Heap status);;
  Ok (MkHeap address 0 0 mem).

(** ** [alloc] *)

(** Where a call of [alloc] stands; [ADone 0] is the null pointer. *)
Inductive alloc_pc : Type :=
| AStart (l : Layout)
| ALoad (base pages first : Z)
| ALoop (base pages first observed : Z)
| AZero (ptr pages done : Z)
| ACount (ptr pages : Z)
| ADone (ptr : Z).

(** One access to shared memory; [spurious] lets [compare_exchange_weak] fail.
    [Panic] is the overflow of [base + first * 4096]. *)
Definition alloc_step (spurious : bool) (pc : alloc_pc) (h : HeapState)
    : res False alloc_pc * HeapState :=
  match pc with
  | AStart l =>
    let base := heap_base h in
    if (base =? 0) || (4096 <? align l) then (Ok (ADone 0), h)
    else
      let pages := layout_pages l in
      if HEAP_PAGES <? pages then (Ok (ADone 0), h) else (Ok (ALoad base pages 0), h)
  | ALoad base pages first => (Ok (ALoop base pages first (heap_bitmap h)), h)
  | ALoop base pages first observed =>
    let mask := page_mask pages first in
    if negb (Z.land observed mask =? 0) then
      (* break, and the next turn of the [for] *)
      if first <? HEAP_PAGES - pages then (Ok (ALoad base pages (first + 1)), h)
      else (Ok (ADone 0), h)
    else if negb spurious && (heap_bitmap h =? observed) then
      (offset ← umul 64 first 4096; ptr ← uadd 64 base offset; Ok (AZero ptr pages 0),
       set_bitmap (Z.lor observed mask) h)
    else (Ok (ALoop base pages first (heap_bitmap h)), h)
  | AZero ptr pages done =>
    if done <? pages * 4096 then (Ok (AZero ptr pages (done + 1)), write_byte (ptr + done) 0 h)
    else (Ok (ACount ptr pages), h)
  | ACount ptr _ => (Ok (ADone ptr), set_allocations (wrap 64 (heap_allocations h + 1)) h)
  | ADone ptr => (Ok (ADone ptr), h)
  end.

(** ** [dealloc] *)

Inductive dealloc_pc : Type :=
| DStart (address : Z) (l : Layout)
| DClear (pages first : Z)
| DDone.

(** The checks of [dealloc]; [Panic] is an overflowing sum. *)
Definition dealloc_check (base address : Z) (l : Layout) : res False dealloc_pc :=
  if (base =? 0) || (address <? base) then Ok DDone
  else
    top ← uadd 64 base HEAP_BYTES;
    if (top <=? address) || negb (address mod 4096 =? 0) then Ok DDone
    else
      let pages := layout_pages l in
      let first := (address - base) / 4096 in
      if HEAP_PAGES <? pages then Ok DDone
      else
        end_ ← uadd 64 first pages;
        if HEAP_PAGES <? end_ then Ok DDone else Ok (DClear pages first).

Definition dealloc_step (pc : dealloc_pc) (h : HeapState) : res False dealloc_pc * HeapState :=
  match pc with
  | DStart address l => (dealloc_check (heap_base h) address l, h)
  | DClear pages first =>
    (Ok DDone, set_bitmap (Z.land (heap_bitmap h) (bnot 64 (page_mask pages first))) h)
  | DDone => (Ok DDone, h)
  end.

(** ** Threads *)

Inductive thread : Type :=
| TAlloc (l : Layout) (pc : alloc_pc)
| TFree (pc : dealloc_pc).

(** The heap, the calls in progress, and the allocations handed out with the
    layout they were requested with. *)
Record machine : Type := MkMachine {
  heap : HeapState;
  threads : gmap Z thread;
  live : gmap Z Layout;
}.

(** A client frees what it was given, with the same layout (the contract of
    [GlobalAlloc]), and writes only inside what it holds. *)
Inductive step : machine → machine → Prop :=
| step_alloc i l m :
    threads m !! i = None →
    step m (MkMachine (heap m) (<[i := TAlloc l (AStart l)]> (threads m)) (live m))
| step_alloc_run i l pc sp pc' h' m :
    threads m !! i = Some (TAlloc l pc) → alloc_step sp pc (heap m) = (Ok pc', h') →
    step m (MkMachine h' (<[i := TAlloc l pc']> (threads m)) (live m))
| step_alloc_return i l ptr m :
    threads m !! i = Some (TAlloc l (ADone ptr)) →
    step m (MkMachine (heap m) (delete i (threads m))
              (if ptr =? 0 then live m else <[ptr := l]> (live m)))
| step_free i ptr l m :
    threads m !! i = None → live m !! ptr = Some l →
    step m (MkMachine (heap m) (<[i := TFree (DStart ptr l)]> (threads m)) (delete ptr (live m)))
| step_free_run i pc pc' h' m :
    threads m !! i = Some (TFree pc) → dealloc_step pc (heap m) = (Ok pc', h') →
    step m (MkMachine h' (<[i := TFree pc']> (threads m)) (live m))
| step_free_return i m :
    threads m !! i = Some (TFree DDone) →
    step m (MkMachine (heap m) (delete i (threads m)) (live m))
| step_write ptr l a v m :
    live m !! ptr = Some l → ptr ≤ a < ptr + size l →
    step m (MkMachine (write_byte a v (heap m)) (threads m) (live m)).

Definition booted (h : HeapState) : machine := MkMachine h ∅ ∅.

(** ** Ownership *)

Inductive owner : Type := Client (ptr : Z) | Thread (i : Z).

#[global] Instance owner_eq_dec : EqDecision owner.
Proof. solve_decision. Defined.

(** The run a call in progress owns: its address and number of pages. *)
Definition thread_run (base : Z) (t : thread) : option (Z * Z) :=
  match t with
  | TAlloc _ (AZero ptr pages _) | TAlloc _ (ACount ptr pages) => Some (ptr, pages)
  | TAlloc l (ADone ptr) => if ptr =? 0 then None else Some (ptr, layout_pages l)
  | TFree (DStart ptr l) => Some (ptr, layout_pages l)
  | TFree (DClear pages first) => Some (base + first * 4096, pages)
  | _ => None
  end.

Definition owned (m : machine) (o : owner) : option (Z * Z) :=
  match o with
  | Client ptr => (λ l, (ptr, layout_pages l)) <$> live m !! ptr
  | Thread i => threads m !! i ≫= thread_run (heap_base (heap m))
  end.

(** [a] lies in the run. *)
Definition in_run (r : Z * Z) (a : Z) : Prop := r.1 ≤ a < r.1 + r.2 * 4096.

(** The ownership function is consistent with the bitmap. *)
Record ok_owned (base bitmap : Z) (own : owner → option (Z * Z)) : Prop := {
  own_range o r : own o = Some r →
    ∃ first, 0 ≤ first ∧ 1 ≤ r.2 ∧ first + r.2 ≤ 64 ∧ r.1 = base + first * 4096;
  own_disjoint o o' r r' a : own o = Some r → own o' = Some r' →
    in_run r a → in_run r' a → o = o';
  own_bitmap p : 0 ≤ p →
    Z.testbit bitmap p = true ↔ ∃ o r, own o = Some r ∧ in_run r (base + p * 4096);
}.

(** What a call in progress knows. *)
Definition thread_ok (h : HeapState) (t : thread) : Prop :=
  match t with
  | TAlloc l pc =>
    match pc with
    | AStart l' => l' = l
    | ALoad base pages first | ALoop base pages first _ =>
      base = heap_base h ∧ pages = layout_pages l ∧ 0 ≤ first ∧ first + pages ≤ 64
    | AZero ptr pages done =>
      pages = layout_pages l ∧ 0 ≤ done ≤ pages * 4096 ∧
      ∀ x, 0 ≤ x < done → memory h !! (ptr + x) = Some 0
    | ACount ptr pages =>
      pages = layout_pages l ∧ ∀ x, 0 ≤ x < pages * 4096 → memory h !! (ptr + x) = Some 0
    | ADone ptr =>
      ptr ≠ 0 → ∀ x, 0 ≤ x < layout_pages l * 4096 → memory h !! (ptr + x) = Some 0
    end
  | TFree (DClear pages first) => 1 ≤ pages ∧ 0 ≤ first ∧ first + pages ≤ 64
  | TFree _ => True
  end.

Record inv (base : Z) (m : machine) : Prop := {
  inv_base : heap_base (heap m) = base;
  inv_owned : ok_owned base (heap_bitmap (heap m)) (owned m);
  inv_threads i t : threads m !! i = Some t → thread_ok (heap m) t;
}.

(** ** Masks and runs *)

Lemma layout_pages_pos l : 1 ≤ layout_pages l ∧ size l ≤ layout_pages l * 4096.
Proof.
  unfold layout_pages, div_ceil.
  pose proof (Z.div_mod (Z.max (size l) 1 + 4096 - 1) 4096 ltac:(lia)).
  pose proof (Z.mod_pos_bound (Z.max (size l) 1 + 4096 - 1) 4096 ltac:(lia)). lia.
Qed.

Lemma page_mask_spec pages first p :
  1 ≤ pages → 0 ≤ first → first + pages ≤ 64 → 0 ≤ p →
  Z.testbit (page_mask pages first) p = (first <=? p) && (p <? first + pages).
Proof.
  intros Hp Hf Hs H0. unfold page_mask. destruct (Z.eqb_spec pages 64) as [->|Hne].
  - replace (umax 64) with (Z.ones 64) by reflexivity.
    rewrite Z.testbit_ones by lia. zcase; lia || done.
  - replace (Z.shiftl 1 pages - 1) with (Z.ones pages) by (rewrite Z.ones_equiv, Z.shiftl_mul_pow2; lia).
    unfold wrap. destruct (Z.ltb_spec p 64).
    + rewrite Z.mod_pow2_bits_low, Z.shiftl_spec, Z.testbit_ones by lia. zcase; lia || done.
    + rewrite Z.mod_pow2_bits_high by lia. zcase; lia || done.
Qed.

Lemma mask_free b pages first p :
  1 ≤ pages → 0 ≤ first → first + pages ≤ 64 → Z.land b (page_mask pages first) = 0 →
  first ≤ p < first + pages → Z.testbit b p = false.
Proof.
  intros H1 H2 H3 Hl Hp. assert (Z.testbit (Z.land b (page_mask pages first)) p = false) as Hb
    by (rewrite Hl; apply Z.testbit_0_l).
  rewrite Z.land_spec, page_mask_spec in Hb by lia. revert Hb. zcase; try lia.
  by rewrite andb_true_r.
Qed.

Lemma in_run_page base first pages p :
  in_run (base + first * 4096, pages) (base + p * 4096) ↔ first ≤ p < first + pages.
Proof. unfold in_run; cbn. lia. Qed.

(** Runs of whole pages that share a byte share a page. *)
Lemma in_run_floor base first pages a :
  in_run (base + first * 4096, pages) a →
  in_run (base + first * 4096, pages) (base + (a - base) / 4096 * 4096) ∧
  first ≤ (a - base) / 4096 < first + pages.
Proof.
  unfold in_run; cbn. intros H.
  pose proof (Z.div_mod (a - base) 4096 ltac:(lia)).
  pose proof (Z.mod_pos_bound (a - base) 4096 ltac:(lia)). lia.
Qed.

Section ownership.
Variables base bitmap : Z.
Variable own : owner → option (Z * Z).
Hypothesis Hok : ok_owned base bitmap own.

Lemma ok_ext own' : (∀ o, own' o = own o) → ok_owned base bitmap own'.
Proof.
  intros He. destruct Hok as [Hr Hd Hb]. split.
  - intros o r. rewrite He. apply Hr.
  - intros o o' r r' a. rewrite !He. apply Hd.
  - intros p Hp. rewrite (Hb p Hp). by setoid_rewrite He.
Qed.

Lemma ok_owner_page o r a :
  own o = Some r → in_run r a → 0 ≤ (a - base) / 4096 ∧
  Z.testbit bitmap ((a - base) / 4096) = true ∧
  in_run r (base + (a - base) / 4096 * 4096).
Proof.
  intros Ho Ha. destruct (own_range _ _ _ Hok o r Ho) as (f & H1 & H2 & H3 & H4).
  destruct r as [ptr n]; cbn in *; subst ptr. apply in_run_floor in Ha as [Ha Hp].
  split_and!; [lia| |done]. apply (own_bitmap _ _ _ Hok); [lia|eauto].
Qed.

(** A successful compare-and-exchange. *)
Lemma ok_acquire o first pages :
  own o = None → 1 ≤ pages → 0 ≤ first → first + pages ≤ 64 →
  Z.land bitmap (page_mask pages first) = 0 →
  ok_owned base (Z.lor bitmap (page_mask pages first))
    (<[o := Some (base + first * 4096, pages)]> own).
Proof.
  intros Ho H1 H2 H3 Hm.
  assert (∀ o' r a, own o' = Some r → in_run r a →
            ¬ in_run (base + first * 4096, pages) a) as Hfresh.
  { intros o' r a Ho' Ha [_ Hp]%in_run_floor.
    destruct (ok_owner_page o' r a Ho' Ha) as (_ & Hb & _).
    by rewrite (mask_free _ _ _ _ H1 H2 H3 Hm Hp) in Hb. }
  split.
  - intros o' r. destruct (decide (o' = o)) as [->|Hne].
    + rewrite fn_lookup_insert. intros [= <-]. by exists first.
    + rewrite fn_lookup_insert_ne by done. apply (own_range _ _ _ Hok).
  - intros o1 o2 r1 r2 a. destruct (decide (o1 = o)) as [->|H1'], (decide (o2 = o)) as [->|H2'];
      rewrite ?fn_lookup_insert, ?fn_lookup_insert_ne by done; [done|..].
    + intros [= <-] Hr Ha Ha'. by destruct (Hfresh o2 r2 a).
    + intros Hr [= <-] Ha Ha'. by destruct (Hfresh o1 r1 a).
    + apply (own_disjoint _ _ _ Hok).
  - intros p Hp. rewrite Z.lor_spec, orb_true_iff, (own_bitmap _ _ _ Hok) by done.
    rewrite page_mask_spec by done. split.
    + intros [(o' & r & Ho' & Hr)|Hr].
      * exists o', r. rewrite fn_lookup_insert_ne by congruence. done.
      * exists o, (base + first * 4096, pages). rewrite fn_lookup_insert.
        split; [done|]. apply in_run_page. zb. lia.
    + intros (o' & r & Ho' & Hr). destruct (decide (o' = o)) as [->|Hne].
      * rewrite fn_lookup_insert in Ho'. injection Ho' as <-. apply in_run_page in Hr.
        right. zb. lia.
      * rewrite fn_lookup_insert_ne in Ho' by done. left. eauto.
Qed.

(** Clearing the mask of an owned run. *)
Lemma ok_release o first pages :
  own o = Some (base + first * 4096, pages) →
  ok_owned base (Z.land bitmap (bnot 64 (page_mask pages first))) (<[o := None]> own).
Proof.
  intros Ho. destruct (own_range _ _ _ Hok _ _ Ho) as (f & H1 & H2 & H3 & H4); cbn in *.
  assert (f = first) as -> by lia.
  assert (∀ o' r, (<[o := None]> own) o' = Some r → o' ≠ o ∧ own o' = Some r) as Hother.
  { intros o' r. destruct (decide (o' = o)) as [->|Hne];
      [by rewrite fn_lookup_insert|by rewrite fn_lookup_insert_ne]. }
  split.
  - intros o' r [_ H]%Hother. by apply (own_range _ _ _ Hok o').
  - intros o1 o2 r1 r2 a [_ Ha]%Hother [_ Hb]%Hother. by apply (own_disjoint _ _ _ Hok).
  - intros p Hp. rewrite Z.land_spec, bnot_spec, page_mask_spec, andb_true_iff by lia.
    rewrite (own_bitmap _ _ _ Hok) by done. split.
    + intros [(o' & r & Ho' & Hr) Hm]. exists o', r. rewrite fn_lookup_insert_ne; [done|].
      intros <-. rewrite Ho in Ho'. injection Ho' as <-. apply in_run_page in Hr.
      revert Hm. zcase; lia || done.
    + intros (o' & r & [Hne Ho']%Hother & Hr). split; [eauto|].
      assert (¬ first ≤ p < first + pages) as Hm.
      { intros Hin. apply Hne. apply (own_disjoint _ _ _ Hok o' o r _ (base + p * 4096) Ho' Ho Hr).
        by apply in_run_page. }
      destruct (own_range _ _ _ Hok _ _ Ho') as (f' & ? & ? & ? & E).
      destruct r as [rp rn]; cbn in *; subst rp. apply in_run_page in Hr.
      zcase; lia || done.
Qed.

(** Handing a run over to another owner. *)
Lemma ok_move o o' r :
  own o = Some r → own o' = None →
  ok_owned base bitmap (<[o' := Some r]> (<[o := None]> own)).
Proof.
  intros Ho Ho'. set (new := <[o' := Some r]> (<[o := None]> own)).
  assert (∀ x y, new x = Some y → (x = o' ∧ y = r) ∨ (x ≠ o' ∧ x ≠ o ∧ own x = Some y)) as Hnew.
  { intros x y. unfold new. destruct (decide (x = o')) as [->|Hx].
    - rewrite fn_lookup_insert. intros [= ->]. by left.
    - rewrite fn_lookup_insert_ne by done. destruct (decide (x = o)) as [->|Hx'];
        [by rewrite fn_lookup_insert|]. rewrite fn_lookup_insert_ne by done. by right. }
  split.
  - intros x y [[-> ->]|(_ & _ & Hy)]%Hnew; by eapply (own_range _ _ _ Hok).
  - intros x x' y y' a [[-> ->]|(? & ? & Hy)]%Hnew [[-> ->]|(? & ? & Hy')]%Hnew Ha Ha'; [done|..].
    + by destruct (own_disjoint _ _ _ Hok o x' r y' a).
    + by destruct (own_disjoint _ _ _ Hok x o y r a).
    + by eapply (own_disjoint _ _ _ Hok).
  - intros p Hp. rewrite (own_bitmap _ _ _ Hok) by done. split.
    + intros (x & y & Hx & Hin). destruct (decide (x = o)) as [->|Hne].
      * exists o', y. split; [|done]. unfold new. rewrite fn_lookup_insert. congruence.
      * exists x, y. split; [|done]. unfold new.
        rewrite !fn_lookup_insert_ne by congruence. done.
    + intros (x & y & [[-> ->]|(_ & _ & Hx)]%Hnew & Hin); eauto.
Qed.
End ownership.

(** ** The invariant is kept *)

(** A fault-free arena: page aligned, below 4 GiB. *)
Definition base_ok (base : Z) : Prop := 0 < base ≤ umax 32 ∧ base mod 4096 = 0.

Lemma owned_thread m h' i t o :
  heap_base h' = heap_base (heap m) →
  owned (MkMachine h' (<[i := t]> (threads m)) (live m)) o =
  (<[Thread i := thread_run (heap_base (heap m)) t]> (owned m)) o.
Proof.
  intros Hb. destruct (decide (o = Thread i)) as [->|Hne].
  - rewrite fn_lookup_insert. cbn. by rewrite lookup_insert_eq, Hb.
  - rewrite fn_lookup_insert_ne by done. destruct o as [p|j]; cbn; [done|].
    rewrite lookup_insert_ne, Hb by congruence. done.
Qed.

Lemma fn_insert_id {A B} `{EqDecision A} (f : A → B) a b x : f a = b → (<[a := b]> f) x = f x.
Proof.
  intros <-. destruct (decide (x = a)) as [->|];
    [by rewrite fn_lookup_insert|by rewrite fn_lookup_insert_ne].
Qed.

Lemma thread_ok_same h h' t :
  heap_base h' = heap_base h → memory h' = memory h → thread_ok h t → thread_ok h' t.
Proof. intros Hb Hm. destruct t as [l []|[]]; cbn; by rewrite ?Hb, ?Hm. Qed.

(** A byte written outside the run of a call does not disturb it. *)
Lemma thread_ok_write h t a v :
  (∀ r, thread_run (heap_base h) t = Some r → ¬ in_run r a) →
  thread_ok h t → thread_ok (write_byte a v h) t.
Proof.
  intros Hout. destruct t as [l [ | | |ptr pages d|ptr pages|ptr]|pc]; try done; cbn in *.
  - intros (-> & Hd & Hz). split_and!; [done|lia..|]. intros x Hx.
    rewrite lookup_insert_ne by (specialize (Hout _ eq_refl); unfold in_run in Hout; cbn in *; lia).
    by apply Hz.
  - intros (-> & Hz). split; [done|]. intros x Hx.
    rewrite lookup_insert_ne by (specialize (Hout _ eq_refl); unfold in_run in Hout; cbn in *; lia).
    by apply Hz.
  - intros Hz Hp x Hx. rewrite (proj2 (Z.eqb_neq _ _) Hp) in Hout.
    rewrite lookup_insert_ne by (specialize (Hout _ eq_refl); unfold in_run in Hout; cbn in *; lia).
    by apply Hz.
Qed.

Lemma thread_inv base m h' i t :
  inv base m → heap_base h' = base →
  ok_owned base (heap_bitmap h') (<[Thread i := thread_run base t]> (owned m)) →
  thread_ok h' t → (∀ j u, j ≠ i → threads m !! j = Some u → thread_ok h' u) →
  inv base (MkMachine h' (<[i := t]> (threads m)) (live m)).
Proof.
  intros [<- Hown Hth] Hb Hok Ht Hother. split; cbn; [done| |].
  - eapply ok_ext; [exact Hok|]. intros o. by apply owned_thread.
  - intros j u. destruct (decide (j = i)) as [->|Hne].
    + rewrite lookup_insert_eq. by intros [= <-].
    + rewrite lookup_insert_ne by done. by apply Hother.
Qed.

(** A thread that keeps its run. *)
Lemma thread_inv_quiet base m h' i t t' :
  inv base m → threads m !! i = Some t → heap_base h' = base →
  heap_bitmap h' = heap_bitmap (heap m) → memory h' = memory (heap m) →
  thread_run base t' = thread_run base t → thread_ok h' t' →
  inv base (MkMachine h' (<[i := t']> (threads m)) (live m)).
Proof.
  intros Hinv Hi Hb Hbm Hm Hr Ht. pose proof Hinv as [Hb0 Hown Hth].
  apply thread_inv; [done..| |done|].
  - rewrite Hbm. eapply ok_ext; [exact Hown|]. intros o. apply fn_insert_id. cbn.
    by rewrite Hi, Hr, Hb0.
  - intros j u _ Hj. apply (thread_ok_same (heap m)); [congruence|done|by eapply Hth].
Qed.

Lemma alloc_run_inv base m i l pc sp :
  inv base m → base_ok base → threads m !! i = Some (TAlloc l pc) →
  ∃ pc' h', alloc_step sp pc (heap m) = (Ok pc', h') ∧
    inv base (MkMachine h' (<[i := TAlloc l pc']> (threads m)) (live m)).
Proof.
  intros Hinv Hbase Hi. pose proof Hinv as [Hb Hown Hth].
  pose proof (Hth i _ Hi) as Hpc. pose proof (layout_pages_pos l) as [Hpos _].
  destruct pc as [l'|b n f|b n f ob|ptr n d|ptr n|ptr]; cbn in Hpc |- *.
  - subst l'. repeat case_match; zb; eexists _, _; (split; [done|]);
      (eapply thread_inv_quiet; try done); cbn; unfold HEAP_PAGES in *; try lia.
  - eexists _, _. split; [done|]. by eapply thread_inv_quiet.
  - destruct Hpc as (-> & -> & Hf0 & Hf).
    destruct (Z.eqb_spec (Z.land ob (page_mask (layout_pages l) f)) 0) as [Hm|Hm]; cbn.
    + destruct (negb sp && (heap_bitmap (heap m) =? ob)) eqn:Hcas; [|].
      * apply andb_true_iff in Hcas as [_ <-%Z.eqb_eq].
        unfold umul, uadd. rewrite (proj2 (Z.ltb_lt _ _)) by lia. cbn.
        rewrite (proj2 (Z.ltb_lt _ _)) by (unfold base_ok, umax in *; lia).
        eexists _, _. split; [done|]. apply thread_inv; cbn; [done..| | |].
        -- rewrite Hb. apply ok_acquire; try done. cbn. by rewrite Hi.
        -- split_and!; [done|lia..|]. intros; lia.
        -- intros j u _ Hj. by apply (thread_ok_same (heap m)); [..|eapply Hth].
      * eexists _, _. split; [done|]. by eapply thread_inv_quiet.
    + case_match; zb; eexists _, _; (split; [done|]); (eapply thread_inv_quiet; try done);
        cbn; unfold HEAP_PAGES in *; try lia.
  - destruct Hpc as (-> & Hd & Hz). destruct (Z.ltb_spec d (layout_pages l * 4096)).
    + eexists _, _. split; [done|]. apply thread_inv; cbn; [done..| | |].
      * eapply ok_ext; [exact Hown|]. intros o. apply fn_insert_id. cbn. by rewrite Hi.
      * split_and!; [done|lia..|]. intros x Hx. destruct (decide (x = d)) as [->|];
          [apply lookup_insert_eq|]. rewrite lookup_insert_ne by lia. apply Hz. lia.
      * intros j u Hne Hj. apply thread_ok_write; [|by eapply Hth]. intros r Hr Hin.
        assert (Thread j = Thread i) as [=]; [|done].
        apply (own_disjoint _ _ _ Hown (Thread j) (Thread i) r (ptr, layout_pages l) (ptr + d));
          cbn; [by rewrite Hj|by rewrite Hi|done|unfold in_run; cbn; lia].
    + eexists _, _. split; [done|]. eapply thread_inv_quiet; try done. cbn. split; [done|].
      intros x Hx. apply Hz. lia.
  - destruct Hpc as (-> & Hz).
    destruct (own_range _ _ _ Hown (Thread i) (ptr, layout_pages l)) as (f & ? & ? & ? & E);
      [cbn; by rewrite Hi|]. cbn in E.
    assert (ptr ≠ 0) as Hptr by (unfold base_ok in *; lia).
    eexists _, _. split; [done|]. (eapply thread_inv_quiet; try done); cbn;
      by rewrite ?(proj2 (Z.eqb_neq _ _) Hptr).
  - eexists _, _. split; [done|]. by eapply thread_inv_quiet.
Qed.

Lemma dealloc_check_owned base ptr l f :
  base_ok base → 0 ≤ f → f + layout_pages l ≤ 64 → ptr = base + f * 4096 →
  dealloc_check base ptr l = Ok (DClear (layout_pages l) f).
Proof.
  intros [Hb Hm] Hf Hp ->. pose proof (layout_pages_pos l) as [Hpos _].
  assert ((base + f * 4096) mod 4096 = 0) as Hal by (by rewrite Z.mod_add).
  assert ((base + f * 4096 - base) / 4096 = f) as Hdiv
    by (replace (base + f * 4096 - base) with (f * 4096) by lia; by apply Z.div_mul).
  unfold dealloc_check, uadd, HEAP_BYTES, HEAP_PAGES, umax in *. cbv zeta. rewrite Hdiv, Hal.
  rewrite (proj2 (Z.eqb_neq base 0)), (proj2 (Z.ltb_ge (base + f * 4096) base)) by lia. cbn.
  rewrite (proj2 (Z.ltb_lt (base + 64 * 4096) (2 ^ 64))) by lia. cbn.
  rewrite (proj2 (Z.leb_gt (base + 64 * 4096) (base + f * 4096))) by lia. cbn.
  rewrite (proj2 (Z.ltb_ge 64 (layout_pages l))) by lia.
  rewrite (proj2 (Z.ltb_lt (f + layout_pages l) (2 ^ 64))) by lia. cbn.
  by rewrite (proj2 (Z.ltb_ge 64 (f + layout_pages l))) by lia.
Qed.

Lemma dealloc_run_inv base m i pc :
  inv base m → base_ok base → threads m !! i = Some (TFree pc) →
  ∃ pc' h', dealloc_step pc (heap m) = (Ok pc', h') ∧
    inv base (MkMachine h' (<[i := TFree pc']> (threads m)) (live m)).
Proof.
  intros Hinv Hbase Hi. pose proof Hinv as [Hb Hown Hth].
  pose proof (Hth i _ Hi) as Hpc.
  destruct pc as [ptr l|n f|]; cbn in Hpc |- *.
  - destruct (own_range _ _ _ Hown (Thread i) (ptr, layout_pages l)) as (f & ? & ? & ? & E);
      [cbn; by rewrite Hi|]; cbn in *.
    rewrite Hb, (dealloc_check_owned base ptr l f) by done.
    eexists _, _. split; [done|]. (eapply thread_inv_quiet; try done); cbn; by rewrite ?E.
  - eexists _, _. split; [done|]. apply thread_inv; cbn; [done..| |done|].
    + apply ok_release; [done|]. cbn. by rewrite Hi, <- Hb.
    + intros j u _ Hj. by apply (thread_ok_same (heap m)); [..|eapply Hth].
  - eexists _, _. split; [done|]. by eapply thread_inv_quiet.
Qed.

(** A call that returns, possibly leaving its run to the client. *)
Lemma return_inv base m i t lv :
  inv base m → threads m !! i = Some t →
  ok_owned base (heap_bitmap (heap m))
    (owned (MkMachine (heap m) (delete i (threads m)) lv)) →
  inv base (MkMachine (heap m) (delete i (threads m)) lv).
Proof.
  intros [Hb Hown Hth] Hi Hok. split; cbn; [done|done|].
  intros j u [_ Hj]%lookup_delete_Some. by eapply Hth.
Qed.

Lemma owned_client_free base m i ptr n :
  inv base m → owned m (Thread i) = Some (ptr, n) → live m !! ptr = None.
Proof.
  intros [_ Hown _] Ho. destruct (live m !! ptr) as [l|] eqn:Hl; [|done].
  assert (owned m (Client ptr) = Some (ptr, layout_pages l)) as Hc by (cbn; by rewrite Hl).
  pose proof (layout_pages_pos l) as [? _].
  destruct (own_range _ _ _ Hown _ _ Ho) as (f & ? & Hn & _); cbn in Hn.
  enough (Thread i = Client ptr) by done.
  apply (own_disjoint _ _ _ Hown _ _ _ _ ptr Ho Hc); unfold in_run; cbn; lia.
Qed.

Lemma step_inv base m m' : base_ok base → inv base m → step m m' → inv base m'.
Proof.
  intros Hbase Hinv Hstep. pose proof Hinv as [Hb Hown Hth].
  destruct Hstep as [i l m Hi|i l pc sp pc' h' m Hi Hs|i l ptr m Hi|i ptr l m Hi Hl
                    |i pc pc' h' m Hi Hs|i m Hi|ptr l a v m Hl Ha].
  - apply thread_inv; [done..| |done|intros j u _; apply Hth].
    eapply ok_ext; [exact Hown|]. intros o. apply fn_insert_id. cbn. by rewrite Hi.
  - destruct (alloc_run_inv base m i l pc sp Hinv Hbase Hi) as (pc1 & h1 & E & H).
    rewrite E in Hs. by injection Hs as <- <-.
  - apply (return_inv base m i _ _ Hinv Hi). destruct (Z.eqb_spec ptr 0) as [->|Hp].
    + eapply ok_ext; [exact Hown|]. intros [p|j]; [done|]. cbn.
      destruct (decide (j = i)) as [->|]; [by rewrite lookup_delete_eq, Hi|].
      by rewrite lookup_delete_ne.
    + assert (owned m (Thread i) = Some (ptr, layout_pages l)) as Ho
        by (cbn; rewrite Hi; cbn; by rewrite (proj2 (Z.eqb_neq _ _) Hp)).
      pose proof (owned_client_free _ _ _ _ _ Hinv Ho) as Hfree.
      eapply ok_ext; [apply (ok_move _ _ _ Hown (Thread i) (Client ptr) _ Ho)|].
      { cbn. by rewrite Hfree. }
      intros [p|j]; cbn.
      * destruct (decide (p = ptr)) as [->|].
        { by rewrite fn_lookup_insert, lookup_insert_eq. }
        rewrite fn_lookup_insert_ne, fn_lookup_insert_ne, lookup_insert_ne by congruence. done.
      * rewrite fn_lookup_insert_ne by done. destruct (decide (j = i)) as [->|].
        { by rewrite fn_lookup_insert, lookup_delete_eq. }
        rewrite fn_lookup_insert_ne, lookup_delete_ne by congruence. done.
  - split; cbn; [done| |].
    + eapply ok_ext; [apply (ok_move _ _ _ Hown (Client ptr) (Thread i) (ptr, layout_pages l))|];
        [cbn; by rewrite Hl|cbn; by rewrite Hi|].
      intros [p|j]; cbn.
      * rewrite fn_lookup_insert_ne by done. destruct (decide (p = ptr)) as [->|].
        { by rewrite fn_lookup_insert, lookup_delete_eq. }
        rewrite fn_lookup_insert_ne, lookup_delete_ne by congruence. done.
      * destruct (decide (j = i)) as [->|].
        { by rewrite fn_lookup_insert, lookup_insert_eq. }
        rewrite fn_lookup_insert_ne, fn_lookup_insert_ne, lookup_insert_ne by congruence. done.
    + intros j u. destruct (decide (j = i)) as [->|].
      * rewrite lookup_insert_eq. by intros [= <-].
      * rewrite lookup_insert_ne by done. apply Hth.
  - destruct (dealloc_run_inv base m i pc Hinv Hbase Hi) as (pc1 & h1 & E & H).
    rewrite E in Hs. by injection Hs as <- <-.
  - apply (return_inv base m i _ _ Hinv Hi). eapply ok_ext; [exact Hown|].
    intros [p|j]; [done|]. cbn. destruct (decide (j = i)) as [->|];
      [by rewrite lookup_delete_eq, Hi|by rewrite lookup_delete_ne].
  - split; cbn; [done|exact Hown|]. intros j u Hj. apply thread_ok_write; [|by eapply Hth].
    intros r Hr Hin. pose proof (layout_pages_pos l) as [_ Hsz].
    assert (Thread j = Client ptr); [|done].
    apply (own_disjoint _ _ _ Hown _ _ r (ptr, layout_pages l) a);
      cbn; [by rewrite Hj|by rewrite Hl|done|unfold in_run; cbn; lia].
Qed.

Lemma reserve_boot_heap_Ok st addr mem h :
  u64 addr → reserve_boot_heap st addr mem = Ok h → base_ok addr ∧ h = MkHeap addr 0 0 mem.
Proof.
  unfold reserve_boot_heap, base_ok, in_u. intros Ht (u & Hu & [= <-])%res_bind_Ok.
  apply bail_if_Ok in Hu. zb. destruct Hu as [[[Hst Ha0] Ha1] Hal].
  change 4095 with (Z.ones 12) in Hal. rewrite Z.land_ones in Hal by lia.
  split_and!; [lia|lia|exact Hal|done].
Qed.

Lemma booted_inv addr mem : inv addr (booted (MkHeap addr 0 0 mem)).
Proof.
  split; cbn; [done| |by intros i t; rewrite lookup_empty].
  split; [intros [p|i]; cbn; by rewrite lookup_empty..|].
  intros p Hp. rewrite Z.testbit_0_l. split; [done|].
  intros ([q|i] & r & Ho & _); cbn in Ho; by rewrite lookup_empty in Ho.
Qed.

Lemma reachable_heap st addr mem h m :
  u64 addr → reserve_boot_heap st addr mem = Ok h → rtc step (booted h) m → base_ok addr ∧ inv addr m.
Proof.
  intros Ha [Hb ->]%reserve_boot_heap_Ok Hr; [|done]. split; [done|].
  pose proof (booted_inv addr mem) as Hi. revert Hi. induction Hr as [|x y z Hs _ IH]; [done|].
  intros Hi. apply IH. by eapply step_inv.
Qed.

(** ** A call on its own *)

(** One step of a call that nobody disturbs. *)
Inductive alone : alloc_pc * HeapState → alloc_pc * HeapState → Prop :=
| alone_step pc h pc' h' :
    alloc_step false pc h = (Ok pc', h') → alone (pc, h) (pc', h').

(** [n] zero bytes from [a]. *)
Fixpoint zeroes (a : Z) (n : nat) (mem : gmap Z Z) : gmap Z Z :=
  match n with
  | O => mem
  | S n => <[a + n := 0]> (zeroes a n mem)
  end.

Lemma alone_zero base bm cnt ptr pages mem (d : nat) :
  0 ≤ pages → d ≤ pages * 4096 →
  rtc alone (AZero ptr pages d, MkHeap base bm cnt (zeroes ptr d mem))
    (ADone ptr, MkHeap base bm (wrap 64 (cnt + 1)) (zeroes ptr (Z.to_nat (pages * 4096)) mem)).
Proof.
  intros Hp Hd. remember (Z.to_nat (pages * 4096) - d)%nat as k eqn:Hk.
  revert d Hd Hk. induction k as [|k IH]; intros d Hd Hk.
  - assert (d = Z.to_nat (pages * 4096)) as -> by lia.
    eapply rtc_l; [constructor; cbn; by rewrite (proj2 (Z.ltb_ge _ _)) by lia|].
    apply rtc_once. by constructor.
  - eapply rtc_l; [constructor; cbn; by rewrite (proj2 (Z.ltb_lt _ _)) by lia|].
    unfold write_byte; cbn. replace (Z.of_nat d + 1) with (Z.of_nat (S d)) by lia.
    apply (IH (S d)); lia.
Qed.

Definition window (b pages f : Z) : Prop := ∀ p, f ≤ p < f + pages → Z.testbit b p = false.

Lemma window_land b pages f :
  1 ≤ pages → 0 ≤ f → f + pages ≤ 64 →
  window b pages f ↔ Z.land b (page_mask pages f) = 0.
Proof.
  intros H1 H2 H3. split; [|intros Hl p Hp; by eapply mask_free].
  intros Hw. apply Z.bits_inj'. intros p Hp.
  rewrite Z.land_spec, Z.testbit_0_l, page_mask_spec by done. zcase; rewrite ?andb_false_r; try done.
  rewrite Hw by lia. done.
Qed.

(** A free candidate is taken, cleared and counted. *)
Lemma alone_take base bm cnt mem pages f :
  base_ok base → 1 ≤ pages → 0 ≤ f → f + pages ≤ 64 → Z.land bm (page_mask pages f) = 0 →
  rtc alone (ALoad base pages f, MkHeap base bm cnt mem)
    (ADone (base + f * 4096),
     MkHeap base (Z.lor bm (page_mask pages f)) (wrap 64 (cnt + 1))
       (zeroes (base + f * 4096) (Z.to_nat (pages * 4096)) mem)).
Proof.
  intros Hb Hp Hf Hs Hw. eapply rtc_l; [by constructor|].
  eapply rtc_l; [|apply (alone_zero _ _ _ _ _ _ 0); lia].
  constructor. cbn. rewrite Hw, !Z.eqb_refl. cbn. unfold umul, uadd.
  rewrite (proj2 (Z.ltb_lt _ _)) by lia. cbn.
  by rewrite (proj2 (Z.ltb_lt _ _)) by (unfold base_ok, umax in *; lia).
Qed.

(** The scan from candidate [f] finds the first window at or after it. *)
Lemma alone_scan base bm cnt mem pages f :
  base_ok base → 1 ≤ pages → 0 ≤ f → f + pages ≤ 64 →
  ∃ ptr h', rtc alone (ALoad base pages f, MkHeap base bm cnt mem) (ADone ptr, h') ∧
  ((ptr = 0 ∧ h' = MkHeap base bm cnt mem ∧
    ∀ g, f ≤ g → g + pages ≤ 64 → ¬ window bm pages g) ∨
   ∃ g, ptr = base + g * 4096 ∧ f ≤ g ∧ g + pages ≤ 64 ∧ window bm pages g ∧
     (∀ g', f ≤ g' < g → ¬ window bm pages g') ∧
     h' = MkHeap base (Z.lor bm (page_mask pages g)) (wrap 64 (cnt + 1))
            (zeroes ptr (Z.to_nat (pages * 4096)) mem)).
Proof.
  intros Hb Hp. remember (Z.to_nat (64 - pages - f)) as k eqn:Hk.
  revert f Hk. induction k as [|k IH]; intros f Hk Hf Hs.
  all: destruct (decide (Z.land bm (page_mask pages f) = 0)) as [Hw|Hw].
  1, 3: exists (base + f * 4096); eexists; split; [by apply alone_take|];
    right; exists f; split_and!; [done|lia|lia|by apply window_land|intros; lia|reflexivity].
  - exists 0. eexists. split.
    + eapply rtc_l; [by constructor|]. apply rtc_once. constructor. cbn.
      rewrite (proj2 (Z.eqb_neq _ _) Hw). cbn.
      by rewrite (proj2 (Z.ltb_ge _ _)) by (unfold HEAP_PAGES; lia).
    + left. split_and!; [done|done|]. intros g ? ?. assert (g = f) as -> by lia.
      by rewrite window_land.
  - destruct (IH (f + 1)) as (ptr & h' & Hrun & Hres); [lia..|].
    exists ptr, h'. split.
    + eapply rtc_l; [by constructor|]. eapply rtc_l; [|exact Hrun]. constructor. cbn.
      rewrite (proj2 (Z.eqb_neq _ _) Hw). cbn.
      by rewrite (proj2 (Z.ltb_lt _ _)) by (unfold HEAP_PAGES; lia).
    + assert (¬ window bm pages f) as Hnf by (by rewrite window_land).
      destruct Hres as [(-> & -> & Hno)|(g & Hptr & Hg & Hgs & Hwin & Hno & Hh)].
      * left. split_and!; [done|done|]. intros g ? ?. destruct (decide (g = f)) as [->|]; [done|].
        apply Hno; lia.
      * right. exists g. split_and!; [done|lia|done|done| |done].
        intros g' Hg'. destruct (decide (g' = f)) as [->|]; [done|]. apply Hno. lia.
Qed.

(** C39. An undisturbed [alloc] returns: for every layout it stops with the first window of
    enough free pages, which it marks and clears, or, when the layout is over-aligned, too
    large or no window is free, with the null pointer and the heap untouched. *)
Theorem alloc_first_fit h l :
  base_ok (heap_base h) →
  ∃ ptr h', rtc alone (AStart l, h) (ADone ptr, h') ∧
  ((ptr = 0 ∧ h' = h ∧ (align l ≤ 4096 → ∀ g, 0 ≤ g → g + layout_pages l ≤ 64 →
      ¬ window (heap_bitmap h) (layout_pages l) g)) ∨
   ∃ g, align l ≤ 4096 ∧ ptr = heap_base h + g * 4096 ∧ 0 ≤ g ∧ g + layout_pages l ≤ 64 ∧
     window (heap_bitmap h) (layout_pages l) g ∧
     (∀ g', 0 ≤ g' < g → ¬ window (heap_bitmap h) (layout_pages l) g') ∧
     heap_bitmap h' = Z.lor (heap_bitmap h) (page_mask (layout_pages l) g) ∧
     memory h' = zeroes ptr (Z.to_nat (layout_pages l * 4096)) (memory h)).
Proof.
  intros Hb. pose proof (layout_pages_pos l) as [Hp _].
  assert ((heap_base h =? 0) = false) as Hb0 by (apply Z.eqb_neq; unfold base_ok in Hb; lia).
  destruct (Z.ltb_spec 4096 (align l)) as [Ha|Ha].
  { exists 0, h. split; [|left; split_and!; [done|done|lia]].
    apply rtc_once. constructor. cbn. by rewrite Hb0, (proj2 (Z.ltb_lt _ _) Ha). }
  destruct (Z.ltb_spec HEAP_PAGES (layout_pages l)) as [Hl|Hl].
  { exists 0, h. split; [|left; split_and!; [done|done|unfold HEAP_PAGES in *; lia]].
    apply rtc_once. constructor. cbn.
    by rewrite Hb0, (proj2 (Z.ltb_ge _ _) Ha), (proj2 (Z.ltb_lt _ _) Hl). }
  destruct h as [base bm cnt mem]; cbn in *. unfold HEAP_PAGES in *.
  destruct (alone_scan base bm cnt mem (layout_pages l) 0) as (ptr & h' & Hrun & Hres); [done|lia..|].
  exists ptr, h'. split.
  - eapply rtc_l; [|exact Hrun]. constructor. cbn. unfold HEAP_PAGES.
    by rewrite Hb0, (proj2 (Z.ltb_ge _ _) Ha), (proj2 (Z.ltb_ge _ _) Hl).
  - destruct Hres as [(-> & -> & Hno)|(g & -> & Hg & Hgs & Hwin & Hno & ->)].
    + left. split_and!; [done|done|]. intros _. exact Hno.
    + right. exists g. by split_and!.
Qed.

Lemma alloc_first_fit_witness :
  ∃ ptr h', rtc alone (AStart (MkLayout 8192 8), MkHeap 1048576 5 0 ∅) (ADone ptr, h') ∧
    ptr = 1048576 + 3 * 4096 ∧ heap_bitmap h' = 29.
Proof.
  destruct (alloc_first_fit (MkHeap 1048576 5 0 ∅) (MkLayout 8192 8))
    as (ptr & h' & Hrun & Hres).
  { split; [cbn; unfold umax; lia|reflexivity]. }
  exists ptr, h'. split; [exact Hrun|].
  assert (layout_pages (MkLayout 8192 8) = 2) as Hl by reflexivity. rewrite Hl in Hres. cbn in *.
  assert (∀ g, window 5 2 g → g ≠ 0 ∧ g ≠ 1 ∧ g ≠ 2) as H012.
  { intros g Hw. split_and!; intros ->;
      [by pose proof (Hw 0 ltac:(lia))|by pose proof (Hw 2 ltac:(lia))
      |by pose proof (Hw 2 ltac:(lia))]. }
  assert (window 5 2 3) as H3.
  { intros p Hp. assert (p = 3 ∨ p = 4) as [-> | ->] by lia; reflexivity. }
  destruct Hres as [(_ & _ & Hno)|(g & _ & -> & Hg & Hgs & Hw & Hmin & Hb & _)].
  - by destruct (Hno ltac:(lia) 3 ltac:(lia) ltac:(lia)).
  - assert (g = 3) as ->.
    { pose proof (H012 g Hw). destruct (Z.lt_total g 3) as [?|[?|?]]; [lia|done|].
      by destruct (Hmin 3 ltac:(lia)). }
    split; [done|]. rewrite Hb. reflexivity.
Defined.

(** C9. The concurrent page heap is exclusive: in every machine reached from a reserved
    arena by any interleaving of allocations, deallocations and client writes, live
    allocations never share a byte and lie page-aligned inside the arena; a pointer about
    to be returned is not live and its memory is all zero; no step panics; and when no
    call is in progress the bitmap is exactly the set of pages of the live allocations
    (nothing leaks). *)
Theorem heap_exclusive st addr mem h m :
  u64 addr → reserve_boot_heap st addr mem = Ok h → rtc step (booted h) m →
  (∀ p q l k a, live m !! p = Some l → live m !! q = Some k →
     p ≤ a < p + size l → q ≤ a < q + size k → p = q) ∧
  (∀ p l, live m !! p = Some l →
     addr ≤ p ∧ p mod 4096 = 0 ∧ p + size l ≤ addr + HEAP_BYTES) ∧
  (∀ i l ptr, threads m !! i = Some (TAlloc l (ADone ptr)) → ptr ≠ 0 →
     live m !! ptr = None ∧ ∀ x, 0 ≤ x < size l → memory (heap m) !! (ptr + x) = Some 0) ∧
  (∀ i l pc sp, threads m !! i = Some (TAlloc l pc) → (alloc_step sp pc (heap m)).1 ≠ Panic) ∧
  (∀ i pc, threads m !! i = Some (TFree pc) → (dealloc_step pc (heap m)).1 ≠ Panic) ∧
  (threads m = ∅ → ∀ page, 0 ≤ page →
     Z.testbit (heap_bitmap (heap m)) page = true ↔
     ∃ p l, live m !! p = Some l ∧ p ≤ addr + page * 4096 < p + layout_pages l * 4096).
Proof.
  intros Hu Hres Hr. destruct (reachable_heap _ _ _ _ _ Hu Hres Hr) as [Hbase Hinv].
  pose proof Hinv as [Hb Hown Hth].
  assert (∀ p l, live m !! p = Some l → owned m (Client p) = Some (p, layout_pages l)) as Hlive
    by (intros p l Hl; cbn; by rewrite Hl).
  split_and!.
  - intros p q l k a Hp%Hlive Hq%Hlive Ha Ha'.
    pose proof (layout_pages_pos l). pose proof (layout_pages_pos k).
    enough (Client p = Client q) as [= ->] by done.
    apply (own_disjoint _ _ _ Hown _ _ _ _ a Hp Hq); unfold in_run; cbn; lia.
  - intros p l Hp%Hlive. destruct (own_range _ _ _ Hown _ _ Hp) as (f & ? & ? & ? & E); cbn in *.
    pose proof (layout_pages_pos l). destruct Hbase as [? Hm].
    unfold HEAP_BYTES, HEAP_PAGES. subst p. rewrite Z.mod_add by done. lia.
  - intros i l ptr Hi Hp. split.
    + eapply (owned_client_free addr m i); [done|]. cbn. rewrite Hi. cbn.
      by rewrite (proj2 (Z.eqb_neq _ _) Hp).
    + intros x Hx. pose proof (layout_pages_pos l). apply (Hth i _ Hi); [done|lia].
  - intros i l pc sp Hi. destruct (alloc_run_inv addr m i l pc sp Hinv Hbase Hi) as (? & ? & -> & _).
    done.
  - intros i pc Hi. destruct (dealloc_run_inv addr m i pc Hinv Hbase Hi) as (? & ? & -> & _).
    done.
  - intros Hnone page Hp. rewrite (own_bitmap _ _ _ Hown) by done. split.
    + intros ([p|i] & r & Ho & Hin); cbn in Ho; [|by rewrite Hnone, lookup_empty in Ho].
      destruct (live m !! p) as [l|] eqn:Hl; simplify_eq/=. by exists p, l.
    + intros (p & l & Hl & Hin). by exists (Client p), (p, layout_pages l); auto.
Qed.

(** A call on its own is a run of the machine. *)
Lemma alone_run x y m i l :
  rtc alone x y → heap m = x.2 → threads m !! i = Some (TAlloc l x.1) →
  rtc step m (MkMachine y.2 (<[i := TAlloc l y.1]> (threads m)) (live m)).
Proof.
  intros Hr. revert m. induction Hr as [x|x y z Hxy _ IH]; intros m Hh Hi.
  - rewrite insert_id by done. rewrite <- Hh. by destruct m.
  - destruct Hxy as [pc h pc' h' Hs]; cbn in *.
    eapply rtc_l; [eapply (step_alloc_run i l pc false); [done|by rewrite Hh]|].
    specialize (IH (MkMachine h' (<[i := TAlloc l pc']> (threads m)) (live m)) eq_refl).
    cbn in IH. rewrite insert_insert_eq in IH. apply IH. apply lookup_insert_eq.
Qed.

Lemma heap_exclusive_witness :
  ∃ m, rtc step (booted (MkHeap 1048576 0 0 ∅)) m ∧ threads m = ∅ ∧
    live m = {[1048576 := MkLayout 100 8]} ∧
    ∀ page, 0 ≤ page → Z.testbit (heap_bitmap (heap m)) page = true ↔
      ∃ p l, live m !! p = Some l ∧ p ≤ 1048576 + page * 4096 < p + layout_pages l * 4096.
Proof.
  set (l := MkLayout 100 8). set (h := MkHeap 1048576 0 0 ∅).
  assert (base_ok 1048576) as Hb by (split; [unfold umax; lia|reflexivity]).
  assert (rtc alone (AStart l, h) (ADone 1048576, MkHeap 1048576 1 1 (zeroes 1048576 4096 ∅))) as Ha.
  { eapply rtc_l; [by constructor|].
    exact (alone_take 1048576 0 0 ∅ 1 0 Hb ltac:(lia) ltac:(lia) ltac:(lia) eq_refl). }
  eexists. split; [|split_and!; [| |refine (proj2 (proj2 (proj2 (proj2 (proj2
    (heap_exclusive 0 1048576 ∅ h _ _ eq_refl _)))))  _)]].
  - eapply rtc_l; [apply (step_alloc 0 l (booted h)); reflexivity|].
    etrans; [eapply (alone_run _ _ _ 0 l Ha); reflexivity|].
    apply rtc_once. eapply (step_alloc_return 0 l 1048576). apply lookup_insert_eq.
  - reflexivity.
  - reflexivity.
  - split; [lia|reflexivity].
  - eapply rtc_l; [apply (step_alloc 0 l (booted h)); reflexivity|].
    etrans; [eapply (alone_run _ _ _ 0 l Ha); reflexivity|].
    apply rtc_once. eapply (step_alloc_return 0 l 1048576). apply lookup_insert_eq.
  - reflexivity.
Defined.

End Heap.
