(* ===== verification/ModelProbe.v ===== *)
(** * The crate's modules at work together: [kernel_model_probe] in
      [platform/x86_64-pc-uefi-smp-v1/runtime/src/post_firmware.rs]

    Before the processors are released the runtime drives the model crate
    through one boot event, one authorised action with its completion, one
    dispatch, one release/acquire pair, one life of a frame run and one life of
    a DMA mapping.  Here the same calls are composed from the definitions of
    the other files. *)
From S2P Require Import Prelude Capability Frames Smp Scheduler SchedulerProps DmaState Event Policy AtomicModel Registry Target.

Module ModelProbe.
Import Target (PostFirmwareError, Model, op_bind_run).

(** [r.map_err(|_| PostFirmwareError::Model)] on a method of a local object. *)
Definition model {S E A} (m : op S E A) : op S PostFirmwareError A :=
  λ s, let '(r, s) := m s in (map_err (λ _, Model) r, s).

(** The value of a block: its locals go out of scope. *)
Definition scope {S E A} (s : S) (m : op S E A) : res E A := (m s).1.

(** The locals [ingress] and [policy] of the first block. *)
Definition locals : Type := Event.EventSequencer * Policy.KernelPolicy.
Definition ingress {A} (m : op Event.EventSequencer Event.PlatformError A)
    : op locals PostFirmwareError A := zoom fst (λ i s, (i, s.2)) (model m).
Definition policy {A} (m : op Policy.KernelPolicy Policy.PolicyError A)
    : op locals PostFirmwareError A := zoom snd (λ p s, (s.1, p)) (model m).

(** The first block: ingress, policy, authority, completion. *)
Definition event_block (cpus : Smp.CpuSet) : res PostFirmwareError unit :=
  scope (Event.with_topology cpus 8, Policy.policy_default) (
    Target.for_each (Smp.cpuset_iter cpus) (λ cpu, policy (Policy.add_cpu cpu));;
    boot ← ingress (Event.ingress 0 Event.Boot None);
    actions ← policy (Policy.step boot);
    lift (bail_if
      (negb (Policy.b_len actions =? 1)
       || negb match head (Policy.batch_iter actions) with
               | Some (Event.ArmTimer deadline) => deadline =? 1
               | _ => false
               end) Model);;
    '(clock, ledger) ←
      lift (match model (Ledger.mint_root Clock 1 0 CONTROL 0 0) Ledger.ledger_new with
            | (r, ledger) => clock ← r; Ok (clock, ledger)
            end);
    authorized ←
      lift (map_err (λ _, Model) (Event.authorize ledger 0 clock (Event.ArmTimer 1)));
    issued ← ingress (Event.issue (Event.au_action authorized));
    '(completion, event) ← ingress (Event.complete issued 0 None);
    lift (bail_if
      (negb (Event.co_action completion =? Event.act_id issued)
       || negb (bool_decide (Event.correlation event = Some (Event.act_id issued)))
       || negb match Event.ev_kind event with Event.Timer => true | _ => false end) Model)).

(** Its end: a task is created and dispatched. *)
Definition dispatch_block (cpus : Smp.CpuSet) : res PostFirmwareError unit :=
  scope (Scheduler.with_online_cpus cpus) (
    model (Scheduler.create_task 1 0);;
    task ← model (Scheduler.dispatch 0);
    consistent ← reads Scheduler.invariant_holds;
    lift (bail_if (negb (bool_decide (task = Some 1)) || negb consistent) Model)).

(** The second block: an acquire load observes the release store. *)
Definition atomic_block : res PostFirmwareError unit :=
  scope AtomicModel.model_new (
    model (AtomicModel.register 1 0);;
    release ← model (AtomicModel.model_store 0 1 7 AtomicModel.Release);
    '(value, acquire) ← model (AtomicModel.model_load 1 1 AtomicModel.Acquire);
    observed ← readr (λ s, ok_or Model
      (List.find (λ e, AtomicModel.e_id e =? acquire) (AtomicModel.events s)));
    lift (bail_if
      (negb (value =? 7)
       || negb (bool_decide (AtomicModel.happens_after_release observed = Some release))) Model)).

(** The third block: a run is allocated, split, joined, lent, reclaimed, released. *)
Definition frame_block : res PostFirmwareError unit :=
  scope FrameAllocator.frames_new (
    model (FrameAllocator.add_region 2097152 8);;
    run ← model (FrameAllocator.allocate 8 1);
    '(left_run, right_run) ← model (FrameAllocator.split_allocated run 3);
    joined ← model (FrameAllocator.join_allocated left_run right_run);
    lent ← model (FrameAllocator.lend joined 9);
    reclaimed ← model (FrameAllocator.reclaim lent 9);
    model (FrameAllocator.release reclaimed)).

(** The fourth block: a region is pinned, mapped for its device, unmapped, unpinned. *)
Definition dma_block : res PostFirmwareError unit :=
  '(region, domain) ← scope Ledger.ledger_new (
    region ← model (Ledger.mint_root Dma 1 0 (rights_union READ WRITE) 4194304 4096);
    domain ← model (Ledger.mint_root IommuDomainKind 7 0 MAP 4294967296 65536);
    mret (region, domain));
  scope DmaState.dma_new (
    model (DmaState.register_domain
      (DmaState.MkDomain 7 4 4294967296 65536 DmaState.Present));;
    mapping ← model (DmaState.pin region
      (DmaState.MkPin 2 4 7 4194304 4096 DmaState.Bidirectional));
    _ ← model (DmaState.map_domain 2 mapping (Some domain) 4294967296);
    _ ← model (DmaState.unmap_domain 2 mapping);
    model (DmaState.unpin 2 mapping)).

Definition kernel_model_probe (online heap_bitmap : Z) : res PostFirmwareError Z :=
  let cpus := Smp.from_ids (wrap 16 <$> seqZ 0 online) in
  event_block cpus;;
  dispatch_block cpus;;
  atomic_block;;
  frame_block;;
  dma_block;;
  bail_if (negb (heap_bitmap =? 0)
           || negb (Nat.eqb (length Registry.X86_64_PC_UEFI_SMP_V1)
                      Registry.X86_64_PC_UEFI_SMP_V1_OPERATION_COUNT)) Model;;
  Ok (Z.of_nat (length Registry.X86_64_PC_UEFI_SMP_V1)).

(** ** Proof *)

Definition fresh (cpu : Z) : Policy.CpuShard := Policy.MkShard cpu 0 0 0 false.

Lemma model_run {S E A} (m : op S E A) s a s' : m s = (Ok a, s') → model m s = (Ok a, s').
Proof. unfold model. by intros ->. Qed.

Lemma ingress_run {A} (m : op Event.EventSequencer _ A) i p a i' :
  m i = (Ok a, i') → ingress m (i, p) = (Ok a, (i', p)).
Proof. unfold ingress, zoom. cbn. by intros ->%model_run. Qed.

Lemma policy_run {A} (m : op Policy.KernelPolicy _ A) i p a p' :
  m p = (Ok a, p') → policy m (i, p) = (Ok a, (i, p')).
Proof. unfold policy, zoom. cbn. by intros ->%model_run. Qed.

Lemma add_cpu_run c p :
  Policy.shards p !! c = None → Policy.add_cpu c p = (Ok (), Policy.set_shard c (fresh c) p).
Proof. intros Hc. unfold Policy.add_cpu, mbind, op_bind. cbn. by rewrite Hc. Qed.

Lemma add_all l i p :
  NoDup l → (∀ c, c ∈ l → Policy.shards p !! c = None) →
  ∃ p', Target.for_each l (λ cpu, policy (Policy.add_cpu cpu)) (i, p) = (Ok (), (i, p')) ∧
    Policy.last_global_event p' = Policy.last_global_event p ∧
    ∀ c, Policy.shards p' !! c = if bool_decide (c ∈ l) then Some (fresh c) else Policy.shards p !! c.
Proof.
  revert p. induction l as [|c l IH]; intros p Hnd Hnone; cbn.
  { exists p. split_and!; [done|done|]. intros c. by rewrite bool_decide_eq_false_2 by set_solver. }
  apply NoDup_cons in Hnd as [Hc Hnd].
  erewrite op_bind_run by (apply policy_run, add_cpu_run, Hnone; set_solver).
  destruct (IH (Policy.set_shard c (fresh c) p) Hnd) as (p' & Hp & Hl & Hs).
  { intros d Hd. cbn. rewrite lookup_insert_ne by set_solver. apply Hnone. set_solver. }
  exists p'. split_and!; [exact Hp|exact Hl|]. intros d. rewrite Hs. cbn.
  destruct (decide (d = c)) as [->|Hd].
  - rewrite bool_decide_eq_false_2, bool_decide_eq_true_2 by set_solver. by rewrite lookup_insert_eq.
  - rewrite lookup_insert_ne by done. by rewrite (bool_decide_ext (d ∈ c :: l) (d ∈ l)) by set_solver.
Qed.

Section online.
Context (cpus : Smp.CpuSet) (Hcpus : 0 ∈ Smp.members cpus).

Lemma cpus_iter_zero : 0 ∈ Smp.cpuset_iter cpus.
Proof.
  unfold Smp.cpuset_iter, sorted_elements. by rewrite merge_sort_Permutation, elem_of_elements.
Qed.

Lemma cpus_iter_nodup : NoDup (Smp.cpuset_iter cpus).
Proof. unfold Smp.cpuset_iter, sorted_elements. rewrite merge_sort_Permutation. apply NoDup_elements. Qed.

(** The sequencer after [e] events and [a] actions. *)
Definition seq (e a : Z) : Event.EventSequencer :=
  Event.MkSequencer e a (Some cpus) ∅ ∅ 8.

Lemma boot_run :
  Event.ingress 0 Event.Boot None (seq 1 1) = (Ok (Event.MkEvent 0 1 None Event.Boot), seq 2 1).
Proof.
  unfold Event.ingress, Event.offline, Smp.cpuset_contains. op_unfold. cbn.
  by rewrite bool_decide_eq_true_2 by apply Hcpus.
Qed.

Lemma complete_run :
  Event.complete (Event.MkIssued 1 (Event.ArmTimer 1)) 0 None (seq 2 2) =
  (Ok (Event.MkCompletion 1 2 None, Event.MkEvent 0 2 (Some 1) Event.Timer), seq 3 2).
Proof.
  unfold Event.complete, Event.ingress, Event.offline, Smp.cpuset_contains. op_unfold. cbn.
  by rewrite bool_decide_eq_true_2 by apply Hcpus.
Qed.

Lemma step_run p :
  Policy.shards p !! 0 = Some (fresh 0) → Policy.last_global_event p = 0 →
  ∃ b p', Policy.step (Event.MkEvent 0 1 None Event.Boot) p = (Ok b, p') ∧
    Policy.b_len b = 1 ∧ Policy.batch_iter b = [Event.ArmTimer 1].
Proof.
  destruct p as [sh last]. cbn. intros Hs ->. unfold Policy.step, zoom. op_unfold. cbn.
  rewrite Hs. cbn. by do 2 eexists.
Qed.

Lemma event_block_ok : event_block cpus = Ok ().
Proof.
  unfold event_block, scope. change (Event.with_topology cpus 8) with (seq 1 1).
  destruct (add_all (Smp.cpuset_iter cpus) (seq 1 1) Policy.policy_default cpus_iter_nodup)
    as (p & Hp & Hl & Hs); [done|].
  specialize (Hs 0). rewrite bool_decide_eq_true_2 in Hs by apply cpus_iter_zero.
  destruct (step_run p Hs Hl) as (b & p' & Hb & Hlen & Hit).
  erewrite op_bind_run by exact Hp.
  erewrite op_bind_run by apply ingress_run, boot_run.
  erewrite op_bind_run by apply policy_run, Hb.
  rewrite Hlen, Hit.
  erewrite op_bind_run by reflexivity.
  erewrite op_bind_run by reflexivity. cbv beta iota.
  erewrite op_bind_run by reflexivity.
  erewrite op_bind_run by (apply ingress_run; reflexivity).
  erewrite op_bind_run by apply ingress_run, complete_run.
  reflexivity.
Qed.

Lemma online_lookup {A} (x : A) :
  (list_to_map ((λ cpu, (cpu, x)) <$> Smp.cpuset_iter cpus) : gmap Z A) !! 0 = Some x.
Proof.
  apply elem_of_list_to_map.
  - rewrite <- list_fmap_compose. cbn. rewrite list_fmap_id. apply cpus_iter_nodup.
  - apply list_elem_of_fmap. exists 0. split; [done|]. apply cpus_iter_zero.
Qed.

Lemma create_run :
  ∃ s, Scheduler.create_task 1 0 (Scheduler.with_online_cpus cpus) = (Ok (), s) ∧
    Scheduler.queues s !! 0 = Some [1] ∧ Scheduler.current s !! 0 = Some None ∧
    Scheduler.tasks s !! 1 = Some (Scheduler.MkTask Scheduler.Runnable 0).
Proof.
  unfold Scheduler.create_task. op_unfold. cbn. rewrite !online_lookup. cbn.
  eexists. split; [done|]. cbn. by rewrite !lookup_insert_eq, !online_lookup.
Qed.

Lemma dispatch_run s :
  Scheduler.queues s !! 0 = Some [1] → Scheduler.current s !! 0 = Some None →
  Scheduler.tasks s !! 1 = Some (Scheduler.MkTask Scheduler.Runnable 0) →
  ∃ s', Scheduler.dispatch 0 s = (Ok (Some 1), s').
Proof.
  intros Hq Hc Ht. unfold Scheduler.dispatch, Scheduler.pop_local. op_unfold.
  rewrite Hc. cbn. rewrite Hq. cbn. rewrite Ht. cbn. rewrite Hc. by eexists.
Qed.

Lemma dispatch_block_ok : dispatch_block cpus = Ok ().
Proof.
  unfold dispatch_block, scope.
  destruct create_run as (s & Hs & Hq & Hc & Ht). destruct (dispatch_run s Hq Hc Ht) as [s' Hd].
  pose proof (SchedulerProps.sched_inv_new cpus) as Hi.
  apply (SchedulerProps.create_task_inv _ 1 0) in Hi. rewrite Hs in Hi. cbn [snd] in Hi.
  apply (SchedulerProps.dispatch_inv _ 0) in Hi. rewrite Hd in Hi. cbn [snd] in Hi.
  apply SchedulerProps.inv_invariant_holds in Hi.
  erewrite op_bind_run by apply model_run, Hs.
  erewrite op_bind_run by apply model_run, Hd.
  erewrite op_bind_run by reflexivity. unfold lift. cbn. by rewrite Hi.
Qed.
End online.

Lemma event_block_offline : event_block (Smp.from_ids []) = Err Model.
Proof. reflexivity. Qed.

Lemma fixed_blocks : atomic_block = Ok () ∧ frame_block = Ok () ∧ dma_block = Ok ().
Proof. split_and!; vm_compute; reflexivity. Qed.

Lemma model_probe_ok online : u64 online → 1 ≤ online → kernel_model_probe online 0 = Ok 104.
Proof.
  intros Hu Hon. unfold kernel_model_probe. destruct fixed_blocks as (-> & -> & ->).
  assert (0 ∈ Smp.members (Smp.from_ids (wrap 16 <$> seqZ 0 online))) as Hz.
  { cbn. apply elem_of_list_to_set, list_elem_of_fmap. exists 0. split; [done|].
    apply elem_of_seqZ. lia. }
  by rewrite (event_block_ok _ Hz), (dispatch_block_ok _ Hz).
Qed.

(** C18. The components work together: whatever the number of CPUs, the probe that drives
    the event loop, the capability ledger, the policy, the scheduler, the memory model,
    the frame allocator and the DMA state succeeds and reports the 104 registry entries
    exactly when some CPU is online and no heap page is in use; otherwise it returns
    [Model], and it never panics. *)
Theorem model_probe_exact online heap_bitmap :
  u64 online →
  kernel_model_probe online heap_bitmap =
  if bool_decide (1 ≤ online ∧ heap_bitmap = 0) then Ok 104 else Err Model.
Proof.
  intros Hu. unfold kernel_model_probe. destruct fixed_blocks as (-> & -> & ->).
  destruct (decide (1 ≤ online)) as [Hon|Hoff].
  - assert (0 ∈ Smp.members (Smp.from_ids (wrap 16 <$> seqZ 0 online))) as Hz.
    { cbn. apply elem_of_list_to_set, list_elem_of_fmap. exists 0. split; [done|].
      apply elem_of_seqZ. lia. }
    rewrite (event_block_ok _ Hz), (dispatch_block_ok _ Hz). cbn -[Registry.X86_64_PC_UEFI_SMP_V1].
    change (length Registry.X86_64_PC_UEFI_SMP_V1) with 104%nat. cbn.
    case_bool_decide; zcase; cbn; done || lia.
  - replace online with 0 by ulia. change (seqZ 0 0) with (@nil Z). cbn [fmap list_fmap].
    rewrite event_block_offline. cbn. by rewrite bool_decide_eq_false_2 by lia.
Qed.

Lemma model_probe_exact_witness :
  kernel_model_probe 4 0 = Ok 104 ∧ kernel_model_probe 0 0 = Err Model.
Proof.
  split.
  - rewrite (model_probe_exact 4 0) by (split; vm_compute; congruence). reflexivity.
  - rewrite (model_probe_exact 0 0) by (split; vm_compute; congruence). reflexivity.
Defined.

End ModelProbe.
