(* ===== verification/Console.v ===== *)
(** * The serial console: [boundary], [Serial] and [fail] in
      [platform/x86_64-pc-uefi-smp-v1/runtime/src/main.rs]

    Bytes go to the UART behind COM1, which is polled for a bounded time; the
    runtime prints decimal numbers, hexadecimal status codes and strings. *)
From stdpp Require Import strings.
From S2P Require Import Prelude Target.

Module Console.
Import Target.

Definition COM1 : Z := 1016.

Section uart.
Context {W E : Type} `{PortIo W}.

Definition out8 (port value : Z) : op W E unit := modify (port_out 1 port value).
Definition in8 (port : Z) : op W E Z := access (port_in 1 port).

Definition init_serial : op W E unit :=
  out8 (COM1 + 1) 0;;
  out8 (COM1 + 3) 128;;
  out8 COM1 3;;
  out8 (COM1 + 1) 0;;
  out8 (COM1 + 3) 3;;
  out8 (COM1 + 2) 199;;
  out8 (COM1 + 4) 11.

(** A byte is dropped when the transmitter stays busy for 100,000 polls. *)
Definition serial_byte (byte : Z) : op W E unit :=
  _ ← for_pos 100000
        (lsr ← in8 (COM1 + 5);
         if negb (Z.land lsr 32 =? 0) then out8 COM1 byte;; mret (Some ()) else mret None);
  mret ().

(** ** [impl Serial] *)

Definition serial_bytes (bytes : list Z) : op W E unit :=
  for_each bytes (λ byte,
    (if byte =? 10 then serial_byte 13 else mret ());;
    serial_byte byte).

(** The [while] of [usize]: [cursor -= 1] panics below zero, so the cursor
    bounds the loop. *)
Fixpoint digits_loop (cursor : nat) (value : Z) (buffer : list Z) : res E (nat * list Z) :=
  if value =? 0 then Ok (cursor, buffer)
  else
    match cursor with
    | O => Panic
    | S cursor =>
      buffer ← index_set buffer cursor (48 + value mod 10);
      digits_loop cursor (value / 10) buffer
    end.

Definition serial_usize (value : Z) : op W E unit :=
  let buffer := replicate 20 0 in
  let cursor := length buffer in
  if value =? 0 then serial_bytes [48]
  else
    '(cursor, buffer) ← lift (digits_loop cursor value buffer);
    serial_bytes (drop cursor buffer).

(** [b"0123456789abcdef"] *)
Definition HEX : list Z := [48; 49; 50; 51; 52; 53; 54; 55; 56; 57; 97; 98; 99; 100; 101; 102].

(** [(0..usize::BITS).step_by(4).rev()] *)
Definition shifts : list Z := [60; 56; 52; 48; 44; 40; 36; 32; 28; 24; 20; 16; 12; 8; 4; 0].

Definition serial_status (status : Z) : op W E unit :=
  serial_bytes [48; 120];;
  for_each shifts (λ shift,
    digit ← lift (index HEX (Z.land (Z.shiftr status shift) 15));
    serial_byte digit).
End uart.

(** [b"..."] *)
Definition ascii (s : String.string) : list Z :=
  Z.of_N ∘ Ascii.N_of_ascii <$> String.list_ascii_of_string s.

Definition fail {W E} `{PortIo W} (stage : list Z) (status : Z) : op W E Z :=
  serial_bytes (ascii "THERMITE_FAIL stage="%string);;
  serial_bytes stage;;
  serial_bytes (ascii " status="%string);;
  serial_status status;;
  serial_bytes [10];;
  mret status.

(** ** A working transmitter

    What the code relies on: once initialised ([live]), the line status reports an
    empty holding register (bit 5) within the polls the driver allows; polling sends
    nothing; after a poll that reports it empty, the holding register can take a byte
    ([vacant]), and a byte written to the data port then is sent.  Of a byte written at
    any other time nothing is known: the device may lose it. *)
Definition poll {W} `{PortIo W} (w : W) : W := (port_in 1 (COM1 + 5) w).2.
Definition ready {W} `{PortIo W} (w : W) : Prop := Z.land (port_in 1 (COM1 + 5) w).1 32 ≠ 0.

Class Uart (W : Type) `{PortIo W} := {
  sent : W → list Z;
  live : W → Prop;
  vacant : W → Prop;
  uart_init w : live (init_serial (E := False) w).2;
  uart_ready w : live w → ∃ n : nat, n < 100000 ∧ ready (Nat.iter n poll w);
  uart_poll w : live w → sent (poll w) = sent w ∧ live (poll w);
  uart_vacant w : live w → ready w → vacant (poll w);
  uart_data w b : live w → vacant w → sent (port_out 1 COM1 b w) = sent w ++ [b] ∧ live (port_out 1 COM1 b w);
}.

(** Reading a number back. *)
Definition decimal (l : list Z) : Z := foldl (λ a d, 10 * a + (d - 48)) 0 l.

Definition hex_digit (d : Z) : Z := if d <=? 57 then d - 48 else d - 87.
Definition hexadecimal (l : list Z) : Z := foldl (λ a d, 16 * a + hex_digit d) 0 l.

Definition is_digit (d : Z) : Prop := 48 ≤ d ≤ 57.

(** ** What is transmitted *)

(** [m] returns and sends exactly [l]. *)
Definition Sends {W E A} `{Uart W} (m : op W E A) (a : A) (l : list Z) : Prop :=
  ∀ w, live w → ∃ w', m w = (Ok a, w') ∧ live w' ∧ sent w' = sent w ++ l.

Section sends.
Context {W E : Type} `{Uart W}.

Lemma sends_ret {A} (a : A) : Sends (mret a : op W E A) a [].
Proof. intros w Hw. exists w. by rewrite app_nil_r. Qed.

Lemma sends_lift {A} (a : A) (r : res E A) : r = Ok a → Sends (lift r : op W E A) a [].
Proof. intros -> w Hw. exists w. by rewrite app_nil_r. Qed.

Lemma sends_bind {A B} (m : op W E A) (k : A → op W E B) a b l1 l2 :
  Sends m a l1 → Sends (k a) b l2 → Sends (m ≫= k) b (l1 ++ l2).
Proof.
  intros Hm Hk w Hw. destruct (Hm w Hw) as (w1 & E1 & L1 & S1).
  destruct (Hk w1 L1) as (w2 & E2 & L2 & S2).
  exists w2. unfold mbind, op_bind. rewrite E1, E2, S2, S1. by rewrite app_assoc.
Qed.

Lemma poll_until_ready b n m w :
  live w → (n < m)%nat → ready (Nat.iter n poll w) →
  ∃ w', for_nat m
    (lsr ← in8 (COM1 + 5);
     if negb (Z.land lsr 32 =? 0) then out8 COM1 b;; mret (Some ()) else mret None) w
    = ((Ok (Some ()) : res E _), w') ∧ live w' ∧ sent w' = sent w ++ [b].
Proof.
  revert m w. induction n as [|n IH]; intros [|m] w Hw Hlt Hr; try lia; cbn [for_nat];
    unfold mbind, op_bind, in8, access, out8, modify;
    destruct (uart_poll w Hw) as [Hp Hl]; unfold poll in Hp, Hl.
  - pose proof (uart_vacant w Hw Hr) as Hv. unfold ready in Hr. unfold poll in Hv. cbn in Hr.
    destruct (port_in 1 (COM1 + 5) w) as [lsr w1]. cbn in *.
    rewrite (proj2 (Z.eqb_neq _ _) Hr). cbn. eexists. split; [done|].
    destruct (uart_data w1 b Hl Hv) as [-> ?]. by rewrite Hp.
  - rewrite Nat.iter_succ_r in Hr. unfold poll at 2 in Hr. pose proof (uart_vacant w Hw) as Hv.
    unfold ready, poll in Hv. destruct (port_in 1 (COM1 + 5) w) as [lsr w1]. cbn in *.
    destruct (Z.eqb_spec (Z.land lsr 32) 0) as [|Hne]; cbn.
    + rewrite <- Hp. apply IH; [done|lia|done].
    + eexists. split; [done|]. destruct (uart_data w1 b Hl (Hv Hne)) as [-> ?]. by rewrite Hp.
Qed.

Lemma sends_byte b : Sends (serial_byte b : op W E unit) () [b].
Proof.
  intros w Hw. unfold serial_byte. unfold mbind at 1, op_bind at 1. rewrite for_pos_nat.
  destruct (uart_ready w Hw) as (n & Hn & Hr).
  destruct (poll_until_ready b n (Pos.to_nat 100000) w) as (w' & -> & Hl & Hs); [done|lia|done|].
  by exists w'.
Qed.

(** A newline is preceded by a carriage return. *)
Definition crlf (l : list Z) : list Z := b ← l; if b =? 10 then [13; 10] else [b].

Lemma sends_bytes l : Sends (serial_bytes l : op W E unit) () (crlf l).
Proof.
  unfold serial_bytes. induction l as [|b l IH]; [apply sends_ret|]. cbn [for_each].
  unfold crlf. rewrite bind_cons. eapply sends_bind; [|exact IH].
  destruct (b =? 10) eqn:E1.
  - apply Z.eqb_eq in E1 as ->. eapply (sends_bind _ _ () () [13] [10]); apply sends_byte.
  - eapply (sends_bind _ _ () () [] [b]); [apply sends_ret|apply sends_byte].
Qed.

Lemma sends_each {X} (l : list X) (body : X → op W E unit) f :
  (∀ x, x ∈ l → Sends (body x) () (f x)) → Sends (for_each l body) () (l ≫= f).
Proof.
  induction l as [|x l IH]; intros Hb; [apply sends_ret|]. cbn [for_each]. rewrite bind_cons.
  eapply sends_bind; [apply Hb; set_solver|]. apply IH. set_solver.
Qed.
End sends.

Lemma crlf_id l : 10 ∉ l → crlf l = l.
Proof.
  unfold crlf. induction l as [|b l IH]; [done|]. intros [Hb Hl]%not_elem_of_cons.
  rewrite bind_cons, IH by done. by rewrite (proj2 (Z.eqb_neq _ _)).
Qed.

(** ** Decimal numbers *)

Lemma decimal_app l1 l2 : decimal (l1 ++ l2) = decimal l1 * 10 ^ length l2 + decimal l2.
Proof.
  unfold decimal. rewrite foldl_app. generalize (foldl (λ a d, 10 * a + (d - 48)) 0 l1) as a.
  induction l2 as [|d l2 IH]; intros a; cbn [foldl length].
  - rewrite Z.pow_0_r. cbn. lia.
  - rewrite IH, (IH (10 * 0 + (d - 48))). rewrite Nat2Z.inj_succ, Z.pow_succ_r by lia. nia.
Qed.

(** The loop fills the buffer from the right: what it has written is the number. *)
Lemma digits_loop_spec {E} (cursor : nat) (value : Z) (buffer : list Z) :
  0 ≤ value < 10 ^ cursor → (cursor ≤ length buffer)%nat →
  ∃ ds c, digits_loop (E := E) cursor value buffer
            = Ok (c, take c buffer ++ ds ++ drop cursor buffer) ∧
    (c + length ds)%nat = cursor ∧ Forall is_digit ds ∧ decimal ds = value ∧
    (ds = [] ↔ value = 0) ∧ head ds ≠ Some 48.
Proof.
  revert value buffer. induction cursor as [|cursor IH]; intros value buffer Hv Hc; cbn.
  { change (10 ^ 0%nat) with 1 in Hv. assert (value = 0) as -> by lia.
    exists [], 0%nat. by split_and!. }
  destruct (Z.eqb_spec value 0) as [->|Hne].
  { exists [], (S cursor). cbn [app length]. rewrite take_drop. split_and!; done || lia. }
  unfold index_set. rewrite (proj2 (Z.ltb_lt _ _)) by lia. cbn.
  rewrite Nat2Z.id. set (d := 48 + value mod 10).
  assert (Hlt : (cursor < length buffer)%nat) by lia.
  destruct (IH (value / 10) (<[cursor := d]> buffer))
    as (ds & c & Heq & Hlen & Hds & Hdec & Hnil & Hlead).
  { rewrite Nat2Z.inj_succ, Z.pow_succ_r in Hv by lia.
    split; [apply Z.div_pos; lia|]. apply Z.div_lt_upper_bound; lia. }
  { rewrite length_insert. lia. }
  pose proof (Z.div_mod value 10 ltac:(lia)) as Hdm.
  pose proof (Z.mod_pos_bound value 10 ltac:(lia)) as Hmod.
  assert (is_digit d) as Hd by (unfold is_digit, d; lia).
  exists (ds ++ [d]), c. split_and!.
  - rewrite Heq. f_equal. f_equal. rewrite take_insert_ge by lia. f_equal.
    rewrite <- app_assoc. f_equal.
    rewrite (drop_S (<[cursor:=d]> buffer) d cursor) by (by apply list_lookup_insert_eq).
    cbn. f_equal. by rewrite drop_insert_lt by lia.
  - rewrite length_app. cbn. lia.
  - apply Forall_app; auto.
  - rewrite decimal_app, Hdec. change (decimal [d]) with (10 * 0 + (d - 48)). unfold d.
    change (Z.of_nat (length [48 + value mod 10])) with 1. rewrite Z.pow_1_r. lia.
  - split; [by intros []%app_nil|done].
  - destruct ds as [|e ds']; [|done]. cbn. unfold d. rewrite (proj1 Hnil eq_refl) in Hdm.
    intros [=]. lia.
Qed.

(** The digits of a number, as the console prints them. *)
Definition digits (value : Z) : list Z :=
  if value =? 0 then [48]
  else match digits_loop (E := False) 20 value (replicate 20 0) with
       | Ok (cursor, buffer) => drop cursor buffer
       | _ => []
       end.

Lemma digits_spec v :
  u64 v →
  Forall is_digit (digits v) ∧ decimal (digits v) = v ∧ (1 ≤ length (digits v) ≤ 20)%nat ∧
  (head (digits v) = Some 48 → v = 0).
Proof.
  intros Hv. unfold digits. destruct (Z.eqb_spec v 0) as [->|Hne].
  { split_and!; try done; try (cbn; lia). repeat constructor; unfold is_digit; lia. }
  destruct (digits_loop_spec (E := False) 20 v (replicate 20 0))
    as (ds & c & -> & Hlen & Hds & Hdec & Hnil & Hlead); [|cbn; lia|].
  { change (Z.of_nat 20) with 20. split; [ulia|]. eapply Z.lt_trans; [apply Hv|]. reflexivity. }
  change (drop 20 (replicate 20 0)) with (@nil Z).
  rewrite app_nil_r, drop_app_length' by (rewrite length_take, length_replicate; lia).
  split_and!; try done; [|lia]. destruct ds; [naive_solver|cbn; lia].
Qed.

Lemma digits_loop_total v :
  u64 v → ∃ c b, digits_loop (E := False) 20 v (replicate 20 0) = Ok (c, b).
Proof.
  intros Hv. destruct (digits_loop_spec (E := False) 20 v (replicate 20 0)) as (ds & c & Heq & _);
    [|cbn; lia|by do 2 eexists].
  change (Z.of_nat 20) with 20. split; [ulia|]. eapply Z.lt_trans; [apply Hv|]. reflexivity.
Qed.

(** The error type plays no part. *)
Lemma digits_loop_error {E} cursor value buffer :
  digits_loop (E := E) cursor value buffer =
  map_err (False_rect E) (digits_loop (E := False) cursor value buffer).
Proof.
  revert value buffer. induction cursor as [|c IH]; intros value buffer; cbn;
    destruct (value =? 0); try done. unfold index_set. destruct (_ <? _); cbn; [apply IH|done].
Qed.

Section numbers.
Context {W E : Type} `{Uart W}.

Lemma digits_plain v : u64 v → crlf (digits v) = digits v.
Proof.
  intros (Hd & _)%digits_spec. apply crlf_id. intros [x Hx]%list_elem_of_lookup.
  rewrite Forall_lookup in Hd. specialize (Hd _ _ Hx). unfold is_digit in Hd. lia.
Qed.

Lemma sends_usize v : u64 v → Sends (serial_usize v : op W E unit) () (digits v).
Proof.
  intros Hv. rewrite <- (digits_plain v Hv). unfold serial_usize.
  destruct (Z.eqb_spec v 0) as [->|Hne]; [apply (sends_bytes [48])|].
  destruct (digits_loop_total v Hv) as (c & b & Heq).
  assert (digits v = drop c b) as ->
    by (unfold digits; by rewrite (proj2 (Z.eqb_neq _ _) Hne), Heq).
  eapply (sends_bind _ _ (c, b) () [] _); [|apply sends_bytes].
  apply sends_lift. change (length (replicate 20 0)) with 20%nat. by rewrite digits_loop_error, Heq.
Qed.

(** ** Hexadecimal status codes *)

Definition hex16 (v : Z) : list Z :=
  (λ shift, default 0 (HEX !! Z.to_nat (Z.land (Z.shiftr v shift) 15))) <$> shifts.

Lemma nibble v shift : 0 ≤ Z.land (Z.shiftr v shift) 15 < 16.
Proof. change 15 with (Z.ones 4). rewrite Z.land_ones by lia. apply Z.mod_pos_bound. lia. Qed.

Lemma hex_lookup n :
  0 ≤ n < 16 → ∃ d, HEX !! Z.to_nat n = Some d ∧ hex_digit d = n ∧ d ≠ 10.
Proof.
  intros Hn. assert (n ∈ seqZ 0 16) as Hin by (apply elem_of_seqZ; lia). revert n Hn Hin.
  assert (Forall (λ n, ∃ d, HEX !! Z.to_nat n = Some d ∧ hex_digit d = n ∧ d ≠ 10) (seqZ 0 16)) as HF.
  { repeat constructor; by eexists. }
  intros n _. by rewrite Forall_forall in HF; apply HF.
Qed.

Lemma sends_status v : Sends (serial_status v : op W E unit) () ([48; 120] ++ hex16 v).
Proof.
  unfold serial_status. eapply sends_bind; [apply (sends_bytes [48; 120])|].
  unfold hex16. replace (_ <$> shifts)
    with (shifts ≫= λ shift, [default 0 (HEX !! Z.to_nat (Z.land (Z.shiftr v shift) 15))])
    by reflexivity.
  apply sends_each. intros shift _. destruct (hex_lookup _ (nibble v shift)) as (d & Hd & _).
  eapply (sends_bind _ _ d () [] _); [|rewrite Hd; apply sends_byte].
  apply sends_lift. unfold index. by rewrite Hd.
Qed.
End numbers.

Lemma shiftr_step v s :
  0 ≤ v → 0 ≤ s →
  Z.shiftr v s = 16 * Z.shiftr v (s + 4) + Z.land (Z.shiftr v s) 15.
Proof.
  intros Hv Hs. change 15 with (Z.ones 4). rewrite Z.land_ones by lia.
  rewrite <- Z.shiftr_shiftr by lia. rewrite (Z.shiftr_div_pow2 (Z.shiftr v s) 4) by lia.
  change (2 ^ 4) with 16. pose proof (Z.div_mod (Z.shiftr v s) 16). lia.
Qed.

Lemma hexadecimal_hex16 v : u64 v → hexadecimal (hex16 v) = v.
Proof.
  intros Hv. unfold hexadecimal, hex16.
  assert (∀ l a, foldl (λ a d, 16 * a + hex_digit d) a
      ((λ shift, default 0 (HEX !! Z.to_nat (Z.land (Z.shiftr v shift) 15))) <$> l)
    = foldl (λ a shift, 16 * a + Z.land (Z.shiftr v shift) 15) a l) as ->.
  { induction l as [|s l IH]; intros a; [done|]. cbn [fmap list_fmap foldl].
    destruct (hex_lookup _ (nibble v s)) as (d & -> & Hd & _). cbn [from_option]. unfold id. by rewrite Hd, IH. }
  unfold shifts. cbn [foldl].
  assert (Z.shiftr v 64 = 0) as H64 by (rewrite Z.shiftr_div_pow2 by lia; apply Z.div_small; ulia).
  assert (0 ≤ v) as H0 by ulia.
  assert (∀ s t, 0 ≤ s → t = s + 4 →
    16 * Z.shiftr v t + Z.land (Z.shiftr v s) 15 = Z.shiftr v s) as Hstep.
  { intros s t Hs ->. by rewrite <- shiftr_step. }
  replace (16 * 0) with (16 * Z.shiftr v 64) by (by rewrite H64).
  rewrite (Hstep 60 64), (Hstep 56 60), (Hstep 52 56), (Hstep 48 52), (Hstep 44 48), (Hstep 40 44), (Hstep 36 40), (Hstep 32 36), 
    (Hstep 28 32), (Hstep 24 28), (Hstep 20 24), (Hstep 16 20), (Hstep 12 16), (Hstep 8 12), (Hstep 4 8), (Hstep 0 4) by done.
  apply Z.shiftr_0_r.
Qed.

Lemma sends_fail {W E} `{Uart W} stage v :
  Sends (fail stage v : op W E Z) v
    (crlf (ascii "THERMITE_FAIL stage="%string) ++ crlf stage
     ++ crlf (ascii " status="%string) ++ ([48; 120] ++ hex16 v) ++ crlf [10] ++ []).
Proof.
  unfold fail. do 5 (eapply sends_bind; [first [apply sends_bytes | apply sends_status]|]).
  apply sends_ret.
Qed.

Lemma init_live {W E} `{Uart W} w :
  ∃ w', (init_serial : op W E unit) w = (Ok (), w') ∧ live w'.
Proof. eexists. split; [done|]. apply (uart_init w). Qed.

(** C36. Numbers survive the console: on an initialised transmitter that
    becomes ready within the polls allowed and takes a byte only then, [Serial::usize] never
    overruns its 20-byte buffer and sends between 1 and 20 decimal digits, without a
    leading zero, that read back as the number; [fail] returns the status it was given
    and sends it as exactly 16 hexadecimal digits that read back as the status; and
    [bytes] sends the text with every newline preceded by a carriage return. *)
Theorem console_exact {W E} `{Uart W} :
  (∀ v w, live w → u64 v → ∃ w' ds, (serial_usize v : op W E unit) w = (Ok (), w') ∧
     sent w' = sent w ++ ds ∧ Forall is_digit ds ∧ decimal ds = v ∧
     (1 ≤ length ds ≤ 20)%nat ∧ (head ds = Some 48 → v = 0)) ∧
  (∀ stage v w, live w → u64 v → ∃ w' hs, (fail stage v : op W E Z) w = (Ok v, w') ∧
     sent w' = sent w ++ ascii "THERMITE_FAIL stage="%string ++ crlf stage
                 ++ ascii " status=0x"%string ++ hs ++ [13; 10] ∧
     length hs = 16%nat ∧ hexadecimal hs = v) ∧
  (∀ l w, live w → ∃ w', (serial_bytes l : op W E unit) w = (Ok (), w') ∧ sent w' = sent w ++ crlf l).
Proof.
  split_and!.
  - intros v w Hw Hv. destruct (sends_usize (E := E) v Hv w Hw) as (w' & He & _ & Hs).
    pose proof (digits_spec v Hv) as (?&?&?&?). by exists w', (digits v).
  - intros stage v w Hw Hv. destruct (sends_fail (E := E) stage v w Hw) as (w' & He & _ & Hs).
    exists w', (hex16 v). split_and!; [done| |done|by apply hexadecimal_hex16].
    rewrite Hs. reflexivity.
  - intros l w Hw. destruct (sends_bytes (E := E) l w Hw) as (w' & He & _ & Hs). by exists w'.
Qed.

(** A transmitter that is busy for one poll after each byte, and loses what it is given
    meanwhile. *)
#[local] Instance tape_ports : PortIo (list Z * bool) := {
  port_in width port w := (if w.2 then 0 else 96, (w.1, false));
  port_out width port value w := if port =? COM1 then (if w.2 then w else (w.1 ++ [value], true)) else w;
}.
#[local] Instance tape : Uart (list Z * bool).
Proof.
  refine {| sent := fst; live _ := True; vacant w := w.2 = false |}; try done.
  - intros [l b] _. exists 1%nat. split; [lia|]. done.
  - intros [l []] ? _; [done|]. by intros _.
Defined.

Lemma console_exact_witness :
  ∃ w', (fail (ascii "memory-map"%string) 48879 : op (list Z * bool) False Z) ([], false)
          = (Ok 48879, w') ∧
    sent w' = ascii "THERMITE_FAIL stage=memory-map status=0x000000000000beef"%string ++ [13; 10].
Proof.
  destruct (console_exact (W := list Z * bool) (E := False)) as (_ & Hf & _).
  destruct (Hf (ascii "memory-map"%string) 48879 ([], false)) as (w' & hs & He & Hs & _); [done|split; done|].
  exists w'. split; [exact He|]. vm_compute in He. by inversion He.
Defined.

End Console.
