(* ===== verification/FwCfg.v ===== *)
(** * The firmware configuration channel: [fw_cfg_*] in
      [platform/x86_64-pc-uefi-smp-v1/runtime/src/post_firmware.rs]

    The runtime reads two optional files of the QEMU fw_cfg device through a
    selector port and a byte stream: which application processor is to fail,
    and how to power the machine down.  [run] admits the processor set from the
    first. *)
From stdpp Require Import strings.
From S2P Require Import Prelude Target Console.

Module FwCfg.
Import Target Console.

Section driver.
Context {W : Type} `{PortIo W}.

Definition pio_read8 (port : Z) : op W PostFirmwareError Z := access (port_in 1 port).
Definition pio_read16 (port : Z) : op W PostFirmwareError Z := access (port_in 2 port).
Definition pio_read32 (port : Z) : op W PostFirmwareError Z := access (port_in 4 port).
Definition pio_write8 (port value : Z) : op W PostFirmwareError unit := modify (port_out 1 port value).
Definition pio_write16 (port value : Z) : op W PostFirmwareError unit := modify (port_out 2 port value).
Definition pio_write32 (port value : Z) : op W PostFirmwareError unit := modify (port_out 4 port value).

(** [u16::from_be_bytes], [u32::from_be_bytes] *)
Definition from_be (bytes : list Z) : Z := foldl (λ a b, 256 * a + b) 0 bytes.

Definition fw_cfg_read_be16 : op W PostFirmwareError Z :=
  high ← pio_read8 1297;
  low ← pio_read8 1297;
  mret (from_be [high; low]).

Definition fw_cfg_read_be32 : op W PostFirmwareError Z :=
  b0 ← pio_read8 1297;
  b1 ← pio_read8 1297;
  b2 ← pio_read8 1297;
  b3 ← pio_read8 1297;
  mret (from_be [b0; b1; b2; b3]).

(** [Iterator::position] *)
Fixpoint position (p : Z → bool) (l : list Z) : option nat :=
  match l with
  | [] => None
  | x :: l => if p x then Some O else S <$> position p l
  end.

(** The turns of [for _ in 0..count]. *)
Fixpoint find_loop (name_to_find : list Z) (count : nat) (selected : option (Z * Z))
    : op W PostFirmwareError (option (Z * Z)) :=
  match count with
  | O => mret selected
  | S count =>
    size ← fw_cfg_read_be32;
    selector ← fw_cfg_read_be16;
    _ ← fw_cfg_read_be16;
    name ← fill 56 (pio_read8 1297);
    let end_ := default (length name) (position (Z.eqb 0) name) in
    if bool_decide (take end_ name = name_to_find) then
      lift (bail_if ((size =? 0) || (56 <? size)) Injection);;
      find_loop name_to_find count (Some (selector, size))
    else find_loop name_to_find count selected
  end.

Definition fw_cfg_find (name_to_find : list Z) : op W PostFirmwareError (option (Z * Z)) :=
  pio_write16 1296 25;;
  count ← fw_cfg_read_be32;
  lift (bail_if (1024 <? count) Injection);;
  find_loop name_to_find (Z.to_nat count) None.

(** [b'0'..=b'9'] *)
Definition is_ascii_digit (b : Z) : bool := (48 <=? b) && (b <=? 57).
Definition ends_text (b : Z) : bool := (b =? 0) || (b =? 10).

Fixpoint number_loop (n : nat) (value digits : Z) : op W PostFirmwareError (Z * Z) :=
  match n with
  | O => mret (value, digits)
  | S n =>
    byte ← pio_read8 1297;
    if ends_text byte then mret (value, digits)
    else
      lift (bail_if (negb (is_ascii_digit byte)) Injection);;
      value ← lift (ok_or Injection
        (current ← checked_mul 32 value 10; checked_add 32 current (byte - 48)));
      digits ← lift (uadd 31 digits 1);
      number_loop n value digits
  end.

Definition fw_cfg_failure_apic : op W PostFirmwareError (option Z) :=
  selected ← fw_cfg_find (ascii "opt/thermite/fail-ap"%string);
  match selected with
  | None => mret None
  | Some (selector, size) =>
    lift (bail_if (10 <? size) Injection);;
    pio_write16 1296 selector;;
    '(value, digits) ← number_loop (Z.to_nat size) 0 0;
    lift (bail_if (digits =? 0) Injection);;
    mret (Some value)
  end.

Inductive PowerAction : Type := Reboot | PowerOff.

Definition fw_cfg_power_action : op W PostFirmwareError PowerAction :=
  selected ← fw_cfg_find (ascii "opt/thermite/power"%string);
  match selected with
  | None => mret PowerOff
  | Some (selector, size) =>
    lift (bail_if (8 <? size) Injection);;
    pio_write16 1296 selector;;
    bytes ← fill (Z.to_nat size) (pio_read8 1297);
    (* the rest of [[0_u8; 8]] *)
    let value := bytes ++ replicate (8 - Z.to_nat size) 0 in
    let end_ := default (Z.to_nat size) (position ends_text value) in
    let text := take end_ value in
    if bool_decide (text = ascii "reboot"%string) then mret Reboot
    else if bool_decide (text = ascii "poweroff"%string) then mret PowerOff
    else lift (Err Injection)
  end.
End driver.
#[global] Instance PowerAction_eq_dec : EqDecision PowerAction.
Proof. solve_decision. Defined.

(** ** The head of [run]: which processors are started *)

Definition admit_cpus (apic_ids : list Z) (bsp_apic_id : Z) (failed_apic : option Z)
    : res PostFirmwareError (list Z) :=
  bail_if (bool_decide (failed_apic = Some bsp_apic_id)
           || match failed_apic with
              | Some failed => negb (bool_decide (failed ∈ apic_ids))
              | None => false
              end) Injection;;
  (* the array filled up to [effective_count], which [apic_ids] bounds *)
  let effective := filter (λ id, Some id ≠ failed_apic) apic_ids in
  bail_if (Z.of_nat (length effective) =? 0) Injection;;
  Ok effective.

Section run.
Context {W : Type} `{PortIo W}.

Definition run_admission (apic_ids : list Z) (bsp_apic_id : Z)
    : op W PostFirmwareError (option Z * PowerAction * list Z * Z * Z) :=
  lift (bail_if ((Z.of_nat (length apic_ids) =? 0) || (MAX_CPUS <? length apic_ids)
                 || negb (bool_decide (bsp_apic_id ∈ apic_ids))) InvalidCpuId);;
  failed_apic ← fw_cfg_failure_apic;
  power_action ← fw_cfg_power_action;
  effective ← lift (admit_cpus apic_ids bsp_apic_id failed_apic);
  full_mask ← lift (expected_mask effective);
  bsp_bit ← lift (bit bsp_apic_id);
  mret (failed_apic, power_action, effective, full_mask, bsp_bit).
End run.

(** ** The device

    What the driver relies on: writing the selector port rewinds the byte stream
    to the start of the selected item, and each read of the data port takes one
    byte from it. *)
Class FwCfgDevice (W : Type) `{PortIo W} := {
  items : W → Z → list Z;
  stream : W → list Z;
  fw_select w sel : stream (port_out 2 1296 sel w) = items w sel;
  fw_select_items w sel : items (port_out 2 1296 sel w) = items w;
  fw_read w b rest : stream w = b :: rest →
    (port_in 1 1297 w).1 = b ∧ stream (port_in 1 1297 w).2 = rest;
  fw_read_items w : items (port_in 1 1297 w).2 = items w;
}.

(** A file of the directory and its encoding. *)
Record file : Type := MkFile {
  f_size : Z; f_select : Z; f_reserved : Z; f_name : list Z;
}.

Definition be16 (x : Z) : list Z := [x / 256; x mod 256].
Definition be32 (x : Z) : list Z := be16 (x / 65536) ++ be16 (x mod 65536).

Definition entry (f : file) : list Z :=
  be32 (f_size f) ++ be16 (f_select f) ++ be16 (f_reserved f)
  ++ f_name f ++ replicate (56 - length (f_name f)) 0.

Definition directory (files : list file) : list Z :=
  be32 (length files) ++ concat (entry <$> files).

Record file_ok (f : file) : Prop := {
  file_size : u32 (f_size f);
  file_name : (length (f_name f) ≤ 56)%nat ∧ 0 ∉ f_name f;
}.

(** What the directory says of a name: its last entry, provided that every entry of
    that name has a usable size. *)
Definition find_spec (files : list file) (name : list Z) : res PostFirmwareError (option (Z * Z)) :=
  let matches := filter (λ f, f_name f = name) files in
  if forallb (λ f, (0 <? f_size f) && (f_size f <=? 56)) matches
  then Ok ((λ f, (f_select f, f_size f)) <$> last matches)
  else Err Injection.

(** ** Streams *)

(** [m] takes exactly the bytes [l] off the stream and returns [a]. *)
Definition Takes {W A} `{FwCfgDevice W} (m : op W PostFirmwareError A) (a : A) (l : list Z) : Prop :=
  ∀ w rest, stream w = l ++ rest →
    ∃ w', m w = (Ok a, w') ∧ stream w' = rest ∧ items w' = items w.

Lemma be16_from x : from_be (be16 x) = x.
Proof. unfold from_be, be16. cbn [foldl]. pose proof (Z.div_mod x 256). lia. Qed.

Lemma be32_from x : from_be (be32 x) = x.
Proof.
  unfold from_be, be32, be16. cbn [foldl app].
  pose proof (Z.div_mod x 65536). pose proof (Z.div_mod (x / 65536) 256).
  pose proof (Z.div_mod (x mod 65536) 256). lia.
Qed.

Section takes.
Context {W : Type} `{FwCfgDevice W}.

Lemma takes_ret {A} (a : A) : Takes (mret a : op W _ A) a [].
Proof. intros w rest Hs. by exists w. Qed.

Lemma takes_bind {A B} (m : op W PostFirmwareError A) (k : A → op W PostFirmwareError B) a b l1 l2 :
  Takes m a l1 → Takes (k a) b l2 → Takes (m ≫= k) b (l1 ++ l2).
Proof.
  intros Hm Hk w rest Hs. rewrite <- app_assoc in Hs.
  destruct (Hm _ _ Hs) as (w1 & E1 & S1 & I1). destruct (Hk _ _ S1) as (w2 & E2 & S2 & I2).
  exists w2. unfold mbind, op_bind. rewrite E1. split_and!; [done|done|congruence].
Qed.

Lemma takes_byte b : Takes (pio_read8 1297 : op W _ Z) b [b].
Proof.
  intros w rest Hs. destruct (fw_read w b rest Hs) as [Hb Hr].
  unfold pio_read8, access. pose proof (fw_read_items w) as Hi.
  destruct (port_in 1 1297 w) as [b' w']. cbn in *. subst b'. by exists w'.
Qed.

Lemma takes_be16 x : Takes (fw_cfg_read_be16 : op W _ Z) x (be16 x).
Proof.
  rewrite <- (be16_from x) at 1. unfold fw_cfg_read_be16, be16.
  eapply (takes_bind _ _ _ _ [_] [_]); [apply takes_byte|].
  eapply (takes_bind _ _ _ _ [_] []); [apply takes_byte|]. apply takes_ret.
Qed.

Lemma takes_be32 x : Takes (fw_cfg_read_be32 : op W _ Z) x (be32 x).
Proof.
  rewrite <- (be32_from x) at 1. unfold fw_cfg_read_be32, be32, be16. cbn [app].
  do 4 (eapply (takes_bind _ _ _ _ [_] _); [apply takes_byte|]). apply takes_ret.
Qed.

Lemma takes_fill l : Takes (fill (length l) (pio_read8 1297) : op W _ (list Z)) l l.
Proof.
  induction l as [|b l IH]; cbn [fill length]; [apply takes_ret|].
  eapply (takes_bind _ _ _ _ [b] l); [apply takes_byte|].
  rewrite <- (app_nil_r l) at 3. eapply takes_bind; [apply IH|apply takes_ret].
Qed.
End takes.

(** ** Text up to a terminator *)

Fixpoint take_until (p : Z → bool) (l : list Z) : list Z :=
  match l with
  | [] => []
  | x :: l => if p x then [] else x :: take_until p l
  end.

Lemma take_position p l : take (default (length l) (position p l)) l = take_until p l.
Proof.
  induction l as [|x l IH]; [done|]. cbn. destruct (p x); [done|].
  destruct (position p l); cbn in *; by rewrite IH.
Qed.

Lemma take_until_app p l1 l2 :
  (∀ x, x ∈ l1 → p x = false) → take_until p (l1 ++ l2) = l1 ++ take_until p l2.
Proof.
  induction l1 as [|x l1 IH]; intros Hp; [done|]. cbn. rewrite Hp by set_solver.
  by rewrite IH by set_solver.
Qed.

Lemma take_until_zeros p l n : p 0 = true → take_until p (l ++ replicate n 0) = take_until p l.
Proof.
  intros Hp. induction l as [|x l IH]; cbn; [destruct n; cbn; by rewrite ?Hp|by rewrite IH].
Qed.

Lemma position_None p l : position p l = None → ∀ x, x ∈ l → p x = false.
Proof.
  induction l as [|y l IH]; intros Hp x Hx; [set_solver|]. cbn in Hp.
  destruct (p y) eqn:Ey; [done|]. apply fmap_None in Hp. set_solver.
Qed.

Lemma name_text f :
  file_ok f →
  let name := f_name f ++ replicate (56 - length (f_name f)) 0 in
  length name = 56%nat ∧ take (default (length name) (position (Z.eqb 0) name)) name = f_name f.
Proof.
  intros [_ [Hlen H0]] name. split.
  - unfold name. rewrite length_app, length_replicate. lia.
  - rewrite take_position. unfold name. rewrite take_until_zeros by done.
    rewrite <- (app_nil_r (f_name f)), take_until_app; [done|].
    intros x Hx. apply Z.eqb_neq. naive_solver.
Qed.

Section find.
Context {W : Type} `{FwCfgDevice W}.

Definition usable (f : file) : bool := (0 <? f_size f) && (f_size f <=? 56).

Lemma find_loop_entry name f n selected w rest :
  file_ok f → stream w = entry f ++ rest →
  ∃ w', stream w' = rest ∧ items w' = items w ∧
    find_loop name (S n) selected w =
    if bool_decide (f_name f = name) then
      if usable f then find_loop name n (Some (f_select f, f_size f)) w' else (Err Injection, w')
    else find_loop name n selected w'.
Proof.
  intros Hf Hs. destruct (name_text f Hf) as [Hlen Htext]. cbn zeta in Hlen, Htext.
  unfold entry in Hs. set (padded := f_name f ++ replicate (56 - length (f_name f)) 0) in *.
  rewrite <- !app_assoc in Hs. cbn [find_loop].
  destruct (takes_be32 (f_size f) w _ Hs) as (w1 & E1 & S1 & I1).
  destruct (takes_be16 (f_select f) w1 _ S1) as (w2 & E2 & S2 & I2).
  destruct (takes_be16 (f_reserved f) w2 _ S2) as (w3 & E3 & S3 & I3).
  destruct (takes_fill padded w3 _ S3) as (w4 & E4 & S4 & I4). rewrite Hlen in E4.
  exists w4. split_and!; [done|congruence|].
  rewrite (op_bind_run _ _ _ _ _ E1), (op_bind_run _ _ _ _ _ E2), (op_bind_run _ _ _ _ _ E3),
    (op_bind_run _ _ _ _ _ E4), Htext.
  case_bool_decide; [|done]. unfold mbind, op_bind, lift, usable. destruct (file_size f Hf).
  zcase; cbn; done || lia.
Qed.

Lemma find_loop_exact name files selected w rest :
  Forall file_ok files → stream w = concat (entry <$> files) ++ rest →
  ∃ w', items w' = items w ∧
    find_loop name (length files) selected w =
    (let matches := filter (λ f, f_name f = name) files in
     if forallb usable matches
     then Ok (match last matches with Some f => Some (f_select f, f_size f) | None => selected end)
     else Err Injection, w').
Proof.
  intros Hok. revert selected w. induction Hok as [|f files Hf Hok IH]; intros selected w Hs.
  { by exists w. }
  cbn [fmap list_fmap concat] in Hs. rewrite <- app_assoc in Hs.
  destruct (find_loop_entry name f (length files) selected w _ Hf Hs) as (w1 & S1 & I1 & E1).
  cbn [length]. rewrite E1, filter_cons. case_bool_decide as Hn.
  - rewrite decide_True by done. cbn [forallb]. destruct (usable f); cbn [andb].
    + destruct (IH (Some (f_select f, f_size f)) w1 S1) as (w2 & I2 & ->).
      exists w2. split; [congruence|]. rewrite last_cons. cbv zeta.
      destruct (forallb _ _); [|done]. by destruct (last _).
    + exists w1. by split.
  - rewrite decide_False by done.
    destruct (IH selected w1 S1) as (w2 & I2 & ->). exists w2. split; [congruence|done].
Qed.

Lemma fw_cfg_find_exact name files w rest :
  Forall file_ok files → length files < 2 ^ 32 → items w 25 = directory files ++ rest →
  ∃ w', items w' = items w ∧
    fw_cfg_find name w =
    (if 1024 <? length files then Err Injection else find_spec files name, w').
Proof.
  intros Hok Hlen Hdir. unfold fw_cfg_find.
  erewrite op_bind_run by reflexivity.
  assert (stream (port_out 2 1296 25 w) = directory files ++ rest) as Hs by (by rewrite fw_select).
  unfold directory in Hs. rewrite <- app_assoc in Hs.
  destruct (takes_be32 _ _ _ Hs) as (w1 & E1 & S1 & I1). rewrite fw_select_items in I1.
  rewrite (op_bind_run _ _ _ _ _ E1). unfold mbind, op_bind, lift.
  destruct (1024 <? length files); cbn [bail_if]; [by exists w1|].
  rewrite Nat2Z.id. destruct (find_loop_exact name files None w1 rest Hok S1) as (w2 & I2 & ->).
  exists w2. by split; [congruence|].
Qed.

(** ** Decimal numbers *)

Definition dec (a d : Z) : Z := 10 * a + (d - 48).

Lemma dec_mono l a : Forall is_digit l → 0 ≤ a → a ≤ foldl dec a l.
Proof.
  intros Hl. revert a. induction Hl as [|d l Hd Hl IH]; intros a Ha; cbn; [lia|].
  unfold is_digit in Hd. etrans; [|apply IH]; unfold dec; lia.
Qed.

Lemma number_loop_exact l v d w rest :
  u32 v → 0 ≤ d → d + length l < 2 ^ 31 → stream w = l ++ rest →
  let body := take_until ends_text l in
  ∃ w', items w' = items w ∧
    number_loop (length l) v d w =
    (if bool_decide (Forall is_digit body ∧ foldl dec v body < 2 ^ 32)
     then Ok (foldl dec v body, d + length body) else Err Injection, w').
Proof.
  revert v d w. induction l as [|b l IH]; intros v d w Hv Hd Hn Hs body; subst body; cbn [take_until].
  { exists w. split; [done|]. cbn [foldl length number_loop].
    rewrite bool_decide_eq_true_2 by (split; [constructor|apply Hv]). by rewrite Z.add_0_r. }
  destruct (takes_byte b w _ Hs) as (w1 & E1 & S1 & I1). cbn [length number_loop].
  rewrite (op_bind_run _ _ _ _ _ E1).
  destruct (ends_text b) eqn:Eb.
  { exists w1. split; [done|]. cbn [foldl length].
    rewrite bool_decide_eq_true_2 by (split; [constructor|apply Hv]). by rewrite Z.add_0_r. }
  unfold is_ascii_digit. destruct (decide (is_digit b)) as [Hb|Hb].
  2:{ exists w1. split; [done|]. unfold is_digit in Hb.
      rewrite bool_decide_eq_false_2 by (by intros [[]%Forall_cons _]).
      unfold mbind, op_bind, lift. zcase; cbn; done || lia. }
  assert ((48 <=? b) && (b <=? 57) = true) as -> by (unfold is_digit in Hb; zb; lia).
  cbn [length] in Hn.
  erewrite op_bind_run by reflexivity. unfold lift, checked_mul, checked_add, uadd.
  unfold mbind, op_bind, option_bind.
  destruct (decide (dec v b < 2 ^ 32)) as [Hlt|Hge].
  - assert (48 ≤ b ≤ 57 ∧ v * 10 + (b - 48) < 2 ^ 32) as [Hb' Hlt']
      by (unfold dec, is_digit in *; lia).
    rewrite !(proj2 (Z.ltb_lt _ _)) by ulia. cbn [ok_or].
    destruct (IH (v * 10 + (b - 48)) (d + 1) w1) as (w2 & I2 & E2); [ulia|lia|lia|done|].
    exists w2. split; [congruence|]. rewrite E2. f_equal. cbn [foldl length].
    replace (dec v b) with (v * 10 + (b - 48)) by (unfold dec; lia).
    rewrite (bool_decide_ext (Forall is_digit (b :: _) ∧ _)
      (Forall is_digit (take_until ends_text l) ∧
       foldl dec (v * 10 + (b - 48)) (take_until ends_text l) < 2 ^ 32))
      by (rewrite Forall_cons; tauto).
    case_bool_decide; [|done]. do 2 f_equal. lia.
  - rewrite bool_decide_eq_false_2.
    2:{ intros [[_ Hl]%Forall_cons Hlt]. cbn [foldl] in Hlt.
        pose proof (dec_mono _ (dec v b) Hl ltac:(unfold dec, is_digit in *; ulia)). lia. }
    exists w1. split; [done|]. unfold dec in Hge. zcase; cbn; done || lia.
Qed.
End find.

(** ** The specification: what the files say *)

(** The text of a file: its bytes up to a NUL or a newline. *)
Definition text (content : list Z) : list Z := take_until ends_text content.

Definition failure_spec (content : Z → list Z) (files : list file)
    : res PostFirmwareError (option Z) :=
  selected ← find_spec files (ascii "opt/thermite/fail-ap"%string);
  match selected with
  | None => Ok None
  | Some (sel, size) =>
    let body := text (content sel) in
    if bool_decide (size ≤ 10 ∧ body ≠ [] ∧ Forall is_digit body ∧ decimal body < 2 ^ 32)
    then Ok (Some (decimal body)) else Err Injection
  end.

Definition power_spec (content : Z → list Z) (files : list file)
    : res PostFirmwareError PowerAction :=
  selected ← find_spec files (ascii "opt/thermite/power"%string);
  match selected with
  | None => Ok PowerOff
  | Some (sel, size) =>
    if 8 <? size then Err Injection
    else if bool_decide (text (content sel) = ascii "reboot"%string) then Ok Reboot
    else if bool_decide (text (content sel) = ascii "poweroff"%string) then Ok PowerOff
    else Err Injection
  end.

(** A device whose directory lists [files], each with as many bytes as it says. *)
Record holds {W} `{FwCfgDevice W} (w : W) (files : list file) : Prop := {
  holds_files : Forall file_ok files;
  holds_count : length files ≤ 1024;
  holds_directory : ∃ rest, items w 25 = directory files ++ rest;
  holds_content : ∀ f, f ∈ files → Z.of_nat (length (items w (f_select f))) = f_size f;
}.

Section exact.
Context {W : Type} `{FwCfgDevice W}.

Lemma holds_find name w files :
  holds w files →
  ∃ w', items w' = items w ∧ fw_cfg_find name w = (find_spec files name, w').
Proof.
  intros [Hok Hc [rest Hd] _].
  destruct (fw_cfg_find_exact name files w rest Hok ltac:(lia) Hd) as (w' & Hi & He).
  rewrite (proj2 (Z.ltb_ge _ _)) in He by lia. by exists w'.
Qed.

Lemma find_spec_Ok files name sel size :
  find_spec files name = Ok (Some (sel, size)) →
  ∃ f, f ∈ files ∧ f_select f = sel ∧ f_size f = size ∧ 0 < size ≤ 56.
Proof.
  unfold find_spec. cbv zeta. destruct (forallb _ _) eqn:Ef; [|done]. intros [= Hl].
  destruct (last _) as [f|] eqn:El; simplify_eq/=. apply last_Some in El as [l' El].
  assert (f ∈ filter (λ f, f_name f = name) files) as Hin by (rewrite El; set_solver).
  rewrite forallb_forall in Ef. specialize (Ef f). rewrite <- list_elem_of_In in Ef.
  specialize (Ef Hin). apply list_elem_of_filter in Hin as [_ Hin]. exists f.
  split_and!; try done; zb; lia.
Qed.

Lemma decimal_dec l : decimal l = foldl dec 0 l.
Proof. done. Qed.

Lemma failure_apic_spec w files :
  holds w files →
  ∃ w', items w' = items w ∧ fw_cfg_failure_apic w = (failure_spec (items w) files, w').
Proof.
  intros Hh. unfold fw_cfg_failure_apic, failure_spec.
  destruct (holds_find (ascii "opt/thermite/fail-ap"%string) w files Hh) as (w1 & I1 & E1).
  unfold mbind at 1, op_bind at 1. rewrite E1.
  destruct (find_spec files _) as [[[sel size]|]|e|] eqn:Ef; [|by exists w1..].
  apply find_spec_Ok in Ef as (f & Hf & <- & <- & Hsz).
  pose proof (holds_content _ _ Hh f Hf) as Hlen. rewrite res_bind_run. cbv beta iota zeta.
  destruct (Z.ltb_spec 10 (f_size f)) as [Hbig|Hsmall].
  { rewrite bool_decide_eq_false_2 by lia. by exists w1. }
  erewrite op_bind_run by reflexivity. erewrite op_bind_run by reflexivity.
  destruct (number_loop_exact (items w (f_select f)) 0 0 (port_out 2 1296 (f_select f) w1) [])
    as (w2 & I2 & E2); [split; lia|lia|lia|by rewrite fw_select, I1, app_nil_r|].
  rewrite fw_select_items, I1 in I2. rewrite <- Hlen, Nat2Z.id.
  unfold mbind, op_bind, lift. rewrite E2. rewrite <- decimal_dec. fold (text (items w (f_select f))).
  set (body := text (items w (f_select f))). exists w2. split; [done|].
  destruct (decide (Forall is_digit body ∧ decimal body < 2 ^ 32)) as [Hv|Hv].
  - rewrite bool_decide_eq_true_2 by done. destruct body as [|b body'] eqn:Eb; cbn [length].
    + by rewrite bool_decide_eq_false_2 by naive_solver.
    + rewrite bool_decide_eq_true_2 by (split_and!; [lia|done|apply Hv..]).
      rewrite (proj2 (Z.eqb_neq _ _)) by lia. done.
  - rewrite bool_decide_eq_false_2 by done. by rewrite bool_decide_eq_false_2 by naive_solver.
Qed.

Lemma power_action_spec w files :
  holds w files →
  ∃ w', items w' = items w ∧ fw_cfg_power_action w = (power_spec (items w) files, w').
Proof.
  intros Hh. unfold fw_cfg_power_action, power_spec.
  destruct (holds_find (ascii "opt/thermite/power"%string) w files Hh) as (w1 & I1 & E1).
  unfold mbind at 1, op_bind at 1. rewrite E1.
  destruct (find_spec files _) as [[[sel size]|]|e|] eqn:Ef; [|by exists w1..].
  apply find_spec_Ok in Ef as (f & Hf & <- & <- & Hsz).
  pose proof (holds_content _ _ Hh f Hf) as Hlen. rewrite res_bind_run. cbv beta iota zeta.
  destruct (Z.ltb_spec 8 (f_size f)) as [Hbig|Hsmall]; [by exists w1|].
  erewrite op_bind_run by reflexivity. erewrite op_bind_run by reflexivity.
  destruct (takes_fill (items w (f_select f)) (port_out 2 1296 (f_select f) w1) [])
    as (w2 & E2 & _ & I2); [by rewrite fw_select, I1, app_nil_r|].
  rewrite fw_select_items, I1 in I2. rewrite <- Hlen, Nat2Z.id.
  rewrite (op_bind_run _ _ _ _ _ E2). cbv zeta.
  set (content := items w (f_select f)) in *.
  set (value := content ++ replicate (8 - length content) 0).
  assert (take (default (length content) (position ends_text value)) value = text content) as ->.
  { destruct (position ends_text value) as [k|] eqn:Ep; cbn [default].
    - transitivity (take_until ends_text value); [by rewrite <- take_position, Ep|].
      by apply take_until_zeros.
    - pose proof (position_None _ _ Ep) as Hn. unfold value in *. rewrite take_app_length.
      unfold text. rewrite <- (app_nil_r content) at 2.
      rewrite take_until_app by set_solver. by rewrite app_nil_r. }
  exists w2. split; [done|]. by repeat case_bool_decide.
Qed.

(** A file whose text is a printed number says that number. *)
Lemma failure_spec_digits content files sel size v tail :
  find_spec files (ascii "opt/thermite/fail-ap"%string) = Ok (Some (sel, size)) →
  content sel = digits v ++ tail → text tail = [] → size ≤ 10 → u32 v →
  failure_spec content files = Ok (Some v).
Proof.
  intros Hf Hc Ht Hs Hv. unfold failure_spec. rewrite Hf, res_bind_run. cbv beta iota zeta.
  destruct (digits_spec v ltac:(ulia)) as (Hd & Hdec & Hlen & _).
  assert (text (content sel) = digits v) as ->.
  { unfold text in *. rewrite Hc, take_until_app, Ht, app_nil_r; [done|].
    intros x Hx. rewrite Forall_forall in Hd. apply Hd in Hx. unfold is_digit, ends_text in *.
    zcase; done || lia. }
  rewrite bool_decide_eq_true_2, Hdec; [done|]. split_and!; try done; [|rewrite Hdec; apply Hv].
  intros E. rewrite E in Hlen. cbn in Hlen. lia.
Qed.

(** ** The processors admitted *)

Lemma admit_cpus_Ok ids bsp failed eff :
  bsp ∈ ids →
  admit_cpus ids bsp failed = Ok eff ↔
  failed ≠ Some bsp ∧ (∀ f, failed = Some f → f ∈ ids) ∧ eff = filter (λ i, Some i ≠ failed) ids.
Proof.
  intros Hb. unfold admit_cpus. split.
  - intros (u & H1 & H2)%res_bind_Ok. apply bail_if_Ok, orb_false_iff in H1 as [H1 H3].
    apply bool_decide_eq_false in H1. cbv zeta in H2. op_inv H2. split_and!; [done| |done].
    intros f ->. apply negb_false_iff, bool_decide_eq_true in H3. done.
  - intros (Hn & Hf & ->). rewrite bool_decide_eq_false_2 by done. cbn [orb].
    assert (bsp ∈ filter (λ i, Some i ≠ failed) ids) as Hin by (apply list_elem_of_filter; done).
    assert (match failed with Some f => negb (bool_decide (f ∈ ids)) | None => false end = false) as ->.
    { destruct failed as [f|]; [|done]. by rewrite bool_decide_eq_true_2 by auto. }
    cbn. destruct (filter _ ids); [set_solver|]. cbn [length].
    by rewrite (proj2 (Z.eqb_neq _ _)) by lia.
Qed.

Lemma admit_cpus_returns ids bsp failed : admit_cpus ids bsp failed ≠ Panic.
Proof. unfold admit_cpus, bail_if. repeat case_match; done. Qed.

Lemma expected_mask_returns ids : (∀ i, i ∈ ids → u32 i) → expected_mask ids ≠ Panic.
Proof.
  intros Hu E. pose proof (expected_mask_loop_spec ids 0 Hu ltac:(lia)) as H'.
  unfold expected_mask in E. by rewrite E in H'.
Qed.

Lemma spec_returns content files :
  failure_spec content files ≠ Panic ∧ power_spec content files ≠ Panic.
Proof. unfold failure_spec, power_spec, find_spec. cbv zeta. split; repeat (case_match; cbn); done. Qed.

(** C33. The configuration channel is read faithfully: on a fw_cfg device that holds the
    given files, the driver returns exactly what the files say (the last entry of the
    name, refusing empty or oversized ones; a decimal number below 2^32; one of the two
    power words), never panics, and a number printed by the console is read back as
    itself, with or without a final newline. *)
Theorem fw_cfg_exact w files :
  holds w files →
  (∃ w', fw_cfg_failure_apic w = (failure_spec (items w) files, w')) ∧
  (∃ w', fw_cfg_power_action w = (power_spec (items w) files, w')) ∧
  failure_spec (items w) files ≠ Panic ∧ power_spec (items w) files ≠ Panic ∧
  ∀ sel size v tail,
    find_spec files (ascii "opt/thermite/fail-ap"%string) = Ok (Some (sel, size)) →
    items w sel = digits v ++ tail → text tail = [] → size ≤ 10 → u32 v →
    ∃ w', fw_cfg_failure_apic w = (Ok (Some v), w').
Proof.
  intros Hh. destruct (failure_apic_spec w files Hh) as (w1 & _ & E1).
  destruct (power_action_spec w files Hh) as (w2 & _ & E2).
  split_and!; [by exists w1|by exists w2|apply spec_returns..|].
  intros sel size v tail Hf Hc Ht Hs Hv. exists w1. rewrite E1. f_equal.
  by eapply failure_spec_digits.
Qed.

(** The admission as a function of what the files say. *)
Definition admission (ids : list Z) (bsp : Z) (fr : res PostFirmwareError (option Z))
    (pr : res PostFirmwareError PowerAction)
    : res PostFirmwareError (option Z * PowerAction * list Z * Z * Z) :=
  bail_if ((Z.of_nat (length ids) =? 0) || (MAX_CPUS <? length ids)
           || negb (bool_decide (bsp ∈ ids))) InvalidCpuId;;
  failed ← fr;
  power ← pr;
  eff ← admit_cpus ids bsp failed;
  mask ← expected_mask eff;
  bsp_bit ← bit bsp;
  Ok (failed, power, eff, mask, bsp_bit).

Lemma run_admission_spec w files ids bsp :
  holds w files →
  ∃ w', run_admission ids bsp w =
    (admission ids bsp (failure_spec (items w) files) (power_spec (items w) files), w').
Proof.
  intros Hh. unfold run_admission, admission.
  destruct (failure_apic_spec w files Hh) as (w1 & I1 & E1).
  assert (holds w1 files) as Hh1 by (destruct Hh; constructor; rewrite ?I1; done).
  destruct (power_action_spec w1 files Hh1) as (w2 & _ & E2). rewrite I1 in E2.
  unfold mbind, op_bind, res_bind, lift.
  destruct (bail_if _ _) as [u|e|]; [|by eexists..]. rewrite E1.
  destruct (failure_spec _ _) as [failed|e|]; [|by eexists..]. rewrite E2.
  destruct (power_spec _ _) as [power|e|]; [|by eexists..].
  destruct (admit_cpus _ _ _) as [eff|e|]; [|by eexists..].
  destruct (expected_mask _) as [mask|e|]; [|by eexists..].
  destruct (bit _) as [b|e|]; by eexists.
Qed.

Lemma mask_unique m m' :
  0 ≤ m → 0 ≤ m' → (∀ i, 0 ≤ i → Z.testbit m i = true ↔ Z.testbit m' i = true) → m = m'.
Proof. intros Hm0 Hm0' Hb. apply Z.bits_inj'. intros i Hi. apply eq_true_iff_eq. by apply Hb. Qed.

Lemma admission_Ok ids bsp fr pr failed power eff mask bsp_bit :
  (∀ i, i ∈ ids → u32 i) →
  admission ids bsp fr pr = Ok (failed, power, eff, mask, bsp_bit) ↔
  1 ≤ length ids ≤ MAX_CPUS ∧ bsp ∈ ids ∧ fr = Ok failed ∧ pr = Ok power ∧
  failed ≠ Some bsp ∧ (∀ f, failed = Some f → f ∈ ids) ∧
  eff = filter (λ i, Some i ≠ failed) ids ∧ NoDup eff ∧ (∀ i, i ∈ eff → i < 64) ∧
  0 ≤ mask ∧ (∀ i, 0 ≤ i → Z.testbit mask i = true ↔ i ∈ eff) ∧ bsp_bit = 2 ^ bsp.
Proof.
  intros Hu. unfold admission. split.
  - intros (u & Hc & Hr)%res_bind_Ok. apply bail_if_Ok in Hc.
    rewrite !orb_false_iff, negb_false_iff, bool_decide_eq_true in Hc. destruct Hc as [[H1 H2] Hb].
    apply res_bind_Ok in Hr as (f & -> & Hr). apply res_bind_Ok in Hr as (p & -> & Hr).
    apply res_bind_Ok in Hr as (e & He & Hr). apply res_bind_Ok in Hr as (m & Hm & Hr).
    apply res_bind_Ok in Hr as (b & Hbit & Hr). simplify_eq.
    apply (admit_cpus_Ok _ _ _ _ Hb) in He as (Hf1 & Hf2 & ->).
    assert (∀ i, i ∈ filter (λ i, Some i ≠ failed) ids → u32 i) as Hu'
      by (intros i [_ Hi]%list_elem_of_filter; auto).
    apply expected_mask_Ok in Hm as (Hnd & Hlt & Hm0 & Hbits); [|done].
    assert (0 ≤ bsp < 64) as Hbsp.
    { split; [apply Hu in Hb; ulia|]. apply Hlt, list_elem_of_filter. done. }
    rewrite bit_ok in Hbit by done. simplify_eq. zb. split_and!; try done; lia.
  - intros ([Hl1 Hl2] & Hb & -> & -> & Hf1 & Hf2 & -> & Hnd & Hlt & Hm0 & Hbits & ->).
    rewrite (proj2 (Z.eqb_neq _ _)), (proj2 (Z.ltb_ge _ _)), bool_decide_eq_true_2 by (done || lia).
    cbn [orb negb bail_if]. rewrite !res_bind_run.
    rewrite (proj2 (admit_cpus_Ok ids bsp failed _ Hb) (conj Hf1 (conj Hf2 eq_refl))), res_bind_run.
    assert (∀ i, i ∈ filter (λ i, Some i ≠ failed) ids → u32 i) as Hu'
      by (intros i [_ Hi]%list_elem_of_filter; auto).
    destruct (expected_mask_complete _ Hnd) as [m Hm].
    { intros i Hi. pose proof (Hu' i Hi). split; [ulia|auto]. }
    rewrite Hm, res_bind_run. apply expected_mask_Ok in Hm as (_ & _ & Hm0' & Hbits'); [|done].
    assert (0 ≤ bsp < 64) as Hbsp.
    { split; [apply Hu in Hb; ulia|]. apply Hlt, list_elem_of_filter. done. }
    rewrite bit_ok, res_bind_run by done. repeat f_equal.
    apply mask_unique; [done..|]. intros i Hi. by rewrite Hbits, Hbits'.
Qed.

Lemma admission_returns ids bsp fr pr :
  (∀ i, i ∈ ids → u32 i) → fr ≠ Panic → pr ≠ Panic → admission ids bsp fr pr ≠ Panic.
Proof.
  intros Hu Hf Hp. unfold admission.
  destruct (bail_if _ _) eqn:Eb; [|done|by unfold bail_if in Eb; case_match].
  destruct fr as [failed| |]; [|done..]. destruct pr as [power| |]; [|done..].
  rewrite !res_bind_run.
  destruct (admit_cpus ids bsp failed) as [eff| |] eqn:Ea; [|done|by destruct (admit_cpus_returns ids bsp failed)].
  rewrite res_bind_run. destruct (expected_mask eff) as [m| |] eqn:Em; [|done|].
  - rewrite res_bind_run. unfold bit. by case_match.
  - exfalso. revert Em. apply expected_mask_returns. intros i Hi.
    apply Hu. unfold admit_cpus in Ea. op_inv Ea. by apply list_elem_of_filter in Hi as [_ Hi].
Qed.

(** C21. The processor set is admitted exactly: [run] gets past its admission checks if and
    only if there are 1 to 64 processors with the boot processor among them, both
    configuration files are valid, the processor to fail is another member, and the
    remaining ids are distinct and below 64; it then continues with precisely those ids
    in order, the mask with exactly their bits, and the boot processor's bit. *)
Theorem admission_exact w files ids bsp :
  holds w files → (∀ i, i ∈ ids → u32 i) →
  ∃ r w', run_admission ids bsp w = (r, w') ∧ r ≠ Panic ∧
    ∀ failed power eff mask bsp_bit,
      r = Ok (failed, power, eff, mask, bsp_bit) ↔
      1 ≤ length ids ≤ MAX_CPUS ∧ bsp ∈ ids ∧
      failure_spec (items w) files = Ok failed ∧ power_spec (items w) files = Ok power ∧
      failed ≠ Some bsp ∧ (∀ f, failed = Some f → f ∈ ids) ∧
      eff = filter (λ i, Some i ≠ failed) ids ∧ NoDup eff ∧ (∀ i, i ∈ eff → i < 64) ∧
      0 ≤ mask ∧ (∀ i, 0 ≤ i → Z.testbit mask i = true ↔ i ∈ eff) ∧ bsp_bit = 2 ^ bsp.
Proof.
  intros Hh Hu. destruct (run_admission_spec w files ids bsp Hh) as [w' ->].
  eexists _, w'. split_and!; [done| |intros; by apply admission_Ok].
  apply admission_returns; [done|apply spec_returns..].
Qed.
End exact.

(** ** A device with three files, for the witnesses *)

Definition demo_files : list file :=
  [ MkFile 20 32 0 (ascii "etc/acpi/rsdp"%string);
    MkFile 3 33 0 (ascii "opt/thermite/fail-ap"%string);
    MkFile 6 34 0 (ascii "opt/thermite/power"%string) ].

Definition demo_items (sel : Z) : list Z :=
  if sel =? 25 then directory demo_files
  else if sel =? 32 then replicate 20 1
  else if sel =? 33 then digits 12 ++ [10]
  else if sel =? 34 then ascii "reboot"%string
  else [].

#[local] Instance demo_ports : PortIo (list Z) := {
  port_in width port w := (default 0 (head w), tail w);
  port_out width port value w := demo_items value;
}.
#[local] Instance demo_device : FwCfgDevice (list Z).
Proof. refine {| items _ := demo_items; stream w := w |}; try done. by intros w b rest ->. Defined.

Lemma demo_holds : holds (W := list Z) [] demo_files.
Proof.
  constructor.
  - repeat constructor; cbn; try lia; vm_compute; set_solver.
  - cbn. lia.
  - by exists [].
  - intros f Hf. unfold demo_files in Hf. rewrite !elem_of_cons, elem_of_nil in Hf.
    by destruct Hf as [->|[->|[->|[]]]].
Qed.

Lemma fw_cfg_exact_witness :
  ∃ w', fw_cfg_failure_apic (W := list Z) [] = (Ok (Some 12), w').
Proof.
  destruct (fw_cfg_exact (W := list Z) [] demo_files demo_holds) as (_ & _ & _ & _ & Hr).
  apply (Hr 33 3 12 [10]); try reflexivity; try lia. split; lia.
Defined.

Lemma admission_exact_witness :
  ∃ r w', run_admission (W := list Z) [0; 5; 12; 63] 0 [] = (r, w') ∧
    r = Ok (Some 12, Reboot, [0; 5; 63], 2 ^ 63 + 33, 1).
Proof.
  destruct (admission_exact (W := list Z) [] demo_files [0; 5; 12; 63] 0 demo_holds)
    as (r & w' & Hr & _ & _).
  { intros i Hi. rewrite !elem_of_cons, elem_of_nil in Hi. unfold in_u. lia. }
  exists r, w'. split; [exact Hr|]. vm_compute in Hr. by injection Hr as <- _.
Defined.

End FwCfg.
