(* ===== verification/Paging.v ===== *)
(** * The page tables of the target layer: [setup_page_tables] in
      [platform/x86_64-pc-uefi-smp-v1/runtime/src/post_firmware.rs]

    The tables are static pages; the function writes their entries one by one.
    [walk] is the four-level translation of the processor; the theorem
    compares the two. *)
From S2P Require Import Prelude Target.

Module Paging.
Import Target.

Definition USER_BASE : Z := 0x400000000000.
Definition USER_STACK : Z := USER_BASE + 4096.
Definition USER_FAULT_ADDRESS : Z := USER_BASE + 8192.
Definition SHOOTDOWN_ADDRESS : Z := 0x408000000000.
Definition PAGE_PRESENT : Z := 1.
Definition PAGE_WRITE : Z := Z.shiftl 1 1.
Definition PAGE_USER : Z := Z.shiftl 1 2.
Definition PAGE_HUGE : Z := Z.shiftl 1 7.
Definition PAGE_NX : Z := Z.shiftl 1 63.

(** The static pages; [IDENTITY_PDS] is four of them. *)
Inductive page : Type :=
| PML4 | IDENTITY_PDPT | IDENTITY_PD (i : Z)
| USER_PDPT | USER_PD | USER_PT
| SHOOT_PDPT | SHOOT_PD | SHOOT_PT
| USER_CODE_PAGE | USER_STACK_PAGE | TEST_PAGE_A | TEST_PAGE_B.

#[global] Instance page_eq_dec : EqDecision page.
Proof. solve_decision. Defined.

(** Where the linker put them. *)
Class Layout := address : page → Z.

(** Physical memory in words of eight bytes. *)
Abbreviation memory := (gmap Z Z).
Definition read64 (m : memory) (a : Z) : Z := default 0 (m !! a).

Section setup.
Context {L : Layout}.

(** [ptr::write(page.add(index), value)] *)
Definition ptr_write (p : page) (index value : Z) : op memory PostFirmwareError unit :=
  modify (λ m, <[address p + 8 * index := value]> m).

Notation "a .| b" := (Z.lor a b) (at level 50, left associativity).

Definition setup_page_tables : op memory PostFirmwareError Z :=
  ptr_write PML4 0 (address IDENTITY_PDPT .| PAGE_PRESENT .| PAGE_WRITE);;
  for_each (seqZ 0 4) (λ pdpt_index,
    ptr_write IDENTITY_PDPT pdpt_index
      (address (IDENTITY_PD pdpt_index) .| PAGE_PRESENT .| PAGE_WRITE);;
    for_each (seqZ 0 512) (λ entry,
      let physical := Z.shiftl (pdpt_index * 512 + entry) 21 in
      ptr_write (IDENTITY_PD pdpt_index) entry
        (physical .| PAGE_PRESENT .| PAGE_WRITE .| PAGE_HUGE)));;
  ptr_write PML4 (Z.land (Z.shiftr USER_BASE 39) 511)
    (address USER_PDPT .| PAGE_PRESENT .| PAGE_WRITE .| PAGE_USER);;
  ptr_write USER_PDPT 0 (address USER_PD .| PAGE_PRESENT .| PAGE_WRITE .| PAGE_USER);;
  ptr_write USER_PD 0 (address USER_PT .| PAGE_PRESENT .| PAGE_WRITE .| PAGE_USER);;
  ptr_write USER_PT 0 (address USER_CODE_PAGE .| PAGE_PRESENT .| PAGE_USER);;
  ptr_write USER_PT 1
    (address USER_STACK_PAGE .| PAGE_PRESENT .| PAGE_WRITE .| PAGE_USER .| PAGE_NX);;
  ptr_write PML4 (Z.land (Z.shiftr SHOOTDOWN_ADDRESS 39) 511)
    (address SHOOT_PDPT .| PAGE_PRESENT .| PAGE_WRITE);;
  ptr_write SHOOT_PDPT 0 (address SHOOT_PD .| PAGE_PRESENT .| PAGE_WRITE);;
  ptr_write SHOOT_PD 0 (address SHOOT_PT .| PAGE_PRESENT .| PAGE_WRITE);;
  ptr_write SHOOT_PT 0 (address TEST_PAGE_A .| PAGE_PRESENT .| PAGE_WRITE .| PAGE_NX);;
  ptr_write TEST_PAGE_A 0 0xaaaa555511112222;;
  ptr_write TEST_PAGE_B 0 0xbbbb666633334444;;
  mret (address PML4).

(** The shootdown of [run]: one entry is replaced. *)
Definition replace_shoot_page : op memory PostFirmwareError unit :=
  ptr_write SHOOT_PT 0 (address TEST_PAGE_B .| PAGE_PRESENT .| PAGE_WRITE .| PAGE_NX).
End setup.

(** ** The processor's page walk *)

Record translation : Type := MkTranslation {
  physical : Z;
  user : bool;
  writable : bool;
  no_execute : bool;
}.

#[global] Instance translation_eq_dec : EqDecision translation.
Proof. solve_decision. Defined.

Definition ADDRESS_MASK : Z := Z.shiftl (Z.ones 40) 12.

(** The entry for [va] in the table at [table], whose index starts at bit [shift]. *)
Definition entry_at (m : memory) (table va shift : Z) : option Z :=
  let e := read64 m (table + 8 * Z.land (Z.shiftr va shift) 511) in
  if Z.testbit e 0 then Some e else None.

(** A leaf: the page it maps, with the rights every level grants. *)
Definition leaf (path : list Z) (e va bits : Z) : translation :=
  MkTranslation (Z.land e ADDRESS_MASK / 2 ^ bits * 2 ^ bits + va mod 2 ^ bits)
    (forallb (λ e, Z.testbit e 2) (e :: path))
    (forallb (λ e, Z.testbit e 1) (e :: path))
    (existsb (λ e, Z.testbit e 63) (e :: path)).

Definition walk (m : memory) (cr3 va : Z) : option translation :=
  e4 ← entry_at m cr3 va 39;
  e3 ← entry_at m (Z.land e4 ADDRESS_MASK) va 30;
  if Z.testbit e3 7 then Some (leaf [e4] e3 va 30) else
  e2 ← entry_at m (Z.land e3 ADDRESS_MASK) va 21;
  if Z.testbit e2 7 then Some (leaf [e3; e4] e2 va 21) else
  e1 ← entry_at m (Z.land e2 ADDRESS_MASK) va 12;
  Some (leaf [e2; e3; e4] e1 va 12).

(** ** What the linker guarantees *)

Definition valid (p : page) : Prop :=
  match p with IDENTITY_PD i => 0 ≤ i < 4 | _ => True end.

Class LayoutOk (L : Layout) : Prop := {
  page_aligned p : valid p → address p mod 4096 = 0;
  page_range p : valid p → 0 ≤ address p < 2 ^ 52;
  page_distinct p q : valid p → valid q → address p = address q → p = q;
}.

Section proofs.
Context {L : Layout} {HL : LayoutOk L}.

Lemma slot_inj p q i j :
  valid p → valid q → 0 ≤ i < 512 → 0 ≤ j < 512 →
  address p + 8 * i = address q + 8 * j → p = q ∧ i = j.
Proof.
  intros Hp Hq Hi Hj Heq.
  pose proof (page_aligned p Hp) as Ap. pose proof (page_aligned q Hq) as Aq.
  apply Z.mod_divide in Ap as [x Ap]; [|lia]. apply Z.mod_divide in Aq as [y Aq]; [|lia].
  assert (x = y) as -> by lia. split; [|lia]. apply page_distinct; [done..|lia].
Qed.

(** Entry [j] of page [q]. *)
Definition slot (m : memory) (q : page) (j : Z) : Z := read64 m (address q + 8 * j).

(** [c] returns [a] and changes the slots exactly as [g] says. *)
Definition Updates {A} (c : op memory PostFirmwareError A) (a : A) (g : page → Z → option Z) : Prop :=
  ∀ m, ∃ m', c m = (Ok a, m') ∧
    ∀ q j, valid q → 0 ≤ j < 512 → slot m' q j = default (slot m q j) (g q j).

Lemma updates_ret {A} (a : A) : Updates (mret a) a (λ _ _, None).
Proof. intros m. by exists m. Qed.

Lemma updates_bind {A B} (c : op memory PostFirmwareError A) (k : A → op memory PostFirmwareError B) a b g1 g2 :
  Updates c a g1 → Updates (k a) b g2 →
  Updates (c ≫= k) b (λ q j, match g2 q j with Some v => Some v | None => g1 q j end).
Proof.
  intros H1 H2 m. destruct (H1 m) as (m1 & E1 & S1). destruct (H2 m1) as (m2 & E2 & S2).
  exists m2. rewrite (op_bind_run _ _ _ _ _ E1). split; [done|]. intros q j Hq Hj.
  rewrite S2 by done. destruct (g2 q j); [done|]. cbn. by apply S1.
Qed.

Definition at_slot (p : page) (i v : Z) : page → Z → option Z :=
  λ q j, if decide (q = p ∧ j = i) then Some v else None.

Lemma updates_write p i v : valid p → 0 ≤ i < 512 → Updates (ptr_write p i v) () (at_slot p i v).
Proof.
  intros Hp Hi m. eexists. split; [done|]. intros q j Hq Hj. unfold slot, read64, at_slot. cbv beta.
  case_decide as Hd; [destruct Hd as [-> ->]; by rewrite lookup_insert_eq|].
  rewrite lookup_insert_ne; [done|]. intros Heq. apply Hd.
  by apply slot_inj in Heq as [-> ->].
Qed.

Lemma updates_ext {A} (c : op memory PostFirmwareError A) a g g' :
  (∀ q j, valid q → 0 ≤ j < 512 → g q j = g' q j) → Updates c a g → Updates c a g'.
Proof.
  intros He Hc m. destruct (Hc m) as (m' & E & S). exists m'. split; [done|].
  intros q j Hq Hj. by rewrite S, He.
Qed.

(** A loop that fills entries of a page. *)
Lemma updates_fill p f l :
  valid p → (∀ i, i ∈ l → 0 ≤ i < 512) →
  Updates (for_each l (λ i, ptr_write p i (f i))) ()
    (λ q j, if decide (q = p ∧ j ∈ l) then Some (f j) else None).
Proof.
  intros Hp. induction l as [|i l IH]; intros Hl.
  { eapply updates_ext; [|apply updates_ret]. intros q j _ _. by rewrite decide_False by set_solver. }
  eapply updates_ext; [|eapply updates_bind; [apply updates_write; set_solver|apply IH; set_solver]].
  intros q j _ _. unfold at_slot. repeat case_decide; set_solver.
Qed.

Definition huge (k j : Z) : Z :=
  Z.lor (Z.lor (Z.lor (Z.shiftl (k * 512 + j) 21) PAGE_PRESENT) PAGE_WRITE) PAGE_HUGE.

Abbreviation kernel_rw p := (Z.lor (Z.lor (address p) PAGE_PRESENT) PAGE_WRITE).

(** What every entry of every page holds afterwards, with [shoot] behind the shootdown
    address. *)
Definition entries (shoot : page) (q : page) (j : Z) : Z :=
  match q with
  | PML4 => if j =? 0 then kernel_rw IDENTITY_PDPT
            else if j =? 128 then Z.lor (kernel_rw USER_PDPT) PAGE_USER
            else if j =? 129 then kernel_rw SHOOT_PDPT else 0
  | IDENTITY_PDPT => if j <? 4 then kernel_rw (IDENTITY_PD j) else 0
  | IDENTITY_PD k => huge k j
  | USER_PDPT => if j =? 0 then Z.lor (kernel_rw USER_PD) PAGE_USER else 0
  | USER_PD => if j =? 0 then Z.lor (kernel_rw USER_PT) PAGE_USER else 0
  | USER_PT => if j =? 0 then Z.lor (Z.lor (address USER_CODE_PAGE) PAGE_PRESENT) PAGE_USER
               else if j =? 1 then Z.lor (Z.lor (kernel_rw USER_STACK_PAGE) PAGE_USER) PAGE_NX else 0
  | SHOOT_PDPT => if j =? 0 then kernel_rw SHOOT_PD else 0
  | SHOOT_PD => if j =? 0 then kernel_rw SHOOT_PT else 0
  | SHOOT_PT => if j =? 0 then Z.lor (kernel_rw shoot) PAGE_NX else 0
  | TEST_PAGE_A => if j =? 0 then 0xaaaa555511112222 else 0
  | TEST_PAGE_B => if j =? 0 then 0xbbbb666633334444 else 0
  | USER_CODE_PAGE | USER_STACK_PAGE => 0
  end.

Definition identity_turn (k : Z) : page → Z → option Z :=
  λ q j, if decide (q = IDENTITY_PD k) then Some (huge k j)
         else if decide (q = IDENTITY_PDPT ∧ j = k) then Some (kernel_rw (IDENTITY_PD k)) else None.

Lemma updates_turn k :
  0 ≤ k < 4 →
  Updates (ptr_write IDENTITY_PDPT k (kernel_rw (IDENTITY_PD k));;
           for_each (seqZ 0 512) (λ entry, ptr_write (IDENTITY_PD k) entry (huge k entry)))
    () (identity_turn k).
Proof.
  intros Hk. eapply updates_ext;
    [|eapply updates_bind; [apply updates_write; cbn; lia|apply updates_fill; [done|]]].
  - intros q j _ Hj. unfold identity_turn, at_slot.
    destruct (decide (q = IDENTITY_PD k)) as [->|Hq].
    + rewrite decide_True; [done|]. split; [done|]. apply elem_of_seqZ. lia.
    + rewrite decide_False by tauto. done.
  - intros i Hi. apply elem_of_seqZ in Hi. lia.
Qed.

(** The whole construction, from pages that are still zero. *)
Lemma setup_entries m :
  (∀ q j, valid q → 0 ≤ j < 512 → slot m q j = 0) →
  ∃ m', setup_page_tables m = (Ok (address PML4), m') ∧
    ∀ q j, valid q → 0 ≤ j < 512 → slot m' q j = entries TEST_PAGE_A q j.
Proof.
  intros H0. assert (∃ g, Updates setup_page_tables (address PML4) g ∧
    ∀ q j, valid q → 0 ≤ j < 512 → default 0 (g q j) = entries TEST_PAGE_A q j) as (g & Hg & He).
  { eexists. split.
    - unfold setup_page_tables.
      eapply updates_bind; [apply updates_write; done|].
      eapply updates_bind.
      { change (seqZ 0 4) with [0; 1; 2; 3]. cbn [for_each].
        do 4 (eapply updates_bind; [apply updates_turn; lia|]). apply updates_ret. }
      do 11 (eapply updates_bind; [apply updates_write; done|]). apply updates_ret.
    - intros q j Hq Hj. cbv beta. unfold at_slot, identity_turn.
      change (Z.land (Z.shiftr USER_BASE 39) 511) with 128.
      change (Z.land (Z.shiftr SHOOTDOWN_ADDRESS 39) 511) with 129.
      destruct q; cbn in Hq; unfold entries.
      all: repeat (case_decide; [destruct_and?; simplify_eq; cbn; done || lia|]).
      all: cbn; repeat match goal with
        | H : ¬ (?p = ?p ∧ ?P) |- _ => assert (¬ P) by (intros ?; by apply H); clear H
        | H : ¬ (_ = _ ∧ _) |- _ => clear H
        | H : IDENTITY_PD ?i ≠ IDENTITY_PD ?k |- _ => assert (i ≠ k) by congruence; clear H
        | H : ¬ (_ = IDENTITY_PD _) |- _ => clear H
        end; zcase; done || lia. }
  destruct (Hg m) as (m' & E & S). exists m'. split; [done|]. intros q j Hq Hj.
  by rewrite S, H0, He.
Qed.

(** ** Reading an entry *)

(** The flag bits of the constructor lists above: none of them is an address bit. *)
Definition is_flags (f : Z) : Prop := 0 ≤ f ∧ Z.land f ADDRESS_MASK = 0.

Lemma address_bits b k : b mod 4096 = 0 → 0 ≤ b < 2 ^ 52 → k < 12 ∨ 52 ≤ k → Z.testbit b k = false.
Proof.
  intros Ha Hr [Hk|Hk].
  - destruct (decide (0 ≤ k)); [|by apply Z.testbit_neg_r; lia].
    rewrite <- (Z.mod_pow2_bits_low b 12) by lia. change (2 ^ 12) with 4096. rewrite Ha.
    apply Z.testbit_0_l.
  - destruct (decide (b = 0)) as [->|]; [apply Z.testbit_0_l|].
    apply Z.bits_above_log2; [lia|]. assert (Z.log2 b < 52) by (apply Z.log2_lt_pow2; lia). lia.
Qed.

Lemma mask_address b f :
  b mod 4096 = 0 → 0 ≤ b < 2 ^ 52 → is_flags f → Z.land (Z.lor b f) ADDRESS_MASK = b.
Proof.
  intros Ha Hr [_ Hf]. rewrite Z.land_lor_distr_l, Hf, Z.lor_0_r.
  apply Z.bits_inj'. intros k Hk. rewrite Z.land_spec. unfold ADDRESS_MASK.
  destruct (decide (k < 12 ∨ 52 ≤ k)) as [Hout|Hin].
  - by rewrite (address_bits b k).
  - rewrite Z.shiftl_spec, Z.ones_spec_low by lia. by rewrite andb_true_r.
Qed.

Lemma flag_bit b f k :
  b mod 4096 = 0 → 0 ≤ b < 2 ^ 52 → k < 12 ∨ 52 ≤ k → Z.testbit (Z.lor b f) k = Z.testbit f k.
Proof. intros Ha Hr Hk. rewrite Z.lor_spec. by rewrite (address_bits b k). Qed.

(** The tables of [m] are the ones [setup_page_tables] built, up to the shootdown page. *)
Definition built (shoot : page) (m : memory) : Prop :=
  ∀ q j, valid q → 0 ≤ j < 512 → slot m q j = entries shoot q j.

Lemma index_range va s : 0 ≤ Z.land (Z.shiftr va s) 511 < 512.
Proof. change 511 with (Z.ones 9). rewrite Z.land_ones by lia. apply Z.mod_pos_bound. lia. Qed.

Lemma index_div va s : 0 ≤ s → Z.land (Z.shiftr va s) 511 = va / 2 ^ s mod 512.
Proof.
  intros Hs. change 511 with (Z.ones 9). rewrite Z.land_ones by lia.
  by rewrite Z.shiftr_div_pow2.
Qed.

Lemma entry_built shoot m q va s :
  built shoot m → valid q →
  entry_at m (address q) va s =
  let e := entries shoot q (Z.land (Z.shiftr va s) 511) in if Z.testbit e 0 then Some e else None.
Proof.
  intros Hb Hq. unfold entry_at. fold (slot m q (Z.land (Z.shiftr va s) 511)).
  cbv zeta. by rewrite !Hb by (done || apply index_range).
Qed.

(** ** The address space *)

Definition address_space (shoot : page) (va : Z) : option translation :=
  if va <? 2 ^ 32 then Some (MkTranslation va false true false)
  else if va / 4096 =? USER_BASE / 4096
  then Some (MkTranslation (address USER_CODE_PAGE + va mod 4096) true false false)
  else if va / 4096 =? USER_STACK / 4096
  then Some (MkTranslation (address USER_STACK_PAGE + va mod 4096) true true true)
  else if va / 4096 =? SHOOTDOWN_ADDRESS / 4096
  then Some (MkTranslation (address shoot + va mod 4096) false true true)
  else None.

(** An entry that points to page [q], as a successful step of the walk. *)
Lemma step_entry q f :
  valid q → is_flags f →
  Z.land (Z.lor (address q) f) ADDRESS_MASK = address q ∧
  (∀ k, k < 12 ∨ 52 ≤ k → Z.testbit (Z.lor (address q) f) k = Z.testbit f k).
Proof.
  intros Hq Hf. pose proof (page_aligned q Hq). pose proof (page_range q Hq).
  split; [by apply mask_address|]. intros k Hk. by apply flag_bit.
Qed.

Lemma huge_entry k j :
  0 ≤ k < 4 → 0 ≤ j < 512 →
  Z.land (huge k j) ADDRESS_MASK = (k * 512 + j) * 2 ^ 21 ∧
  (∀ b, b < 12 ∨ 52 ≤ b → Z.testbit (huge k j) b = Z.testbit 131 b).
Proof.
  intros Hk Hj. unfold huge. rewrite <- !Z.lor_assoc, Z.shiftl_mul_pow2 by lia.
  change (Z.lor PAGE_PRESENT (Z.lor PAGE_WRITE PAGE_HUGE)) with 131.
  assert (((k * 512 + j) * 2 ^ 21) mod 4096 = 0) as Ha.
  { change (2 ^ 21) with (512 * 4096). rewrite Z.mul_assoc. apply Z_mod_mult. }
  assert (0 ≤ (k * 512 + j) * 2 ^ 21 < 2 ^ 52) as Hr by lia.
  split; [by apply mask_address|]. intros b Hb. by apply flag_bit.
Qed.

(** One level of the walk: an absent entry, or one that points to page [r]. *)
Lemma level_absent shoot m q va s :
  built shoot m → valid q → entries shoot q (Z.land (Z.shiftr va s) 511) = 0 →
  entry_at m (address q) va s = None.
Proof. intros Hb Hq He. rewrite (entry_built shoot) by done. cbv zeta. by rewrite He. Qed.

Lemma level_present shoot m q va s e :
  built shoot m → valid q → entries shoot q (Z.land (Z.shiftr va s) 511) = e → Z.testbit e 0 = true →
  entry_at m (address q) va s = Some e.
Proof. intros Hb Hq He Ht. rewrite (entry_built shoot) by done. cbv zeta. by rewrite He, Ht. Qed.

(** The flags of the entries, in canonical form. *)
Lemma kernel_rw_flags q : kernel_rw q = Z.lor (address q) 3.
Proof. by rewrite <- Z.lor_assoc. Qed.
Lemma user_flags q : Z.lor (kernel_rw q) PAGE_USER = Z.lor (address q) 7.
Proof. by rewrite <- !Z.lor_assoc. Qed.
Lemma user_code_flags q : Z.lor (Z.lor (address q) PAGE_PRESENT) PAGE_USER = Z.lor (address q) 5.
Proof. by rewrite <- !Z.lor_assoc. Qed.
Lemma user_stack_flags q :
  Z.lor (Z.lor (kernel_rw q) PAGE_USER) PAGE_NX = Z.lor (address q) (2 ^ 63 + 7).
Proof. by rewrite <- !Z.lor_assoc. Qed.
Lemma kernel_nx_flags q : Z.lor (kernel_rw q) PAGE_NX = Z.lor (address q) (2 ^ 63 + 3).
Proof. by rewrite <- !Z.lor_assoc. Qed.

(** A three-level descent that ends in a table with small pages. *)
Lemma walk_small shoot m va p2 p1 pt f4 f3 f2 leaf_page f1 :
  built shoot m → valid p2 → valid p1 → valid pt → valid leaf_page →
  is_flags f4 → is_flags f3 → is_flags f2 → is_flags f1 →
  Z.testbit f4 0 = true → Z.testbit f3 0 = true → Z.testbit f2 0 = true → Z.testbit f1 0 = true →
  Z.testbit f3 7 = false → Z.testbit f2 7 = false →
  entries shoot PML4 (Z.land (Z.shiftr va 39) 511) = Z.lor (address p2) f4 →
  entries shoot p2 (Z.land (Z.shiftr va 30) 511) = Z.lor (address p1) f3 →
  entries shoot p1 (Z.land (Z.shiftr va 21) 511) = Z.lor (address pt) f2 →
  entries shoot pt (Z.land (Z.shiftr va 12) 511) = Z.lor (address leaf_page) f1 →
  walk m (address PML4) va =
  Some (MkTranslation (address leaf_page + va mod 4096)
    (Z.testbit f1 2 && (Z.testbit f2 2 && (Z.testbit f3 2 && (Z.testbit f4 2 && true))))
    (Z.testbit f1 1 && (Z.testbit f2 1 && (Z.testbit f3 1 && (Z.testbit f4 1 && true))))
    (Z.testbit f1 63 || (Z.testbit f2 63 || (Z.testbit f3 63 || (Z.testbit f4 63 || false))))).
Proof.
  intros Hb V2 V1 Vt Vl F4 F3 F2 F1 T4 T3 T2 T1 N3 N2 E4 E3 E2 E1.
  destruct (step_entry p2 f4 V2 F4) as [A4 B4]. destruct (step_entry p1 f3 V1 F3) as [A3 B3].
  destruct (step_entry pt f2 Vt F2) as [A2 B2]. destruct (step_entry leaf_page f1 Vl F1) as [A1 B1].
  unfold walk.
  rewrite (level_present shoot m PML4 va 39 _ Hb I E4) by (rewrite B4; [done|lia]). cbn [mbind option_bind].
  rewrite A4, (level_present shoot m p2 va 30 _ Hb V2 E3) by (rewrite B3; [done|lia]). cbn [mbind option_bind].
  rewrite (B3 7), N3, A3 by lia.
  rewrite (level_present shoot m p1 va 21 _ Hb V1 E2) by (rewrite B2; [done|lia]). cbn [mbind option_bind].
  rewrite (B2 7), N2, A2 by lia.
  rewrite (level_present shoot m pt va 12 _ Hb Vt E1) by (rewrite B1; [done|lia]). cbn [mbind option_bind].
  unfold leaf. cbn [forallb existsb]. rewrite A1, !B1, !B2, !B3, !B4 by lia. do 2 f_equal.
  change (2 ^ 12) with 4096. pose proof (page_aligned leaf_page Vl).
  pose proof (Z.div_mod (address leaf_page) 4096). lia.
Qed.

Lemma walk_identity shoot m va :
  built shoot m → 0 ≤ va < 2 ^ 32 →
  walk m (address PML4) va = Some (MkTranslation va false true false).
Proof.
  intros Hb Hva.
  assert (Z.land (Z.shiftr va 39) 511 = 0) as I4
    by (rewrite index_div by lia; Z.to_euclidean_division_equations; lia).
  assert (0 ≤ Z.land (Z.shiftr va 30) 511 < 4) as I3
    by (rewrite index_div by lia; Z.to_euclidean_division_equations; lia).
  pose proof (index_range va 21) as I2.
  assert (va / 2 ^ 21 = Z.land (Z.shiftr va 30) 511 * 512 + Z.land (Z.shiftr va 21) 511) as Hva'
    by (rewrite !index_div by lia; Z.to_euclidean_division_equations; lia).
  set (i3 := Z.land (Z.shiftr va 30) 511) in *. set (i2 := Z.land (Z.shiftr va 21) 511) in *.
  destruct (step_entry IDENTITY_PDPT 3 I ltac:(done)) as [A4 B4].
  destruct (step_entry (IDENTITY_PD i3) 3 I3 ltac:(done)) as [A3 B3].
  destruct (huge_entry i3 i2 I3 I2) as [A2 B2].
  unfold walk.
  rewrite (level_present shoot m PML4 va 39 (Z.lor (address IDENTITY_PDPT) 3) Hb I);
    [|by rewrite I4; cbn; rewrite kernel_rw_flags|rewrite B4; [done|lia]]. cbn [mbind option_bind].
  rewrite A4, (level_present shoot m IDENTITY_PDPT va 30 (Z.lor (address (IDENTITY_PD i3)) 3) Hb I);
    [| |rewrite B3; [done|lia]].
  2:{ fold i3. cbn. rewrite (proj2 (Z.ltb_lt _ _)) by lia. by rewrite kernel_rw_flags. }
  cbn [mbind option_bind]. rewrite (B3 7), A3 by lia. change (Z.testbit 3 7) with false. cbv iota.
  rewrite (level_present shoot m (IDENTITY_PD i3) va 21 (huge i3 i2) Hb I3); [|done|rewrite B2; [done|lia]].
  cbn [mbind option_bind]. rewrite (B2 7) by lia. change (Z.testbit 131 7) with true. cbv iota.
  unfold leaf. cbn [forallb existsb]. rewrite A2, !B2, !B3, !B4 by lia.
  change (Z.testbit 131 2) with false. change (Z.testbit 131 1 && _) with true.
  change (Z.testbit 131 63 || _) with false. cbn [andb]. do 2 f_equal.
  rewrite Z.div_mul by lia. rewrite <- Hva'. pose proof (Z.div_mod va (2 ^ 21)). lia.
Qed.

(** The walk stops at the first absent entry. *)
Lemma walk_absent4 shoot m va :
  built shoot m → entries shoot PML4 (Z.land (Z.shiftr va 39) 511) = 0 →
  walk m (address PML4) va = None.
Proof. intros Hb E4. unfold walk. by rewrite (level_absent shoot m PML4 va 39). Qed.

Lemma walk_absent3 shoot m va p2 f4 :
  built shoot m → valid p2 → is_flags f4 → Z.testbit f4 0 = true →
  entries shoot PML4 (Z.land (Z.shiftr va 39) 511) = Z.lor (address p2) f4 →
  entries shoot p2 (Z.land (Z.shiftr va 30) 511) = 0 →
  walk m (address PML4) va = None.
Proof.
  intros Hb V2 F4 T4 E4 E3. destruct (step_entry p2 f4 V2 F4) as [A4 B4]. unfold walk.
  rewrite (level_present shoot m PML4 va 39 _ Hb I E4) by (rewrite B4; [done|lia]).
  cbn [mbind option_bind]. by rewrite A4, (level_absent shoot m p2 va 30).
Qed.

Lemma walk_absent2 shoot m va p2 p1 f4 f3 :
  built shoot m → valid p2 → valid p1 → is_flags f4 → is_flags f3 →
  Z.testbit f4 0 = true → Z.testbit f3 0 = true → Z.testbit f3 7 = false →
  entries shoot PML4 (Z.land (Z.shiftr va 39) 511) = Z.lor (address p2) f4 →
  entries shoot p2 (Z.land (Z.shiftr va 30) 511) = Z.lor (address p1) f3 →
  entries shoot p1 (Z.land (Z.shiftr va 21) 511) = 0 →
  walk m (address PML4) va = None.
Proof.
  intros Hb V2 V1 F4 F3 T4 T3 N3 E4 E3 E2.
  destruct (step_entry p2 f4 V2 F4) as [A4 B4]. destruct (step_entry p1 f3 V1 F3) as [A3 B3].
  unfold walk.
  rewrite (level_present shoot m PML4 va 39 _ Hb I E4) by (rewrite B4; [done|lia]).
  cbn [mbind option_bind].
  rewrite A4, (level_present shoot m p2 va 30 _ Hb V2 E3) by (rewrite B3; [done|lia]).
  cbn [mbind option_bind].
  rewrite (B3 7), N3, A3 by lia. by rewrite (level_absent shoot m p1 va 21).
Qed.

Lemma walk_absent1 shoot m va p2 p1 pt f4 f3 f2 :
  built shoot m → valid p2 → valid p1 → valid pt → is_flags f4 → is_flags f3 → is_flags f2 →
  Z.testbit f4 0 = true → Z.testbit f3 0 = true → Z.testbit f2 0 = true →
  Z.testbit f3 7 = false → Z.testbit f2 7 = false →
  entries shoot PML4 (Z.land (Z.shiftr va 39) 511) = Z.lor (address p2) f4 →
  entries shoot p2 (Z.land (Z.shiftr va 30) 511) = Z.lor (address p1) f3 →
  entries shoot p1 (Z.land (Z.shiftr va 21) 511) = Z.lor (address pt) f2 →
  entries shoot pt (Z.land (Z.shiftr va 12) 511) = 0 →
  walk m (address PML4) va = None.
Proof.
  intros Hb V2 V1 Vt F4 F3 F2 T4 T3 T2 N3 N2 E4 E3 E2 E1.
  destruct (step_entry p2 f4 V2 F4) as [A4 B4]. destruct (step_entry p1 f3 V1 F3) as [A3 B3].
  destruct (step_entry pt f2 Vt F2) as [A2 B2]. unfold walk.
  rewrite (level_present shoot m PML4 va 39 _ Hb I E4) by (rewrite B4; [done|lia]).
  cbn [mbind option_bind].
  rewrite A4, (level_present shoot m p2 va 30 _ Hb V2 E3) by (rewrite B3; [done|lia]).
  cbn [mbind option_bind]. rewrite (B3 7), N3, A3 by lia.
  rewrite (level_present shoot m p1 va 21 _ Hb V1 E2) by (rewrite B2; [done|lia]).
  cbn [mbind option_bind]. rewrite (B2 7), N2, A2 by lia.
  by rewrite (level_absent shoot m pt va 12).
Qed.

Lemma va_indices va :
  0 ≤ va < 2 ^ 48 →
  va / 4096 = ((Z.land (Z.shiftr va 39) 511 * 512 + Z.land (Z.shiftr va 30) 511) * 512
               + Z.land (Z.shiftr va 21) 511) * 512 + Z.land (Z.shiftr va 12) 511.
Proof. intros Hva. rewrite !index_div by lia. Z.to_euclidean_division_equations; lia. Qed.

Ltac table_entry :=
  cbn [entries]; zcase; try lia;
  rewrite ?user_stack_flags, ?kernel_nx_flags, ?user_flags, ?user_code_flags, ?kernel_rw_flags;
  reflexivity.

Lemma walk_outside_identity shoot m va :
  built shoot m → valid shoot → 2 ^ 32 ≤ va < 2 ^ 47 →
  walk m (address PML4) va = address_space shoot va.
Proof.
  intros Hb Hs Hva. unfold address_space. rewrite (proj2 (Z.ltb_ge _ _)) by lia.
  pose proof (va_indices va ltac:(lia)) as Hv.
  pose proof (index_range va 39) as R4. pose proof (index_range va 30) as R3.
  pose proof (index_range va 21) as R2. pose proof (index_range va 12) as R1.
  assert (2 ^ 20 ≤ va / 4096) as Hlow by (Z.to_euclidean_division_equations; lia).
  change (USER_BASE / 4096) with (128 * 512 * 512 * 512).
  change (USER_STACK / 4096) with (128 * 512 * 512 * 512 + 1).
  change (SHOOTDOWN_ADDRESS / 4096) with (129 * 512 * 512 * 512).
  rewrite Hv. rewrite Hv in Hlow. clear Hv.
  set (i4 := Z.land (Z.shiftr va 39) 511) in *. set (i3 := Z.land (Z.shiftr va 30) 511) in *.
  set (i2 := Z.land (Z.shiftr va 21) 511) in *. set (i1 := Z.land (Z.shiftr va 12) 511) in *.
  assert (i4 = 0 ∨ i4 = 128 ∨ i4 = 129 ∨ (i4 ≠ 0 ∧ i4 ≠ 128 ∧ i4 ≠ 129))
    as [H4|[H4|[H4|H4]]] by lia.
  - transitivity (@None translation); [|zcase; lia || done].
    eapply (walk_absent3 shoot m va IDENTITY_PDPT 3); try done; fold i4 i3; table_entry.
  - destruct (decide (i3 = 0)) as [H3|H3].
    2:{ transitivity (@None translation); [|zcase; lia || done].
        eapply (walk_absent3 shoot m va USER_PDPT 7); try done; fold i4 i3; table_entry. }
    destruct (decide (i2 = 0)) as [H2|H2].
    2:{ transitivity (@None translation); [|zcase; lia || done].
        eapply (walk_absent2 shoot m va USER_PDPT USER_PD 7 7); try done; fold i4 i3 i2; table_entry. }
    destruct (decide (i1 = 0)) as [H1|H1]; [|destruct (decide (i1 = 1)) as [H1'|H1']].
    + erewrite (walk_small shoot m va USER_PDPT USER_PD USER_PT 7 7 7 USER_CODE_PAGE 5); try done;
        [|fold i4 i3 i2 i1; table_entry..]. zcase; lia || done.
    + erewrite (walk_small shoot m va USER_PDPT USER_PD USER_PT 7 7 7 USER_STACK_PAGE (2 ^ 63 + 7));
        try done; [|fold i4 i3 i2 i1; table_entry..]. zcase; lia || done.
    + transitivity (@None translation); [|zcase; lia || done].
      eapply (walk_absent1 shoot m va USER_PDPT USER_PD USER_PT 7 7 7); try done;
        fold i4 i3 i2 i1; table_entry.
  - destruct (decide (i3 = 0)) as [H3|H3].
    2:{ transitivity (@None translation); [|zcase; lia || done].
        eapply (walk_absent3 shoot m va SHOOT_PDPT 3); try done; fold i4 i3; table_entry. }
    destruct (decide (i2 = 0)) as [H2|H2].
    2:{ transitivity (@None translation); [|zcase; lia || done].
        eapply (walk_absent2 shoot m va SHOOT_PDPT SHOOT_PD 3 3); try done; fold i4 i3 i2; table_entry. }
    destruct (decide (i1 = 0)) as [H1|H1].
    + erewrite (walk_small shoot m va SHOOT_PDPT SHOOT_PD SHOOT_PT 3 3 3 shoot (2 ^ 63 + 3)); try done;
        [|fold i4 i3 i2 i1; table_entry..]. zcase; lia || done.
    + transitivity (@None translation); [|zcase; lia || done].
      eapply (walk_absent1 shoot m va SHOOT_PDPT SHOOT_PD SHOOT_PT 3 3 3); try done;
        fold i4 i3 i2 i1; table_entry.
  - transitivity (@None translation); [|zcase; lia || done].
    apply (walk_absent4 shoot m va Hb). fold i4. table_entry.
Qed.

Lemma built_walk shoot m va :
  built shoot m → valid shoot → 0 ≤ va < 2 ^ 47 →
  walk m (address PML4) va = address_space shoot va.
Proof.
  intros Hb Hs Hva. destruct (decide (va < 2 ^ 32)) as [Hlt|Hge].
  - unfold address_space. rewrite (proj2 (Z.ltb_lt _ _)) by done.
    apply (walk_identity shoot m va Hb). lia.
  - apply walk_outside_identity; [done..|lia].
Qed.

Lemma replace_built shoot m :
  built shoot m →
  ∃ m', replace_shoot_page m = (Ok (), m') ∧ built TEST_PAGE_B m'.
Proof.
  intros Hb. unfold replace_shoot_page.
  destruct (updates_write SHOOT_PT 0 (Z.lor (kernel_rw TEST_PAGE_B) PAGE_NX) I ltac:(lia) m)
    as (m' & E & Hu).
  exists m'. split; [exact E|]. intros q j Hq Hj. rewrite Hu, Hb by done. unfold at_slot.
  case_decide as Hd; [destruct Hd as [-> ->]; done|].
  destruct q; try done. cbn. zcase; [|done]. subst j. tauto.
Qed.

(** C17. The page tables mean what they should: from zeroed pages, [setup_page_tables]
    builds a hierarchy under which the processor's walk of every address of the lower
    half is the reference map: the first 4 GiB identically, writable by the kernel only;
    the user's code page readable and executable, its stack page writable and not
    executable; the shootdown page; and nothing else.  Both test pages hold their words.
    Replacing the one entry as [run] does moves the shootdown page and nothing else. *)
Theorem page_tables_exact m :
  (∀ q j, valid q → 0 ≤ j < 512 → slot m q j = 0) →
  ∃ m', setup_page_tables m = (Ok (address PML4), m') ∧
    (∀ va, 0 ≤ va < 2 ^ 47 → walk m' (address PML4) va = address_space TEST_PAGE_A va) ∧
    slot m' TEST_PAGE_A 0 = 0xaaaa555511112222 ∧ slot m' TEST_PAGE_B 0 = 0xbbbb666633334444 ∧
    ∃ m'', replace_shoot_page m' = (Ok (), m'') ∧
      (∀ va, 0 ≤ va < 2 ^ 47 → walk m'' (address PML4) va = address_space TEST_PAGE_B va) ∧
      slot m'' TEST_PAGE_B 0 = 0xbbbb666633334444.
Proof.
  intros H0. destruct (setup_entries m H0) as (m' & E & Hb). exists m'.
  destruct (replace_built TEST_PAGE_A m' Hb) as (m'' & E' & Hb').
  split; [exact E|]. split; [intros va Hva; by apply built_walk|].
  rewrite !Hb by (exact I || lia). split; [reflexivity|]. split; [reflexivity|].
  exists m''. split; [exact E'|]. rewrite Hb' by (exact I || lia).
  split; [intros va Hva; by apply built_walk|reflexivity].
Qed.
End proofs.

(** A layout, for the witness. *)
Definition demo_layout : Layout := λ p,
  4096 * match p with
         | PML4 => 256 | IDENTITY_PDPT => 257 | IDENTITY_PD i => 258 + i
         | USER_PDPT => 262 | USER_PD => 263 | USER_PT => 264
         | SHOOT_PDPT => 265 | SHOOT_PD => 266 | SHOOT_PT => 267
         | USER_CODE_PAGE => 268 | USER_STACK_PAGE => 269
         | TEST_PAGE_A => 270 | TEST_PAGE_B => 271
         end.

Lemma demo_layout_ok : LayoutOk demo_layout.
Proof.
  constructor; unfold address, demo_layout.
  - intros p _. rewrite Z.mul_comm. apply Z_mod_mult.
  - intros [] Hp; cbn in Hp; lia.
  - intros [] [] Hp Hq; cbn in Hp, Hq; intros Heq; try reflexivity; try lia. f_equal. lia.
Qed.

Lemma page_tables_exact_witness :
  let cr3 := @address demo_layout PML4 in
  ∃ m', setup_page_tables (L := demo_layout) ∅ = (Ok cr3, m') ∧
    walk m' cr3 USER_STACK =
    Some (MkTranslation (@address demo_layout USER_STACK_PAGE) true true true).
Proof.
  destruct (page_tables_exact (L := demo_layout) (HL := demo_layout_ok) ∅)
    as (m' & E & Hw & _); [done|].
  exists m'. split; [exact E|]. rewrite Hw by (unfold USER_STACK, USER_BASE; lia).
  reflexivity.
Defined.

End Paging.
