(* ===== verification/RawMemory.v ===== *)
(** * Bytes of memory: [checked_mmio_address], [mmio_read*], [mmio_write*],
      [volatile_device_probe] and [memmove] in
      [platform/x86_64-pc-uefi-smp-v1/runtime/src/post_firmware.rs]

    Little-endian accesses of 1 to 8 bytes behind a bounds check, the probe
    that exercises them on a static buffer, and the assembly routine the
    compiler calls to move overlapping ranges. *)
From S2P Require Import Prelude Target.

Module RawMemory.
Import Target.

(** Memory by byte address; an address that was never written reads zero. *)
Definition byte_at (m : gmap Z Z) (a : Z) : Z := default 0 (m !! a).

(** [ptr::read_volatile] and [ptr::write_volatile] of an [n]-byte integer. *)
Fixpoint read_le (m : gmap Z Z) (a : Z) (n : nat) : Z :=
  match n with
  | O => 0
  | S n => byte_at m a + 256 * read_le m (a + 1) n
  end.

Fixpoint write_le (a : Z) (n : nat) (v : Z) (m : gmap Z Z) : gmap Z Z :=
  match n with
  | O => m
  | S n => write_le (a + 1) n (v / 256) (<[a := v mod 256]> m)
  end.

(** ** Bounded device accesses *)

Definition checked_mmio_address (base len offset width : Z) : res PostFirmwareError Z :=
  end_ ← ok_or Device (checked_add 64 offset width);
  bail_if ((width =? 0) || negb (offset mod width =? 0) || (len <? end_)) Device;;
  ok_or Device (checked_add 64 base offset).

(** The four widths differ in nothing else. *)
Definition mmio_read (width : nat) (base len offset : Z) : op (gmap Z Z) PostFirmwareError Z :=
  address ← lift (checked_mmio_address base len offset width);
  reads (λ m, read_le m address width).
Definition mmio_read8 : Z → Z → Z → op (gmap Z Z) PostFirmwareError Z := mmio_read 1.
Definition mmio_read16 : Z → Z → Z → op (gmap Z Z) PostFirmwareError Z := mmio_read 2.
Definition mmio_read32 : Z → Z → Z → op (gmap Z Z) PostFirmwareError Z := mmio_read 4.
Definition mmio_read64 : Z → Z → Z → op (gmap Z Z) PostFirmwareError Z := mmio_read 8.

Definition mmio_write (width : nat) (base len offset value : Z)
    : op (gmap Z Z) PostFirmwareError unit :=
  address ← lift (checked_mmio_address base len offset width);
  modify (write_le address width value).
Definition mmio_write8 : Z → Z → Z → Z → op (gmap Z Z) PostFirmwareError unit := mmio_write 1.
Definition mmio_write16 : Z → Z → Z → Z → op (gmap Z Z) PostFirmwareError unit := mmio_write 2.
Definition mmio_write32 : Z → Z → Z → Z → op (gmap Z Z) PostFirmwareError unit := mmio_write 4.
Definition mmio_write64 : Z → Z → Z → Z → op (gmap Z Z) PostFirmwareError unit := mmio_write 8.

(** [r.is_ok()] *)
Definition is_ok {S E A} (m : op S E A) : op S E bool :=
  λ s, match m s with
       | (Ok _, s) => (Ok true, s)
       | (Err _, s) => (Ok false, s)
       | (Panic, s) => (Panic, s)
       end.

(** [||] stops at the first comparison that fails. *)
Definition probe_differs (checks : list (op (gmap Z Z) PostFirmwareError bool))
    : op (gmap Z Z) PostFirmwareError bool :=
  foldr (λ c rest, b ← c; if (b : bool) then mret true else rest) (mret false) checks.

(** [base] is the address of the static [MMIO_PROBE]. *)
Definition volatile_device_probe (base : Z) : op (gmap Z Z) PostFirmwareError Z :=
  let len := 16 in
  mmio_write8 base len 0 0x12;;
  mmio_write16 base len 2 0x3456;;
  mmio_write32 base len 4 0x789abcde;;
  mmio_write64 base len 8 0xfedcba9876543210;;
  bad ← probe_differs
    [ (v ← mmio_read8 base len 0; mret (negb (v =? 0x12)));
      (v ← mmio_read16 base len 2; mret (negb (v =? 0x3456)));
      (v ← mmio_read32 base len 4; mret (negb (v =? 0x789abcde)));
      (v ← mmio_read64 base len 8; mret (negb (v =? 0xfedcba9876543210))) ];
  lift (bail_if bad Device);;
  accepted ← probe_differs [is_ok (mmio_read16 base len 1); is_ok (mmio_read64 base len 12)];
  lift (bail_if accepted Device);;
  mret 2.

(** ** [memmove] *)

(** [movb (src,i), %r9b; movb %r9b, (dst,i)] *)
Definition move_byte (dst src i : Z) (m : gmap Z Z) : gmap Z Z :=
  <[wrap 64 (dst + i) := byte_at m (wrap 64 (src + i))]> m.

(** Label 1: [r10] counts down from the length; the loop ends at zero. *)
Fixpoint move_down (dst src : Z) (r10 : nat) (m : gmap Z Z) : gmap Z Z :=
  match r10 with
  | O => m
  | S r10 => move_down dst src r10 (move_byte dst src r10 m)
  end.

(** Label 3: [r10] counts up to the length; [turns] is what is left. *)
Fixpoint move_up (dst src r10 : Z) (turns : nat) (m : gmap Z Z) : gmap Z Z :=
  match turns with
  | O => m
  | S turns => move_up dst src (r10 + 1) turns (move_byte dst src r10 m)
  end.

(** [cmpq; jbe] and [leaq; cmpq; jae] pick the direction; [rax] is the
    destination. *)
Definition memmove (dst src len : Z) (m : gmap Z Z) : Z * gmap Z Z :=
  (dst,
   if len =? 0 then m
   else if dst <=? src then move_up dst src 0 (Z.to_nat len) m
   else if wrap 64 (src + len) <=? dst then move_up dst src 0 (Z.to_nat len) m
   else move_down dst src (Z.to_nat len) m).

(** ** Proofs *)

Lemma byte_at_insert m a b v : byte_at (<[a := v]> m) b = if a =? b then v else byte_at m b.
Proof.
  unfold byte_at. destruct (Z.eqb_spec a b) as [->|Hne].
  - by rewrite lookup_insert_eq.
  - by rewrite lookup_insert_ne.
Qed.

Lemma write_le_outside a (n : nat) v m b :
  b < a ∨ a + n ≤ b → byte_at (write_le a n v m) b = byte_at m b.
Proof.
  revert a v m. induction n as [|n IH]; intros a v m Hb; [done|]. cbn.
  rewrite IH by lia. rewrite byte_at_insert. zcase; [lia|done].
Qed.

Lemma read_le_ext m m' a (n : nat) :
  (∀ b, a ≤ b < a + n → byte_at m b = byte_at m' b) → read_le m a n = read_le m' a n.
Proof.
  revert a. induction n as [|n IH]; intros a Hb; [done|]. cbn.
  rewrite Hb by lia. by rewrite IH by (intros b ?; apply Hb; lia).
Qed.

(** A value is read back truncated to its width. *)
Lemma read_write_le a (n : nat) v m : read_le (write_le a n v m) a n = v mod 256 ^ n.
Proof.
  revert a v m. induction n as [|n IH]; intros a v m; cbn; [by rewrite Z.mod_1_r|].
  rewrite IH, write_le_outside, byte_at_insert, Z.eqb_refl by lia.
  rewrite Nat2Z.inj_succ, Z.pow_succ_r by lia.
  rewrite Z.rem_mul_r by lia. done.
Qed.

Lemma read_write_other a (n : nat) v m b (k : nat) :
  b + k ≤ a ∨ a + n ≤ b → read_le (write_le a n v m) b k = read_le m b k.
Proof. intros Hd. apply read_le_ext. intros c Hc. apply write_le_outside. lia. Qed.

Lemma checked_mmio_address_Ok base len offset width a :
  0 ≤ base → 0 ≤ offset → 0 ≤ width → u64 len →
  checked_mmio_address base len offset width = Ok a ↔
  0 < width ∧ offset mod width = 0 ∧ offset + width ≤ len ∧ a = base + offset ∧ a < 2 ^ 64.
Proof.
  intros Hb Ho Hw Hl. unfold checked_mmio_address. op_unfold. unfold in_u in Hl.
  split.
  - repeat case_match; intros; simplify_eq; zb; split_and!; lia.
  - intros (H1 & H2 & H3 & -> & H4). rewrite (proj2 (Z.ltb_lt _ _)) by lia.
    rewrite (proj2 (Z.eqb_neq _ _)), (proj2 (Z.eqb_eq _ _)), (proj2 (Z.ltb_ge _ _)) by lia.
    cbn. rewrite (proj2 (Z.ltb_lt _ _)) by lia. done.
Qed.

(** The accesses that are let through: the check looks at the end of the access inside the
    window, and at the start of it in the address space. *)
Definition passes (base len offset width : Z) : Prop :=
  offset mod width = 0 ∧ offset + width ≤ len ∧ base + offset < 2 ^ 64.

Lemma checked_mmio_address_in base len offset width :
  0 ≤ base → 0 ≤ offset → 0 < width → u64 len →
  checked_mmio_address base len offset width =
  if decide (passes base len offset width) then Ok (base + offset) else Err Device.
Proof.
  intros Hb Ho Hw Hl. unfold passes. case_decide as Hd.
  - apply checked_mmio_address_Ok; [done..|lia|done|naive_solver].
  - destruct (checked_mmio_address base len offset width) as [a|e|] eqn:E.
    + apply checked_mmio_address_Ok in E; [naive_solver|done..|lia|done].
    + unfold checked_mmio_address in E. op_unfold. repeat case_match; by simplify_eq.
    + unfold checked_mmio_address in E. op_unfold. repeat case_match; by simplify_eq.
Qed.

Lemma mmio_write_in (width : nat) base len offset value m :
  u64 base → u64 offset → u64 len → (0 < width)%nat → passes base len offset width →
  mmio_write width base len offset value m = (Ok (), write_le (base + offset) width value m).
Proof.
  intros Hb Ho Hl Hw Hin. unfold mmio_write, mbind, op_bind, lift.
  rewrite checked_mmio_address_in, decide_True by (done || ulia). done.
Qed.

Lemma mmio_read_in (width : nat) base len offset m :
  u64 base → u64 offset → u64 len → (0 < width)%nat → passes base len offset width →
  mmio_read width base len offset m = (Ok (read_le m (base + offset) width), m).
Proof.
  intros Hb Ho Hl Hw Hin. unfold mmio_read, mbind, op_bind, lift.
  rewrite checked_mmio_address_in, decide_True by (done || ulia). done.
Qed.

Lemma mmio_out (width : nat) base len offset value m :
  u64 base → u64 offset → u64 len → (0 < width)%nat → ¬ passes base len offset width →
  mmio_write width base len offset value m = (Err Device, m) ∧
  mmio_read width base len offset m = (Err Device, m).
Proof.
  intros Hb Ho Hl Hw Hin. unfold mmio_write, mmio_read, mbind, op_bind, lift.
  by rewrite checked_mmio_address_in, decide_False by (done || ulia).
Qed.

(** The probe, on any buffer that does not wrap around. *)
Lemma probe_run base m :
  0 ≤ base → base + 16 ≤ 2 ^ 64 →
  ∃ m', volatile_device_probe base m = (Ok 2, m') ∧
    ∀ b, b < base ∨ base + 16 ≤ b → byte_at m' b = byte_at m b.
Proof.
  intros H0 H16. assert (u64 base) as Hb by ulia.
  unfold volatile_device_probe, mmio_write8, mmio_write16, mmio_write32, mmio_write64,
    mmio_read8, mmio_read16, mmio_read32, mmio_read64.
  assert (∀ o w, (o, w) ∈ [(0, 1); (2, 2); (4, 4); (8, 8)] → passes base 16 o w) as Hin.
  { intros o w Hw. unfold passes. rewrite !elem_of_cons, elem_of_nil in Hw.
    destruct Hw as [[= -> ->]|[[= -> ->]|[[= -> ->]|[[= -> ->]|[]]]]]; split_and!; try done; lia. }
  erewrite op_bind_run by (apply mmio_write_in; [done|by split|by split|lia|apply Hin; set_solver]).
  erewrite op_bind_run by (apply mmio_write_in; [done|by split|by split|lia|apply Hin; set_solver]).
  erewrite op_bind_run by (apply mmio_write_in; [done|by split|by split|lia|apply Hin; set_solver]).
  erewrite op_bind_run by (apply mmio_write_in; [done|by split|by split|lia|apply Hin; set_solver]).
  set (m' := write_le _ 8 _ _).
  assert (read_le m' (base + 0) 1 = 0x12) as R8
    by (unfold m'; rewrite !read_write_other by lia; by rewrite read_write_le).
  assert (read_le m' (base + 2) 2 = 0x3456) as R16
    by (unfold m'; rewrite 2!read_write_other by lia; by rewrite read_write_le).
  assert (read_le m' (base + 4) 4 = 0x789abcde) as R32
    by (unfold m'; rewrite read_write_other by lia; by rewrite read_write_le).
  assert (read_le m' (base + 8) 8 = 0xfedcba9876543210) as R64
    by (unfold m'; by rewrite read_write_le).
  exists m'. split.
  - unfold probe_differs. cbn [foldr].
    assert (∀ (w : nat) o v, read_le m' (base + o) w = v → u64 o → (0 < w)%nat →
      passes base 16 o w →
      ((x ← mmio_read w base 16 o; mret (negb (x =? v))) : op _ PostFirmwareError bool) m'
      = (Ok false, m')) as Hread.
    { intros w o v Hv Ho Hw Hi. erewrite op_bind_run by (apply mmio_read_in; done || by split).
      by rewrite Hv, Z.eqb_refl. }
    assert (∀ (w : nat) o, u64 o → (0 < w)%nat → ¬ passes base 16 o w →
      is_ok (mmio_read w base 16 o) m' = (Ok false, m')) as Hno.
    { intros w o Ho Hw Hi. unfold is_ok.
      by destruct (mmio_out w base 16 o 0 m' Hb Ho ltac:(by split) Hw Hi) as [_ ->]. }
    erewrite op_bind_run.
    2:{ erewrite op_bind_run by (apply (Hread 1%nat); [exact R8|by split|lia|apply Hin; set_solver]); cbv beta iota.
        erewrite op_bind_run by (apply (Hread 2%nat); [exact R16|by split|lia|apply Hin; set_solver]); cbv beta iota.
        erewrite op_bind_run by (apply (Hread 4%nat); [exact R32|by split|lia|apply Hin; set_solver]); cbv beta iota.
        erewrite op_bind_run by (apply (Hread 8%nat); [exact R64|by split|lia|apply Hin; set_solver]); cbv beta iota.
        reflexivity. }
    erewrite op_bind_run by reflexivity.
    erewrite op_bind_run.
    2:{ erewrite op_bind_run by (apply (Hno 2%nat); [by split|lia|by intros [? _]]); cbv beta iota.
        erewrite op_bind_run by (apply (Hno 8%nat); [by split|lia|by intros [? _]]); cbv beta iota.
        reflexivity. }
    reflexivity.
  - intros b Hb'. unfold m'. by rewrite !write_le_outside by lia.
Qed.

(** C35. Device registers are reached within bounds: an access is let through exactly when it is
    aligned to its width, ends inside the window and starts inside the address space, and
    otherwise [Device] is returned with memory untouched.  When the window itself lies in the
    address space, every access let through lies in the window, a write is read back
    truncated to its width, and no other byte changes.  The boot-time probe of the four
    widths and of two bad accesses passes on any such buffer. *)
Theorem mmio_exact (width : nat) base len offset value m :
  u64 base → u64 offset → u64 len → (0 < width)%nat →
  ((mmio_write width base len offset value m).1 = Ok () ↔
     offset mod width = 0 ∧ offset + width ≤ len ∧ base + offset < 2 ^ 64) ∧
  (¬ (offset mod width = 0 ∧ offset + width ≤ len ∧ base + offset < 2 ^ 64) →
   mmio_write width base len offset value m = (Err Device, m) ∧
   mmio_read width base len offset m = (Err Device, m)) ∧
  (base + len ≤ 2 ^ 64 → offset mod width = 0 → offset + width ≤ len →
   ∃ m', mmio_write width base len offset value m = (Ok (), m') ∧
     mmio_read width base len offset m' = (Ok (value mod 256 ^ width), m') ∧
     ∀ b, b < base + offset ∨ base + offset + width ≤ b → byte_at m' b = byte_at m b) ∧
  (base + 16 ≤ 2 ^ 64 →
   ∃ m', volatile_device_probe base m = (Ok 2, m') ∧
     ∀ b, b < base ∨ base + 16 ≤ b → byte_at m' b = byte_at m b).
Proof.
  intros Hb Ho Hl Hw. split_and!.
  - destruct (decide (passes base len offset width)) as [Hp|Hp].
    + rewrite mmio_write_in by done. split; [intros _; exact Hp|done].
    + destruct (mmio_out width base len offset value m Hb Ho Hl Hw Hp) as [-> _]. by split; [|intros ?%Hp].
  - intros Hp. by apply mmio_out.
  - intros Htop Ha He. assert (passes base len offset width) as Hp by (split_and!; [done..|lia]).
    eexists. split; [by apply mmio_write_in|]. split.
    + rewrite mmio_read_in by done. by rewrite read_write_le.
    + intros b Hout. by apply write_le_outside.
  - intros H16. apply probe_run; [ulia|done].
Qed.

Lemma mmio_exact_witness :
  ∃ m', mmio_write 4 4096 16 8 0x1122334455 ∅ = (Ok (), m') ∧
    mmio_read 4 4096 16 8 m' = (Ok 0x22334455, m').
Proof.
  destruct (mmio_exact 4 4096 16 8 0x1122334455 ∅) as (_ & _ & Hin & _); [by split..|lia|].
  destruct Hin as (m' & Hw & Hr & _); [done|done|done|].
  exists m'. split; [exact Hw|exact Hr].
Defined.

(** The end of the access is not checked against the address space: in a window that reaches
    past its top, an access of eight bytes is let through four bytes below the top. *)
Theorem mmio_check_misses_top :
  checked_mmio_address (2 ^ 64 - 4) 8 0 8 = Ok (2 ^ 64 - 4) ∧ 2 ^ 64 < (2 ^ 64 - 4) + 8.
Proof. done. Qed.

(** ** [memmove] *)

Lemma move_byte_at dst src i m a :
  0 ≤ dst + i < 2 ^ 64 → 0 ≤ src + i < 2 ^ 64 →
  byte_at (move_byte dst src i m) a = if dst + i =? a then byte_at m (src + i) else byte_at m a.
Proof.
  intros Hd Hs. unfold move_byte, wrap. rewrite !Z.mod_small by done. apply byte_at_insert.
Qed.

(** Counting up is right when the destination is below the source or clear of it,
    counting down when it is above. *)
Lemma move_up_spec dst src r10 (turns : nat) m0 m :
  0 ≤ dst → 0 ≤ src → 0 ≤ r10 → dst + r10 + turns ≤ 2 ^ 64 → src + r10 + turns ≤ 2 ^ 64 →
  dst ≤ src ∨ src + r10 + turns ≤ dst →
  (∀ a, byte_at m a = if decide (dst ≤ a < dst + r10) then byte_at m0 (src + (a - dst)) else byte_at m0 a) →
  ∀ a, byte_at (move_up dst src r10 turns m) a =
    if decide (dst ≤ a < dst + r10 + turns) then byte_at m0 (src + (a - dst)) else byte_at m0 a.
Proof.
  revert r10 m. induction turns as [|n IH]; intros r10 m Hd Hs Hr H1 H2 Hdir Hm a; cbn [move_up].
  { rewrite Hm. by rewrite Z.add_0_r. }
  rewrite (IH (r10 + 1)); try lia.
  - replace (dst + (r10 + 1) + n) with (dst + r10 + S n) by lia. done.
  - intros b. rewrite move_byte_at by lia. rewrite !Hm. zcase.
    + subst b. rewrite (decide_True (P := dst ≤ dst + r10 < _)) by lia.
      rewrite decide_False by lia. f_equal. lia.
    + repeat case_decide; try lia; done.
Qed.

Lemma move_down_spec dst src len (r10 : nat) m0 m :
  0 ≤ src → src < dst → r10 ≤ len → dst + len ≤ 2 ^ 64 →
  (∀ a, byte_at m a = if decide (dst + r10 ≤ a < dst + len) then byte_at m0 (src + (a - dst)) else byte_at m0 a) →
  ∀ a, byte_at (move_down dst src r10 m) a =
    if decide (dst ≤ a < dst + len) then byte_at m0 (src + (a - dst)) else byte_at m0 a.
Proof.
  revert m. induction r10 as [|n IH]; intros m Hs Hlt Hr H1 Hm a; cbn [move_down].
  { rewrite Hm. by rewrite Z.add_0_r. }
  apply IH; try lia. intros b. rewrite move_byte_at by lia. rewrite !Hm. zcase.
  - subst b. rewrite (decide_True (P := dst + n ≤ dst + n < _)) by lia.
    rewrite decide_False by lia. f_equal. lia.
  - repeat case_decide; try lia; done.
Qed.

(** C34. [memmove] moves: whether or not the ranges overlap, the destination ends up with
    the bytes the source held before the call, nothing else changes, and the destination
    is returned; the direction the assembly picks never reads a byte it has overwritten. *)
Theorem memmove_exact dst src len m :
  0 ≤ dst → 0 ≤ src → 0 ≤ len → dst + len ≤ 2 ^ 64 → src + len < 2 ^ 64 →
  (memmove dst src len m).1 = dst ∧
  ∀ a, byte_at (memmove dst src len m).2 a =
    if decide (dst ≤ a < dst + len) then byte_at m (src + (a - dst)) else byte_at m a.
Proof.
  intros Hd Hs Hl H1 H2. split; [done|]. intros a. unfold memmove, wrap. cbn [snd].
  rewrite (Z.mod_small (src + len)) by lia.
  assert (∀ a, byte_at m a =
    if decide (dst ≤ a < dst + 0) then byte_at m (src + (a - dst)) else byte_at m a) as Hm0.
  { intros b. by rewrite decide_False by lia. }
  destruct (Z.eqb_spec len 0) as [->|Hne]; [by rewrite decide_False by lia|].
  destruct (Z.leb_spec dst src); [|destruct (Z.leb_spec (src + len) dst)].
  - rewrite (move_up_spec dst src 0 (Z.to_nat len) m m) by (lia || done).
    by rewrite Z.add_0_r, Z2Nat.id by lia.
  - rewrite (move_up_spec dst src 0 (Z.to_nat len) m m) by (lia || done).
    by rewrite Z.add_0_r, Z2Nat.id by lia.
  - apply move_down_spec; try lia. intros b. by rewrite decide_False by lia.
Qed.

Lemma memmove_exact_witness :
  let m := write_le 100 8 0x0807060504030201 ∅ in
  (memmove 102 100 8 m).1 = 102 ∧
  byte_at (memmove 102 100 8 m).2 104 = 3 ∧ byte_at (memmove 102 100 8 m).2 101 = 2.
Proof.
  intros m. destruct (memmove_exact 102 100 8 m) as [H1 H2]; [lia..|].
  rewrite !H2. split; [exact H1|]. split; vm_compute; reflexivity.
Defined.

End RawMemory.
