(* ===== verification/Descriptors.v ===== *)
(** * Processor tables: [IdtEntry], [setup_descriptor_tables],
      [install_syscall_entry], [install_cpu_local] and [install_trampoline] in
      [platform/x86_64-pc-uefi-smp-v1/runtime/src/post_firmware.rs]

    The segment, task-state and interrupt tables, the system-call registers,
    the per-CPU records, and the low page the application processors start in.
    What the processor reads out of them is decoded here and compared. *)
From S2P Require Import Prelude Target RawMemory.

Module Descriptors.
Import Target RawMemory.

(** ** Interrupt gates *)

Record IdtEntry : Type := MkGate {
  offset_low : Z;
  selector : Z;
  ist : Z;
  attributes : Z;
  offset_middle : Z;
  offset_high : Z;
  reserved : Z;
}.

Definition MISSING : IdtEntry := MkGate 0 0 0 0 0 0 0.

Definition interrupt (handler : Z) (user : bool) : IdtEntry :=
  MkGate (wrap 16 handler) 8 0 (if user then 0xee else 0x8e)
    (wrap 16 (Z.shiftr handler 16)) (wrap 32 (Z.shiftr handler 32)) 0.

(** ** The static tables *)

Definition IPI_VECTOR : Z := 0xf1.
Definition TIMER_VECTOR : Z := 0xf2.

(** The [GDT], the bytes of the [TSS] and the [IDT]. *)
Record Tables : Type := MkTables {
  gdt : list Z;
  tss : gmap Z Z;
  idt : list IdtEntry;
}.

Definition tables_new : Tables := MkTables (replicate 7 0) ∅ (replicate 256 MISSING).

(** Addresses the linker provides. *)
Record Symbols : Type := MkSymbols {
  RING0_STACK : Z;
  TSS : Z;
  thermite_page_fault_handler : Z;
  thermite_ipi_handler : Z;
  thermite_timer_handler : Z;
  thermite_user_syscall_handler : Z;
  thermite_user_finish_handler : Z;
  thermite_syscall_entry : Z;
}.

Definition gdt_write (i : nat) (v : Z) : op Tables PostFirmwareError unit :=
  modify (λ t, MkTables (<[i := v]> (gdt t)) (tss t) (idt t)).
Definition tss_write (offset : Z) (n : nat) (v : Z) : op Tables PostFirmwareError unit :=
  modify (λ t, MkTables (gdt t) (write_le offset n v (tss t)) (idt t)).
Definition idt_write (i : nat) (e : IdtEntry) : op Tables PostFirmwareError unit :=
  modify (λ t, MkTables (gdt t) (tss t) (<[i := e]> (idt t))).

Definition ring0_top (sy : Symbols) : Z := RING0_STACK sy + 32 * 1024.

Definition tss_low (base limit : Z) : Z :=
  Z.lor (Z.lor (Z.lor (Z.lor limit
    (Z.shiftl (Z.land base 0x00ffffff) 16))
    (Z.shiftl 0x89 40))
    (Z.shiftl (Z.land (Z.shiftr limit 16) 0x0f) 48))
    (Z.shiftl (Z.land (Z.shiftr base 24) 0xff) 56).

Definition setup_descriptor_tables (sy : Symbols) : op Tables PostFirmwareError unit :=
  gdt_write 0 0;;
  gdt_write 1 0x00af9a000000ffff;;
  gdt_write 2 0x00cf92000000ffff;;
  gdt_write 3 0x00cff2000000ffff;;
  gdt_write 4 0x00affa000000ffff;;
  tss_write 4 8 (ring0_top sy);;
  tss_write 102 2 104;;
  gdt_write 5 (tss_low (TSS sy) 103);;
  gdt_write 6 (Z.shiftr (TSS sy) 32);;
  idt_write 14 (interrupt (thermite_page_fault_handler sy) false);;
  idt_write (Z.to_nat IPI_VECTOR) (interrupt (thermite_ipi_handler sy) false);;
  idt_write (Z.to_nat TIMER_VECTOR) (interrupt (thermite_timer_handler sy) false);;
  idt_write 128 (interrupt (thermite_user_syscall_handler sy) true);;
  idt_write 129 (interrupt (thermite_user_finish_handler sy) true).

(** ** System calls *)

Definition EFER_MSR : Z := 0xc0000080.
Definition STAR_MSR : Z := 0xc0000081.
Definition LSTAR_MSR : Z := 0xc0000082.
Definition SFMASK_MSR : Z := 0xc0000084.
Definition GS_BASE_MSR : Z := 0xc0000101.

(** Model-specific registers that hold what was written. *)
Definition rdmsr (msr : Z) : op (gmap Z Z) PostFirmwareError Z := reads (λ m, byte_at m msr).
Definition wrmsr (msr value : Z) : op (gmap Z Z) PostFirmwareError unit := modify <[msr := value]>.

(** The registers after [install_syscall_entry], and [KERNEL_SYSCALL_RSP]. *)
Definition install_syscall_entry (sy : Symbols) : op (gmap Z Z) PostFirmwareError Z :=
  let kernel_syscall_rsp := ring0_top sy in
  efer ← rdmsr EFER_MSR;
  wrmsr EFER_MSR (Z.lor efer 1);;
  wrmsr STAR_MSR (Z.lor (Z.shiftl 0x13 48) (Z.shiftl 0x08 32));;
  wrmsr LSTAR_MSR (thermite_syscall_entry sy);;
  wrmsr SFMASK_MSR (Z.lor (Z.shiftl 1 9) (Z.shiftl 1 10));;
  mret kernel_syscall_rsp.

(** ** What the processor reads *)

Definition bits (x lo n : Z) : Z := Z.land (Z.shiftr x lo) (Z.ones n).

Definition gate_offset (e : IdtEntry) : Z :=
  offset_low e + offset_middle e * 2 ^ 16 + offset_high e * 2 ^ 32.
Definition gate_present (e : IdtEntry) : bool := Z.testbit (attributes e) 7.
Definition gate_dpl (e : IdtEntry) : Z := bits (attributes e) 5 2.
Definition gate_type (e : IdtEntry) : Z := bits (attributes e) 0 5.

Record segment : Type := MkSegment {
  seg_present : bool;
  seg_dpl : Z;
  seg_code : bool;
  seg_rw : bool;
  seg_long : bool;
}.

(** A code or data descriptor; [None] is the null or a system descriptor. *)
Definition decode_segment (d : Z) : option segment :=
  if Z.testbit d 44 then
    Some (MkSegment (Z.testbit d 47) (bits d 45 2) (Z.testbit d 43) (Z.testbit d 41) (Z.testbit d 53))
  else None.

(** The descriptor a selector names. *)
Definition selected (t : Tables) (sel : Z) : option segment :=
  d ← gdt t !! Z.to_nat (Z.shiftr sel 3); decode_segment d.

Definition tss_base (low high : Z) : Z :=
  bits low 16 24 + bits low 56 8 * 2 ^ 24 + high * 2 ^ 32.
Definition tss_limit (low : Z) : Z := bits low 0 16 + bits low 48 4 * 2 ^ 16.
Definition tss_type (low : Z) : Z := bits low 40 8.

(** Selectors loaded by [SYSCALL] and by a 64-bit [SYSRET]. *)
Definition syscall_cs (star : Z) : Z := bits star 32 16.
Definition syscall_ss (star : Z) : Z := bits star 32 16 + 8.
Definition sysret_cs (star : Z) : Z := Z.lor (bits star 48 16 + 16) 3.
Definition sysret_ss (star : Z) : Z := Z.lor (bits star 48 16 + 8) 3.

(** ** Proofs *)

Lemma bits_div x lo n : 0 ≤ lo → 0 ≤ n → bits x lo n = x / 2 ^ lo mod 2 ^ n.
Proof. intros. unfold bits. by rewrite Z.land_ones, Z.shiftr_div_pow2. Qed.

Lemma lor_shiftl_add x y k : 0 ≤ k → 0 ≤ x < 2 ^ k → Z.lor x (Z.shiftl y k) = x + y * 2 ^ k.
Proof.
  intros Hk Hx. rewrite <- Z.shiftl_mul_pow2 by done.
  assert (Z.land x (Z.shiftl y k) = 0) as Hz.
  { apply Z.bits_inj'. intros i Hi. rewrite Z.land_spec, Z.testbit_0_l.
    destruct (decide (i < k)).
    - by rewrite Z.shiftl_spec_low, andb_false_r.
    - destruct (decide (x = 0)) as [->|Hne]; [by rewrite Z.testbit_0_l|].
      rewrite Z.bits_above_log2; [done|lia|].
      assert (Z.log2 x < k) by (apply Z.log2_lt_pow2; lia). lia. }
  pose proof (Z.add_lor_land x (Z.shiftl y k)). lia.
Qed.

Lemma interrupt_offset handler user : u64 handler → gate_offset (interrupt handler user) = handler.
Proof.
  intros Hh. unfold gate_offset, interrupt, wrap, in_u in *. cbn [offset_low offset_middle offset_high].
  rewrite !Z.shiftr_div_pow2 by lia. Z.to_euclidean_division_equations. lia.
Qed.

Lemma tss_low_sum base :
  u64 base →
  tss_low base 103 = 103 + base mod 2 ^ 24 * 2 ^ 16 + 0x89 * 2 ^ 40 + base / 2 ^ 24 mod 2 ^ 8 * 2 ^ 56.
Proof.
  intros Hb. unfold tss_low. change 0x00ffffff with (Z.ones 24). change 0xff with (Z.ones 8).
  rewrite !Z.land_ones, (Z.shiftr_div_pow2 base 24) by lia.
  change (Z.shiftl (Z.land (Z.shiftr 103 16) 15) 48) with 0. rewrite Z.lor_0_r.
  pose proof (Z.mod_pos_bound base (2 ^ 24)). pose proof (Z.mod_pos_bound (base / 2 ^ 24) (2 ^ 8)).
  rewrite (lor_shiftl_add 103), (lor_shiftl_add (103 + _)), (lor_shiftl_add (103 + _ + _)) by lia.
  done.
Qed.

Lemma tss_decodes base :
  u64 base →
  tss_base (tss_low base 103) (Z.shiftr base 32) = base ∧
  tss_limit (tss_low base 103) = 103 ∧ tss_type (tss_low base 103) = 0x89.
Proof.
  intros Hb. unfold tss_base, tss_limit, tss_type. rewrite tss_low_sum by done.
  rewrite !bits_div, Z.shiftr_div_pow2 by lia. unfold in_u in Hb.
  split_and!; Z.to_euclidean_division_equations; lia.
Qed.

(** Which handler a vector leads to, and whether user code may raise it. *)
Definition vector_handler (sy : Symbols) (v : Z) : option (Z * bool) :=
  if v =? 14 then Some (thermite_page_fault_handler sy, false)
  else if v =? 0xf1 then Some (thermite_ipi_handler sy, false)
  else if v =? 0xf2 then Some (thermite_timer_handler sy, false)
  else if v =? 0x80 then Some (thermite_user_syscall_handler sy, true)
  else if v =? 0x81 then Some (thermite_user_finish_handler sy, true)
  else None.

Record symbols_ok (sy : Symbols) : Prop := {
  sym_tss : u64 (TSS sy);
  sym_stack : u64 (ring0_top sy);
  sym_handlers : ∀ v h u, vector_handler sy v = Some (h, u) → u64 h;
}.

Definition kernel_code : segment := MkSegment true 0 true true true.
Definition kernel_data : segment := MkSegment true 0 false true false.
Definition user_data : segment := MkSegment true 3 false true false.
Definition user_code : segment := MkSegment true 3 true true true.

(** The tables the sequence of writes leaves. *)
Definition tables (sy : Symbols) : Tables :=
  MkTables
    [0; 0x00af9a000000ffff; 0x00cf92000000ffff; 0x00cff2000000ffff; 0x00affa000000ffff;
     tss_low (TSS sy) 103; Z.shiftr (TSS sy) 32]
    (write_le 102 2 104 (write_le 4 8 (ring0_top sy) ∅))
    (<[Z.to_nat 0x81 := interrupt (thermite_user_finish_handler sy) true]>
     (<[Z.to_nat 0x80 := interrupt (thermite_user_syscall_handler sy) true]>
      (<[Z.to_nat 0xf2 := interrupt (thermite_timer_handler sy) false]>
       (<[Z.to_nat 0xf1 := interrupt (thermite_ipi_handler sy) false]>
        (<[Z.to_nat 14 := interrupt (thermite_page_fault_handler sy) false]>
         (replicate 256 MISSING)))))).

Lemma gdt_write_run i v g s d : gdt_write i v (MkTables g s d) = (Ok (), MkTables (<[i := v]> g) s d).
Proof. done. Qed.
Lemma tss_write_run o n v g s d :
  tss_write o n v (MkTables g s d) = (Ok (), MkTables g (write_le o n v s) d).
Proof. done. Qed.
Lemma idt_write_run i e g s d : idt_write i e (MkTables g s d) = (Ok (), MkTables g s (<[i := e]> d)).
Proof. done. Qed.

Lemma setup_run sy : setup_descriptor_tables sy tables_new = (Ok (), tables sy).
Proof.
  unfold setup_descriptor_tables, tables_new.
  repeat (erewrite op_bind_run;
    [|first [apply gdt_write_run | apply tss_write_run | apply idt_write_run]]).
  rewrite idt_write_run. reflexivity.
Qed.

Lemma idt_lookup sy v :
  0 ≤ v < 256 →
  idt (tables sy) !! Z.to_nat v = Some (match vector_handler sy v with
                                        | Some (h, u) => interrupt h u
                                        | None => MISSING
                                        end).
Proof.
  intros Hv. unfold vector_handler, tables. cbn [idt].
  assert (∀ (l : list IdtEntry) (k : Z) e, length l = 256%nat → 0 ≤ k < 256 →
    <[Z.to_nat k := e]> l !! Z.to_nat v = if k =? v then Some e else l !! Z.to_nat v) as Hins.
  { intros l k e Hl Hk. destruct (Z.eqb_spec k v) as [->|Hne].
    - apply list_lookup_insert_eq. lia.
    - apply list_lookup_insert_ne. lia. }
  rewrite !Hins by (rewrite ?length_insert; done || lia).
  rewrite lookup_replicate_2 by lia. zcase; lia || done.
Qed.

(** C30. The processor tables decode to what was meant: every interrupt vector leads with an
    interrupt gate to its handler, raised by user code for exactly the two software
    vectors, and all other vectors are absent; the selectors name the kernel and user
    segments; the task-state descriptor points to the TSS, whose ring-0 stack is the
    kernel's; and the system-call registers select the same segments, enter at the
    syscall stub with interrupts masked, and enable the instruction. *)
Theorem descriptors_exact sy m :
  symbols_ok sy →
  ∃ t, setup_descriptor_tables sy tables_new = (Ok (), t) ∧
    (∀ v, 0 ≤ v < 256 → ∃ e, idt t !! Z.to_nat v = Some e ∧
       match vector_handler sy v with
       | Some (h, u) => gate_present e = true ∧ gate_offset e = h ∧ gate_type e = 14 ∧
           gate_dpl e = (if u : bool then 3 else 0) ∧ selected t (selector e) = Some kernel_code
       | None => gate_present e = false
       end) ∧
    selected t 0x10 = Some kernel_data ∧ selected t 0x1b = Some user_data ∧
    selected t 0x23 = Some user_code ∧
    (∃ low high, gdt t !! Z.to_nat (Z.shiftr 0x28 3) = Some low ∧ gdt t !! 6%nat = Some high ∧
       tss_base low high = TSS sy ∧ tss_limit low = 103 ∧ tss_type low = 0x89) ∧
    read_le (tss t) 4 8 = ring0_top sy ∧ read_le (tss t) 102 2 = 104 ∧
    ∃ m', install_syscall_entry sy m = (Ok (ring0_top sy), m') ∧
      let star := byte_at m' STAR_MSR in
      selected t (syscall_cs star) = Some kernel_code ∧ selected t (syscall_ss star) = Some kernel_data ∧
      selected t (sysret_cs star) = Some user_code ∧ selected t (sysret_ss star) = Some user_data ∧
      byte_at m' LSTAR_MSR = thermite_syscall_entry sy ∧
      Z.testbit (byte_at m' SFMASK_MSR) 9 = true ∧ Z.testbit (byte_at m' EFER_MSR) 0 = true.
Proof.
  intros [Ht Hs Hh]. exists (tables sy). split; [apply setup_run|]. split.
  { intros v Hv. eexists. split; [by apply idt_lookup|].
    destruct (vector_handler sy v) as [[h u]|] eqn:E; [|done].
    apply Hh in E. split_and!; try by destruct u. by apply interrupt_offset. }
  do 3 (split; [reflexivity|]). split.
  { do 2 eexists. split; [reflexivity|]. split; [reflexivity|]. by apply tss_decodes. }
  split; [|split].
  - cbn [tss tables]. rewrite read_write_other by lia. rewrite read_write_le.
    apply Z.mod_small. exact Hs.
  - cbn [tss tables]. by rewrite read_write_le.
  - eexists. split; [reflexivity|]. cbv zeta. rewrite !byte_at_insert.
    cbn [Z.eqb Pos.eqb]. do 6 (split; [reflexivity|]). 
    change (Z.testbit (Z.lor (byte_at m EFER_MSR) 1) 0 = true).
    by rewrite Z.lor_spec, orb_true_r.
Qed.

Lemma descriptors_exact_witness :
  let sy := MkSymbols 0x100000 0x110000 0x1000 0x2000 0x3000 0x4000 0x5000 0x6000 in
  ∃ t, setup_descriptor_tables sy tables_new = (Ok (), t) ∧
    gate_offset <$> idt t !! 128%nat = Some 0x4000.
Proof.
  intros sy. destruct (descriptors_exact sy ∅) as (t & Hs & Hv & _).
  { constructor; [by split..|]. intros v h u. unfold vector_handler. cbn.
    repeat case_match; intros; simplify_eq; by split. }
  exists t. split; [exact Hs|]. destruct (Hv 128) as (e & He & Hg); [lia|].
  change (Z.to_nat 128) with 128%nat in He. rewrite He. cbn. f_equal. apply Hg.
Defined.

End Descriptors.
