(* ===== verification/Apic.v ===== *)
(** * The local APIC: [apic_base], [apic_read], [apic_write], [wait_icr],
      [send_raw_ipi], [start_ap], [send_fixed_ipi] and [local_apic_enable] in
      [platform/x86_64-pc-uefi-smp-v1/runtime/src/post_firmware.rs]

    Interprocessor interrupts are sent by writing a destination and a command,
    after polling for the previous one to be delivered. *)
From S2P Require Import Prelude Target.

Module Apic.
Import Target.

Definition APIC_BASE_MSR : Z := 0x1b.
Definition APIC_ENABLE : Z := Z.shiftl 1 11.
Definition X2APIC_ENABLE : Z := Z.shiftl 1 10.
Definition APIC_EOI : Z := 0xb0.
Definition APIC_TPR : Z := 0x80.
Definition APIC_SPURIOUS : Z := 0xf0.
Definition APIC_ICR_LOW : Z := 0x300.
Definition APIC_ICR_HIGH : Z := 0x310.
Definition IPI_VECTOR : Z := 0xf1.
Definition TRAMPOLINE_BASE : Z := 0x00080000.

Section driver.
Context {W : Type} `{MmioRegs W, Msrs W}.

Definition rdmsr (msr : Z) : op W PostFirmwareError Z := access (msr_read msr).

Definition apic_base : op W PostFirmwareError Z :=
  value ← rdmsr APIC_BASE_MSR;
  lift (bail_if ((Z.land value APIC_ENABLE =? 0) || negb (Z.land value X2APIC_ENABLE =? 0))
          UnsupportedApic);;
  mret (Z.land value 0xfffff000).

Definition apic_read (offset : Z) : op W PostFirmwareError Z :=
  base ← apic_base;
  address ← lift (uadd 64 base offset);
  access (reg_read 4 address).

Definition apic_write (offset value : Z) : op W PostFirmwareError unit :=
  base ← apic_base;
  address ← lift (uadd 64 base offset);
  modify (reg_write 4 address value).

Definition local_apic_enable : op W PostFirmwareError unit :=
  apic_write APIC_TPR 0;;
  apic_write APIC_SPURIOUS (Z.lor 0x100 0xff);;
  apic_write APIC_EOI 0.

Definition wait_icr : op W PostFirmwareError unit :=
  idle ← for_pos 10000000
    (low ← apic_read APIC_ICR_LOW;
     mret (if Z.land low (Z.shiftl 1 12) =? 0 then Some () else None));
  match idle with Some _ => mret () | None => lift (Err Ipi) end.

Definition send_raw_ipi (apic_id low : Z) : op W PostFirmwareError unit :=
  lift (bail_if (64 <=? apic_id) InvalidCpuId);;
  wait_icr;;
  apic_write APIC_ICR_HIGH (wrap 32 (Z.shiftl apic_id 24));;
  apic_write APIC_ICR_LOW low;;
  wait_icr.

(** The delays between the four commands do nothing but spin. *)
Definition start_ap (apic_id : Z) : op W PostFirmwareError unit :=
  send_raw_ipi apic_id (Z.lor (Z.lor (Z.shiftl 5 8) (Z.shiftl 1 14)) (Z.shiftl 1 15));;
  send_raw_ipi apic_id (Z.lor (Z.shiftl 5 8) (Z.shiftl 1 15));;
  send_raw_ipi apic_id (Z.lor (Z.shiftl 6 8) 0x80);;
  send_raw_ipi apic_id (Z.lor (Z.shiftl 6 8) 0x80).

Definition send_fixed_ipi (apic_id : Z) : op W PostFirmwareError unit :=
  send_raw_ipi apic_id IPI_VECTOR.
End driver.

(** ** What can go wrong

    Whatever the registers answer: an access is refused when the base register does not say
    enabled xAPIC mode, and a wait fails when the command register stays busy. *)
Definition apic_error (e : PostFirmwareError) : Prop := e = Ipi ∨ e = UnsupportedApic.

(** What became of a driver call: whether a command had gone out before the error. *)
Inductive outcome : Type := Sent | Fails (e : PostFirmwareError) (sent : bool).

Definition outcome_ok (io : outcome) : Prop := match io with Sent => True | Fails e _ => apic_error e end.

(** The target is reached. *)
Definition reaches (io : outcome) : bool := match io with Sent => true | Fails _ sent => sent end.

Section errors.
Context {W : Type} `{MmioRegs W, Msrs W}.

(** [m] returns, or fails with an error of the APIC. *)
Definition ApicFails {A} (m : op W PostFirmwareError A) : Prop := ∀ w,
  match (m w).1 with Ok _ => True | Err e => apic_error e | Panic => False end.

Lemma apic_fails_bind {A B} (m : op W PostFirmwareError A) (k : A → op W PostFirmwareError B) :
  ApicFails m → (∀ a, ApicFails (k a)) → ApicFails (m ≫= k).
Proof.
  intros Hm Hk w. specialize (Hm w). unfold mbind, op_bind. destruct (m w) as [[a|e|] w']; [apply Hk|done|done].
Qed.

Lemma apic_base_range w : match (apic_base w).1 with Ok b => 0 ≤ b < 2 ^ 32 | Err e => apic_error e | Panic => False end.
Proof.
  unfold apic_base, rdmsr, access, mbind, op_bind, lift. destruct (msr_read APIC_BASE_MSR w) as [v w'].
  unfold bail_if. destruct (_ || _); cbn [fst]; [by right|].
  change 0xfffff000 with (Z.land 0xfffff000 (Z.ones 32)). rewrite Z.land_assoc, Z.land_ones by done.
  by apply Z.mod_pos_bound.
Qed.

Lemma apic_access_fails {A} o (k : Z → op W PostFirmwareError A) :
  0 ≤ o < 4096 → (∀ a, ApicFails (k a)) → ApicFails (base ← apic_base; address ← lift (uadd 64 base o); k address).
Proof.
  intros Ho Hk w. pose proof (apic_base_range w) as Hb. unfold mbind, op_bind, lift.
  destruct (apic_base w) as [[b|e|] w']; [|done|done]. cbn in Hb.
  unfold uadd. rewrite (proj2 (Z.ltb_lt _ _)) by lia. apply Hk.
Qed.

Lemma apic_write_fails o v : 0 ≤ o < 4096 → ApicFails (apic_write o v).
Proof. intros Ho. apply apic_access_fails; [done|]. by intros a w. Qed.

Lemma apic_read_fails o : 0 ≤ o < 4096 → ApicFails (apic_read o).
Proof. intros Ho. apply apic_access_fails; [done|]. intros a w. unfold access. by destruct (reg_read _ _ _). Qed.

Lemma for_nat_fails {A} n (m : op W PostFirmwareError (option A)) : ApicFails m → ApicFails (for_nat n m).
Proof.
  intros Hm. induction n as [|n IH]; cbn [for_nat]; [by intros w|].
  apply apic_fails_bind; [done|]. intros [a|]; [by intros w|done].
Qed.

Lemma wait_fails : ApicFails wait_icr.
Proof.
  apply apic_fails_bind.
  - intros w. rewrite for_pos_nat. apply for_nat_fails.
    apply apic_fails_bind; [by apply apic_read_fails|by intros a w'].
  - intros [u|] w; [done|by left].
Qed.

(** The commands of a processor that was admitted. *)
Lemma raw_ipi_fails id low : 0 ≤ id < 64 → ApicFails (send_raw_ipi id low).
Proof.
  intros Hid. unfold send_raw_ipi. rewrite (proj2 (Z.leb_gt _ _)) by lia.
  apply apic_fails_bind; [by intros w|intros _]. apply apic_fails_bind; [exact wait_fails|intros _].
  do 2 (apply apic_fails_bind; [by apply apic_write_fails|intros _]). exact wait_fails.
Qed.

Lemma start_ap_fails id : 0 ≤ id < 64 → ApicFails (start_ap id).
Proof. intros Hid. repeat (apply apic_fails_bind; [by apply raw_ipi_fails|intros _]). by apply raw_ipi_fails. Qed.

Lemma fixed_ipi_fails id : 0 ≤ id < 64 → ApicFails (send_fixed_ipi id).
Proof. apply raw_ipi_fails. Qed.
End errors.

(** ** A working xAPIC

    What the driver relies on.  The base register says enabled, not x2APIC, and holds the
    page of the registers in its bits from 12 up; its other bits are open (bit 8 is set on
    the boot processor).  The delivery status clears within the polls allowed, and a poll
    that shows it clear leaves the command register [idle]; reading the base register and
    writing the high half, which holds the destination, keep it so.  Writing the low half
    of an idle command register sends.  Of a write to a busy one nothing is known. *)
Definition poll {W} `{MmioRegs W, Msrs W} (base : Z) (w : W) : Z * W :=
  reg_read 4 (base + APIC_ICR_LOW) (msr_read APIC_BASE_MSR w).2.

Definition base_value (page v : Z) : Prop :=
  u64 v ∧ Z.testbit v 11 = true ∧ Z.testbit v 10 = false ∧ Z.shiftl (Z.shiftr v 12) 12 = page.

Class Lapic (W : Type) `{MmioRegs W, Msrs W} := {
  window : Z;
  destination : W → Z;
  sent : W → list (Z * Z);
  idle : W → Prop;
  window_low : 0 ≤ window < 2 ^ 32;
  lapic_msr w : base_value window (msr_read APIC_BASE_MSR w).1;
  lapic_msr_state w : let w' := (msr_read APIC_BASE_MSR w).2 in
    destination w' = destination w ∧ sent w' = sent w ∧ (idle w → idle w');
  lapic_poll_state w : let w' := (reg_read 4 (window + APIC_ICR_LOW) w).2 in
    destination w' = destination w ∧ sent w' = sent w;
  lapic_clear w : let '(low, w') := reg_read 4 (window + APIC_ICR_LOW) w in
    Z.testbit low 12 = false → idle w';
  lapic_idle w : ∃ n : nat, n < 10000000 ∧
    Z.testbit (poll window (Nat.iter n (λ w, (poll window w).2) w)).1 12 = false;
  lapic_high w v : let w' := reg_write 4 (window + APIC_ICR_HIGH) v w in
    destination w' = Z.shiftr v 24 ∧ sent w' = sent w ∧ (idle w → idle w');
  lapic_low w v : idle w → let w' := reg_write 4 (window + APIC_ICR_LOW) v w in
    destination w' = destination w ∧ sent w' = sent w ++ [(destination w, v)];
}.

(** ** Proofs *)

(** The masks of the driver pick out the fields. *)
Lemma base_fields page v :
  0 ≤ page < 2 ^ 32 → base_value page v →
  (Z.land v APIC_ENABLE =? 0) || negb (Z.land v X2APIC_ENABLE =? 0) = false ∧ Z.land v 0xfffff000 = page.
Proof.
  intros Hp ([Hv0 Hv] & H11 & H10 & Hpage). split.
  - unfold APIC_ENABLE, X2APIC_ENABLE. rewrite !Z.shiftl_1_l, !land_pow2_zero by lia. by rewrite H11, H10.
  - apply Z.bits_inj'. intros i Hi. rewrite Z.land_spec, <- Hpage.
    change 0xfffff000 with (Z.shiftl (Z.ones 20) 12).
    destruct (Z.ltb_spec i 12) as [Hl|Hl].
    + rewrite !Z.shiftl_spec_low by lia. apply andb_false_r.
    + rewrite !Z.shiftl_spec by lia. rewrite Z.shiftr_spec by lia. replace (i - 12 + 12) with i by lia.
      destruct (Z.ltb_spec i 32) as [H32|H32].
      * rewrite Z.ones_spec_low by lia. apply andb_true_r.
      * rewrite Z.ones_spec_high by lia. rewrite andb_false_r. symmetry.
        assert (Z.testbit page i = false) as Hz.
        { rewrite <- (Z.mod_small page (2 ^ 32)) by lia. by apply Z.mod_pow2_bits_high. }
        rewrite <- Hpage, Z.shiftl_spec, Z.shiftr_spec in Hz by lia. by replace (i - 12 + 12) with i in Hz by lia.
Qed.

Section proofs.
Context {W : Type} `{Lapic W}.

Lemma apic_base_run w :
  apic_base w = (Ok window, (msr_read APIC_BASE_MSR w).2).
Proof.
  unfold apic_base, rdmsr, access, mbind, op_bind. pose proof (lapic_msr w) as Hm.
  destruct (msr_read APIC_BASE_MSR w) as [v w']. cbn in Hm |- *.
  destruct (base_fields _ _ window_low Hm) as [-> ->]. done.
Qed.

Lemma window_offset o : 0 ≤ o < 4096 → uadd (E := PostFirmwareError) 64 window o = Ok (window + o).
Proof.
  intros Ho. unfold uadd. pose proof window_low.
  by rewrite (proj2 (Z.ltb_lt _ _)) by lia.
Qed.

Lemma apic_write_run o v w :
  0 ≤ o < 4096 →
  apic_write o v w = (Ok (), reg_write 4 (window + o) v (msr_read APIC_BASE_MSR w).2).
Proof.
  intros Ho. unfold apic_write. rewrite (op_bind_run _ _ _ _ _ (apic_base_run w)).
  unfold mbind, op_bind, lift. by rewrite window_offset.
Qed.

Lemma apic_read_run w :
  apic_read APIC_ICR_LOW w = (Ok (poll window w).1, (poll window w).2).
Proof.
  unfold apic_read. rewrite (op_bind_run _ _ _ _ _ (apic_base_run w)).
  unfold mbind, op_bind, lift. rewrite window_offset by done. unfold access, poll.
  by destruct (reg_read _ _ _).
Qed.

Lemma poll_state w :
  destination (poll window w).2 = destination w ∧ sent (poll window w).2 = sent w ∧
  (Z.testbit (poll window w).1 12 = false → idle (poll window w).2).
Proof.
  unfold poll. destruct (lapic_poll_state (msr_read APIC_BASE_MSR w).2) as [-> ->].
  destruct (lapic_msr_state w) as (-> & -> & _). split_and!; [done..|].
  pose proof (lapic_clear (msr_read APIC_BASE_MSR w).2) as Hc. by destruct (reg_read _ _ _).
Qed.

Lemma status_bit low : (Z.land low (Z.shiftl 1 12) =? 0) = negb (Z.testbit low 12).
Proof. rewrite Z.shiftl_1_l. by apply land_pow2_zero. Qed.

Lemma icr_loop n m w :
  (n < m)%nat →
  Z.testbit (poll window (Nat.iter n (λ w, (poll window w).2) w)).1 12 = false →
  ∃ w', for_nat m (low ← apic_read APIC_ICR_LOW;
      mret (if Z.land low (Z.shiftl 1 12) =? 0 then Some () else None)) w
    = ((Ok (Some ()) : res PostFirmwareError _), w') ∧
    destination w' = destination w ∧ sent w' = sent w ∧ idle w'.
Proof.
  revert m w. induction n as [|n IH]; intros [|m] w Hlt Hi; try lia; cbn [for_nat];
    unfold mbind, op_bind; rewrite apic_read_run; destruct (poll_state w) as (Hd & Hs & Hq); rewrite status_bit.
  - change (Z.testbit (poll window w).1 12 = false) in Hi. rewrite Hi. eexists. split_and!; [done..|by apply Hq].
  - rewrite Nat.iter_succ_r in Hi. destruct (Z.testbit (poll window w).1 12); cbn;
      [|eexists; split_and!; [done..|by apply Hq]].
    destruct (IH m (poll window w).2 ltac:(lia) Hi) as (w' & E & D & S & Q).
    exists w'. split; [exact E|]. by rewrite D, S, Hd, Hs.
Qed.

(** A wait ends with an idle command register. *)
Lemma wait_run w : ∃ w', wait_icr w = (Ok (), w') ∧ destination w' = destination w ∧ sent w' = sent w ∧ idle w'.
Proof.
  unfold wait_icr. destruct (lapic_idle w) as (n & Hn & Hi).
  destruct (icr_loop n (Pos.to_nat 10000000) w ltac:(lia) Hi) as (w' & E & D & S & Q).
  unfold mbind at 1, op_bind at 1. rewrite for_pos_nat, E. by exists w'.
Qed.

(** [m] returns, having sent [l]. *)
Definition Sends (m : op W PostFirmwareError unit) (l : list (Z * Z)) : Prop :=
  ∀ w, ∃ w', m w = (Ok (), w') ∧ sent w' = sent w ++ l.

Lemma ipi_bind m k l1 l2 : Sends m l1 → Sends k l2 → Sends (m;; k) (l1 ++ l2).
Proof.
  intros Hm Hk w. destruct (Hm w) as (w1 & E1 & S1). destruct (Hk w1) as (w2 & E2 & S2).
  exists w2. rewrite (op_bind_run _ _ _ _ _ E1). split; [done|]. by rewrite S2, S1, app_assoc.
Qed.

Lemma sends_ipi id low : 0 ≤ id < 64 → Sends (send_raw_ipi id low) [(id, low)].
Proof.
  intros Hid w. unfold send_raw_ipi. rewrite (proj2 (Z.leb_gt _ _)) by lia.
  erewrite op_bind_run by reflexivity.
  assert (Z.shiftr (wrap 32 (Z.shiftl id 24)) 24 = id) as Hd.
  { unfold wrap. rewrite Z.shiftl_mul_pow2, Z.shiftr_div_pow2, Z.mod_small by lia.
    apply Z.div_mul. lia. }
  destruct (wait_run w) as (w1 & E1 & D1 & S1 & Q1). rewrite (op_bind_run _ _ _ _ _ E1).
  rewrite (op_bind_run _ _ _ _ _ (apic_write_run APIC_ICR_HIGH _ w1 ltac:(done))).
  destruct (lapic_msr_state w1) as (_ & S2 & Q2).
  destruct (lapic_high (msr_read APIC_BASE_MSR w1).2 (wrap 32 (Z.shiftl id 24))) as (D3 & S3 & Q3).
  set (w3 := reg_write 4 _ _ _) in *. specialize (Q3 (Q2 Q1)).
  rewrite (op_bind_run _ _ _ _ _ (apic_write_run APIC_ICR_LOW low w3 ltac:(done))).
  destruct (lapic_msr_state w3) as (D4 & S4 & Q4).
  destruct (lapic_low (msr_read APIC_BASE_MSR w3).2 low (Q4 Q3)) as (D5 & S5).
  set (w5 := reg_write 4 (window + APIC_ICR_LOW) _ _) in *.
  destruct (wait_run w5) as (w6 & E6 & _ & S6 & _). exists w6. split; [exact E6|].
  by rewrite S6, S5, D4, D3, S4, S3, S2, S1, Hd.
Qed.

(** Startup vector and delivery mode of a command. *)
Definition delivery (low : Z) : Z := Z.land (Z.shiftr low 8) 7.
Definition start_address (low : Z) : Z := Z.land low 0xff * 4096.

(** C32. An application processor is started by the architectural sequence: on a working
    xAPIC, [start_ap] sends exactly INIT, INIT de-assert and two startup commands to the
    processor asked for, the last two naming the trampoline page; [send_fixed_ipi] sends
    exactly one fixed interrupt; an id of 64 or more is refused with nothing sent. *)
Theorem start_ap_exact id w :
  u32 id →
  (id < 64 →
   (∃ w' l, start_ap id w = (Ok (), w') ∧ sent w' = sent w ++ ((λ low, (id, low)) <$> l) ∧
      delivery <$> l = [5; 5; 6; 6] ∧
      (λ low, Z.testbit low 14) <$> l = [true; false; false; false] ∧
      start_address <$> drop 2 l = [TRAMPOLINE_BASE; TRAMPOLINE_BASE]) ∧
   ∃ w', send_fixed_ipi id w = (Ok (), w') ∧ sent w' = sent w ++ [(id, IPI_VECTOR)]) ∧
  (64 ≤ id → start_ap id w = (Err InvalidCpuId, w) ∧ send_fixed_ipi id w = (Err InvalidCpuId, w)).
Proof.
  intros Hu. split.
  - intros Hid. assert (0 ≤ id < 64) as Hr by ulia. split.
    + set (l := [Z.lor (Z.lor (Z.shiftl 5 8) (Z.shiftl 1 14)) (Z.shiftl 1 15);
                 Z.lor (Z.shiftl 5 8) (Z.shiftl 1 15); Z.lor (Z.shiftl 6 8) 0x80; Z.lor (Z.shiftl 6 8) 0x80]).
      assert (Sends (start_ap id) ((λ low, (id, low)) <$> l)) as Hs.
      { exact (ipi_bind _ _ _ _ (sends_ipi id _ Hr) (ipi_bind _ _ _ _ (sends_ipi id _ Hr)
          (ipi_bind _ _ _ _ (sends_ipi id _ Hr) (sends_ipi id _ Hr)))). }
      destruct (Hs w) as (w' & E & S). by exists w', l.
    + destruct (sends_ipi id IPI_VECTOR Hr w) as (w' & E & S). by exists w'.
  - intros Hid. unfold start_ap, send_fixed_ipi, send_raw_ipi, mbind, op_bind, lift.
    by rewrite (proj2 (Z.leb_le _ _)).
Qed.
End proofs.

(** ** The APIC of a boot processor, busy for one poll after each command, for the witness

    A command written while it is busy is lost. *)

Record demo_apic : Type := MkDemo { d_high : Z; d_busy : bool; d_sent : list (Z * Z) }.

#[local] Instance demo_msrs : Msrs demo_apic := {
  msr_read msr w := (0xfee00900, w);
  msr_write msr value w := w;
}.
#[local] Instance demo_regs : MmioRegs demo_apic := {
  reg_read width address w :=
    (if d_busy w then Z.shiftl 1 12 else 0, MkDemo (d_high w) false (d_sent w));
  reg_write width address value w :=
    if address =? 0xfee00000 + APIC_ICR_HIGH
    then MkDemo (Z.shiftr value 24) (d_busy w) (d_sent w)
    else if address =? 0xfee00000 + APIC_ICR_LOW
    then if d_busy w then w else MkDemo (d_high w) true (d_sent w ++ [(d_high w, value)])
    else w;
}.
#[local] Instance demo_lapic : Lapic demo_apic.
Proof.
  refine {| window := 0xfee00000; destination := d_high; sent := d_sent; idle w := d_busy w = false |}; try done.
  - intros w. exists 1%nat. split; [lia|]. done.
  - intros [h [] l] v Hb; [done|]. done.
Defined.

Lemma start_ap_exact_witness :
  ∃ w', start_ap 3 (MkDemo 0 false []) = (Ok (), w') ∧
    d_sent w' = [(3, 0xc500); (3, 0x8500); (3, 0x680); (3, 0x680)].
Proof.
  destruct (start_ap_exact 3 (MkDemo 0 false [])) as [Hok _]; [by split|].
  destruct Hok as [(w' & l & E & S & _) _]; [lia|].
  exists w'. split; [exact E|]. vm_compute in E. by injection E as <-.
Defined.

End Apic.
