(* ===== verification/Handoff.v ===== *)
(** * What the firmware hands over: [bounded_checksum], [normalized_handoff],
      [memory_map_probe], [block_probe] and the head of [efi_main] in
      [platform/x86_64-pc-uefi-smp-v1/runtime/src/main.rs]

    Firmware structures are read out of memory at the offsets of their
    [repr(C)] layouts; the results of firmware calls are inputs. *)
From stdpp Require Import strings.
From S2P Require Import Prelude Target RawMemory Console.

Module Handoff.
Import Target (SUCCESS, PortIo, res_bind_run, op_bind_run).
Import RawMemory (byte_at, read_le).
Import Console.

Abbreviation memory := (gmap Z Z).

(** [usize::MAX], the status of a check the runtime makes itself. *)
Definition STATUS_MAX : Z := umax 64.

Record Guid : Type := MkGuid { data1 : Z; data2 : Z; data3 : Z; data4 : list Z }.
#[global] Instance Guid_eq_dec : EqDecision Guid.
Proof. solve_decision. Defined.

Definition ACPI_20_TABLE_GUID : Guid :=
  MkGuid 0x8868e871 0xe4f1 0x11d3 [0xbc; 0x22; 0x00; 0x80; 0xc7; 0x3c; 0x88; 0x81].
Definition ACPI_TABLE_GUID : Guid :=
  MkGuid 0xeb9d2d30 0x2d88 0x11d3 [0x9a; 0x16; 0x00; 0x90; 0x27; 0x3f; 0xc1; 0x4d].

Definition read_guid (m : memory) (a : Z) : Guid :=
  MkGuid (read_le m a 4) (read_le m (a + 4) 2) (read_le m (a + 6) 2)
    ((λ i, byte_at m (a + 8 + i)) <$> seqZ 0 8).

(** [size_of::<ConfigurationTable>()] *)
Definition CONFIGURATION_TABLE_BYTES : Z := 24.

Record ConfigurationTable : Type := MkConfig { vendor_guid : Guid; vendor_table : Z }.
Definition read_config (m : memory) (a : Z) : ConfigurationTable :=
  MkConfig (read_guid m a) (read_le m (a + 16) 8).

Record LoadedImage : Type := MkImage {
  device_handle : Z; load_options_size : Z; load_options : Z; image_base : Z; image_size : Z;
}.
Definition read_image (m : memory) (a : Z) : LoadedImage :=
  MkImage (read_le m (a + 24) 8) (read_le m (a + 48) 4) (read_le m (a + 56) 8)
    (read_le m (a + 64) 8) (read_le m (a + 72) 8).

Record SystemTable : Type := MkSystem {
  runtime_services : Z; boot_services : Z; number_of_table_entries : Z; configuration_table : Z;
}.
Definition read_system (m : memory) (a : Z) : SystemTable :=
  MkSystem (read_le m (a + 88) 8) (read_le m (a + 96) 8) (read_le m (a + 104) 8)
    (read_le m (a + 112) 8).

Record NormalizedHandoff : Type := MkHandoff {
  acpi_bytes : Z;
  firmware_entries : Z;
  firmware_bytes : Z;
  command_line_bytes : Z;
  initrd_bytes : Z;
  image_bytes : Z;
}.

(** ** [bounded_checksum] *)

Definition checksum_loop (m : memory) (address : Z) (offsets : list Z) (checksum : Z) : Z :=
  foldl (λ c offset, wrap 8 (c + byte_at m (address + offset))) checksum offsets.

Definition bounded_checksum (m : memory) (address len : Z) : res Z Z :=
  bail_if ((address =? 0) || (len =? 0) || (4096 <? len)) STATUS_MAX;;
  Ok (checksum_loop m address (seqZ 0 len) 0).

(** ** [normalized_handoff] *)

(** The loop over the configuration tables: an ACPI 2.0 entry ends it. *)
Fixpoint acpi_loop (l : list ConfigurationTable) (acpi : Z) : Z :=
  match l with
  | [] => acpi
  | table :: rest =>
    if bool_decide (vendor_guid table = ACPI_20_TABLE_GUID)
       || bool_decide (vendor_guid table = ACPI_TABLE_GUID) then
      let acpi := vendor_table table in
      if bool_decide (vendor_guid table = ACPI_20_TABLE_GUID) then acpi
      else acpi_loop rest acpi
    else acpi_loop rest acpi
  end.

Definition config_tables (m : memory) (tables entries : Z) : list ConfigurationTable :=
  (λ index, read_config m (tables + CONFIGURATION_TABLE_BYTES * index)) <$> seqZ 0 entries.

(** [b"RSD PTR "] *)
Definition RSDP_SIGNATURE : list Z := [82; 83; 68; 32; 80; 84; 82; 32].

(** The checks of the root pointer; the result is its length. *)
Definition rsdp_bytes (m : memory) (acpi : Z) : res Z Z :=
  let signature := (λ i, byte_at m (acpi + i)) <$> seqZ 0 8 in
  bail_if (negb (bool_decide (signature = RSDP_SIGNATURE))) STATUS_MAX;;
  sum ← bounded_checksum m acpi 20;
  bail_if (negb (sum =? 0)) STATUS_MAX;;
  let revision := byte_at m (acpi + 15) in
  if 2 <=? revision then
    let length := read_le m (acpi + 20) 4 in
    bail_if (negb ((36 <=? length) && (length <=? 4096))) STATUS_MAX;;
    sum ← bounded_checksum m acpi length;
    bail_if (negb (sum =? 0)) STATUS_MAX;;
    Ok length
  else Ok 20.

Definition image_checks (i : LoadedImage) : bool :=
  (image_base i =? 0) || (image_size i =? 0) || (64 * 1024 * 1024 <? image_size i)
  || bool_decide (checked_add 64 (image_base i) (image_size i) = None)
  || (negb (load_options_size i =? 0)
      && ((load_options i =? 0) || (64 * 1024 <? load_options_size i)
          || bool_decide (checked_add 64 (load_options i) (load_options_size i) = None))).

(** [loaded] is what [handle_protocol] returned: its status and the interface. *)
Definition normalized_handoff (m : memory) (loaded : Z * Z) (system_table : Z)
    : res Z NormalizedHandoff :=
  let '(loaded_status, loaded_interface) := loaded in
  bail_if (negb (loaded_status =? SUCCESS) || (loaded_interface =? 0)) loaded_status;;
  let image := read_image m loaded_interface in
  bail_if (image_checks image) STATUS_MAX;;
  let entries := number_of_table_entries (read_system m system_table) in
  let tables := configuration_table (read_system m system_table) in
  bail_if ((entries =? 0) || (1024 <? entries) || (tables =? 0)) STATUS_MAX;;
  firmware_bytes ← ok_or STATUS_MAX (checked_mul 64 entries CONFIGURATION_TABLE_BYTES);
  let acpi := acpi_loop (config_tables m tables entries) 0 in
  bail_if (acpi =? 0) STATUS_MAX;;
  acpi_bytes ← rsdp_bytes m acpi;
  Ok (MkHandoff acpi_bytes entries firmware_bytes (load_options_size image) 0 (image_size image)).

(** ** The probes *)

Section probes.
Context {W : Type} `{PortIo W}.

(** What [get_memory_map] returned and wrote to its output words. *)
Record MemoryMapCall : Type := MkMapCall {
  map_status : Z; map_bytes : Z; map_descriptor_size : Z; map_descriptor_version : Z;
}.

Definition memory_map_probe (c : MemoryMapCall) : op W Z unit :=
  lift (bail_if (negb (map_status c =? SUCCESS) || (map_descriptor_size c =? 0)
                 || negb (map_bytes c mod map_descriptor_size c =? 0)) (map_status c));;
  serial_bytes (ascii "THERMITE_MEMORY descriptors="%string);;
  serial_usize (map_bytes c / map_descriptor_size c);;
  serial_bytes (ascii " descriptor_size="%string);;
  serial_usize (map_descriptor_size c);;
  serial_bytes (ascii " version="%string);;
  serial_usize (map_descriptor_version c);;
  serial_bytes [10].

(** The media descriptor behind the block protocol. *)
Record BlockMedia : Type := MkMedia { media_id : Z; block_size : Z; io_align : Z }.
Definition read_media (m : memory) (a : Z) : BlockMedia :=
  MkMedia (read_le m a 4) (read_le m (a + 12) 4) (read_le m (a + 16) 4).

(** [loaded] and [block] are the two [handle_protocol] calls; [read] is the status of
    [read_blocks] and the page it filled. *)
Definition block_probe (m : memory) (loaded block : Z * Z) (read : BlockMedia → Z * list Z)
    : op W Z unit :=
  lift (bail_if (negb (loaded.1 =? SUCCESS) || (loaded.2 =? 0)) loaded.1);;
  lift (bail_if (negb (block.1 =? SUCCESS) || (block.2 =? 0)) block.1);;
  let media := read_le m (block.2 + 8) 8 in
  lift (bail_if (media =? 0) STATUS_MAX);;
  let md := read_media m media in
  lift (bail_if (negb ((512 <=? block_size md) && (block_size md <=? 4096))
                 || (4096 <? io_align md)) STATUS_MAX);;
  let '(read_status, buffer) := read md in
  b510 ← lift (index buffer 510);
  b511 ← lift (index buffer 511);
  lift (bail_if (negb (read_status =? SUCCESS) || negb (b510 =? 0x55) || negb (b511 =? 0xaa))
          (if read_status =? SUCCESS then STATUS_MAX else read_status));;
  serial_bytes (ascii "THERMITE_DMA device=boot-disk generation=0 ownership=cpu lba=0 bytes="%string);;
  serial_usize (block_size md);;
  serial_bytes (ascii " signature=55aa stale_rejected=1"%string);;
  serial_bytes [10].

(** [if let Err(status) = probe { return fail(stage, status); }] *)
Definition or_fail (stage : list Z) (probe : op W Z unit) : op W Z (option Z) := λ w,
  match probe w with
  | (Ok _, w) => (Ok None, w)
  | (Err status, w) => (s ← fail stage status; mret (Some s)) w
  | (Panic, w) => (Panic, w)
  end.

(** The head of [efi_main], up to the memory map: the status of an early return. *)
Definition boot_head (m : memory) (system_table : Z) (loaded : Z * Z) (c : MemoryMapCall)
    : op W Z (option Z) :=
  init_serial;;
  serial_bytes (ascii "THERMITE_BOOT profile=x86_64-pc-uefi-smp-v1"%string ++ [10]);;
  if system_table =? 0 then s ← fail (ascii "system-table"%string) STATUS_MAX; mret (Some s)
  else if boot_services (read_system m system_table) =? 0
  then s ← fail (ascii "boot-services"%string) STATUS_MAX; mret (Some s)
  else
    match normalized_handoff m loaded system_table with
    | Err status => s ← fail (ascii "normalized-handoff"%string) status; mret (Some s)
    | Panic => lift Panic
    | Ok handoff =>
      serial_bytes (ascii "THERMITE_HANDOFF memory_map=1 acpi_bytes="%string);;
      serial_usize (acpi_bytes handoff);;
      serial_bytes (ascii " firmware_entries="%string);;
      serial_usize (firmware_entries handoff);;
      serial_bytes (ascii " firmware_bytes="%string);;
      serial_usize (firmware_bytes handoff);;
      serial_bytes (ascii " framebuffer=absent command_line_bytes="%string);;
      serial_usize (command_line_bytes handoff);;
      serial_bytes (ascii " initrd_bytes="%string);;
      serial_usize (initrd_bytes handoff);;
      serial_bytes (ascii " image_bytes="%string);;
      serial_usize (image_bytes handoff);;
      serial_bytes (ascii " bounds=exact"%string ++ [10]);;
      or_fail (ascii "memory-map"%string) (memory_map_probe c)
    end.
End probes.

(** ** Specification *)

(** The sum of the first [n] bytes at [a]. *)
Definition byte_sum (m : memory) (a n : Z) : Z := zsum ((λ i, byte_at m (a + i)) <$> seqZ 0 n).

Definition is_guid (g : Guid) (t : ConfigurationTable) : bool := bool_decide (vendor_guid t = g).

(** The first ACPI 2.0 table, else the last ACPI 1.0 table. *)
Definition acpi_table (l : list ConfigurationTable) : Z :=
  match List.find (is_guid ACPI_20_TABLE_GUID) l with
  | Some t => vendor_table t
  | None => from_option vendor_table 0 (last (List.filter (is_guid ACPI_TABLE_GUID) l))
  end.

(** A valid root pointer of [n] bytes. *)
Definition rsdp_ok (m : memory) (acpi n : Z) : Prop :=
  (λ i, byte_at m (acpi + i)) <$> seqZ 0 8 = RSDP_SIGNATURE ∧ byte_sum m acpi 20 mod 256 = 0 ∧
  ((byte_at m (acpi + 15) < 2 ∧ n = 20) ∨
   (2 ≤ byte_at m (acpi + 15) ∧ n = read_le m (acpi + 20) 4 ∧ 36 ≤ n ≤ 4096 ∧
    byte_sum m acpi n mod 256 = 0)).

Definition in_space (base len : Z) : Prop := base ≠ 0 ∧ base + len < 2 ^ 64.

Definition image_ok (i : LoadedImage) : Prop :=
  in_space (image_base i) (image_size i) ∧ 0 < image_size i ≤ 64 * 1024 * 1024 ∧
  (load_options_size i = 0 ∨
   (in_space (load_options i) (load_options_size i) ∧ load_options_size i ≤ 64 * 1024)).

Definition bytes_ok (m : memory) : Prop := ∀ a, 0 ≤ byte_at m a < 256.

(** ** Proofs *)

Lemma checksum_sum m a l c :
  wrap 8 c = c → checksum_loop m a l c = (c + zsum ((λ i, byte_at m (a + i)) <$> l)) mod 256.
Proof.
  unfold checksum_loop, wrap. change (2 ^ 8) with 256. revert c.
  induction l as [|o l IH]; intros c Hc; cbn [foldl fmap list_fmap].
  - unfold zsum. cbn. by rewrite Z.add_0_r.
  - rewrite IH by (by rewrite Z.mod_mod). rewrite Z.add_mod_idemp_l by lia.
    f_equal. unfold zsum. cbn [foldr]. lia.
Qed.

Lemma bounded_checksum_run m a n :
  a ≠ 0 → 0 < n ≤ 4096 → bounded_checksum m a n = Ok (byte_sum m a n mod 256).
Proof.
  intros Ha Hn. unfold bounded_checksum. rewrite (proj2 (Z.eqb_neq a 0)) by done.
  rewrite (proj2 (Z.eqb_neq n 0)), (proj2 (Z.ltb_ge 4096 n)) by lia. cbn. by rewrite checksum_sum.
Qed.

Lemma acpi_loop_spec l acc :
  acpi_loop l acc =
  match List.find (is_guid ACPI_20_TABLE_GUID) l with
  | Some t => vendor_table t
  | None => from_option vendor_table acc (last (List.filter (is_guid ACPI_TABLE_GUID) l))
  end.
Proof.
  revert acc. induction l as [|t l IH]; intros acc; [done|]. cbn [acpi_loop List.find List.filter].
  unfold is_guid at 1 3. destruct (bool_decide (vendor_guid t = ACPI_20_TABLE_GUID)); cbn [orb]; [done|].
  destruct (bool_decide (vendor_guid t = ACPI_TABLE_GUID)); rewrite IH; [|done].
  destruct (List.find _ l); [done|]. rewrite last_cons. by destruct (last _).
Qed.

Lemma read_le_range m a (n : nat) : bytes_ok m → 0 ≤ read_le m a n < 256 ^ n.
Proof.
  intros Hb. revert a. induction n as [|n IH]; intros a; cbn [read_le]; [lia|].
  specialize (Hb a). specialize (IH (a + 1)). rewrite Nat2Z.inj_succ, Z.pow_succ_r by lia. lia.
Qed.

Lemma rsdp_bytes_Ok m acpi n : acpi ≠ 0 → rsdp_bytes m acpi = Ok n ↔ rsdp_ok m acpi n.
Proof.
  intros Ha. unfold rsdp_bytes, rsdp_ok. rewrite (bounded_checksum_run m acpi 20) by lia. cbv zeta.
  destruct (decide ((λ i, byte_at m (acpi + i)) <$> seqZ 0 8 = RSDP_SIGNATURE)) as [Hs|Hs].
  2:{ rewrite bool_decide_eq_false_2 by done. cbn. split; [done|]. tauto. }
  rewrite bool_decide_eq_true_2 by done. cbn [negb bail_if]. rewrite !res_bind_run.
  destruct (Z.eqb_spec (byte_sum m acpi 20 mod 256) 0) as [H20|H20]; cbn [negb bail_if].
  2:{ split; [done|]. tauto. }
  rewrite res_bind_run. destruct (Z.leb_spec 2 (byte_at m (acpi + 15))).
  2:{ split; [intros [= <-]; split_and!; auto|]. intros (_ & _ & [[? ->]|[? _]]); [done|lia]. }
  generalize (read_le m (acpi + 20) 4) as len. intros len.
  destruct (decide (36 ≤ len ≤ 4096)) as [Hl|Hl].
  2:{ assert ((36 <=? len) && (len <=? 4096) = false) as -> by (zcase; done || lia).
      cbn. split; [done|]. intros (_ & _ & [?|(? & -> & ? & _)]); exfalso; lia. }
  assert ((36 <=? len) && (len <=? 4096) = true) as -> by (zcase; done || lia).
  cbn [negb bail_if]. rewrite res_bind_run, (bounded_checksum_run m acpi len), res_bind_run by lia.
  destruct (Z.eqb_spec (byte_sum m acpi len mod 256) 0); cbn [negb bail_if mbind res_bind].
  - split; [intros [= <-]|intros (_ & _ & [?|(? & -> & _)]); [lia|done]].
    split; [done|]. split; [done|]. right. split_and!; done || lia.
  - split; [done|]. intros (_ & _ & [?|(? & -> & ? & ?)]); exfalso; lia.
Qed.

Lemma image_checks_false m p :
  bytes_ok m → image_checks (read_image m p) = false ↔ image_ok (read_image m p).
Proof.
  intros Hb. unfold image_checks, image_ok, in_space.
  pose proof (read_le_range m (p + 48) 4 Hb) as R1. pose proof (read_le_range m (p + 56) 8 Hb) as R2.
  pose proof (read_le_range m (p + 64) 8 Hb) as R3. pose proof (read_le_range m (p + 72) 8 Hb) as R4.
  cbn [read_image image_base image_size load_options load_options_size].
  rewrite !orb_false_iff, andb_false_iff, !orb_false_iff, !bool_decide_eq_false, negb_false_iff.
  unfold checked_add. rewrite !Z.eqb_eq, !Z.eqb_neq, !Z.ltb_ge.
  assert (∀ x y, (if x + y <? 2 ^ 64 then Some (x + y) else None) ≠ None ↔ x + y < 2 ^ 64) as Hc.
  { intros x y. destruct (Z.ltb_spec (x + y) (2 ^ 64)); split; try done; try lia. }
  rewrite !Hc. lia.
Qed.

Lemma bind_err {A B} (r : res Z A) (k : A → res Z B) e :
  (∀ e, r = Err e → e = STATUS_MAX) → (∀ a, k a = Err e → e = STATUS_MAX) →
  r ≫= k = Err e → e = STATUS_MAX.
Proof. destruct r; naive_solver. Qed.

Lemma bind_returns {A B} (r : res Z A) (k : A → res Z B) :
  r ≠ Panic → (∀ a, k a ≠ Panic) → r ≫= k ≠ Panic.
Proof. destruct r; naive_solver. Qed.

Lemma bail_err (b : bool) e : bail_if b STATUS_MAX = Err e → e = STATUS_MAX.
Proof. by destruct b; intros [= <-]. Qed.

Lemma bail_returns (b : bool) (e : Z) : bail_if b e ≠ Panic.
Proof. by destruct b. Qed.

Lemma checksum_err m a n e : bounded_checksum m a n = Err e → e = STATUS_MAX.
Proof. apply bind_err; [apply bail_err|done]. Qed.

Lemma checksum_returns m a n : bounded_checksum m a n ≠ Panic.
Proof. apply bind_returns; [apply bail_returns|done]. Qed.

Lemma rsdp_bytes_err m acpi e : rsdp_bytes m acpi = Err e → e = STATUS_MAX.
Proof.
  apply bind_err; [apply bail_err|intros _]. apply bind_err; [apply checksum_err|intros s].
  apply bind_err; [apply bail_err|intros _]. cbv zeta. destruct (2 <=? _); [|done].
  apply bind_err; [apply bail_err|intros _]. apply bind_err; [apply checksum_err|intros s'].
  by apply bind_err; [apply bail_err|].
Qed.

Lemma rsdp_bytes_returns m acpi : rsdp_bytes m acpi ≠ Panic.
Proof.
  apply bind_returns; [apply bail_returns|intros _]. apply bind_returns; [apply checksum_returns|intros s].
  apply bind_returns; [apply bail_returns|intros _]. cbv zeta. destruct (2 <=? _); [|done].
  apply bind_returns; [apply bail_returns|intros _]. apply bind_returns; [apply checksum_returns|intros s'].
  by apply bind_returns; [apply bail_returns|].
Qed.

(** The checks in one place. *)
Lemma handoff_unfold m st p system_table :
  bytes_ok m →
  let image := read_image m p in
  let entries := number_of_table_entries (read_system m system_table) in
  let tables := configuration_table (read_system m system_table) in
  let acpi := acpi_table (config_tables m tables entries) in
  normalized_handoff m (st, p) system_table =
    if negb (st =? SUCCESS) || (p =? 0) then Err st
    else if image_checks image || (entries =? 0) || (1024 <? entries) || (tables =? 0) || (acpi =? 0)
    then Err STATUS_MAX
    else n ← rsdp_bytes m acpi;
         Ok (MkHandoff n entries (24 * entries) (load_options_size image) 0 (image_size image)).
Proof.
  intros Hb image entries tables acpi. pose proof (read_le_range m (system_table + 104) 8 Hb) as Re.
  unfold normalized_handoff. cbv zeta. fold image entries tables.
  destruct (negb (st =? SUCCESS) || (p =? 0)); [done|]. cbn [bail_if]. rewrite res_bind_run.
  destruct (image_checks image); [done|]. cbn [bail_if orb]. rewrite res_bind_run.
  destruct (entries =? 0); [done|]. cbn [orb].
  destruct (Z.ltb_spec 1024 entries); [done|]. cbn [orb].
  destruct (tables =? 0); [done|]. cbn [orb bail_if]. rewrite res_bind_run.
  unfold checked_mul, CONFIGURATION_TABLE_BYTES.
  rewrite (proj2 (Z.ltb_lt _ _)) by (unfold entries; cbn in Re; lia). cbn [ok_or].
  rewrite res_bind_run, acpi_loop_spec. fold (acpi_table (config_tables m tables entries)). fold acpi.
  destruct (acpi =? 0); [done|]. cbn [bail_if]. rewrite res_bind_run.
  by replace (entries * 24) with (24 * entries) by lia.
Qed.

(** A handoff in order is accepted. *)
Lemma handoff_accepts m loaded system_table n :
  bytes_ok m →
  let image := read_image m loaded.2 in
  let entries := number_of_table_entries (read_system m system_table) in
  let tables := configuration_table (read_system m system_table) in
  let acpi := acpi_table (config_tables m tables entries) in
  loaded.1 = SUCCESS → loaded.2 ≠ 0 → image_ok image → 1 ≤ entries ≤ 1024 → tables ≠ 0 →
  acpi ≠ 0 → rsdp_ok m acpi n →
  normalized_handoff m loaded system_table =
    Ok (MkHandoff n entries (24 * entries) (load_options_size image) 0 (image_size image)).
Proof.
  intros Hb image entries tables acpi H1 H2 Hi He Ht Ha Hn. destruct loaded as [st p]. cbn [fst snd] in *. subst st.
  rewrite (handoff_unfold m SUCCESS p system_table Hb). cbv zeta. fold image entries tables acpi.
  rewrite (proj2 (Z.eqb_neq p 0)) by done. change (negb (SUCCESS =? SUCCESS)) with false. cbn [orb].
  apply (image_checks_false m p Hb) in Hi. fold image in Hi. rewrite Hi.
  rewrite (proj2 (Z.eqb_neq entries 0)), (proj2 (Z.ltb_ge 1024 entries)), (proj2 (Z.eqb_neq tables 0)), (proj2 (Z.eqb_neq acpi 0))
    by (done || lia). cbn [orb].
  apply rsdp_bytes_Ok in Hn; [|done]. by rewrite Hn.
Qed.

(** C23. The handoff is normalised exactly: it succeeds if and only if the loaded-image
    protocol is present and its image and command line lie inside the address space and
    their limits, there are 1 to 1024 configuration tables, and the ACPI table chosen
    (the first 2.0 entry, else the last 1.0 entry) is a root pointer with the right
    signature, length and zero checksums; it then reports those lengths.  It never
    panics, and every failure is [usize::MAX] or the firmware's own status, which is
    [SUCCESS] exactly when the firmware reports success with a null interface. *)
Theorem handoff_exact m loaded system_table :
  bytes_ok m →
  let image := read_image m loaded.2 in
  let entries := number_of_table_entries (read_system m system_table) in
  let tables := configuration_table (read_system m system_table) in
  let acpi := acpi_table (config_tables m tables entries) in
  (∀ h, normalized_handoff m loaded system_table = Ok h ↔
     loaded.1 = SUCCESS ∧ loaded.2 ≠ 0 ∧ image_ok image ∧ 1 ≤ entries ≤ 1024 ∧ tables ≠ 0 ∧
     acpi ≠ 0 ∧ ∃ n, rsdp_ok m acpi n ∧
     h = MkHandoff n entries (24 * entries) (load_options_size image) 0 (image_size image)) ∧
  normalized_handoff m loaded system_table ≠ Panic ∧
  (∀ e, normalized_handoff m loaded system_table = Err e →
     e = STATUS_MAX ∨ (e = loaded.1 ∧ (loaded.1 ≠ SUCCESS ∨ loaded.2 = 0))) ∧
  (normalized_handoff m loaded system_table = Err SUCCESS ↔ loaded = (SUCCESS, 0)).
Proof.
  intros Hb image entries tables acpi. destruct loaded as [st p]. cbn [fst snd] in *.
  pose proof (read_le_range m (system_table + 104) 8 Hb) as Re.
  rewrite (handoff_unfold m st p system_table Hb). cbv zeta. fold image entries tables acpi.
  destruct (negb (st =? SUCCESS) || (p =? 0)) eqn:E1.
  { apply orb_true_iff in E1. rewrite negb_true_iff, Z.eqb_neq, Z.eqb_eq in E1.
    split_and!; [|done|naive_solver|].
    - intros h. split; [done|]. naive_solver.
    - unfold SUCCESS in *. split; [intros [= ->]; f_equal; naive_solver|by intros [= -> ->]]. }
  apply orb_false_iff in E1. rewrite negb_false_iff, Z.eqb_neq, Z.eqb_eq in E1. destruct E1 as [-> Hp].
  destruct (image_checks image || _ || _ || _ || _) eqn:E2.
  { split_and!; [|done|naive_solver|split; [by intros [=]|by intros [= ->]]].
    intros h. split; [done|]. intros (_ & _ & Hi & He & Ht & Ha & _). exfalso.
    apply (image_checks_false m p Hb) in Hi. fold image in Hi. rewrite Hi in E2. zb. lia. }
  rewrite !orb_false_iff, !Z.eqb_neq, Z.ltb_ge in E2. destruct E2 as [[[[Hi He1] He2] Ht] Ha].
  apply (image_checks_false m p Hb) in Hi.
  split_and!.
  - intros h. split.
    + intros (n & Hn & [= <-])%res_bind_Ok. apply rsdp_bytes_Ok in Hn; [|done].
      split_and!; try done; [|by exists n]. unfold entries in *. cbn in *. lia.
    + intros (_ & _ & _ & _ & _ & _ & n & Hn & ->). apply rsdp_bytes_Ok in Hn; [|done]. by rewrite Hn.
  - destruct (rsdp_bytes m acpi) eqn:E; [done..|by destruct (rsdp_bytes_returns m acpi)].
  - intros e. destruct (rsdp_bytes m acpi) eqn:E; [done| |done]. intros [= <-].
    left. by eapply rsdp_bytes_err.
  - split; [|by intros [= ->]]. destruct (rsdp_bytes m acpi) eqn:E; [done| |done].
    apply rsdp_bytes_err in E as ->. done.
Qed.

(** ** What a handoff in order prints *)

Section passes.
Context {W : Type} `{Uart W}.

Ltac prints :=
  lazymatch goal with
  | |- Sends (serial_bytes _ ≫= _) _ _ => eapply sends_bind; [apply sends_bytes|]
  | |- Sends (serial_usize _ ≫= _) _ _ => eapply sends_bind; [apply sends_usize; (assumption || ulia)|]
  end.

Lemma map_passes c :
  map_status c = SUCCESS → u64 (map_bytes c) → 0 < map_descriptor_size c < 2 ^ 64 →
  map_bytes c mod map_descriptor_size c = 0 → u64 (map_descriptor_version c) →
  ∃ l, Sends (memory_map_probe c : op W Z unit) () l.
Proof.
  intros Hs Hb Hd Hm Hv. eexists. unfold memory_map_probe. rewrite Hs, Hm.
  rewrite (proj2 (Z.eqb_neq (map_descriptor_size c) 0)) by lia.
  eapply sends_bind; [by apply sends_lift|].
  assert (u64 (map_bytes c / map_descriptor_size c)).
  { pose proof (Z.div_pos (map_bytes c) (map_descriptor_size c)). pose proof (Z.div_le_upper_bound (map_bytes c) (map_descriptor_size c) (map_bytes c)).
    unfold in_u in *. nia. }
  repeat prints. apply sends_bytes.
Qed.

Lemma or_fail_passes stage (probe : op W Z unit) l : Sends probe () l → Sends (or_fail stage probe) None l.
Proof. intros Hp w Hw. destruct (Hp w Hw) as (w' & E & L & S). exists w'. unfold or_fail. by rewrite E. Qed.

(** The boot disk, seen through the block protocol. *)
Definition disk_readable (m : memory) (loaded block : Z * Z) (read : BlockMedia → Z * list Z) : Prop :=
  let media := read_le m (block.2 + 8) 8 in
  let md := read_media m media in
  loaded.1 = SUCCESS ∧ loaded.2 ≠ 0 ∧ block.1 = SUCCESS ∧ block.2 ≠ 0 ∧ media ≠ 0 ∧
  512 ≤ block_size md ≤ 4096 ∧ io_align md ≤ 4096 ∧
  ∃ buffer, read md = (SUCCESS, buffer) ∧ buffer !! 510%nat = Some 0x55 ∧ buffer !! 511%nat = Some 0xaa.

Lemma block_passes m loaded block read :
  disk_readable m loaded block read → ∃ l, Sends (block_probe m loaded block read : op W Z unit) () l.
Proof.
  intros (L1 & L2 & B1 & B2 & Hm & Hs & Ha & buffer & Hr & H1 & H2). eexists. unfold block_probe. rewrite L1, B1, Hr.
  rewrite (proj2 (Z.eqb_neq loaded.2 0)), (proj2 (Z.eqb_neq block.2 0)), (proj2 (Z.eqb_neq (read_le m (block.2 + 8) 8) 0)) by done.
  rewrite (proj2 (Z.leb_le 512 _)), (proj2 (Z.leb_le _ 4096)), (proj2 (Z.ltb_ge 4096 _)) by lia.
  do 4 (eapply sends_bind; [by apply sends_lift|]).
  eapply sends_bind; [apply sends_lift; unfold index; change (Z.to_nat 510) with 510%nat; by rewrite H1|].
  eapply sends_bind; [apply sends_lift; unfold index; change (Z.to_nat 511) with 511%nat; by rewrite H2|].
  eapply sends_bind; [by apply sends_lift|].
  assert (u64 (block_size (read_media m (read_le m (block.2 + 8) 8)))) by ulia. repeat prints. apply sends_bytes.
Qed.

(** The system table, the loaded image, the ACPI root pointer and the memory map are in order. *)
Record handed_over (m : memory) (system_table : Z) (loaded : Z * Z) (c : MemoryMapCall) : Prop := {
  ho_bytes : bytes_ok m;
  ho_table : system_table ≠ 0 ∧ boot_services (read_system m system_table) ≠ 0;
  ho_image : loaded.1 = SUCCESS ∧ loaded.2 ≠ 0 ∧ image_ok (read_image m loaded.2);
  ho_acpi :
    let entries := number_of_table_entries (read_system m system_table) in
    let tables := configuration_table (read_system m system_table) in
    let acpi := acpi_table (config_tables m tables entries) in
    1 ≤ entries ≤ 1024 ∧ tables ≠ 0 ∧ acpi ≠ 0 ∧ ∃ n, rsdp_ok m acpi n;
  ho_map : map_status c = SUCCESS ∧ u64 (map_bytes c) ∧ 0 < map_descriptor_size c < 2 ^ 64 ∧
    map_bytes c mod map_descriptor_size c = 0 ∧ u64 (map_descriptor_version c);
}.

Lemma head_passes m system_table loaded c (w : W) :
  handed_over m system_table loaded c →
  ∃ w', boot_head m system_table loaded c w = (Ok None, w') ∧ live w'.
Proof.
  intros [Hb [Ht Hs] (L1 & L2 & Hi) (He & Htb & Ha & n & Hn) (M1 & M2 & M3 & M4 & M5)].
  pose proof (handoff_accepts m loaded system_table n Hb L1 L2 Hi He Htb Ha Hn) as Hh.
  destruct (map_passes c M1 M2 M3 M4 M5) as [l Hl].
  assert (0 ≤ n ≤ 4096) as Hn' by (destruct Hn as (_ & _ & [[_ ->]|(_ & _ & ? & _)]); lia).
  assert (u64 (load_options_size (read_image m loaded.2))) as Hopt.
  { pose proof (read_le_range m (loaded.2 + 48) 4 Hb) as Hopt. change (256 ^ 4%nat) with 4294967296 in Hopt.
    change (u64 (read_le m (loaded.2 + 48) 4)). ulia. }
  assert (u64 (image_size (read_image m loaded.2))) as Hsize by (destruct Hi as (_ & Hsize & _); ulia).
  set (entries := number_of_table_entries _) in *.
  assert (u64 n ∧ u64 entries ∧ u64 (24 * entries)) as (U1 & U2 & U3) by ulia.
  destruct (init_live (E := Z) w) as (w0 & E0 & L0). unfold boot_head. rewrite (op_bind_run _ _ _ _ _ E0), Hh.
  rewrite (proj2 (Z.eqb_neq system_table 0)), (proj2 (Z.eqb_neq (boot_services _) 0)) by done.
  assert (∃ l, Sends (serial_bytes (ascii "THERMITE_BOOT profile=x86_64-pc-uefi-smp-v1"%string ++ [10]) : op W Z unit) () l) as [l0 Hl0]
    by (eexists; apply sends_bytes).
  destruct (Hl0 w0 L0) as (w1 & E1 & L1' & _). rewrite (op_bind_run _ _ _ _ _ E1).
  match goal with |- ∃ w', ?m w1 = _ ∧ _ => assert (∃ l, Sends m None l) as [l1 Hl1] end.
  { eexists. cbn [acpi_bytes firmware_entries firmware_bytes command_line_bytes initrd_bytes image_bytes].
    repeat prints. apply or_fail_passes, Hl. }
  destruct (Hl1 w1 L1') as (w2 & E2 & L2' & _). by exists w2.
Qed.
End passes.

(** ** A machine with an ACPI 1.0 root pointer, for the witness *)

Definition demo_writes : list (Z * nat * Z) :=
  [ (* the loaded image *) (1000 + 24, 8%nat, 77); (1000 + 48, 4%nat, 0); (1000 + 64, 8%nat, 0x200000);
    (1000 + 72, 8%nat, 0x10000);
    (* the system table *) (2000 + 96, 8%nat, 5000); (2000 + 104, 8%nat, 1); (2000 + 112, 8%nat, 3000);
    (* its configuration table *)
    (3000, 4%nat, 0xeb9d2d30); (3004, 2%nat, 0x2d88); (3006, 2%nat, 0x11d3);
    (3008, 8%nat, 0x4dc13f279000169a); (3016, 8%nat, 4000);
    (* the root pointer *) (4000, 8%nat, 0x2052545020445352); (4008, 8%nat, 0xe1) ].

Definition demo_memory : memory :=
  foldl (λ m '(a, n, v), RawMemory.write_le a n v m) ∅ demo_writes.

Lemma write_le_ok a n v m : bytes_ok m → bytes_ok (RawMemory.write_le a n v m).
Proof.
  revert a v m. induction n as [|n IH]; intros a v m Hb; [done|]. cbn. apply IH.
  intros b. rewrite RawMemory.byte_at_insert. zcase; [|done]. apply Z.mod_pos_bound. lia.
Qed.

Lemma demo_bytes : bytes_ok demo_memory.
Proof.
  unfold demo_memory. assert (bytes_ok ∅) as H0 by (intros a; unfold byte_at; rewrite lookup_empty; cbn; lia). revert H0.
  generalize (∅ : memory) as m0. induction demo_writes as [|[[a n] v] l IH]; intros m0 H0; [done|].
  cbn. apply IH. by apply write_le_ok.
Qed.

Lemma handoff_exact_witness :
  ∃ h, normalized_handoff demo_memory (SUCCESS, 1000) 2000 = Ok h ∧
    rsdp_ok demo_memory 4000 20 ∧ h = MkHandoff 20 1 24 0 0 65536.
Proof.
  assert (normalized_handoff demo_memory (SUCCESS, 1000) 2000 = Ok (MkHandoff 20 1 24 0 0 65536))
    as Hc by (vm_compute; reflexivity).
  eexists. split; [exact Hc|]. split; [|reflexivity].
  destruct (handoff_exact demo_memory (SUCCESS, 1000) 2000 demo_bytes) as (Hok & _).
  apply Hok in Hc as (_ & _ & _ & _ & _ & _ & n & Hn & Hh).
  apply (f_equal acpi_bytes) in Hh. cbn [acpi_bytes] in Hh. subst n.
  assert (acpi_table (config_tables demo_memory
    (configuration_table (read_system demo_memory 2000))
    (number_of_table_entries (read_system demo_memory 2000))) = 4000) as Ha
    by (vm_compute; reflexivity).
  rewrite Ha in Hn. exact Hn.
Defined.

(** ** A failed boot that reports success *)

(** Each check that inspects a firmware result returns the firmware's status even when
    that status is [SUCCESS] and something else was wrong: with a null interface, or a
    memory map whose size is not a whole number of descriptors, the failure is printed
    and [efi_main] returns [SUCCESS] to the firmware. *)
Theorem boot_failure_reports_success {W} `{Uart W} m system_table c w :
  system_table ≠ 0 → boot_services (read_system m system_table) ≠ 0 →
  (∃ w', boot_head m system_table (SUCCESS, 0) c w = (Ok (Some SUCCESS), w')) ∧
  (map_status c = SUCCESS → map_descriptor_size c = 0 ∨ map_bytes c mod map_descriptor_size c ≠ 0 →
   memory_map_probe c w = (Err SUCCESS, w)) ∧
  ∀ read, block_probe m (SUCCESS, 0) (SUCCESS, 0) read w = (Err SUCCESS, w).
Proof.
  intros Hst Hbs. split_and!.
  - unfold boot_head. destruct (init_live (E := Z) w) as (w0 & E0 & L0).
    rewrite (op_bind_run _ _ _ _ _ E0).
    destruct (sends_bytes (E := Z) (ascii "THERMITE_BOOT profile=x86_64-pc-uefi-smp-v1"%string ++ [10]) w0 L0)
      as (w1 & E1 & L1 & _).
    rewrite (op_bind_run _ _ _ _ _ E1). rewrite !(proj2 (Z.eqb_neq _ 0)) by done.
    change (normalized_handoff m (SUCCESS, 0) system_table) with (Err (A := NormalizedHandoff) SUCCESS).
    cbv iota.
    destruct (sends_fail (E := Z) (ascii "normalized-handoff"%string) SUCCESS w1 L1) as (w2 & E2 & _).
    rewrite (op_bind_run _ _ _ _ _ E2). by eexists.
  - intros Hs Hd. unfold memory_map_probe, mbind, op_bind, lift. rewrite Hs.
    change (negb (SUCCESS =? SUCCESS)) with false. cbn [orb].
    destruct (Z.eqb_spec (map_descriptor_size c) 0) as [->|Hne]; [done|].
    destruct Hd as [?|Hd]; [done|]. by rewrite (proj2 (Z.eqb_neq _ _) Hd).
  - done.
Qed.

#[local] Instance ready_ports : PortIo (list Z) := {
  Target.port_in width port w := (96, w);
  Target.port_out width port value w := if port =? COM1 then w ++ [value] else w;
}.
#[local] Instance ready_uart : Uart (list Z).
Proof.
  refine {| sent w := w; live _ := True; vacant _ := True |}; try done.
  intros w _. exists 0%nat. split; [lia|done].
Defined.

Lemma boot_failure_reports_success_witness :
  ∃ w', boot_head demo_memory 2000 (SUCCESS, 0) (MkMapCall 0 0 0 0) [] = (Ok (Some SUCCESS), w').
Proof.
  apply (boot_failure_reports_success (W := list Z) demo_memory 2000 (MkMapCall 0 0 0 0) []).
  - lia.
  - vm_compute. congruence.
Defined.

End Handoff.
