(* ===== verification/Interleave.v ===== *)
(** * Threads that share counters

    What the interleaving machines of the target layer have in common: a pool
    of program counters, one per CPU, seen through a sum ([count]) or a
    collection of tokens ([gather]) over its threads.  A step of one CPU
    changes either by that CPU's share. *)
From S2P Require Import Prelude.

Lemma zsum_cons x l : zsum (x :: l) = x + zsum l.
Proof. done. Qed.

Section pool.
Context {pc : Type}.
Implicit Types (w : gmap Z pc) (p : pc).

Definition count (f : pc → Z) w : Z := zsum (f <$> values w).
Definition gather (f : pc → list Z) w : list Z := concat (f <$> values w).

#[global] Instance zsum_perm : Proper (Permutation ==> eq) zsum.
Proof. induction 1; unfold zsum in *; cbn; lia. Qed.

Lemma count_update f w i p p' :
  w !! i = Some p → count f (<[i := p']> w) = count f w - f p + f p'.
Proof.
  intros Hi. unfold count. rewrite (values_insert w i p'), (values_lookup w i p Hi).
  rewrite !fmap_cons, !zsum_cons. lia.
Qed.

Lemma gather_update f w i p :
  w !! i = Some p → ∃ rest, gather f w ≡ₚ f p ++ rest ∧
    ∀ p', gather f (<[i := p']> w) ≡ₚ f p' ++ rest.
Proof.
  intros Hi. exists (gather f (delete i w)). unfold gather. split.
  - by rewrite (values_lookup w i p Hi).
  - intros p'. by rewrite (values_insert w i p').
Qed.

(** A step that leaves the tokens of its CPU alone leaves all of them. *)
Lemma gather_same f w i p p' :
  w !! i = Some p → f p' = f p → gather f (<[i := p']> w) ≡ₚ gather f w.
Proof. intros (r & H1 & H2)%(gather_update f) Hf. by rewrite H2, H1, Hf. Qed.

Lemma elem_of_gather f w x : x ∈ gather f w ↔ ∃ i p, w !! i = Some p ∧ x ∈ f p.
Proof.
  unfold gather. rewrite list_elem_of_In, in_concat. setoid_rewrite <- list_elem_of_In.
  setoid_rewrite list_elem_of_fmap. setoid_rewrite elem_of_values. naive_solver.
Qed.

(** Tokens are held once. *)
Lemma gather_once f w i j p q x :
  NoDup (gather f w) → w !! i = Some p → w !! j = Some q → x ∈ f p → x ∈ f q → i = j.
Proof.
  intros Hnd Hi Hj Hp Hq. destruct (decide (i = j)) as [|Hne]; [done|exfalso].
  unfold gather in Hnd. rewrite (values_lookup w i p Hi) in Hnd. cbn in Hnd.
  apply NoDup_app in Hnd as (_ & Hd & _). apply (Hd x Hp), (elem_of_gather f).
  exists j, q. by rewrite lookup_delete_ne.
Qed.

Lemma zsum_nonneg_all l : (∀ x, x ∈ l → 0 ≤ x) → 0 ≤ zsum l.
Proof.
  induction l as [|x l IH]; [done|]. intros H. change (zsum (x :: l)) with (x + zsum l).
  pose proof (H x ltac:(set_solver)). pose proof (IH ltac:(set_solver)). lia.
Qed.

Lemma count_nonneg f w : (∀ p, 0 ≤ f p) → 0 ≤ count f w.
Proof. intros Hf. apply zsum_nonneg_all. intros x (p & -> & _)%list_elem_of_fmap. done. Qed.

Lemma count_le f g w : (∀ p, f p ≤ g p) → count f w ≤ count g w.
Proof.
  intros H. unfold count, zsum. induction (values w) as [|p l IH]; cbn; [done|].
  pose proof (H p). lia.
Qed.

(** The share of one thread is part of the whole. *)
Lemma count_member f w i p :
  (∀ q, 0 ≤ f q) → w !! i = Some p → f p ≤ count f w.
Proof.
  intros Hf Hi. unfold count. rewrite (values_lookup w i p Hi), fmap_cons, zsum_cons.
  pose proof (count_nonneg f (delete i w) Hf). unfold count in *. lia.
Qed.

Lemma count_all f w c : (∀ i p, w !! i = Some p → f p = c) → count f w = c * size w.
Proof.
  induction w as [|i p w Hi IH] using map_ind; intros H.
  - unfold count, values. rewrite entries_empty, map_size_empty. cbn. lia.
  - unfold count. rewrite values_insert, delete_id by done.
    rewrite fmap_cons, zsum_cons, map_size_insert_None by done. unfold count in IH.
    rewrite IH; [rewrite (H i p) by apply lookup_insert_eq; lia|].
    intros j q Hj. apply (H j). rewrite lookup_insert_ne; [done|congruence].
Qed.

Lemma count_bound f w : (∀ p, 0 ≤ f p ≤ 1) → 0 ≤ count f w ≤ size w.
Proof.
  intros Hf. split; [apply count_nonneg; apply Hf|].
  rewrite <- (Z.mul_1_l (size w)), <- (count_all (λ _, 1) w 1) by done.
  apply count_le. apply Hf.
Qed.

(** If the sum is as large as it can be, every thread contributes. *)
Lemma count_full f w i p :
  (∀ q, f q ≤ 1) → size w ≤ count f w → w !! i = Some p → 1 ≤ f p.
Proof.
  intros Hf Hs Hi. unfold count in Hs. rewrite (values_lookup w i p Hi), fmap_cons, zsum_cons in Hs.
  assert (count f (delete i w) ≤ 1 * size (delete i w)) as Hd.
  { rewrite <- (count_all (λ _, 1) (delete i w) 1) by done. by apply count_le. }
  unfold count in Hd. rewrite map_size_delete_Some in Hd by (by eexists).
  assert (size w ≠ 0%nat) by (intros H0%map_size_empty_inv; by subst w). lia.
Qed.

(** If not every thread contributes, some thread contributes less. *)
Lemma count_missing f w c :
  (∀ p, f p ≤ c) → count f w < c * size w → ∃ i p, w !! i = Some p ∧ f p < c.
Proof.
  intros Hle Hlt. destruct (decide (map_Forall (λ _ p, c ≤ f p) w)) as [Hall|Hno].
  - rewrite (count_all f w c) in Hlt; [lia|]. intros i p Hi.
    specialize (Hall i p Hi). cbn in Hall. specialize (Hle p). lia.
  - apply map_not_Forall in Hno as (i & p & Hi & Hp); [|apply _]. exists i, p. split; [done|lia].
Qed.
End pool.

(** Consecutive tokens. *)
Lemma seqZ_snoc a n : 0 ≤ n → seqZ a (n + 1) = seqZ a n ++ [a + n].
Proof. intros Hn. rewrite seqZ_app by lia. done. Qed.

Lemma zsum_seqZ n : 0 ≤ n → 2 * zsum (seqZ 0 n) = n * (n - 1).
Proof.
  revert n. apply natlike_ind; [done|]. intros n Hn IH.
  replace (Z.succ n) with (n + 1) by lia. rewrite seqZ_snoc, zsum_app, zsum_cons by done. unfold zsum at 2. cbn. lia.
Qed.

Lemma wrap_small w x : 0 ≤ x < 2 ^ w → wrap w x = x.
Proof. intros H. unfold wrap. by apply Z.mod_small. Qed.

Lemma wrap_add_l w x y : wrap w (wrap w x + y) = wrap w (x + y).
Proof. unfold wrap. apply Zplus_mod_idemp_l. Qed.

(** ** Two protocols over shared counters *)

Section protocols.
Context {pc : Type}.
Implicit Types (w : gmap Z pc) (p : pc).

(** A ticket lock: [tickets p] is the ticket a thread holds, [ticketed p] is 1 once it has
    drawn one.  The tickets out are those from the owner's on. *)
Definition tickets_ok (tickets : pc → list Z) (ticketed : pc → Z) w (next owner : Z) : Prop :=
  next = count ticketed w ∧ 0 ≤ owner ≤ next ∧ gather tickets w ≡ₚ seqZ owner (next - owner).

(** What one access does: draw a ticket, pass the lock on, or neither. *)
Definition ticket_move (tickets : pc → list Z) (ticketed : pc → Z) p p' (next owner next' owner' : Z) : Prop :=
  (tickets p = [] ∧ tickets p' = [next] ∧ ticketed p' = ticketed p + 1 ∧
     next' = wrap 64 (next + 1) ∧ owner' = owner) ∨
  (next' = next ∧ ticketed p' = ticketed p ∧
   ((tickets p = [owner] ∧ tickets p' = [] ∧ owner' = owner + 1) ∨
    (tickets p' = tickets p ∧ owner' = owner))).

Lemma tickets_step tickets ticketed w i p p' next owner next' owner' :
  w !! i = Some p → 0 ≤ count ticketed w < 2 ^ 63 → tickets_ok tickets ticketed w next owner →
  ticket_move tickets ticketed p p' next owner next' owner' →
  tickets_ok tickets ticketed (<[i := p']> w) next' owner'.
Proof.
  intros Hi Hc (Hnext & Hown & Hperm) Hcase. unfold tickets_ok.
  destruct (gather_update tickets _ _ _ Hi) as (rest & Hg & Hg'). specialize (Hg' p').
  rewrite (count_update ticketed _ _ _ p' Hi). rewrite Hg in Hperm.
  destruct Hcase as [(E1 & E2 & E3 & E4 & E5)|(En & E3 & [(E1 & E2 & E5)|(E1 & E5)])].
  - rewrite wrap_small in E4 by lia. rewrite Hg', E1, E2, E4, E5 in *. split_and!; [lia..|].
    replace (next + 1 - owner) with (next - owner + 1) by lia.
    rewrite seqZ_snoc by lia. cbn in *. rewrite Hperm.
    replace (owner + (next - owner)) with next by lia. solve_Permutation.
  - rewrite Hg', E1, E2, En, E5 in *.
    assert (owner ∈ seqZ owner (next - owner)) as Hlt%elem_of_seqZ by (rewrite <- Hperm; set_solver).
    split_and!; [lia..|]. rewrite seqZ_cons in Hperm by lia. cbn in *.
    apply Permutation_cons_inv in Hperm. rewrite Hperm.
    replace (Z.pred (next - owner)) with (next - (owner + 1)) by lia. done.
  - rewrite Hg', E1, En, E5 in *. split_and!; [lia..|done].
Qed.

(** A thread that waits for a ticket in turn can count on the owner of the lock. *)
Lemma tickets_owner tickets ticketed w next owner i p t :
  tickets_ok tickets ticketed w next owner → w !! i = Some p → t ∈ tickets p →
  ∃ j q, w !! j = Some q ∧ owner ∈ tickets q.
Proof.
  intros (_ & Ho & Hperm) Hi Ht.
  assert (t ∈ gather tickets w) as Hg by (apply elem_of_gather; by exists i, p).
  rewrite Hperm, elem_of_seqZ in Hg. apply elem_of_gather. rewrite Hperm, elem_of_seqZ. lia.
Qed.

Lemma tickets_once tickets ticketed w next owner i j p q t :
  tickets_ok tickets ticketed w next owner → w !! i = Some p → w !! j = Some q →
  t ∈ tickets p → t ∈ tickets q → i = j.
Proof.
  intros (_ & _ & Hperm). apply gather_once. rewrite Hperm. apply NoDup_seqZ.
Qed.

(** A pool of [total] tasks, of which [n] are handed out as seeds in the order of arrival
    and the others through a counter; [ex] are the tasks carried out, [tasks p] those a
    thread has taken, [left p] is 1 once it has found none. *)
Definition tasks_ok (total n : Z) (tasks : pc → list Z) (left : pc → Z) w (ex : list Z)
    (ready next : Z) : Prop :=
  ∃ k, 0 ≤ k ≤ total - n ∧ next = n + k + count left w ∧ (k < total - n → count left w = 0) ∧
    ex ++ gather tasks w ≡ₚ seqZ 0 ready ++ seqZ n k.

(** Every access takes a seed, takes a shared task, finds none left, carries one out, or
    does none of these. *)
Definition task_move (total : Z) (tasks : pc → list Z) (left : pc → Z) (executes : list Z) p p'
    (ready next ready' next' : Z) : Prop :=
  (tasks p = [] ∧ tasks p' = [ready] ∧ executes = [] ∧ left p' = left p ∧
     ready' = wrap 64 (ready + 1) ∧ next' = next) ∨
  (ready' = ready ∧
   ((next < total ∧ tasks p = [] ∧ tasks p' = [next] ∧ executes = [] ∧
       left p' = left p ∧ next' = wrap 64 (next + 1)) ∨
    (total ≤ next ∧ tasks p = [] ∧ tasks p' = [] ∧ executes = [] ∧
       left p' = left p + 1 ∧ next' = wrap 64 (next + 1)) ∨
    (tasks p = executes ++ tasks p' ∧ left p' = left p ∧ next' = next))).

Lemma tasks_step total n tasks left w ex executes i p p' ready next ready' next' :
  w !! i = Some p → n ≤ total < 2 ^ 63 → 0 ≤ n → 0 ≤ ready < 2 ^ 63 → 0 ≤ count left w < 2 ^ 62 →
  tasks_ok total n tasks left w ex ready next →
  task_move total tasks left executes p p' ready next ready' next' →
  tasks_ok total n tasks left (<[i := p']> w) (ex ++ executes) ready' next'.
Proof.
  intros Hi Htot Hn Hr Hl (k & Hk & Hnext & Hleft & Hperm) Hcase. unfold tasks_ok.
  destruct (gather_update tasks _ _ _ Hi) as (rest & Hg & Hg'). specialize (Hg' p').
  pose proof (count_update left _ _ _ p' Hi) as Hlc. rewrite Hg in Hperm.
  destruct Hcase as [(E1 & E2 & E3 & E4 & E5 & E6)|(Er & [(Hlt & E1 & E2 & E3 & E4 & E5)|
    [(Hge & E1 & E2 & E3 & E4 & E5)|(E1 & E4 & E5)]])].
  - exists k. rewrite wrap_small in E5 by lia. rewrite E3, app_nil_r, Hg', E1, E2 in *.
    split_and!; [lia..| |]; [lia|]. rewrite E5, seqZ_snoc by lia. cbn in *.
    rewrite <- Permutation_middle, Hperm. solve_Permutation.
  - exists (k + 1). assert (k < total - n) as Hk' by lia. specialize (Hleft Hk').
    rewrite wrap_small in E5 by lia. rewrite E3, app_nil_r, Hg', E1, E2 in *.
    split_and!; [lia..| |]; [lia|]. rewrite Er, (seqZ_snoc n) by lia. cbn in *.
    replace (n + k) with next by lia.
    rewrite <- Permutation_middle, Hperm. solve_Permutation.
  - exists k. rewrite wrap_small in E5 by lia. rewrite E3, app_nil_r, Hg', E1, E2, Er in *.
    split_and!; [lia..| |done]. intros. lia.
  - exists k. rewrite Hg', Er. split_and!; [lia..| |]; [lia|].
    rewrite <- Hperm, E1. solve_Permutation.
Qed.

(** No task is carried out twice. *)
Lemma tasks_once total n tasks left w ex ready next :
  ready ≤ n → tasks_ok total n tasks left w ex ready next → NoDup ex.
Proof.
  intros Hr (k & Hk & _ & _ & Hperm).
  assert (NoDup (ex ++ gather tasks w)) as Hnd; [|by apply NoDup_app in Hnd as [? _]].
  rewrite Hperm. apply NoDup_app. split_and!; [apply NoDup_seqZ| |apply NoDup_seqZ].
  intros x Hx Hx'. rewrite elem_of_seqZ in *. lia.
Qed.

(** When everyone has seen the end of the pool, every task has been carried out. *)
Lemma tasks_complete total n tasks left w ex next :
  0 ≤ n → count left w ≠ 0 → (∀ i p, w !! i = Some p → tasks p = []) →
  tasks_ok total n tasks left w ex n next → ex ≡ₚ seqZ 0 total.
Proof.
  intros Hn Hl Ht (k & Hk & _ & Hleft & Hperm). assert (k = total - n) as -> by lia.
  destruct (gather tasks w) as [|x l] eqn:E.
  - rewrite app_nil_r in Hperm. rewrite Hperm. replace total with (n + (total - n)) at 2 by lia.
    by rewrite seqZ_app, Z.add_0_l by lia.
  - assert (x ∈ gather tasks w) as (i & p & Hp & Hx)%elem_of_gather by (rewrite E; set_solver).
    rewrite (Ht i p Hp) in Hx. set_solver.
Qed.

(** A mask in which each thread has set its own bit once [f] holds of it. *)
Definition mask_ok (f : pc → bool) w (m : Z) : Prop :=
  ∀ c, 0 ≤ c → Z.testbit m c = true ↔ ∃ p, w !! c = Some p ∧ f p = true.

Lemma mask_step f w i p p' m m' :
  w !! i = Some p → 0 ≤ i → mask_ok f w m → (f p = true → f p' = true) →
  m' = (if negb (f p) && f p' then Z.lor m (Z.shiftl 1 i) else m) →
  mask_ok f (<[i := p']> w) m'.
Proof.
  intros Hi H0 Hm Hmono -> c Hc. specialize (Hm c Hc).
  assert (Z.testbit (Z.shiftl 1 i) c = bool_decide (c = i)) as Hbit.
  { rewrite Z.shiftl_1_l, Z.pow2_bits_eqb by done. case_bool_decide; [subst; apply Z.eqb_refl|].
    apply Z.eqb_neq. congruence. }
  destruct (decide (c = i)) as [->|Hne].
  - rewrite lookup_insert_eq. rewrite Hi in Hm. rewrite bool_decide_true in Hbit by done.
    destruct (f p) eqn:Ep, (f p') eqn:Ep'; cbn.
    + split; [by exists p'|]. intros _. apply Hm. by exists p.
    + by specialize (Hmono eq_refl).
    + rewrite Z.lor_spec, Hbit, orb_true_r. split; [by exists p'|done].
    + rewrite Hm. split; intros (q & [= <-] & Hq); congruence.
  - rewrite lookup_insert_ne by done. rewrite <- Hm.
    destruct (negb (f p) && f p'); [|done].
    by rewrite Z.lor_spec, Hbit, bool_decide_false, orb_false_r.
Qed.
End protocols.
