(* ===== verification/Workers.v ===== *)
(** * The application processors at work: [run_tasks], [observe_max] and
      [lock_once] in [platform/x86_64-pc-uefi-smp-v1/runtime/src/post_firmware.rs]

    After boot every online CPU runs the same program: it takes a dense seed
    task, waits until all have one, shares the remaining tasks through a
    counter, and passes a ticket lock.  [worker_step] is one access to the
    shared statics; [step] interleaves the CPUs in any order. *)
From S2P Require Import Prelude Interleave.

Module Workers.

Definition MAX_CPUS : Z := 64.
Definition POST_TASKS : Z := 4096.

(** The statics the program shares. *)
Record Shared : Type := MkShared {
  next_task : Z;
  task_ready : Z;
  task_gate : Z;
  expected_workers : Z;
  task_sum : Z;
  task_workers : Z;
  active : Z;
  max_active : Z;
  lock_next : Z;
  lock_owner : Z;
  lock_entries : Z;
  once : Z;
}.

(** The next access of a CPU, with its live local variables. *)
Inductive pc : Type :=
| WReady
| WExpected (seed : Z)
| WSum (seed expected : Z)
| WWorkers (seed expected : Z)
| WActive (seed expected : Z)
| WObserve (seed expected candidate : Z)
| WMax (seed expected candidate observed : Z)
| WGate (seed expected : Z)
| WSpin
| WNext
| WTask (task : Z)
| WLeave
| LTicket
| LSpin (ticket : Z)
| LEnter (ticket : Z)
| LStore (ticket : Z)
| LOnce
| Done.

#[global] Instance pc_eq_dec : EqDecision pc.
Proof. solve_decision. Defined.

(** [1_u64 << cpu], which panics from 64 on. *)
Definition shl1 (cpu : Z) : res False Z := if cpu <? 64 then Ok (Z.shiftl 1 cpu) else Panic.

(** [run_tasks(cpu)], with [observe_max] inlined, and [lock_once(cpu)].
    [fetch_add] and [fetch_sub] wrap; [spurious] lets the weak exchange fail. *)
Definition worker_step (spurious : bool) (cpu : Z) (p : pc) (s : Shared)
    : res False pc * Shared :=
  let '(MkShared next ready gate expected sum workers act mx lnext lowner lentries once_) := s in
  match p with
  | WReady =>
    (Ok (WExpected ready),
     MkShared next (wrap 64 (ready + 1)) gate expected sum workers act mx lnext lowner lentries once_)
  | WExpected seed =>
    (if expected <=? seed then Ok LTicket else Ok (WSum seed expected), s)
  | WSum seed expected' =>
    (Ok (WWorkers seed expected'),
     MkShared next ready gate expected (wrap 64 (sum + seed)) workers act mx lnext lowner lentries once_)
  | WWorkers seed expected' =>
    match shl1 cpu with
    | Ok b => (Ok (WActive seed expected'),
               MkShared next ready gate expected sum (Z.lor workers b) act mx lnext lowner lentries once_)
    | _ => (Panic, s)
    end
  | WActive seed expected' =>
    (candidate ← uadd 64 act 1; Ok (WObserve seed expected' candidate),
     MkShared next ready gate expected sum workers (wrap 64 (act + 1)) mx lnext lowner lentries once_)
  | WObserve seed expected' candidate => (Ok (WMax seed expected' candidate mx), s)
  | WMax seed expected' candidate observed =>
    if observed <? candidate then
      if negb spurious && (mx =? observed) then
        (Ok (WGate seed expected'),
         MkShared next ready gate expected sum workers act candidate lnext lowner lentries once_)
      else (Ok (WMax seed expected' candidate mx), s)
    else (Ok (WGate seed expected'), s)
  | WGate seed expected' =>
    match uadd 64 seed 1 with
    | Ok n =>
      (Ok WSpin,
       if n =? expected' then
         MkShared next ready 1 expected sum workers act mx lnext lowner lentries once_
       else s)
    | Err e => (Err e, s)
    | Panic => (Panic, s)
    end
  | WSpin => (Ok (if gate =? 0 then WSpin else WNext), s)
  | WNext =>
    (Ok (if POST_TASKS <=? next then WLeave else WTask next),
     MkShared (wrap 64 (next + 1)) ready gate expected sum workers act mx lnext lowner lentries once_)
  | WTask task =>
    (Ok WNext,
     MkShared next ready gate expected (wrap 64 (sum + task)) workers act mx lnext lowner lentries once_)
  | WLeave =>
    (Ok LTicket,
     MkShared next ready gate expected sum workers (wrap 64 (act - 1)) mx lnext lowner lentries once_)
  | LTicket =>
    (Ok (LSpin lnext),
     MkShared next ready gate expected sum workers act mx (wrap 64 (lnext + 1)) lowner lentries once_)
  | LSpin ticket => (Ok (if lowner =? ticket then LEnter ticket else LSpin ticket), s)
  | LEnter ticket =>
    (Ok (LStore ticket),
     MkShared next ready gate expected sum workers act mx lnext lowner (wrap 64 (lentries + 1)) once_)
  | LStore ticket =>
    match uadd 64 ticket 1 with
    | Ok n => (Ok LOnce,
               MkShared next ready gate expected sum workers act mx lnext n lentries once_)
    | Err e => (Err e, s)
    | Panic => (Panic, s)
    end
  | LOnce =>
    match uadd 64 cpu 1 with
    | Ok n => (Ok Done,
               MkShared next ready gate expected sum workers act mx lnext lowner lentries
                 (if once_ =? 0 then n else once_))
    | Err e => (Err e, s)
    | Panic => (Panic, s)
    end
  | Done => (Ok Done, s)
  end.

(** The task an access carries out. *)
Definition executes (p : pc) : list Z :=
  match p with WSum seed _ => [seed] | WTask task => [task] | _ => [] end.

(** The CPUs, the statics, and the tasks carried out so far. *)
Record system : Type := MkSystem {
  shared : Shared;
  pcs : gmap Z pc;
  executed : list Z;
}.

Inductive step : system → system → Prop :=
| step_cpu cpu p sp p' s' y :
    pcs y !! cpu = Some p → worker_step sp cpu p (shared y) = (Ok p', s') →
    step y (MkSystem s' (<[cpu := p']> (pcs y)) (executed y ++ executes p)).

(** What [run] stores before it releases the CPUs. *)
Definition released (cpus : gset Z) : system :=
  MkSystem (MkShared (size cpus) 0 0 (size cpus) 0 0 0 0 0 0 0 0)
    (gset_to_gmap WReady cpus) [].

(** [u64::count_ones] *)
Definition count_ones (m : Z) : Z :=
  length (List.filter (Z.testbit m) (seqZ 0 64)).

(** What [run] demands of the statics once [apic_ids] CPUs have finished; [false] is
    the error [PostFirmwareError::Scheduler]. *)
Definition scheduler_accepts (cpus : Z) (s : Shared) : bool :=
  let expected_sum := POST_TASKS * (POST_TASKS - 1) / 2 in
  let worker_cpus := count_ones (task_workers s) in
  let ap_count := cpus - 1 in
  let required_ap_workers := if 2 <=? ap_count then 2 else ap_count in
  negb (negb (task_sum s =? expected_sum)
        || (worker_cpus <? 1 + required_ap_workers)
        || negb (lock_entries s =? cpus)
        || (once s =? 0)
        || ((2 <=? ap_count) && (max_active s <? 2))).

(** ** What the counters count *)

Definition started (p : pc) : Z := match p with WReady => 0 | _ => 1 end.

Definition in_active (p : pc) : Z :=
  match p with
  | WObserve _ _ _ | WMax _ _ _ _ | WGate _ _ | WSpin | WNext | WTask _ | WLeave => 1
  | _ => 0
  end.

Definition left_loop (p : pc) : Z :=
  match p with
  | WLeave | LTicket | LSpin _ | LEnter _ | LStore _ | LOnce | Done => 1
  | _ => 0
  end.

Definition ticketed (p : pc) : Z :=
  match p with LSpin _ | LEnter _ | LStore _ | LOnce | Done => 1 | _ => 0 end.

Definition entered (p : pc) : Z := match p with LStore _ | LOnce | Done => 1 | _ => 0 end.

(** Past the [fetch_or] of [POST_TASK_WORKERS]. *)
Definition marked (p : pc) : bool :=
  match p with WReady | WExpected _ | WSum _ _ | WWorkers _ _ => false | _ => true end.

(** Tasks taken and not yet carried out; tickets drawn and not yet given back. *)
Definition tasks (p : pc) : list Z :=
  match p with WExpected seed | WSum seed _ => [seed] | WTask task => [task] | _ => [] end.

Definition tickets (p : pc) : list Z :=
  match p with LSpin t | LEnter t | LStore t => [t] | _ => [] end.

(** The seed of a CPU that has not yet passed the gate store. *)
Definition seed_of (p : pc) : option Z :=
  match p with
  | WExpected s | WSum s _ | WWorkers s _ | WActive s _ | WObserve s _ _ | WMax s _ _ _
  | WGate s _ => Some s
  | _ => None
  end.

(** What a CPU knows about the statics, with [n] workers. *)
Definition pc_ok (n : Z) (s : Shared) (p : pc) : Prop :=
  match p with
  | WReady => True
  | WExpected seed => 0 ≤ seed < n
  | WSum seed e | WWorkers seed e | WActive seed e => 0 ≤ seed < n ∧ e = n
  | WObserve seed e c => 0 ≤ seed < n ∧ e = n ∧ 1 ≤ c ≤ n
  | WMax seed e c o => 0 ≤ seed < n ∧ e = n ∧ 1 ≤ c ≤ n ∧ o ≤ max_active s
  | WGate seed e => 0 ≤ seed < n ∧ e = n ∧ 1 ≤ max_active s
  | LEnter t | LStore t => t = lock_owner s ∧ 1 ≤ max_active s
  | Done => once s ≠ 0 ∧ 1 ≤ max_active s
  | _ => 1 ≤ max_active s
  end.

Record inv (n : Z) (y : system) : Prop := {
  inv_size : size (pcs y) = n :> Z ∧ 1 ≤ n ≤ 64;
  inv_keys c p : pcs y !! c = Some p → 0 ≤ c < 64;
  inv_expected : expected_workers (shared y) = n;
  inv_ready : task_ready (shared y) = count started (pcs y);
  inv_active : active (shared y) = count in_active (pcs y);
  inv_max : 0 ≤ max_active (shared y) ≤ n;
  inv_workers : mask_ok marked (pcs y) (task_workers (shared y));
  inv_gate : task_ready (shared y) = n → task_gate (shared y) ≠ 0 ∨
    ∃ i p, pcs y !! i = Some p ∧ seed_of p = Some (n - 1);
  inv_sum : task_sum (shared y) = wrap 64 (zsum (executed y));
  inv_tasks : tasks_ok POST_TASKS n tasks left_loop (pcs y) (executed y)
    (task_ready (shared y)) (next_task (shared y));
  inv_entries : lock_entries (shared y) = count entered (pcs y);
  inv_tickets : tickets_ok tickets ticketed (pcs y) (lock_next (shared y)) (lock_owner (shared y));
  inv_pcs c p : pcs y !! c = Some p → pc_ok n (shared y) p;
}.

Lemma worker_counts w :
  0 ≤ count started w ≤ size w ∧ 0 ≤ count in_active w ≤ size w ∧
  0 ≤ count left_loop w ≤ size w ∧ 0 ≤ count ticketed w ≤ size w ∧
  0 ≤ count entered w ≤ size w.
Proof. split_and!; apply count_bound; intros []; cbn; lia. Qed.

(** ** One step *)

(** Case analysis on a successful access, with the statics named. *)
Ltac worker_cases y p Hs :=
  destruct y as [[next ready gate expected sum workers act mx lnext lowner lentries once_] w ex];
  cbn in *; destruct p; cbn in Hs; unfold shl1, uadd in Hs;
  repeat case_match; simplify_eq/=; zb.

(** CPU [cpu] makes a successful access in a system that satisfies the invariant. *)
Definition moves n y cpu p sp p' s' : Prop :=
  inv n y ∧ pcs y !! cpu = Some p ∧ worker_step sp cpu p (shared y) = (Ok p', s').

Lemma step_size n y cpu p sp p' s' :
  moves n y cpu p sp p' s' → size (<[cpu := p']> (pcs y)) = n :> Z ∧ 1 ≤ n ≤ 64.
Proof.
  intros (Hinv & Hi & Hs). pose proof (inv_size _ _ Hinv). rewrite map_size_insert_Some by (by rewrite Hi). done.
Qed.

Lemma step_keys n y cpu p sp p' s' c q :
  moves n y cpu p sp p' s' → <[cpu := p']> (pcs y) !! c = Some q → 0 ≤ c < 64.
Proof.
  intros (Hinv & Hi & Hs) [[<- _]|[_ Hc]]%lookup_insert_Some; by eapply (inv_keys _ _ Hinv).
Qed.

Lemma step_ready n y cpu p sp p' s' :
  moves n y cpu p sp p' s' → let w' := <[cpu := p']> (pcs y) in
  expected_workers s' = n ∧ task_ready s' = count started w' ∧ active s' = count in_active w' ∧
  lock_entries s' = count entered w'.
Proof.
  intros Hm w'. pose proof (worker_counts w') as Hc.
  pose proof (step_size _ _ _ _ _ _ _ Hm) as [Hsz Hn]. unfold w' in *. clear w'.
  rewrite Hsz in Hc. clear Hsz. destruct Hm as (Hinv & Hi & Hs). destruct Hinv as [_ _ He Hr Ha _ _ _ _ _ Hent _ _].
  rewrite !(count_update _ _ _ _ _ Hi) in *.
  worker_cases y p Hs; rewrite ?wrap_small by lia; lia.
Qed.

Lemma step_max n y cpu p sp p' s' :
  moves n y cpu p sp p' s' → 0 ≤ max_active s' ≤ n ∧ max_active (shared y) ≤ max_active s'.
Proof.
  intros (Hinv & Hi & Hs). pose proof (inv_max _ _ Hinv) as Hm. pose proof (inv_pcs _ _ Hinv _ _ Hi) as Hp.
  worker_cases y p Hs; lia.
Qed.

Lemma step_sum n y cpu p sp p' s' :
  moves n y cpu p sp p' s' → task_sum s' = wrap 64 (zsum (executed y ++ executes p)).
Proof.
  intros (Hinv & Hi & Hs). pose proof (inv_sum _ _ Hinv) as Hsum. rewrite zsum_app.
  worker_cases y p Hs; rewrite ?zsum_cons; change (zsum []) with 0; rewrite ?Z.add_0_r; try done.
  all: by rewrite wrap_add_l.
Qed.

Lemma step_workers n y cpu p sp p' s' :
  moves n y cpu p sp p' s' → mask_ok marked (<[cpu := p']> (pcs y)) (task_workers s').
Proof.
  intros (Hinv & Hi & Hs). pose proof (inv_keys _ _ Hinv _ _ Hi) as Hk.
  pose proof (inv_pcs _ _ Hinv _ _ Hi). pose proof (inv_expected _ _ Hinv).
  apply (mask_step marked _ _ p _ (task_workers (shared y))); [done|lia|by apply inv_workers with n| |];
    clear Hinv Hi; worker_cases y p Hs; first [done|lia].
Qed.

Lemma step_gate n y cpu p sp p' s' :
  moves n y cpu p sp p' s' → task_ready s' = n →
  task_gate s' ≠ 0 ∨ ∃ i q, <[cpu := p']> (pcs y) !! i = Some q ∧ seed_of q = Some (n - 1).
Proof.
  intros Hm. pose proof (step_ready _ _ _ _ _ _ _ Hm) as (_ & Hr & _ & _).
  pose proof (step_size _ _ _ _ _ _ _ Hm) as [Hsz Hn].
  pose proof (worker_counts (<[cpu := p']> (pcs y))) as (Hc & _). rewrite Hsz in Hc.
  destruct Hm as (Hinv & Hi & Hs). intros Hfull.
  destruct (decide (p = WReady)) as [->|Hnr].
  { right. exists cpu, p'. rewrite lookup_insert_eq. split; [done|].
    pose proof (inv_ready _ _ Hinv) as Hr0. rewrite (count_update _ _ _ _ _ Hi) in Hr, Hc.
    destruct y as [[] w ex]. cbn in *. simplify_eq/=. f_equal.
    rewrite wrap_small in * by lia. lia. }
  assert (task_ready (shared y) = task_ready s' ∧ (task_gate (shared y) ≠ 0 → task_gate s' ≠ 0) ∧
    (seed_of p = Some (n - 1) → seed_of p' = Some (n - 1) ∨ task_gate s' ≠ 0)) as (Hold & Hg & Hseed).
  { pose proof (inv_pcs _ _ Hinv _ _ Hi). pose proof (inv_expected _ _ Hinv).
    clear Hc Hr Hsz Hfull. worker_cases y p Hs; try done; split_and!; try done;
      intros [= ?]; first [by left; f_equal; lia|by right|lia]. }
  rewrite Hfull in Hold. destruct (inv_gate _ _ Hinv Hold) as [H|(i & q & Hq & Hqs)]; [left; by apply Hg|].
  destruct (decide (i = cpu)) as [->|Hne].
  - rewrite Hi in Hq. injection Hq as <-. destruct (Hseed Hqs); [|by left].
    right. exists cpu, p'. by rewrite lookup_insert_eq.
  - right. exists i, q. by rewrite lookup_insert_ne.
Qed.

Lemma task_cases n y cpu p sp p' s' :
  moves n y cpu p sp p' s' →
  task_move POST_TASKS tasks left_loop (executes p) p p' (task_ready (shared y)) (next_task (shared y))
    (task_ready s') (next_task s').
Proof.
  intros (Hinv & Hi & Hs). pose proof (inv_pcs _ _ Hinv _ _ Hi) as Hp.
  pose proof (inv_expected _ _ Hinv) as He. unfold task_move.
  worker_cases y p Hs; try lia; try (by left; split_and!); right; (split; [done|]);
    first [by left; split_and!|by right; left; split_and!|by right; right; split_and!].
Qed.

Lemma step_tasks n y cpu p sp p' s' :
  moves n y cpu p sp p' s' →
  tasks_ok POST_TASKS n tasks left_loop (<[cpu := p']> (pcs y)) (executed y ++ executes p)
    (task_ready s') (next_task s').
Proof.
  intros Hm. pose proof (task_cases _ _ _ _ _ _ _ Hm) as Hcase. destruct Hm as (Hinv & Hi & _).
  pose proof (worker_counts (pcs y)) as (Hc & _ & Hl & _).
  pose proof (inv_size _ _ Hinv) as [Hsz Hn]. rewrite Hsz in *.
  pose proof (inv_ready _ _ Hinv) as Hr.
  eapply tasks_step; [exact Hi|unfold POST_TASKS; lia|lia| | |by apply inv_tasks|exact Hcase]; lia.
Qed.

Lemma ticket_cases n y cpu p sp p' s' :
  moves n y cpu p sp p' s' →
  ticket_move tickets ticketed p p' (lock_next (shared y)) (lock_owner (shared y))
    (lock_next s') (lock_owner s').
Proof.
  intros (Hinv & Hi & Hs). pose proof (inv_pcs _ _ Hinv _ _ Hi) as Hp.
  pose proof (inv_expected _ _ Hinv) as He. unfold ticket_move.
  worker_cases y p Hs; try lia; try (by left; split_and!); right;
    (split_and!; [done|done|]); try (by right).
  destruct Hp as [-> _]. by left.
Qed.

Lemma step_tickets n y cpu p sp p' s' :
  moves n y cpu p sp p' s' →
  tickets_ok tickets ticketed (<[cpu := p']> (pcs y)) (lock_next s') (lock_owner s').
Proof.
  intros Hm. pose proof (ticket_cases _ _ _ _ _ _ _ Hm) as Hcase. destruct Hm as (Hinv & Hi & _).
  pose proof (worker_counts (pcs y)) as (_ & _ & _ & Hc & _).
  pose proof (inv_size _ _ Hinv) as [Hsz Hn]. rewrite Hsz in *.
  eapply tickets_step; [done|lia|by apply (inv_tickets n)|exact Hcase].
Qed.

(** The lock is held by one CPU at a time. *)
Lemma one_holder n y i j p q t u :
  inv n y → pcs y !! i = Some p → pcs y !! j = Some q →
  (p = LEnter t ∨ p = LStore t) → (q = LEnter u ∨ q = LStore u) → i = j.
Proof.
  intros Hinv Hi Hj Hp Hq.
  eapply (tickets_once _ _ _ _ _ i j p q (lock_owner (shared y)) (inv_tickets _ _ Hinv)); try done.
  - pose proof (inv_pcs _ _ Hinv _ _ Hi) as Hok.
    destruct Hp as [-> | ->]; cbn in *; destruct Hok as [-> _]; set_solver.
  - pose proof (inv_pcs _ _ Hinv _ _ Hj) as Hok.
    destruct Hq as [-> | ->]; cbn in *; destruct Hok as [-> _]; set_solver.
Qed.

(** What a CPU knows survives the accesses of the others. *)
Lemma pc_ok_stable n s s' q :
  max_active s ≤ max_active s' → (once s ≠ 0 → once s' ≠ 0) →
  (∀ t, q = LEnter t ∨ q = LStore t → lock_owner s' = lock_owner s) →
  pc_ok n s q → pc_ok n s' q.
Proof.
  intros Hm Ho Hl. destruct q; cbn; try lia; try (by intuition lia).
  all: intros [-> ?]; split; [|lia]; symmetry; eauto.
Qed.

Lemma step_pcs n y cpu p sp p' s' c q :
  moves n y cpu p sp p' s' → <[cpu := p']> (pcs y) !! c = Some q → pc_ok n s' q.
Proof.
  intros Hm. pose proof (step_max _ _ _ _ _ _ _ Hm) as [Hmx Hmm].
  pose proof (step_ready _ _ _ _ _ _ _ Hm) as (_ & Hr & Ha & _).
  pose proof (step_size _ _ _ _ _ _ _ Hm) as [Hsz Hn].
  pose proof (worker_counts (<[cpu := p']> (pcs y))) as Hc. rewrite Hsz in Hc. clear Hsz.
  pose proof (worker_counts (pcs y)) as (Hc1 & Hc2 & _).
  pose proof (ticket_cases _ _ _ _ _ _ _ Hm) as Hcase. destruct Hm as (Hinv & Hi & Hs).
  rewrite !(count_update _ _ _ _ _ Hi) in *.
  pose proof (inv_ready _ _ Hinv) as Hr0. pose proof (inv_active _ _ Hinv) as Ha0.
  pose proof (inv_pcs _ _ Hinv _ _ Hi) as Hp. pose proof (inv_max _ _ Hinv) as Hmax.
  pose proof (inv_keys _ _ Hinv _ _ Hi) as Hkey. pose proof (inv_expected _ _ Hinv) as He.
  intros [[<- <-]|[Hne Hq]]%lookup_insert_Some.
  - clear Hcase. worker_cases y p Hs; try lia; try (split_and!; lia).
    all: rewrite ?wrap_small in * by lia; try lia.
  - apply (pc_ok_stable n (shared y)); [lia| | |by eapply (inv_pcs _ _ Hinv)].
    + clear - Hs Hkey. worker_cases y p Hs; lia.
    + intros t Ht. destruct Hcase as [(_ & _ & _ & _ & E)|(_ & _ & [(E1 & E2 & E)|[_ E]])];
        [done| |done]. exfalso. apply Hne.
      assert (∃ u, p = LStore u) as [u ->] by (clear - Hs E1 E2; worker_cases y p Hs; by eauto).
      by eapply (one_holder n y cpu c (LStore u) q); eauto.
Qed.

Lemma worker_step_inv n y cpu p sp p' s' :
  moves n y cpu p sp p' s' →
  inv n (MkSystem s' (<[cpu := p']> (pcs y)) (executed y ++ executes p)).
Proof.
  intros Hm. destruct (step_ready _ _ _ _ _ _ _ Hm) as (H1 & H2 & H3 & H4).
  split; cbn; try done.
  - by eapply step_size.
  - intros c q. by eapply step_keys.
  - by eapply step_max.
  - by eapply step_workers.
  - by eapply step_gate.
  - by eapply step_sum.
  - by eapply step_tasks.
  - by eapply step_tickets.
  - intros c q. by eapply step_pcs.
Qed.

(** No access panics. *)
Lemma worker_returns n y cpu p sp :
  inv n y → pcs y !! cpu = Some p →
  ∃ p' s', worker_step sp cpu p (shared y) = (Ok p', s').
Proof.
  intros Hinv Hi. pose proof (inv_pcs _ _ Hinv _ _ Hi) as Hp.
  pose proof (inv_keys _ _ Hinv _ _ Hi) as Hk. pose proof (inv_size _ _ Hinv) as [Hsz Hn].
  pose proof (inv_active _ _ Hinv) as Ha. pose proof (inv_tickets _ _ Hinv) as (Ht & Ho & _).
  pose proof (worker_counts (pcs y)) as Hc. rewrite Hsz in Hc.
  destruct y as [[] w ex]. cbn in *. subst. destruct p; cbn in *; unfold shl1, uadd;
    repeat case_match; simplify_eq; zb; first [lia|eexists _, _; reflexivity].
Qed.

Lemma cpus_bound (cpus : gset Z) : (∀ c, c ∈ cpus → 0 ≤ c < 64) → size cpus ≤ 64.
Proof.
  intros Hk. assert (cpus ⊆ list_to_set (seqZ 0 64)) as Hsub.
  { intros c Hc. apply elem_of_list_to_set, elem_of_seqZ. pose proof (Hk c Hc). lia. }
  apply subseteq_size in Hsub. rewrite size_list_to_set, length_seqZ in Hsub by apply NoDup_seqZ.
  lia.
Qed.

Lemma released_inv cpus :
  (∀ c, c ∈ cpus → 0 ≤ c < 64) → cpus ≠ ∅ → inv (size cpus) (released cpus).
Proof.
  intros Hk Hne. assert (size cpus ≠ 0%nat) as Hsz by (by rewrite size_empty_iff, leibniz_equiv_iff).
  pose proof (cpus_bound cpus Hk) as Hle.
  set (w := gset_to_gmap WReady cpus : gmap Z pc).
  assert (∀ c p, w !! c = Some p → p = WReady ∧ c ∈ cpus) as Hw.
  { intros c p. unfold w. rewrite lookup_gset_to_gmap_Some. naive_solver. }
  assert (∀ f, f WReady = 0 → count f w = 0) as H0.
  { intros f Hf. rewrite (count_all f w 0); [lia|]. by intros i p [-> _]%Hw. }
  assert (∀ f, f WReady = [] → gather f w = []) as Hg.
  { intros f Hf. destruct (gather f w) as [|x l] eqn:E; [done|].
    assert (x ∈ gather f w) as (i & p & [-> _]%Hw & Hx)%elem_of_gather by (rewrite E; set_solver).
    rewrite Hf in Hx. set_solver. }
  split; cbn; fold w.
  - split.
    + unfold w. by rewrite <- (size_dom (D:=gset Z)), dom_gset_to_gmap.
    + lia.
  - intros c p [_ Hc]%Hw. by apply Hk.
  - done.
  - by rewrite H0.
  - by rewrite H0.
  - lia.
  - intros c Hc. rewrite Z.testbit_0_l. split; [done|].
    by intros (p & [-> _]%Hw & Hm).
  - lia.
  - done.
  - unfold tasks_ok. exists 0. rewrite !H0, Hg by done.
    unfold POST_TASKS. split_and!; lia || done.
  - by rewrite H0.
  - unfold tickets_ok. rewrite H0, Hg by done. split_and!; lia || done.
  - by intros c p [-> _]%Hw.
Qed.

Lemma reachable_workers cpus y :
  (∀ c, c ∈ cpus → 0 ≤ c < MAX_CPUS) → cpus ≠ ∅ → rtc step (released cpus) y →
  inv (size cpus) y ∧ dom (pcs y) = cpus.
Proof.
  intros Hk Hne Hr. pose proof (released_inv cpus Hk Hne) as H0.
  assert (dom (pcs (released cpus)) = cpus) as H1 by apply dom_gset_to_gmap.
  revert H0 H1. generalize (size cpus : Z) as n. intros n.
  induction Hr as [y|y y1 y2 Hs _ IH]; [done|]. intros Hinv Hd.
  destruct Hs as [cpu p sp p' s' y Hi Hs]. apply IH.
  - apply (worker_step_inv n y cpu p sp). by split_and!.
  - cbn. rewrite dom_insert_lookup_L by (by rewrite Hi). done.
Qed.

Lemma count_ones_size m (cpus : gset Z) :
  (∀ c, c ∈ cpus → 0 ≤ c < MAX_CPUS) → (∀ c, 0 ≤ c → Z.testbit m c = true ↔ c ∈ cpus) →
  count_ones m = size cpus.
Proof.
  intros Hk Hm. unfold count_ones, size, set_size. cbn. f_equal. apply Permutation_length.
  apply NoDup_Permutation; [|apply NoDup_elements|].
  - apply NoDup_ListNoDup, List.NoDup_filter, NoDup_ListNoDup, NoDup_seqZ.
  - intros c. rewrite elem_of_elements, list_elem_of_In, filter_In, <- list_elem_of_In, elem_of_seqZ.
    split; [intros [? ?]; by apply Hm; [lia|]|]. intros Hc. pose proof (Hk c Hc).
    unfold MAX_CPUS in *. split; [lia|]. by apply Hm; [lia|].
Qed.

(** What the statics hold when every CPU has finished. *)
Lemma workers_done cpus y :
  (∀ c, c ∈ cpus → 0 ≤ c < MAX_CPUS) → cpus ≠ ∅ → rtc step (released cpus) y →
  (∀ c p, pcs y !! c = Some p → p = Done) →
  executed y ≡ₚ seqZ 0 POST_TASKS ∧
  task_sum (shared y) = POST_TASKS * (POST_TASKS - 1) / 2 ∧
  (∀ c, 0 ≤ c → Z.testbit (task_workers (shared y)) c = true ↔ c ∈ cpus) ∧
  active (shared y) = 0 ∧ 1 ≤ max_active (shared y) ≤ size cpus ∧
  lock_entries (shared y) = size cpus ∧ once (shared y) ≠ 0.
Proof.
  intros Hk Hne Hr Hdone. destruct (reachable_workers cpus y Hk Hne Hr) as [Hinv Hd].
  pose proof (inv_size _ _ Hinv) as [Hsz Hn].
  assert (∀ f, count f (pcs y) = f Done * size cpus) as Hcount.
  { intros f. rewrite <- Hsz. apply count_all. by intros i p ->%Hdone. }
  assert (∃ c, pcs y !! c = Some Done) as [c0 Hc0].
  { destruct (set_choose_L cpus Hne) as [c Hc]. rewrite <- Hd in Hc.
    apply elem_of_dom in Hc as [p Hp]. exists c. by rewrite (Hdone c p Hp) in Hp. }
  pose proof (inv_pcs _ _ Hinv _ _ Hc0) as [Honce Hmax].
  pose proof (inv_tasks _ _ Hinv) as Htasks. rewrite (inv_ready _ _ Hinv), Hcount in Htasks.
  cbn [started] in Htasks. rewrite Z.mul_1_l in Htasks.
  assert (lock_entries (shared y) = size cpus) as Hentries
    by (rewrite (inv_entries _ _ Hinv), Hcount; cbn; lia).
  assert (∀ c, 0 ≤ c → Z.testbit (task_workers (shared y)) c = true ↔ c ∈ cpus) as Hworkers.
  { intros c Hc. rewrite (inv_workers _ _ Hinv c Hc), <- Hd, elem_of_dom. split.
    - intros (p & Hp & _). by exists p.
    - intros [p Hp]. pose proof (Hdone c p Hp) as ->. by exists Done. }
  assert (executed y ≡ₚ seqZ 0 POST_TASKS) as Hex.
  { eapply tasks_complete; [| | |exact Htasks]; [lia|rewrite Hcount; cbn; lia|by intros i p ->%Hdone]. }
  assert (task_sum (shared y) = POST_TASKS * (POST_TASKS - 1) / 2) as Hsum.
  { rewrite (inv_sum _ _ Hinv), Hex. pose proof (zsum_seqZ POST_TASKS ltac:(done)) as H.
    unfold POST_TASKS in *. replace (zsum (seqZ 0 4096)) with 8386560 by lia. reflexivity. }
  pose proof (inv_max _ _ Hinv) as Hmx.
  split_and!; try done; try lia. rewrite (inv_active _ _ Hinv), Hcount. done.
Qed.

(** C10. Work is shared exactly: when all CPUs have finished, in whatever order their
    accesses were interleaved, every one of the 4096 tasks has been carried out exactly
    once, the published sum is theirs, precisely the online CPUs are recorded as workers,
    and none is still counted active; the acceptance check of the boot code then succeeds
    exactly when there are at most two CPUs or two were seen active at once. *)
Theorem tasks_run_exactly_once cpus y :
  (∀ c, c ∈ cpus → 0 ≤ c < MAX_CPUS) → cpus ≠ ∅ → rtc step (released cpus) y →
  (∀ c p, pcs y !! c = Some p → p = Done) →
  executed y ≡ₚ seqZ 0 POST_TASKS ∧
  task_sum (shared y) = POST_TASKS * (POST_TASKS - 1) / 2 ∧
  (∀ c, 0 ≤ c → Z.testbit (task_workers (shared y)) c = true ↔ c ∈ cpus) ∧
  active (shared y) = 0 ∧ 1 ≤ max_active (shared y) ≤ size cpus ∧
  scheduler_accepts (size cpus) (shared y) = bool_decide (size cpus ≤ 2 ∨ 2 ≤ max_active (shared y)).
Proof.
  intros Hk Hne Hr Hdone. destruct (workers_done cpus y Hk Hne Hr Hdone) as (He & Hsum & Hw & Ha & Hm & Hl & Ho).
  split_and!; [done|done|done|done|lia|lia|].
  unfold scheduler_accepts. rewrite Hsum, Hl, !Z.eqb_refl, (count_ones_size _ cpus Hk Hw).
  cbv zeta. rewrite (proj2 (Z.eqb_neq _ _) Ho). cbn [negb orb].
  case_bool_decide; destruct (Z.leb_spec 2 (size cpus - 1)); zcase; cbn; try done; lia.
Qed.

(** A CPU whose next access does more than spin. *)
Definition can_move (s : Shared) (p : pc) : Prop :=
  match p with
  | Done => False
  | WSpin => task_gate s ≠ 0
  | LSpin t => lock_owner s = t
  | _ => True
  end.

Lemma can_move_changes cpu s p p' s' :
  can_move s p → worker_step false cpu p s = (Ok p', s') → p' ≠ p.
Proof.
  destruct s, p; cbn; unfold shl1, uadd; intros Hm Hs; repeat case_match; simplify_eq/=; zb;
    congruence || lia || done.
Qed.

Lemma some_mover n y :
  inv n y → (∃ c p, pcs y !! c = Some p ∧ p ≠ Done) →
  ∃ c p, pcs y !! c = Some p ∧ can_move (shared y) p.
Proof.
  intros Hinv (c & p & Hc & Hp).
  destruct p as [| | | | | | | | | | | | |t| | | |]; try done; try (by exists c; eexists).
  - destruct (decide (task_gate (shared y) = 0)) as [Hg|Hg]; [|by exists c, WSpin].
    destruct (inv_size _ _ Hinv) as [Hsz Hn].
    pose proof (worker_counts (pcs y)) as [Hst _]. rewrite Hsz in Hst.
    destruct (decide (count started (pcs y) = n)) as [Hall|Hsome].
    + destruct (inv_gate _ _ Hinv) as [?|(i & q & Hq & Hs)]; [by rewrite (inv_ready _ _ Hinv)|done|].
      exists i, q. split; [done|]. by destruct q.
    + destruct (count_missing started (pcs y) 1) as (i & q & Hq & Hlt);
        [by intros []|lia|]. exists i, q. split; [done|]. by destruct q; cbn in *; try lia.
  - destruct (tickets_owner _ _ _ _ _ c (LSpin t) t (inv_tickets _ _ Hinv) Hc) as (j & q & Hq & Hin);
      [set_solver|]. exists j, q. split; [done|]. destruct q; cbn in *; try done; set_solver.
Qed.

(** C11. The workers exclude each other and never get stuck: in every reachable state at
    most one CPU is inside the ticket lock, no task has been carried out twice, no access
    panics, and as long as some CPU has not finished, some CPU can move on (it is not the
    case that all of them spin). *)
Theorem workers_never_stuck cpus y :
  (∀ c, c ∈ cpus → 0 ≤ c < MAX_CPUS) → cpus ≠ ∅ → rtc step (released cpus) y →
  (∀ i j t u, (pcs y !! i = Some (LEnter t) ∨ pcs y !! i = Some (LStore t)) →
     (pcs y !! j = Some (LEnter u) ∨ pcs y !! j = Some (LStore u)) → i = j) ∧
  NoDup (executed y) ∧
  (∀ c p sp, pcs y !! c = Some p → (worker_step sp c p (shared y)).1 ≠ Panic) ∧
  ((∃ c p, pcs y !! c = Some p ∧ p ≠ Done) →
   ∃ c p p' s', pcs y !! c = Some p ∧ worker_step false c p (shared y) = (Ok p', s') ∧ p' ≠ p).
Proof.
  intros Hk Hne Hr. destruct (reachable_workers cpus y Hk Hne Hr) as [Hinv Hd].
  split_and!.
  - intros i j t u Hi Hj. destruct Hi as [Hi|Hi], Hj as [Hj|Hj];
      by eapply (one_holder _ y i j); eauto.
  - refine (tasks_once _ _ _ _ _ _ _ _ _ (inv_tasks _ _ Hinv)).
    pose proof (worker_counts (pcs y)) as [Hc _]. rewrite (inv_ready _ _ Hinv).
    pose proof (inv_size _ _ Hinv) as [Hsz _]. lia.
  - intros c p sp Hc. by destruct (worker_returns _ _ _ _ sp Hinv Hc) as (? & ? & ->).
  - intros Hex. destruct (some_mover _ _ Hinv Hex) as (c & p & Hc & Hp).
    destruct (worker_returns _ _ _ _ false Hinv Hc) as (p' & s' & Hs).
    exists c, p, p', s'. split_and!; [done|done|]. by eapply can_move_changes.
Qed.

(** ** Concrete runs *)

(** [k] accesses of one CPU in a row. *)
Fixpoint drive (k : nat) (c : Z) (y : system) : option system :=
  match k with
  | O => Some y
  | S k =>
    match pcs y !! c with
    | Some p =>
      match worker_step false c p (shared y) with
      | (Ok p', s') => drive k c (MkSystem s' (<[c := p']> (pcs y)) (executed y ++ executes p))
      | _ => None
      end
    | None => None
    end
  end.

Lemma drive_rtc k c y y' : drive k c y = Some y' → rtc step y y'.
Proof.
  revert y. induction k as [|k IH]; cbn; intros y H; [by simplify_eq|].
  repeat case_match; simplify_eq. eapply rtc_l; [by econstructor|]. by apply IH.
Qed.

(** A CPU that works off the rest of the queue on its own. *)
Lemma drain c w ex a ready gate e z wk act mx ln lo le on :
  w !! c = Some WNext → 0 ≤ a ≤ POST_TASKS →
  ∃ z' ex', rtc step
    (MkSystem (MkShared a ready gate e z wk act mx ln lo le on) w ex)
    (MkSystem (MkShared (POST_TASKS + 1) ready gate e z' wk act mx ln lo le on)
       (<[c := WLeave]> w) ex').
Proof.
  intros Hc Ha. remember (Z.to_nat (POST_TASKS - a)) as k eqn:Hk.
  revert a z ex Ha Hk. induction k as [|k IH]; intros a z ex Ha Hk; unfold POST_TASKS in *.
  - assert (a = 4096) as -> by lia. exists z. eexists. apply rtc_once.
    by eapply (step_cpu c WNext false).
  - destruct (IH (a + 1) (wrap 64 (z + a)) ((ex ++ []) ++ [a])) as (z' & ex' & Hr); [lia..|].
    exists z', ex'.
    eapply rtc_l; [eapply (step_cpu c WNext false); [done|];
      cbn; unfold POST_TASKS; rewrite (proj2 (Z.leb_gt _ _)), wrap_small by lia; reflexivity|].
    cbn. eapply rtc_l; [by eapply (step_cpu c (WTask a) false); [apply lookup_insert_eq|]|].
    cbn. by rewrite insert_insert_eq, insert_id by done.
Qed.

(** CPUs 0 and 1 stop just before they enter; CPU 2 opens the gate, does all the
    work and leaves; then the other two pass. *)
Lemma staggered_run :
  ∃ y, rtc step (released {[0; 1; 2]}) y ∧
    (∀ c p, pcs y !! c = Some p → p = Done) ∧ max_active (shared y) = 1.
Proof.
  set (y0 := released {[0; 1; 2]}).
  assert (∃ w ex z wk, rtc step y0 (MkSystem (MkShared 3 3 1 3 z wk 1 1 0 0 0 0) w ex) ∧
    w !! 2 = Some WNext ∧ ∀ z' ex', ∃ y,
      (drive 6 2 (MkSystem (MkShared 4097 3 1 3 z' wk 1 1 0 0 0 0) (<[2 := WLeave]> w) ex')
        ≫= drive 12 0) ≫= drive 12 1 = Some y ∧
      pcs y = {[0 := Done; 1 := Done; 2 := Done]} ∧ max_active (shared y) = 1)
    as (w & ex & z & wk & Hpre & Hw & Hpost).
  { destruct ((drive 4 0 y0 ≫= drive 4 1) ≫= drive 9 2) as [y1|] eqn:H1; [|by vm_compute in H1].
    assert (rtc step y0 y1) as Hr.
    { apply bind_Some in H1 as (yb & (ya & Ha & Hb)%bind_Some & Hc).
      do 2 (etrans; [by eapply drive_rtc|]). by eapply drive_rtc. }
    vm_compute in H1. injection H1 as <-. do 4 eexists. split; [exact Hr|].
    split; [reflexivity|]. intros z' ex'. eexists. split; [vm_compute; reflexivity|].
    split; reflexivity. }
  destruct (drain 2 w ex 3 3 1 3 z wk 1 1 0 0 0 0 Hw) as (z' & ex' & Hmid);
    [unfold POST_TASKS; lia|].
  destruct (Hpost z' ex') as (y & Hy & Hpcs & Hmax). exists y. split_and!; [|intros c p Hc|done].
  - etrans; [exact Hpre|]. etrans; [exact Hmid|]. unfold POST_TASKS. revert Hy.
    intros (yb & (ya & Ha & Hb)%bind_Some & Hy)%bind_Some.
    etrans; [by eapply drive_rtc|]. etrans; by eapply drive_rtc.
  - rewrite Hpcs in Hc. repeat (apply lookup_insert_Some in Hc as [[_ <-]|[_ Hc]]; [done|]).
    by apply lookup_singleton_Some in Hc as [_ <-].
Qed.

Lemma three_cpus c : c ∈ ({[0; 1; 2]} : gset Z) → 0 ≤ c < MAX_CPUS.
Proof. unfold MAX_CPUS. set_solver by lia. Qed.

Lemma tasks_run_exactly_once_witness :
  ∃ y, rtc step (released {[0; 1; 2]}) y ∧ executed y ≡ₚ seqZ 0 POST_TASKS ∧
    task_sum (shared y) = 8386560 ∧ active (shared y) = 0.
Proof.
  destruct staggered_run as (y & Hr & Hdone & _). exists y.
  destruct (tasks_run_exactly_once {[0; 1; 2]} y three_cpus ltac:(done) Hr Hdone)
    as (Hex & Hsum & _ & Hact & _).
  split; [exact Hr|]. split; [exact Hex|]. split; [exact Hsum|exact Hact].
Defined.

Lemma workers_never_stuck_witness :
  ∃ c p p' s', pcs (released {[0; 1; 2]}) !! c = Some p ∧
    worker_step false c p (shared (released {[0; 1; 2]})) = (Ok p', s') ∧ p' ≠ p.
Proof.
  apply (workers_never_stuck {[0; 1; 2]} (released {[0; 1; 2]}) three_cpus ltac:(done)
    (rtc_refl _ _)).
  exists 0, WReady. split; [reflexivity|discriminate].
Defined.

(** The gate does not hold the CPUs together: it is opened by the CPU that drew the
    last seed, not by the last one to enter, so there is a run in which three CPUs finish
    all the work although never more than one of them was active at a time; the boot code,
    which demands a peak of two, then refuses the run. *)
Theorem gate_opens_early :
  ∃ y, rtc step (released {[0; 1; 2]}) y ∧ (∀ c p, pcs y !! c = Some p → p = Done) ∧
    max_active (shared y) = 1 ∧ scheduler_accepts 3 (shared y) = false.
Proof.
  destruct staggered_run as (y & Hr & Hdone & Hmax). exists y. split_and!; try done.
  unfold scheduler_accepts. rewrite Hmax. apply negb_false_iff. by rewrite orb_true_r.
Qed.

End Workers.
