(* ===== verification/Virtio.v ===== *)
(** * The virtio disk: [pci_read32], [pci_write32], [find_legacy_virtio_block]
      and [virtio_block_dma_probe] in
      [platform/x86_64-pc-uefi-smp-v1/runtime/src/post_firmware.rs]

    The bus is scanned for a legacy virtio block device; one read request for
    sector zero is laid out in a static queue, handed to the device, and its
    completion polled for. *)
From S2P Require Import Prelude Target FwCfg RawMemory.

Module Virtio.
Import Target FwCfg RawMemory.

Section driver.
Context {W : Type} `{PortIo W, MmioRegs W}.

(** ** Configuration space *)

Definition config_address (bus device function offset : Z) : Z :=
  Z.lor (Z.lor (Z.lor (Z.lor 0x80000000
    (Z.shiftl bus 16)) (Z.shiftl device 11)) (Z.shiftl function 8)) (Z.land offset 0xfc).

Definition pci_read32 (bus device function offset : Z) : op W PostFirmwareError Z :=
  pio_write32 0xcf8 (config_address bus device function offset);;
  pio_read32 0xcfc.

Definition pci_write32 (bus device function offset value : Z) : op W PostFirmwareError unit :=
  pio_write32 0xcf8 (config_address bus device function offset);;
  pio_write32 0xcfc value.

(** [for x in l] around a body that may return from the function. *)
Fixpoint for_find {X A} (l : list X) (body : X → op W PostFirmwareError (option A))
    : op W PostFirmwareError (option A) :=
  match l with
  | [] => mret None
  | x :: l =>
    r ← body x;
    match r with Some a => mret (Some a) | None => for_find l body end
  end.

Definition probe_slot (bus device : Z) : op W PostFirmwareError (option (Z * Z * Z * Z)) :=
  identity ← pci_read32 bus device 0 0;
  if negb (Z.land identity 0xffff =? 0x1af4) then mret None
  else
    let device_id := Z.shiftr identity 16 in
    if negb (device_id =? 0x1001) && negb (device_id =? 0x1042) then mret None
    else
      bar0 ← pci_read32 bus device 0 0x10;
      lift (bail_if ((Z.land bar0 1 =? 0) || negb (Z.land bar0 0xffff0000 =? 0)) Dma);;
      let base := Z.land bar0 0xfffc in
      command ← pci_read32 bus device 0 0x04;
      pci_write32 bus device 0 0x04 (Z.lor command 0x00000005);;
      mret (Some (bus, device, 0, base)).

Definition find_legacy_virtio_block : op W PostFirmwareError (Z * Z * Z * Z) :=
  r ← for_find (seqZ 0 256) (λ bus, for_find (seqZ 0 32) (probe_slot bus));
  match r with Some found => mret found | None => lift (Err Dma) end.

(** ** The transaction *)

(** [ptr::write_volatile] of an integer, [ptr::write_bytes] and a descriptor. *)
Definition store (width address value : Z) : op W PostFirmwareError unit :=
  modify (reg_write width address value).

Definition write_bytes (address value len : Z) : op W PostFirmwareError unit :=
  for_each (seqZ 0 len) (λ i, store 1 (address + i) value).

Record VirtqDescriptor : Type := MkDescriptor {
  d_address : Z; d_length : Z; d_flags : Z; d_next : Z;
}.

Definition write_descriptor (at_ : Z) (d : VirtqDescriptor) : op W PostFirmwareError unit :=
  store 8 at_ (d_address d);;
  store 4 (at_ + 8) (d_length d);;
  store 2 (at_ + 12) (d_flags d);;
  store 2 (at_ + 14) (d_next d).

Definition DESCRIPTOR_BYTES : Z := 16.
Definition QUEUE_BYTES : Z := 16 * 1024.

(** [VirtioRequest]: the offsets of its fields and its size. *)
Definition REQUEST_DATA : Z := 16.
Definition REQUEST_STATUS : Z := 528.
Definition REQUEST_BYTES : Z := 544.

Context (queue request : Z).

(** [(available_offset + 6 + queue_size * 2 + 4095) & !4095] *)
Definition used_offset_of (queue_size : Z) : Z :=
  let available_offset := queue_size * DESCRIPTOR_BYTES in
  Z.land (available_offset + 6 + queue_size * 2 + 4095) (Z.lnot 4095).

(** Reset, acknowledge, and no features; the result is the size of queue zero. *)
Definition virtio_negotiate
    (host_features guest_features queue_size_port queue_select device_status : Z)
    : op W PostFirmwareError Z :=
  pio_write8 device_status 0;;
  pio_write8 device_status 1;;
  pio_write8 device_status 3;;
  _ ← pio_read32 host_features;
  pio_write32 guest_features 0;;
  pio_write16 queue_select 0;;
  pio_read16 queue_size_port.

(** The request, the three descriptors and the empty available ring. *)
Definition virtio_lay_out (available_offset : Z) : op W PostFirmwareError unit :=
  write_bytes queue 0 QUEUE_BYTES;;
  write_bytes request 0 REQUEST_BYTES;;
  store 1 (request + REQUEST_STATUS) 0xff;;
  write_descriptor queue (MkDescriptor request 16 1 1);;
  write_descriptor (queue + DESCRIPTOR_BYTES)
    (MkDescriptor (request + REQUEST_DATA) 512 (Z.lor 1 2) 2);;
  write_descriptor (queue + 2 * DESCRIPTOR_BYTES)
    (MkDescriptor (request + REQUEST_STATUS) 1 2 0);;
  let available := queue + available_offset in
  store 2 available 0;;
  store 2 (available + 4) 0;;
  store 2 (available + 8) 0.

(** Up to the notification of the device; the result is [used_offset]. *)
Definition virtio_submit (io : Z) : op W PostFirmwareError Z :=
  host_features ← lift (ok_or Dma (checked_add 16 io 0));
  guest_features ← lift (ok_or Dma (checked_add 16 io 4));
  queue_pfn ← lift (ok_or Dma (checked_add 16 io 8));
  queue_size_port ← lift (ok_or Dma (checked_add 16 io 12));
  queue_select ← lift (ok_or Dma (checked_add 16 io 14));
  queue_notify ← lift (ok_or Dma (checked_add 16 io 16));
  device_status ← lift (ok_or Dma (checked_add 16 io 18));
  queue_size ←
    virtio_negotiate host_features guest_features queue_size_port queue_select device_status;
  lift (bail_if (negb ((3 <=? queue_size) && (queue_size <=? 256))) Dma);;
  lift (bail_if ((umax 32 <? queue) || (umax 32 <? request)) Dma);;
  let available_offset := queue_size * DESCRIPTOR_BYTES in
  let used_offset := used_offset_of queue_size in
  lift (bail_if (16 * 1024 <? used_offset + 6 + queue_size * 8) Dma);;
  virtio_lay_out available_offset;;
  pio_write32 queue_pfn (Z.shiftr (wrap 32 queue) 12);;
  pio_write8 device_status 7;;
  status ← pio_read8 device_status;
  lift (bail_if (negb (Z.land status 7 =? 7)) Dma);;
  store 2 (queue + available_offset + 2) 1;;
  pio_write16 queue_notify 0;;
  mret used_offset.

Definition load (width address : Z) : op W PostFirmwareError Z := access (reg_read width address).

(** [complete && a == x && b == y && ..] reads no further than the first failure. *)
Fixpoint all_read (checks : list (Z * Z)) : op W PostFirmwareError bool :=
  match checks with
  | [] => mret true
  | (address, wanted) :: checks =>
    v ← load 1 address;
    if v =? wanted then all_read checks else mret false
  end.

Definition virtio_complete (used_offset : Z) : op W PostFirmwareError (Z * Z) :=
  let used_index := queue + (used_offset + 2) in
  r ← for_pos POLL_LIMIT
        (v ← load 2 used_index; mret (if v =? 1 then Some () else None));
  valid ← match r with
          | Some _ => all_read [(request + REQUEST_STATUS, 0);
                                (request + REQUEST_DATA + 510, 0x55);
                                (request + REQUEST_DATA + 511, 0xaa)]
          | None => mret false
          end;
  lift (bail_if (negb valid) Dma);;
  mret (512, 1).

Definition virtio_block_dma_probe : op W PostFirmwareError (Z * Z) :=
  '(_, _, _, io) ← find_legacy_virtio_block;
  used_offset ← virtio_submit io;
  virtio_complete used_offset.
End driver.

(** ** The bus

    A configuration access addresses the dword latched in the address port; a
    write of the command register keeps the two enable bits it is given. *)
Class PciBus (W : Type) `{PortIo W} := {
  config : W → Z → Z;
  latched : W → Z;
  pci_latch w a : latched (port_out 4 0xcf8 a w) = a ∧ config (port_out 4 0xcf8 a w) = config w;
  pci_in w : (port_in 4 0xcfc w).1 = config w (latched w) ∧
    latched (port_in 4 0xcfc w).2 = latched w ∧ config (port_in 4 0xcfc w).2 = config w;
  pci_out w v a : a ≠ latched w → config (port_out 4 0xcfc v w) a = config w a;
  pci_command w v : Z.land (latched w) 0xfc = 4 →
    Z.land (config (port_out 4 0xcfc v w) (latched w)) 5 = Z.land v 5;
}.

(** ** The device

    The registers of a legacy virtio device, as the driver has written them. *)
Record Regs : Type := MkRegs { r_features : Z; r_pfn : Z; r_select : Z; r_status : Z }.

(** Where a device finds the two rings of a queue of [n] entries. *)
Definition vring_avail (n : Z) : Z := 16 * n.
Definition vring_used (n : Z) : Z := (16 * n + 2 * (3 + n) + 4095) / 4096 * 4096.

Class VirtioDevice (W : Type) `{PortIo W, MmioRegs W} := {
  vd_io : Z;
  vd_ram : W → gmap Z Z;
  vd_regs : W → Regs;
  vd_size : Z → Z;
  (** polls left until the request is answered, and memory once it is *)
  vd_delay : W → option nat;
  vd_final : W → gmap Z Z;
  vd_store w n a v : vd_ram (reg_write n a v w) = write_le a (Z.to_nat n) v (vd_ram w) ∧
    vd_regs (reg_write n a v w) = vd_regs w;
  vd_status w v : vd_ram (port_out 1 (vd_io + 18) v w) = vd_ram w ∧
    vd_regs (port_out 1 (vd_io + 18) v w) =
    if v =? 0 then MkRegs 0 0 0 0
    else MkRegs (r_features (vd_regs w)) (r_pfn (vd_regs w)) (r_select (vd_regs w)) v;
  vd_guest w v : vd_ram (port_out 4 (vd_io + 4) v w) = vd_ram w ∧
    vd_regs (port_out 4 (vd_io + 4) v w) =
    MkRegs v (r_pfn (vd_regs w)) (r_select (vd_regs w)) (r_status (vd_regs w));
  vd_pfn w v : vd_ram (port_out 4 (vd_io + 8) v w) = vd_ram w ∧
    vd_regs (port_out 4 (vd_io + 8) v w) =
    MkRegs (r_features (vd_regs w)) v (r_select (vd_regs w)) (r_status (vd_regs w));
  vd_select w v : vd_ram (port_out 2 (vd_io + 14) v w) = vd_ram w ∧
    vd_regs (port_out 2 (vd_io + 14) v w) =
    MkRegs (r_features (vd_regs w)) (r_pfn (vd_regs w)) v (r_status (vd_regs w));
  vd_host w : vd_ram (port_in 4 (vd_io + 0) w).2 = vd_ram w ∧
    vd_regs (port_in 4 (vd_io + 0) w).2 = vd_regs w;
  vd_queue_size w : (port_in 2 (vd_io + 12) w).1 = vd_size (r_select (vd_regs w)) ∧
    vd_ram (port_in 2 (vd_io + 12) w).2 = vd_ram w ∧
    vd_regs (port_in 2 (vd_io + 12) w).2 = vd_regs w;
  vd_status_in w : Z.land (port_in 1 (vd_io + 18) w).1 7 = Z.land (r_status (vd_regs w)) 7 ∧
    vd_ram (port_in 1 (vd_io + 18) w).2 = vd_ram w ∧
    vd_regs (port_in 1 (vd_io + 18) w).2 = vd_regs w;
  (** a notification moves no memory the driver can see before the answer *)
  vd_notify w v : vd_ram (port_out 2 (vd_io + 16) v w) = vd_ram w ∧
    vd_regs (port_out 2 (vd_io + 16) v w) = vd_regs w;
  (** until the answer the used index keeps its value *)
  vd_pending w a : vd_delay w ≠ Some O →
    a = 4096 * r_pfn (vd_regs w) + vring_used (vd_size (r_select (vd_regs w))) + 2 →
    (reg_read 2 a w).1 = read_le (vd_ram w) a 2 ∧
    vd_delay (reg_read 2 a w).2 = pred <$> vd_delay w ∧
    vd_final (reg_read 2 a w).2 = vd_final w ∧
    vd_ram (reg_read 2 a w).2 = vd_ram w ∧ vd_regs (reg_read 2 a w).2 = vd_regs w;
  (** after it memory is the driver's again *)
  vd_answered w n a : vd_delay w = Some O →
    (reg_read n a w).1 = read_le (vd_final w) a (Z.to_nat n) ∧
    vd_delay (reg_read n a w).2 = Some O ∧ vd_final (reg_read n a w).2 = vd_final w;
}.

(** ** The scan *)

Section scan.
Context {W : Type} `{PciBus W}.
Implicit Types (c : Z → Z) (w : W).

Definition register (bus device offset : Z) : Z := config_address bus device 0 offset.

Definition is_virtio_block (c : Z → Z) (bus device : Z) : bool :=
  let identity := c (register bus device 0) in
  (Z.land identity 0xffff =? 0x1af4)
  && ((Z.shiftr identity 16 =? 0x1001) || (Z.shiftr identity 16 =? 0x1042)).

(** The first such device, in the order of the scan. *)
Definition first_slot (c : Z → Z) : option (Z * Z) :=
  find_map (λ bus, find_map (λ device,
    if is_virtio_block c bus device then Some (bus, device) else None) (seqZ 0 32)) (seqZ 0 256).

(** An I/O BAR with a 16-bit port. *)
Definition port_bar (bar0 : Z) : bool :=
  negb (Z.land bar0 1 =? 0) && (Z.land bar0 0xffff0000 =? 0).

(** Outcome of a scan that stops at a slot: decoding and bus mastering are on, or
    nothing was touched. *)
Definition stopped c (bus device : Z) (out : res PostFirmwareError (option (Z * Z * Z * Z)) * W) : Prop :=
  let bar0 := c (register bus device 0x10) in
  if port_bar bar0 then
    ∃ w', out = (Ok (Some (bus, device, 0, Z.land bar0 0xfffc)), w') ∧
      Z.land (config w' (register bus device 4)) 5 = 5 ∧
      ∀ a, a ≠ register bus device 4 → config w' a = c a
  else ∃ w', out = (Err Dma, w') ∧ config w' = c.

Definition Scans c (m : op W PostFirmwareError (option (Z * Z * Z * Z))) (r : option (Z * Z)) : Prop :=
  ∀ w, config w = c →
  match r with
  | None => ∃ w', m w = (Ok None, w') ∧ config w' = c
  | Some (bus, device) => stopped c bus device (m w)
  end.

Lemma pci_read32_run bus device function offset w :
  ∃ w', pci_read32 bus device function offset w =
        (Ok (config w (config_address bus device function offset)), w') ∧
    config w' = config w.
Proof.
  unfold pci_read32. erewrite op_bind_run by reflexivity. cbv beta.
  destruct (pci_latch w (config_address bus device function offset)) as [Hl Hc].
  destruct (pci_in (port_out 4 0xcf8 (config_address bus device function offset) w))
    as (Hv & _ & Hc'). rewrite Hl, Hc in Hv. rewrite Hc in Hc'.
  unfold pio_read32, access. destruct (port_in 4 0xcfc _) as [v w'] eqn:E. cbn in *.
  exists w'. by rewrite Hv.
Qed.

Lemma register_offset bus device : Z.land (register bus device 4) 0xfc = 4.
Proof.
  unfold register, config_address. rewrite !Z.land_lor_distr_l.
  assert (∀ x k, 8 ≤ k → Z.land (Z.shiftl x k) 0xfc = 0) as Hz.
  { intros x k Hk. apply Z.bits_inj'. intros i Hi. rewrite Z.land_spec, Z.testbit_0_l.
    destruct (decide (i < 8)).
    - by rewrite Z.shiftl_spec_low by lia.
    - replace (Z.testbit 0xfc i) with false; [apply andb_false_r|]. symmetry.
      apply Z.bits_above_log2; [lia|]. change (Z.log2 0xfc) with 7. lia. }
  rewrite !Hz by lia. done.
Qed.

Lemma scans_slot c bus device :
  Scans c (probe_slot bus device)
    (if is_virtio_block c bus device then Some (bus, device) else None).
Proof.
  intros w Hc. unfold probe_slot, is_virtio_block.
  destruct (pci_read32_run bus device 0 0 w) as (w1 & Hr1 & Hc1).
  erewrite op_bind_run by exact Hr1. cbv beta zeta. rewrite Hc in *. clear Hr1.
  fold (register bus device 0). set (identity := c (register bus device 0)).
  destruct (Z.land identity 0xffff =? 0x1af4); cbn [negb andb]; [|by exists w1].
  rewrite <- negb_orb.
  destruct ((Z.shiftr identity 16 =? 0x1001) || (Z.shiftr identity 16 =? 0x1042));
    cbn [negb]; [|by exists w1].
  destruct (pci_read32_run bus device 0 0x10 w1) as (w2 & Hr2 & Hc2).
  erewrite op_bind_run by exact Hr2. cbv beta. rewrite Hc1 in *. clear Hr2.
  fold (register bus device 0x10). unfold stopped, port_bar. cbv zeta.
  set (bar0 := c (register bus device 0x10)).
  destruct (Z.land bar0 1 =? 0), (Z.land bar0 0xffff0000 =? 0); cbn [negb andb orb];
    try (by exists w2).
  erewrite op_bind_run by reflexivity. cbv beta.
  destruct (pci_read32_run bus device 0 4 w2) as (w3 & Hr3 & Hc3).
  erewrite op_bind_run by exact Hr3. cbv beta. rewrite Hc2 in *. clear Hr3.
  fold (register bus device 4). unfold pci_write32.
  set (v := Z.lor (c (register bus device 4)) 5).
  destruct (pci_latch w3 (register bus device 4)) as [Hl Hc4].
  set (w4 := port_out 4 0xcf8 (register bus device 4) w3) in *.
  eexists. split; [reflexivity|]. fold (register bus device 4). fold w4. split.
  - rewrite <- Hl at 1. rewrite pci_command by (rewrite Hl; apply register_offset).
    unfold v. rewrite Z.land_lor_distr_l. change (Z.land 5 5) with 5.
    apply Z.bits_inj'. intros i Hi. rewrite Z.lor_spec, Z.land_spec.
    destruct (Z.testbit (c (register bus device 4)) i), (Z.testbit 5 i); reflexivity.
  - intros a Ha. rewrite pci_out by (by rewrite Hl). by rewrite Hc4, Hc3.
Qed.

Lemma scans_for {X} c (l : list X) body (r : X → option (Z * Z)) :
  (∀ x, Scans c (body x) (r x)) → Scans c (for_find l body) (find_map r l).
Proof.
  intros Hb. induction l as [|x l IH]; intros w Hc; cbn; [by exists w|].
  specialize (Hb x w Hc). destruct (r x) as [[bus device]|].
  - unfold stopped in *. cbv zeta in *. destruct (port_bar _).
    + destruct Hb as (w' & Hb & Hen). exists w'. split; [|done].
      by erewrite op_bind_run by exact Hb.
    + destruct Hb as (w' & Hb & Hen). exists w'. split; [|done].
      unfold mbind, op_bind. by rewrite Hb.
  - destruct Hb as (w' & Hb & Hc'). erewrite op_bind_run by exact Hb. by apply IH.
Qed.

(** The scan finds exactly the first legacy virtio block device in bus order: if
    there is none, or if its BAR is not a 16-bit I/O port, the result is [Dma] and the
    configuration space is as before; otherwise the result is the slot and its port, and
    the only register changed is the command register, with port decoding and bus
    mastering switched on. *)
Theorem pci_scan_exact (w : W) :
  ∃ w', match first_slot (config w) with
  | None => find_legacy_virtio_block w = (Err Dma, w') ∧ config w' = config w
  | Some (bus, device) =>
    let bar0 := config w (register bus device 0x10) in
    if port_bar bar0 then
      find_legacy_virtio_block w = (Ok (bus, device, 0, Z.land bar0 0xfffc), w') ∧
      Z.land (config w' (register bus device 4)) 5 = 5 ∧
      ∀ a, a ≠ register bus device 4 → config w' a = config w a
    else find_legacy_virtio_block w = (Err Dma, w') ∧ config w' = config w
  end.
Proof.
  pose proof (scans_for (config w) (seqZ 0 256) _ _ (λ bus,
    scans_for (config w) (seqZ 0 32) _ _ (scans_slot (config w) bus)) w eq_refl) as H1.
  fold (first_slot (config w)) in H1. unfold find_legacy_virtio_block.
  destruct (first_slot (config w)) as [[bus device]|].
  - unfold stopped in H1. cbv zeta in *. destruct (port_bar _); destruct H1 as (w' & Hr & Hc);
      exists w'; (split; [|done]); [by erewrite op_bind_run by exact Hr|].
    unfold mbind, op_bind. by rewrite Hr.
  - destruct H1 as (w' & Hr & Hc). exists w'. split; [|done]. by erewrite op_bind_run by exact Hr.
Qed.
End scan.

(** ** What the device is asked

    A buffer of a descriptor chain, and the chain from descriptor [i] as a device
    follows it; a chain has at most as many descriptors as the queue. *)
Record buffer : Type := MkBuffer { b_address : Z; b_length : Z; b_writable : bool }.

Fixpoint chain (fuel : nat) (m : gmap Z Z) (table n i : Z) : option (list buffer) :=
  match fuel with
  | O => None
  | S fuel =>
    if n <=? i then None
    else
      let d := table + 16 * i in
      let flags := read_le m (d + 12) 2 in
      let b := MkBuffer (read_le m d 8) (read_le m (d + 8) 4) (Z.testbit flags 1) in
      if Z.testbit flags 0 then cons b <$> chain fuel m table n (read_le m (d + 14) 2)
      else Some [b]
  end.

Record read_request : Type := MkRead {
  q_sector : Z; q_buffer : Z; q_bytes : Z; q_status : Z;
}.

(** The read request a ready device finds in its queue of [n] entries when one request
    has been made available. *)
Definition decode_request (n : Z) (r : Regs) (m : gmap Z Z) : option read_request :=
  let table := 4096 * r_pfn r in
  let avail := table + vring_avail n in
  if negb (Z.testbit (r_status r) 2) || negb (read_le m (avail + 2) 2 =? 1) then None
  else
    match chain (Z.to_nat n) m table n (read_le m (avail + 4) 2) with
    | Some [header; data; status] =>
      if (b_length header =? 16) && negb (b_writable header)
         && b_writable data && (b_length status =? 1) && b_writable status
         && (read_le m (b_address header) 4 =? 0)
      then Some (MkRead (read_le m (b_address header + 8) 8)
                   (b_address data) (b_length data) (b_address status))
      else None
    | _ => None
    end.

(** ** The layout of the queue *)

(** The driver computes the offset the device uses. *)
Lemma used_offset_spec n : used_offset_of n = vring_used n.
Proof.
  unfold used_offset_of, vring_used, DESCRIPTOR_BYTES. cbv zeta.
  change (Z.land ?x (Z.lnot 4095)) with (Z.ldiff x 4095). change 4095 with (Z.ones 12) at 2.
  rewrite Z.ldiff_ones_r, Z.shiftl_mul_pow2, Z.shiftr_div_pow2 by lia.
  change (2 ^ 12) with 4096. do 2 f_equal. lia.
Qed.

(** The rings follow one another inside the bytes reserved for them. *)
Lemma ring_layout n :
  3 ≤ n ≤ 256 →
  3 * DESCRIPTOR_BYTES ≤ vring_avail n ∧ vring_avail n + 6 + 2 * n ≤ vring_used n ∧
  vring_used n + 6 + 8 * n ≤ QUEUE_BYTES.
Proof.
  intros Hn. unfold vring_used, vring_avail, QUEUE_BYTES, DESCRIPTOR_BYTES.
  Z.to_euclidean_division_equations. lia.
Qed.

(** ** Running the driver *)

Section transaction.
Context {W : Type} `{VirtioDevice W}.
Context (queue request : Z).
Implicit Types (m : gmap Z Z) (r : Regs) (w : W).

(** The command changes memory by [f] and the registers by [g]. *)
Definition Acts {A} (c : op W PostFirmwareError A) (a : A) (f : gmap Z Z → gmap Z Z)
    (g : Regs → Regs) : Prop :=
  ∀ w, ∃ w', c w = (Ok a, w') ∧ vd_ram w' = f (vd_ram w) ∧ vd_regs w' = g (vd_regs w).

Lemma acts_ret {A} (a : A) : Acts (mret a) a id id.
Proof. intros w. by exists w. Qed.

Lemma acts_bind {A B} (c : op W PostFirmwareError A) (k : A → op W PostFirmwareError B) a b f1 g1 f2 g2 :
  Acts c a f1 g1 → Acts (k a) b f2 g2 → Acts (c ≫= k) b (λ m, f2 (f1 m)) (λ r, g2 (g1 r)).
Proof.
  intros Hc Hk w. destruct (Hc w) as (w1 & E1 & R1 & G1). destruct (Hk w1) as (w2 & E2 & R2 & G2).
  exists w2. by rewrite (op_bind_run _ _ _ _ _ E1), E2, R2, G2, R1, G1.
Qed.

Lemma acts_eq {A} (c : op W PostFirmwareError A) a f g f' g' :
  Acts c a f g → (∀ m, f m = f' m) → (∀ r, g r = g' r) → Acts c a f' g'.
Proof.
  intros Hc Hf Hg w. destruct (Hc w) as (w' & ? & ? & ?). exists w'. by rewrite <- Hf, <- Hg.
Qed.

Lemma acts_store n a v : Acts (store n a v) () (write_le a (Z.to_nat n) v) id.
Proof. intros w. destruct (vd_store w n a v) as [HR HG]. by eexists. Qed.

Lemma acts_status v :
  Acts (pio_write8 (vd_io + 18) v) () id
    (λ r, if v =? 0 then MkRegs 0 0 0 0 else MkRegs (r_features r) (r_pfn r) (r_select r) v).
Proof. intros w. destruct (vd_status w v) as [HR HG]. by eexists. Qed.

Lemma acts_guest v :
  Acts (pio_write32 (vd_io + 4) v) () id (λ r, MkRegs v (r_pfn r) (r_select r) (r_status r)).
Proof. intros w. destruct (vd_guest w v) as [HR HG]. by eexists. Qed.

Lemma acts_pfn v :
  Acts (pio_write32 (vd_io + 8) v) () id (λ r, MkRegs (r_features r) v (r_select r) (r_status r)).
Proof. intros w. destruct (vd_pfn w v) as [HR HG]. by eexists. Qed.

Lemma acts_select v :
  Acts (pio_write16 (vd_io + 14) v) () id (λ r, MkRegs (r_features r) (r_pfn r) v (r_status r)).
Proof. intros w. destruct (vd_select w v) as [HR HG]. by eexists. Qed.

(** Zero bytes. *)
Fixpoint zeroed (a : Z) (n : nat) (m : gmap Z Z) : gmap Z Z :=
  match n with O => m | S n => zeroed (a + 1) n (write_le a 1 0 m) end.

Lemma zeroed_at a n m b :
  byte_at (zeroed a n m) b = if decide (a ≤ b < a + n) then 0 else byte_at m b.
Proof.
  revert a m. induction n as [|n IH]; intros a m; cbn [zeroed].
  { by rewrite decide_False by lia. }
  rewrite IH. cbn. rewrite byte_at_insert. repeat case_decide; zcase; lia || done.
Qed.

Lemma acts_zero a n : Acts (write_bytes a 0 n) () (zeroed a (Z.to_nat n)) id.
Proof.
  unfold write_bytes, seqZ. set (k := Z.to_nat n). clearbody k. clear n.
  assert (∀ o, Acts (for_each ((λ i : nat, i + 0) <$> seq o k) (λ i, store 1 (a + i) 0)) ()
    (zeroed (a + o) k) id) as Hk.
  { induction k as [|k IH]; intros o; [apply acts_ret|]. cbn [seq fmap list_fmap for_each zeroed].
    rewrite Z.add_0_r. specialize (IH (S o)). replace (a + S o) with (a + o + 1) in IH by lia.
    exact (acts_bind (store 1 (a + o) 0) (λ _, for_each _ _) _ _ _ _ _ _ (acts_store 1 _ 0) IH). }
  specialize (Hk O). rewrite Z.add_0_r in Hk. exact Hk.
Qed.

Lemma acts_descriptor a d :
  Acts (write_descriptor a d) ()
    (λ m, write_le (a + 14) 2 (d_next d) (write_le (a + 12) 2 (d_flags d)
       (write_le (a + 8) 4 (d_length d) (write_le a 8 (d_address d) m)))) id.
Proof.
  eapply acts_eq; [do 3 (eapply acts_bind; [apply acts_store|]); apply acts_store|done|done].
Qed.

(** Memory once the request is laid out, with its available ring at offset [o]. *)
Definition laid_out (o : Z) (m : gmap Z Z) : gmap Z Z :=
  let put at_ d m :=
    write_le (at_ + 14) 2 (d_next d) (write_le (at_ + 12) 2 (d_flags d)
      (write_le (at_ + 8) 4 (d_length d) (write_le at_ 8 (d_address d) m))) in
  write_le (queue + o + 8) 2 0 (write_le (queue + o + 4) 2 0 (write_le (queue + o) 2 0
    (put (queue + 32) (MkDescriptor (request + 528) 1 2 0)
    (put (queue + 16) (MkDescriptor (request + 16) 512 3 2)
    (put queue (MkDescriptor request 16 1 1)
    (write_le (request + 528) 1 255
    (zeroed request (Z.to_nat REQUEST_BYTES) (zeroed queue (Z.to_nat QUEUE_BYTES) m)))))))).

Lemma acts_lay_out o : Acts (virtio_lay_out queue request o) () (laid_out o) id.
Proof.
  unfold virtio_lay_out. eapply acts_eq.
  - do 2 (eapply acts_bind; [apply acts_zero|]).
    eapply acts_bind; [apply acts_store|].
    do 3 (eapply acts_bind; [apply acts_descriptor|]).
    do 2 (eapply acts_bind; [apply acts_store|]).
    apply acts_store.
  - intros m. unfold laid_out. reflexivity.
  - intros r. reflexivity.
Qed.

Lemma read_zeroed a (n : nat) m b (k : nat) : a ≤ b → b + k ≤ a + n → read_le (zeroed a n m) b k = 0.
Proof.
  revert b. induction k as [|k IH]; intros b Hb Hk; [done|]. cbn.
  rewrite zeroed_at, decide_True by lia. rewrite IH by lia. done.
Qed.

Lemma read_zeroed_other a (n : nat) m b (k : nat) :
  b + k ≤ a ∨ a + n ≤ b → read_le (zeroed a n m) b k = read_le m b k.
Proof. intros Hd. apply read_le_ext. intros c Hc. by rewrite zeroed_at, decide_False by lia. Qed.

(** Where the statics are: the queue on a page of its own, nothing above 4 GiB. *)
Definition placed : Prop :=
  0 ≤ queue ∧ queue mod 4096 = 0 ∧ 0 ≤ request ∧
  queue + QUEUE_BYTES ≤ 2 ^ 32 ∧ request + REQUEST_BYTES ≤ 2 ^ 32 ∧
  (queue + QUEUE_BYTES ≤ request ∨ request + REQUEST_BYTES ≤ queue).

(** Memory at the notification. *)
Definition published (n : Z) (m : gmap Z Z) : gmap Z Z :=
  write_le (queue + n * DESCRIPTOR_BYTES + 2) 2 1 (laid_out (n * DESCRIPTOR_BYTES) m).

Ltac peel :=
  unfold published, laid_out; cbv zeta; cbn [d_address d_length d_flags d_next];
  repeat (rewrite read_write_other by lia);
  first [ rewrite read_write_le; apply Z.mod_small; cbn; lia
        | repeat (first [rewrite read_zeroed by lia | rewrite read_zeroed_other by lia]); done ].

Lemma published_reads n m :
  placed → 3 ≤ n ≤ 256 →
  let m' := published n m in
  (read_le m' (queue + vring_avail n + 2) 2 = 1 ∧ read_le m' (queue + vring_avail n + 4) 2 = 0) ∧
  (read_le m' queue 8 = request ∧ read_le m' (queue + 8) 4 = 16 ∧
   read_le m' (queue + 12) 2 = 1 ∧ read_le m' (queue + 14) 2 = 1) ∧
  (read_le m' (queue + 16) 8 = request + 16 ∧ read_le m' (queue + 16 + 8) 4 = 512 ∧
   read_le m' (queue + 16 + 12) 2 = 3 ∧ read_le m' (queue + 16 + 14) 2 = 2) ∧
  (read_le m' (queue + 32) 8 = request + 528 ∧ read_le m' (queue + 32 + 8) 4 = 1 ∧
   read_le m' (queue + 32 + 12) 2 = 2) ∧
  (read_le m' request 4 = 0 ∧ read_le m' (request + 8) 8 = 0) ∧
  read_le m' (queue + vring_used n + 2) 2 = 0.
Proof.
  intros (P1 & _ & P2 & P3 & P4 & Hd) Hn. destruct (ring_layout n Hn) as (L1 & L2 & L3).
  unfold QUEUE_BYTES, REQUEST_BYTES, DESCRIPTOR_BYTES, vring_avail in *.
  cbv zeta. unfold published, DESCRIPTOR_BYTES. replace (n * 16) with (16 * n) by lia.
  set (o := 16 * n) in *. set (u := vring_used n) in *.
  assert (Z.of_nat (Z.to_nat QUEUE_BYTES) = 16384) by done.
  assert (Z.of_nat (Z.to_nat REQUEST_BYTES) = 544) by done.
  split_and!; peel.
Qed.

(** The device reads the request the driver meant. *)
Lemma published_decodes n m :
  placed → 3 ≤ n ≤ 256 →
  decode_request n (MkRegs 0 (queue / 4096) 0 7) (published n m) =
  Some (MkRead 0 (request + 16) 512 (request + 528)).
Proof.
  intros Hp Hn. destruct (published_reads n m Hp Hn) as
    ((A1 & A2) & (D1 & D2 & D3 & D4) & (E1 & E2 & E3 & E4) & (F1 & F2 & F3) & (R1 & R2) & _).
  destruct Hp as (_ & Hq & _).
  assert (4096 * (queue / 4096) = queue) as Ht by (pose proof (Z.div_mod queue 4096); lia).
  unfold decode_request. cbv zeta. cbn [r_pfn r_status]. rewrite Ht, A1, A2.
  change (Z.testbit 7 2) with true. cbn [negb orb].
  replace (Z.to_nat n) with (S (S (S (Z.to_nat (n - 3))))) by lia. cbn [chain]. cbv zeta.
  rewrite (proj2 (Z.leb_gt n 0)), Z.mul_0_r, Z.add_0_r by lia.
  rewrite D1, D2, D3, D4. change (Z.testbit 1 0) with true. change (Z.testbit 1 1) with false.
  rewrite (proj2 (Z.leb_gt n 1)), Z.mul_1_r by lia.
  rewrite E1, E2, E3, E4. change (Z.testbit 3 0) with true. change (Z.testbit 3 1) with true.
  rewrite (proj2 (Z.leb_gt n 2)) by lia. change (16 * 2) with 32. rewrite F1, F2, F3.
  change (Z.testbit 2 0) with false. change (Z.testbit 2 1) with true.
  cbn [fmap option_fmap option_map b_length b_writable b_address negb andb].
  by rewrite R1, R2.
Qed.

Lemma published_outside n m a :
  3 ≤ n ≤ 256 → (a < queue ∨ queue + QUEUE_BYTES ≤ a) → (a < request ∨ request + REQUEST_BYTES ≤ a) →
  byte_at (published n m) a = byte_at m a.
Proof.
  intros Hn Hq Hr. destruct (ring_layout n Hn) as (L1 & L2 & L3).
  unfold published, laid_out. cbv zeta.
  assert (Z.of_nat (Z.to_nat QUEUE_BYTES) = 16384) as Q by done.
  assert (Z.of_nat (Z.to_nat REQUEST_BYTES) = 544) as R by done.
  unfold vring_avail, QUEUE_BYTES, REQUEST_BYTES, DESCRIPTOR_BYTES in *.
  rewrite !write_le_outside by lia. by rewrite !zeroed_at, !decide_False by lia.
Qed.

Lemma access_run {A E} (f : W → A * W) w : access (E := E) f w = (Ok (f w).1, (f w).2).
Proof. unfold access. by destruct (f w). Qed.

(** One command of known effect, run in [w]. *)
Ltac act L w w' :=
  let X := fresh "X" in let R := fresh "R" in let G := fresh "G" in
  destruct (L w) as (w' & X & R & G); erewrite op_bind_run by exact X; clear X; cbv beta.

Lemma negotiate_run w :
  ∃ w', virtio_negotiate (vd_io + 0) (vd_io + 4) (vd_io + 12) (vd_io + 14) (vd_io + 18) w =
        (Ok (vd_size 0), w') ∧
    vd_ram w' = vd_ram w ∧ vd_regs w' = MkRegs 0 0 0 3.
Proof.
  unfold virtio_negotiate.
  act (acts_status 0) w w1. act (acts_status 1) w1 w2. act (acts_status 3) w2 w3.
  destruct (vd_host w3) as [R4 G4]. erewrite op_bind_run by apply access_run. cbv beta.
  set (w4 := (port_in 4 (vd_io + 0) w3).2) in *.
  act (acts_guest 0) w4 w5. act (acts_select 0) w5 w6.
  destruct (vd_queue_size w6) as (Hv & R7 & G7). unfold pio_read16. rewrite access_run.
  eexists. split; [|split]; [rewrite Hv, G3; reflexivity|unfold id in *; congruence|].
  by rewrite G7, G3, G2, G4, G1, G0, G.
Qed.

Lemma submit_run w :
  placed → 0 ≤ vd_io → vd_io + 18 < 2 ^ 16 →
  if decide (3 ≤ vd_size 0 ≤ 256) then
    ∃ w0, virtio_submit queue request vd_io w =
          (Ok (vring_used (vd_size 0)), port_out 2 (vd_io + 16) 0 w0) ∧
      vd_regs w0 = MkRegs 0 (queue / 4096) 0 7 ∧ vd_ram w0 = published (vd_size 0) (vd_ram w)
  else ∃ w', virtio_submit queue request vd_io w = (Err Dma, w') ∧ vd_ram w' = vd_ram w.
Proof.
  intros Hp Hio H18. unfold virtio_submit.
  assert (∀ k, 0 ≤ k ≤ 18 → checked_add 16 vd_io k = Some (vd_io + k)) as Hports.
  { intros k Hk. unfold checked_add. rewrite (proj2 (Z.ltb_lt _ _)) by lia. done. }
  rewrite !Hports by lia. cbn [ok_or].
  do 7 (erewrite op_bind_run by reflexivity; cbv beta).
  destruct (negotiate_run w) as (w1 & E1 & R1 & G1). erewrite op_bind_run by exact E1. cbv beta. clear E1.
  case_decide as Hn.
  2:{ exists w1. split; [|done]. unfold mbind, op_bind, lift, bail_if.
      replace ((3 <=? vd_size 0) && (vd_size 0 <=? 256)) with false; [done|].
      symmetry. apply andb_false_iff. rewrite !Z.leb_gt. lia. }
  destruct (ring_layout _ Hn) as (L1 & L2 & L3).
  destruct Hp as (P1 & P2 & P3 & P4 & P5 & P6).
  unfold QUEUE_BYTES, REQUEST_BYTES in *.
  rewrite (proj2 (Z.leb_le 3 _)), (proj2 (Z.leb_le _ 256)) by lia. cbn [negb andb].
  erewrite op_bind_run by reflexivity; cbv beta.
  rewrite (proj2 (Z.ltb_ge (umax 32) queue)), (proj2 (Z.ltb_ge (umax 32) request)) by ulia. cbn [orb].
  erewrite op_bind_run by reflexivity; cbv beta zeta.
  rewrite used_offset_spec, (proj2 (Z.ltb_ge (16 * 1024) _)) by lia.
  erewrite op_bind_run by reflexivity; cbv beta.
  act (acts_lay_out (vd_size 0 * DESCRIPTOR_BYTES)) w1 w2.
  act (acts_pfn (Z.shiftr (wrap 32 queue) 12)) w2 w3. act (acts_status 7) w3 w4.
  destruct (vd_status_in w4) as (Hv & R5 & G5). erewrite op_bind_run by apply access_run. cbv beta.
  rewrite Hv, G2. cbn [r_status]. erewrite op_bind_run by reflexivity; cbv beta.
  act (acts_store 2 (queue + vd_size 0 * DESCRIPTOR_BYTES + 2) 1) (port_in 1 (vd_io + 18) w4).2 w6.
  exists w6. split; [reflexivity|]. split.
  - rewrite G3. cbn [id]. rewrite G5, G2, G0, G, G1. cbn.
    unfold wrap. rewrite Z.mod_small, Z.shiftr_div_pow2 by lia. done.
  - rewrite R3, R5, R2, R0, R, R1. unfold published, id. reflexivity.
Qed.

(** *** The answer *)

Definition poll_used (a : Z) : op W PostFirmwareError (option unit) :=
  v ← load 2 a; mret (if v =? 1 then Some () else None).

Lemma poll_used_run a w v w' :
  load 2 a w = (Ok v, w') → poll_used a w = (Ok (if v =? 1 then Some () else None), w').
Proof. intros E. unfold poll_used. by erewrite op_bind_run by exact E. Qed.

Lemma load_answered n a w :
  vd_delay w = Some O →
  ∃ w', load n a w = (Ok (read_le (vd_final w) a (Z.to_nat n)), w') ∧
    vd_delay w' = Some O ∧ vd_final w' = vd_final w.
Proof.
  intros Hd. destruct (vd_answered w n a Hd) as (Hv & Hd' & Hf).
  unfold load. rewrite access_run, Hv. by eexists.
Qed.

Lemma poll_answered (n : nat) a w :
  vd_delay w = Some O →
  ∃ w', for_nat n (poll_used a) w =
        (Ok (if decide (0 < n ∧ read_le (vd_final w) a 2 = 1) then Some () else None), w') ∧
    vd_delay w' = Some O ∧ vd_final w' = vd_final w.
Proof.
  revert w. induction n as [|n IH]; intros w Hd; cbn [for_nat].
  { exists w. by rewrite decide_False by lia. }
  destruct (load_answered 2 a w Hd) as (w1 & E1 & D1 & F1).
  erewrite op_bind_run by (apply poll_used_run, E1).
  cbv beta. change (Z.to_nat 2) with 2%nat. destruct (Z.eqb_spec (read_le (vd_final w) a 2) 1) as [Ho|Ho].
  - rewrite decide_True by lia. by exists w1.
  - destruct (IH w1 D1) as (w' & E2 & D2 & F2). rewrite F1 in *. exists w'.
    rewrite E2, !decide_False by lia. done.
Qed.

Lemma poll_run (n : nat) a w :
  a = 4096 * r_pfn (vd_regs w) + vring_used (vd_size (r_select (vd_regs w))) + 2 →
  read_le (vd_ram w) a 2 = 0 →
  match vd_delay w with
  | Some k =>
    if decide (k < n ∧ read_le (vd_final w) a 2 = 1) then
      ∃ w', for_nat n (poll_used a) w = (Ok (Some ()), w') ∧
        vd_delay w' = Some O ∧ vd_final w' = vd_final w
    else ∃ w', for_nat n (poll_used a) w = (Ok None, w')
  | None => ∃ w', for_nat n (poll_used a) w = (Ok None, w')
  end.
Proof.
  intros Ha H2. revert w Ha H2. induction n as [|n IH]; intros w Ha H2.
  { destruct (vd_delay w); [rewrite decide_False by lia|]; by exists w. }
  destruct (decide (vd_delay w = Some O)) as [Hd|Hd].
  { destruct (poll_answered (S n) a w Hd) as (w' & E & D & F). rewrite Hd, E.
    repeat case_decide; try lia; by eexists. }
  destruct (vd_pending w a Hd Ha) as (Hv & D & F & R & G). rewrite H2 in Hv.
  specialize (IH (reg_read 2 a w).2). rewrite R, G, D, F in IH. specialize (IH Ha H2).
  assert (for_nat (S n) (poll_used a) w = for_nat n (poll_used a) (reg_read 2 a w).2) as ->.
  { cbn [for_nat]. erewrite op_bind_run by (apply poll_used_run, access_run). cbv beta.
    by rewrite Hv. }
  destruct (vd_delay w) as [[|k]|]; [done| |done]. cbn [fmap option_fmap option_map pred] in IH.
  repeat case_decide; try lia; done.
Qed.

(** The request was carried out: the used index has advanced, the status is zero and the
    sector ends in its signature. *)
Definition good_answer (m : gmap Z Z) : Prop :=
  read_le m (queue + vring_used (vd_size 0) + 2) 2 = 1 ∧ byte_at m (request + 528) = 0 ∧
  byte_at m (request + 16 + 510) = 0x55 ∧ byte_at m (request + 16 + 511) = 0xaa.

#[global] Instance good_answer_dec m : Decision (good_answer m).
Proof. unfold good_answer. apply _. Defined.

Lemma read_le_1 m a : read_le m a 1 = byte_at m a.
Proof. cbn. lia. Qed.

Lemma all_read_answered checks w :
  vd_delay w = Some O →
  ∃ w', all_read checks w =
    (Ok (forallb (λ '(a, v), byte_at (vd_final w) a =? v) checks), w').
Proof.
  revert w. induction checks as [|[a v] checks IH]; intros w Hd; cbn [all_read forallb]; [by eexists|].
  destruct (load_answered 1 a w Hd) as (w1 & E1 & D1 & F1). erewrite op_bind_run by exact E1. cbv beta.
  change (Z.to_nat 1) with 1%nat. rewrite read_le_1.
  destruct (_ =? v); [|by eexists]. cbn [andb]. rewrite <- F1. by apply IH.
Qed.

Lemma virtio_complete_run w :
  placed → vd_regs w = MkRegs 0 (queue / 4096) 0 7 →
  read_le (vd_ram w) (queue + vring_used (vd_size 0) + 2) 2 = 0 →
  (virtio_complete queue request (vring_used (vd_size 0)) w).1 =
  match vd_delay w with
  | Some k => if decide (k < Zpos POLL_LIMIT ∧ good_answer (vd_final w)) then Ok (512, 1) else Err Dma
  | None => Err Dma
  end.
Proof.
  intros (_ & Hq & _) Hg Hz. unfold virtio_complete. cbv zeta.
  replace (queue + (vring_used (vd_size 0) + 2)) with (queue + vring_used (vd_size 0) + 2) by lia.
  set (a := queue + vring_used (vd_size 0) + 2) in *.
  assert (a = 4096 * r_pfn (vd_regs w) + vring_used (vd_size (r_select (vd_regs w))) + 2) as Ha.
  { rewrite Hg. cbn. pose proof (Z.div_mod queue 4096). unfold a. lia. }
  pose proof (poll_run (Pos.to_nat POLL_LIMIT) a w Ha Hz) as Hp.
  fold (poll_used a). pose proof (for_pos_nat POLL_LIMIT (poll_used a) w) as Hf.
  assert (Z.of_nat (Pos.to_nat POLL_LIMIT) = Zpos POLL_LIMIT) as Hl by apply positive_nat_Z.
  set (limit := Pos.to_nat POLL_LIMIT) in *. clearbody limit.
  assert (∀ w', for_pos POLL_LIMIT (poll_used a) w = (Ok None, w') →
    ((r ← for_pos POLL_LIMIT (poll_used a);
      valid ← match r with
              | Some _ => all_read [(request + REQUEST_STATUS, 0);
                                    (request + REQUEST_DATA + 510, 0x55);
                                    (request + REQUEST_DATA + 511, 0xaa)]
              | None => mret false
              end;
      lift (bail_if (negb valid) Dma);; mret (512, 1)) w).1 = Err Dma) as Hno.
  { intros w' E. by erewrite op_bind_run by exact E. }
  unfold good_answer. fold a. destruct (vd_delay w) as [k|].
  2:{ destruct Hp as (w' & E). rewrite E in Hf. by rewrite (Hno _ Hf). }
  case_decide as Hd.
  - destruct Hp as (w' & E & D & F). rewrite E in Hf.
    erewrite op_bind_run by exact Hf. cbv beta iota.
    destruct (all_read_answered [(request + REQUEST_STATUS, 0);
      (request + REQUEST_DATA + 510, 0x55); (request + REQUEST_DATA + 511, 0xaa)] w' D) as (w2 & E2).
    erewrite op_bind_run by exact E2. cbv beta. rewrite F.
    unfold REQUEST_STATUS, REQUEST_DATA. cbn [forallb]. cbv beta iota.
    zcase; case_decide; (reflexivity || (exfalso; lia) || (exfalso; naive_solver lia)).
  - destruct Hp as (w' & E). rewrite E in Hf. rewrite (Hno _ Hf).
    by rewrite decide_False by lia.
Qed.

(** A disk that answers the request it finds at the notification, in time and with the boot
    sector. *)
Definition answers : Prop := ∀ w0,
  vd_regs w0 = MkRegs 0 (queue / 4096) 0 7 →
  decode_request (vd_size 0) (vd_regs w0) (vd_ram w0) = Some (MkRead 0 (request + 16) 512 (request + 528)) →
  let notified := port_out 2 (vd_io + 16) 0 w0 in
  ∃ k, vd_delay notified = Some k ∧ k < Zpos POLL_LIMIT ∧ good_answer (vd_final notified).

Lemma transaction_served w bus device function w1 :
  placed → 0 ≤ vd_io → vd_io + 18 < 2 ^ 16 → 3 ≤ vd_size 0 ≤ 256 →
  find_legacy_virtio_block w = (Ok (bus, device, function, vd_io), w1) → answers →
  (virtio_block_dma_probe queue request w).1 = Ok (512, 1).
Proof.
  intros Hp Hio H18 Hn Hfind Ha. pose proof (submit_run w1 Hp Hio H18) as Hs.
  rewrite decide_True in Hs by done. destruct Hs as (w0 & E & G & R).
  unfold virtio_block_dma_probe. erewrite op_bind_run by exact Hfind. cbv beta iota.
  erewrite op_bind_run by exact E. cbv beta. destruct (vd_notify w0 0) as [NR NG].
  rewrite virtio_complete_run; [|done|by rewrite NG|rewrite NR, R; by apply published_reads].
  destruct (Ha w0 G) as (k & -> & Hk & Hg); [rewrite G, R; by apply published_decodes|].
  rewrite decide_True by exact (conj Hk Hg). reflexivity.
Qed.

(** C20. The disk transaction is what it claims to be.  A device whose queue size is out
    of range is refused before any memory is written.  Otherwise, at the notification, a
    device that follows the virtio rules finds exactly one request in its queue: read
    sector zero, 512 bytes, into the data field, with the status byte behind it; the rings
    end inside the bytes reserved and no other memory was touched.  The probe then reports
    success exactly when the device answers within the polls allowed, with the used index
    advanced, status zero and the boot signature in place. *)
Theorem dma_transaction_exact w bus device function w1 :
  placed → 0 ≤ vd_io → vd_io + 18 < 2 ^ 16 →
  find_legacy_virtio_block w = (Ok (bus, device, function, vd_io), w1) →
  if decide (3 ≤ vd_size 0 ≤ 256) then
    ∃ w0,
      decode_request (vd_size 0) (vd_regs w0) (vd_ram w0) =
        Some (MkRead 0 (request + 16) 512 (request + 528)) ∧
      vring_avail (vd_size 0) + 6 + 2 * vd_size 0 ≤ vring_used (vd_size 0) ∧
      vring_used (vd_size 0) + 6 + 8 * vd_size 0 ≤ QUEUE_BYTES ∧
      (∀ a, (a < queue ∨ queue + QUEUE_BYTES ≤ a) → (a < request ∨ request + REQUEST_BYTES ≤ a) →
         byte_at (vd_ram w0) a = byte_at (vd_ram w1) a) ∧
      let notified := port_out 2 (vd_io + 16) 0 w0 in
      (virtio_block_dma_probe queue request w).1 =
      match vd_delay notified with
      | Some k =>
        if decide (k < Zpos POLL_LIMIT ∧ good_answer (vd_final notified)) then Ok (512, 1) else Err Dma
      | None => Err Dma
      end
  else ∃ w', virtio_block_dma_probe queue request w = (Err Dma, w') ∧ vd_ram w' = vd_ram w1.
Proof.
  intros Hp Hio H18 Hfind. pose proof (submit_run w1 Hp Hio H18) as Hs.
  unfold virtio_block_dma_probe. case_decide as Hn.
  - destruct Hs as (w0 & E & G & R). exists w0. destruct (ring_layout _ Hn) as (_ & L2 & L3).
    rewrite G, R. split_and!; [by apply published_decodes|done|done| |].
    + intros a Hq Hr. by apply published_outside.
    + erewrite op_bind_run by exact Hfind. cbv beta iota. erewrite op_bind_run by exact E. cbv beta.
      destruct (vd_notify w0 0) as [NR NG]. apply virtio_complete_run; [done|by rewrite NG|].
      rewrite NR, R. by apply published_reads.
  - destruct Hs as (w' & E & R). exists w'. split; [|done].
    erewrite op_bind_run by exact Hfind. cbv beta iota. unfold mbind, op_bind. by rewrite E.
Qed.
End transaction.

(** ** A machine with a disk *)

Record Machine : Type := MkMachine {
  mc_latched : Z; mc_config : gmap Z Z; mc_regs : Regs; mc_ram : gmap Z Z;
  mc_delay : option nat; mc_final : gmap Z Z;
}.

Definition DEMO_IO : Z := 0xc000.
Definition demo_size (q : Z) : Z := if q =? 0 then 8 else 0.

(** The disk serves a read request: signature, status, used index. *)
Definition serve (r : Regs) (m : gmap Z Z) : gmap Z Z :=
  match decode_request (demo_size 0) r m with
  | Some q =>
    write_le (4096 * r_pfn r + vring_used (demo_size 0) + 2) 2 1
      (write_le (q_status q) 1 0 (write_le (q_buffer q + 511) 1 0xaa
        (write_le (q_buffer q + 510) 1 0x55 m)))
  | None => m
  end.

#[global] Instance machine_ports : PortIo Machine := {
  port_in width port w :=
    (if port =? 0xcfc then default 0xffffffff (mc_config w !! mc_latched w)
     else if port =? DEMO_IO + 12 then demo_size (r_select (mc_regs w))
     else if port =? DEMO_IO + 18 then r_status (mc_regs w)
     else 0, w);
  port_out width port v w :=
    let '(MkMachine l c r m d f) := w in
    if port =? 0xcf8 then MkMachine v c r m d f
    else if port =? 0xcfc then MkMachine l (<[l := v]> c) r m d f
    else if port =? DEMO_IO + 18 then
      MkMachine l c (if v =? 0 then MkRegs 0 0 0 0
                     else MkRegs (r_features r) (r_pfn r) (r_select r) v) m d f
    else if port =? DEMO_IO + 4 then
      MkMachine l c (MkRegs v (r_pfn r) (r_select r) (r_status r)) m d f
    else if port =? DEMO_IO + 8 then
      MkMachine l c (MkRegs (r_features r) v (r_select r) (r_status r)) m d f
    else if port =? DEMO_IO + 14 then
      MkMachine l c (MkRegs (r_features r) (r_pfn r) v (r_status r)) m d f
    else if port =? DEMO_IO + 16 then MkMachine l c r m (Some 3%nat) (serve r m)
    else w;
}.

#[global] Instance machine_memory : MmioRegs Machine := {
  reg_read width a w :=
    let '(MkMachine l c r m d f) := w in
    match d with
    | Some O => (read_le f a (Z.to_nat width), w)
    | _ => (read_le m a (Z.to_nat width), MkMachine l c r m (pred <$> d) f)
    end;
  reg_write width a v w :=
    let '(MkMachine l c r m d f) := w in MkMachine l c r (write_le a (Z.to_nat width) v m) d f;
}.

#[global] Program Instance machine_bus : PciBus Machine := {
  config w a := default 0xffffffff (mc_config w !! a);
  latched := mc_latched;
}.
Next Obligation. by intros []. Qed.
Next Obligation. done. Qed.
Next Obligation.
  intros [l c r m d f] v a Ha. cbn in Ha.
  change (default 0xffffffff (<[l := v]> c !! a) = default 0xffffffff (c !! a)).
  by rewrite lookup_insert_ne.
Qed.
Next Obligation.
  intros [l c r m d f] v _. change (Z.land (default 0xffffffff (<[l := v]> c !! l)) 5 = Z.land v 5).
  by rewrite lookup_insert_eq.
Qed.

#[global] Program Instance machine_disk : VirtioDevice Machine := {
  vd_io := DEMO_IO; vd_ram := mc_ram; vd_regs := mc_regs; vd_size := demo_size;
  vd_delay := mc_delay; vd_final := mc_final;
}.
Next Obligation. by intros []. Qed.
Next Obligation. by intros []. Qed.
Next Obligation. by intros []. Qed.
Next Obligation. by intros []. Qed.
Next Obligation. by intros []. Qed.
Next Obligation. done. Qed.
Next Obligation. done. Qed.
Next Obligation. done. Qed.
Next Obligation. by intros []. Qed.
Next Obligation. intros [l c r m [[|k]|] f] a Hd ->; done. Qed.
Next Obligation. intros [l c r m d f] n a Hd; cbn in *; by subst. Qed.

Definition demo_machine : Machine :=
  MkMachine 0 (<[config_address 0 3 0 0 := 0x10011af4]> (<[config_address 0 3 0 0x10 := 0xc001]>
    (<[config_address 0 3 0 4 := 2]> ∅))) (MkRegs 9 9 9 9) ∅ None ∅.

Lemma demo_placed : placed 0x200000 0x300000.
Proof. unfold placed, QUEUE_BYTES, REQUEST_BYTES. split_and!; lia || done. Qed.

Lemma demo_answers : answers 0x200000 0x300000.
Proof.
  intros [l c rg m d f] G D. cbn in G. subst rg. cbn [vd_regs vd_ram machine_disk mc_regs mc_ram vd_size] in D.
  change (port_out 2 (vd_io + 16) 0 (MkMachine l c (MkRegs 0 (0x200000 / 4096) 0 7) m d f)) with
    (MkMachine l c (MkRegs 0 (0x200000 / 4096) 0 7) m (Some 3%nat) (serve (MkRegs 0 (0x200000 / 4096) 0 7) m)).
  exists 3%nat. split; [reflexivity|]. split; [reflexivity|].
  unfold good_answer, serve. cbn [vd_final machine_disk mc_final vd_size]. rewrite D.
  cbn [q_buffer q_status r_pfn]. change (demo_size 0) with 8. change (vring_used 8) with 4096.
  change (4096 * (0x200000 / 4096)) with 0x200000.
  rewrite <- !(read_le_1 _ (_ + _)). split_and!.
  - rewrite read_write_le. reflexivity.
  - rewrite read_write_other, read_write_le by lia. reflexivity.
  - do 3 (rewrite read_write_other by lia). rewrite read_write_le. reflexivity.
  - do 2 (rewrite read_write_other by lia). rewrite read_write_le. reflexivity.
Qed.

Lemma dma_transaction_exact_witness :
  (∃ w0, decode_request 8 (vd_regs w0) (vd_ram w0) = Some (MkRead 0 0x300010 512 0x300210)) ∧
  (virtio_block_dma_probe 0x200000 0x300000 demo_machine).1 = Ok (512, 1).
Proof.
  split; [|vm_compute; reflexivity].
  destruct (dma_transaction_exact 0x200000 0x300000 demo_machine 0 3 0
    (find_legacy_virtio_block demo_machine).2 demo_placed) as (w0 & Hw & _);
    [done|done|vm_compute; reflexivity|exists w0; exact Hw].
Defined.

Lemma pci_scan_exact_witness :
  ∃ w', find_legacy_virtio_block demo_machine = (Ok (0, 3, 0, 0xc000), w') ∧
    Z.land (config w' (register 0 3 4)) 5 = 5.
Proof.
  destruct (pci_scan_exact demo_machine) as (w' & Hw).
  replace (first_slot (config demo_machine)) with (Some (0, 3)) in Hw by (vm_compute; reflexivity).
  cbv beta iota zeta in Hw.
  replace (config demo_machine (register 0 3 16)) with 0xc001 in Hw by (vm_compute; reflexivity).
  destruct Hw as (Hf & Hc & _). exists w'. split; [exact Hf|exact Hc].
Defined.

End Virtio.
