(* ===== verification/UserMode.v ===== *)
(** * The excursion to user mode: [setup_user_code], [run_user_mode] and the
      assembly routines [thermite_enter_user], [thermite_syscall_entry],
      [thermite_page_fault_handler], [thermite_user_syscall_handler] and
      [thermite_user_finish_handler] in
      [platform/x86_64-pc-uefi-smp-v1/runtime/src/post_firmware.rs]

    The kernel writes a small machine program into the user page, enters it in
    ring 3, and counts what comes back: one system call, one page fault that is
    skipped over, and the final trap that returns to the kernel.  The processor
    executes the bytes through the page tables of [Paging]; the handlers are
    translated instruction by instruction. *)
From S2P Require Import Prelude Target RawMemory Paging.

Module UserMode.
Import Target RawMemory Paging.

(** ** The program *)

(** [array[start..start + len].copy_from_slice(src)] *)
Definition copy_from_slice (start : nat) (src dst : list Z) : list Z :=
  take start dst ++ src ++ drop (start + length src) dst.

(** [u64::to_le_bytes] *)
Fixpoint to_le_bytes (n : nat) (x : Z) : list Z :=
  match n with O => [] | S n => x mod 256 :: to_le_bytes n (x / 256) end.

Definition user_code : list Z :=
  copy_from_slice 24 [0xf4; 0xeb; 0xfd]
  (copy_from_slice 22 [0xcd; 0x81]
  (copy_from_slice 17 [0xb8; 0x78; 0x56; 0; 0]
  (copy_from_slice 9 (to_le_bytes 8 USER_FAULT_ADDRESS)
  (copy_from_slice 7 [0x48; 0xa1]
  (copy_from_slice 5 [0x0f; 0x05]
  (copy_from_slice 0 [0xb8; 0x34; 0x12; 0; 0] (replicate 32 0))))))).

(** [ptr::copy_nonoverlapping] of a slice. *)
Fixpoint copy_bytes (dst : Z) (src : list Z) (m : gmap Z Z) : gmap Z Z :=
  match src with
  | [] => m
  | b :: src => copy_bytes (dst + 1) src (<[dst := b]> m)
  end.

Definition setup_user_code `{Layout} (m : gmap Z Z) : gmap Z Z :=
  copy_bytes (address USER_CODE_PAGE) user_code m.

(** ** The machine *)

Record Cpu : Type := MkCpu {
  rip : Z; rax : Z; rcx : Z; rdx : Z; r11 : Z; rsp : Z; rflags : Z; cs : Z; ss : Z;
}.

(** The statics of the excursion. *)
Record Statics : Type := MkStatics {
  user_syscalls : Z;
  user_faults : Z;
  user_finished : Z;
  user_syscall_value : Z;
  user_finish_value : Z;
  kernel_faults : Z;
  kernel_return_rsp : Z;
  kernel_syscall_rsp : Z;
  user_syscall_rsp : Z;
}.

(** Registers, statics, physical memory, and what the processor holds: the page
    tables with their root, the stack of the task-state segment. *)
Record Machine : Type := MkMachine {
  cpu : Cpu;
  statics : Statics;
  ram : gmap Z Z;
  tables : Paging.memory;
  cr3 : Z;
  rsp0 : Z;
}.

Definition set_cpu (c : Cpu) (m : Machine) : Machine :=
  MkMachine c (statics m) (ram m) (tables m) (cr3 m) (rsp0 m).
Definition set_statics (s : Statics) (m : Machine) : Machine :=
  MkMachine (cpu m) s (ram m) (tables m) (cr3 m) (rsp0 m).
Definition set_ram (r : gmap Z Z) (m : Machine) : Machine :=
  MkMachine (cpu m) (statics m) r (tables m) (cr3 m) (rsp0 m).

Definition with_rip (v : Z) (c : Cpu) : Cpu :=
  MkCpu v (rax c) (rcx c) (rdx c) (r11 c) (rsp c) (rflags c) (cs c) (ss c).
Definition with_rax (v : Z) (c : Cpu) : Cpu :=
  MkCpu (rip c) v (rcx c) (rdx c) (r11 c) (rsp c) (rflags c) (cs c) (ss c).
Definition with_rcx (v : Z) (c : Cpu) : Cpu :=
  MkCpu (rip c) (rax c) v (rdx c) (r11 c) (rsp c) (rflags c) (cs c) (ss c).
Definition with_r11 (v : Z) (c : Cpu) : Cpu :=
  MkCpu (rip c) (rax c) (rcx c) (rdx c) v (rsp c) (rflags c) (cs c) (ss c).
Definition with_rsp (v : Z) (c : Cpu) : Cpu :=
  MkCpu (rip c) (rax c) (rcx c) (rdx c) (r11 c) v (rflags c) (cs c) (ss c).

Definition on_cpu (f : Cpu → Cpu) (m : Machine) : Machine := set_cpu (f (cpu m)) m.

(** [pushq], [popq]; the kernel runs on the identity map. *)
Definition pushq (v : Z) (m : Machine) : Machine :=
  let sp := rsp (cpu m) - 8 in
  set_ram (write_le sp 8 v (ram m)) (on_cpu (with_rsp sp) m).
Definition top (offset : Z) (m : Machine) : Z := read_le (ram m) (rsp (cpu m) + offset) 8.
Definition popq (f : Z → Cpu → Cpu) (m : Machine) : Machine :=
  on_cpu (λ c, f (top 0 m) (with_rsp (rsp c + 8) c)) m.

Definition iretq (m : Machine) : Machine :=
  set_cpu (MkCpu (top 0 m) (rax (cpu m)) (rcx (cpu m)) (rdx (cpu m)) (r11 (cpu m))
             (top 24 m) (top 16 m) (top 8 m) (top 32 m)) m.

(** An interrupt or exception in ring 3: the stack of the task-state segment is
    selected, aligned, and the return frame pushed; interrupt gates clear IF. *)
Definition deliver (error : option Z) (m : Machine) : Machine :=
  let c := cpu m in
  let m := on_cpu (with_rsp (Z.land (rsp0 m) (Z.lnot 15))) m in
  let m := pushq (rip c) (pushq (cs c) (pushq (rflags c) (pushq (rsp c) (pushq (ss c) m)))) in
  let m := match error with Some e => pushq e m | None => m end in
  on_cpu (λ k, MkCpu (rip k) (rax k) (rcx k) (rdx k) (r11 k) (rsp k)
                 (Z.land (rflags k) (Z.lnot 0x200)) 0x08 0) m.

(** ** The assembly routines *)

Definition inc_syscalls (s : Statics) : Statics :=
  MkStatics (wrap 64 (user_syscalls s + 1)) (user_faults s) (user_finished s)
    (user_syscall_value s) (user_finish_value s) (kernel_faults s) (kernel_return_rsp s)
    (kernel_syscall_rsp s) (user_syscall_rsp s).
Definition inc_faults (s : Statics) : Statics :=
  MkStatics (user_syscalls s) (wrap 64 (user_faults s + 1)) (user_finished s)
    (user_syscall_value s) (user_finish_value s) (kernel_faults s) (kernel_return_rsp s)
    (kernel_syscall_rsp s) (user_syscall_rsp s).
Definition inc_kernel_faults (s : Statics) : Statics :=
  MkStatics (user_syscalls s) (user_faults s) (user_finished s)
    (user_syscall_value s) (user_finish_value s) (wrap 64 (kernel_faults s + 1))
    (kernel_return_rsp s) (kernel_syscall_rsp s) (user_syscall_rsp s).
Definition set_syscall_value (v : Z) (s : Statics) : Statics :=
  MkStatics (user_syscalls s) (user_faults s) (user_finished s)
    v (user_finish_value s) (kernel_faults s) (kernel_return_rsp s)
    (kernel_syscall_rsp s) (user_syscall_rsp s).
Definition set_syscall_rsp (v : Z) (s : Statics) : Statics :=
  MkStatics (user_syscalls s) (user_faults s) (user_finished s)
    (user_syscall_value s) (user_finish_value s) (kernel_faults s) (kernel_return_rsp s)
    (kernel_syscall_rsp s) v.
Definition set_return_rsp (v : Z) (s : Statics) : Statics :=
  MkStatics (user_syscalls s) (user_faults s) (user_finished s)
    (user_syscall_value s) (user_finish_value s) (kernel_faults s) v
    (kernel_syscall_rsp s) (user_syscall_rsp s).
Definition finish (v : Z) (s : Statics) : Statics :=
  MkStatics (user_syscalls s) (user_faults s) (wrap 64 (user_finished s + 1))
    (user_syscall_value s) v (kernel_faults s) (kernel_return_rsp s)
    (kernel_syscall_rsp s) (user_syscall_rsp s).

Definition on_statics (f : Statics → Statics) (m : Machine) : Machine :=
  set_statics (f (statics m)) m.

(** How an instruction of the user program ends: it goes on in ring 3, the call of
    [thermite_enter_user] returns, the processor halts for good, or it meets an
    instruction or a trap that nothing handles. *)
Inductive outcome : Type :=
| Running (m : Machine)
| Returned (m : Machine)
| Halted (m : Machine)
| Unhandled.

(** [thermite_page_fault_handler], entered with the faulting address in CR2. *)
Definition page_fault_handler (cr2 : Z) (m : Machine) : outcome :=
  let m := pushq (rax (cpu m)) m in
  let m := pushq (rcx (cpu m)) m in
  let m := on_cpu (with_rax cr2) m in
  let m := on_cpu (with_rcx 0x400000002000) m in
  if negb (rax (cpu m) =? rcx (cpu m)) then Halted (on_statics inc_kernel_faults m)
  else if negb (top 32 m =? 0x23) then Halted (on_statics inc_kernel_faults m)
  else
    let m := on_statics inc_faults m in
    let m := popq with_rcx m in
    let m := popq with_rax m in
    let m := set_ram (write_le (rsp (cpu m) + 8) 8 (wrap 64 (top 8 m + 10)) (ram m)) m in
    let m := on_cpu (λ c, with_rsp (rsp c + 8) c) m in
    Running (iretq m).

(** [thermite_user_syscall_handler]: the trap of vector 0x80. *)
Definition user_syscall_handler (m : Machine) : outcome :=
  let m := on_statics (set_syscall_value (rax (cpu m))) m in
  let m := on_statics inc_syscalls m in
  Running (iretq m).

(** [SYSRETQ]: the return address and flags come from RCX and R11, the selectors
    from the register STAR. *)
Definition sysretq (m : Machine) : Machine :=
  on_cpu (λ c, MkCpu (rcx c) (rax c) (rcx c) (rdx c) (r11 c) (rsp c) (r11 c) 0x23 0x1b) m.

(** [thermite_syscall_entry] *)
Definition syscall_entry (m : Machine) : outcome :=
  let m := on_statics (set_syscall_rsp (rsp (cpu m))) m in
  let m := on_cpu (with_rsp (kernel_syscall_rsp (statics m))) m in
  let m := pushq (rcx (cpu m)) m in
  let m := pushq (r11 (cpu m)) m in
  let m := on_statics (set_syscall_value (rax (cpu m))) m in
  let m := on_statics inc_syscalls m in
  let m := popq with_r11 m in
  let m := popq with_rcx m in
  let m := on_cpu (with_rsp (user_syscall_rsp (statics m))) m in
  Running (sysretq m).

(** [thermite_user_finish_handler]: [retq] takes the return address of the call. *)
Definition user_finish_handler (m : Machine) : outcome :=
  let m := on_statics (finish (rax (cpu m))) m in
  let m := on_cpu (with_rsp (kernel_return_rsp (statics m))) m in
  Returned (popq with_rip m).

(** [thermite_enter_user] *)
Definition enter_user (m : Machine) : Machine :=
  let m := on_statics (set_return_rsp (rsp (cpu m))) m in
  let m := pushq 0x1b m in
  let m := pushq (rdx (cpu m)) m in
  let m := pushq (rflags (cpu m)) m in
  let m := set_ram (write_le (rsp (cpu m)) 8 (Z.lor (top 0 m) 0x200) (ram m)) m in
  let m := pushq 0x23 m in
  let m := pushq (rcx (cpu m)) m in
  iretq m.

(** ** The processor in ring 3 *)

(** The instructions of the program. *)
Inductive instruction : Type :=
| MovEax (imm : Z)
| Syscall
| LoadRax (moffs : Z)
| Int (vector : Z).

Definition fetch (m : Machine) (va : Z) : option Z :=
  t ← walk (tables m) (cr3 m) va;
  if user t && negb (no_execute t) then Some (byte_at (ram m) (physical t)) else None.

Fixpoint fetch_le (f : Z → option Z) (va : Z) (n : nat) : option Z :=
  match n with
  | O => Some 0
  | S n => b ← f va; rest ← fetch_le f (va + 1) n; Some (b + 256 * rest)
  end.

(** The instruction at [va] and its length. *)
Definition decode (f : Z → option Z) (va : Z) : option (instruction * Z) :=
  b0 ← f va;
  if b0 =? 0xb8 then imm ← fetch_le f (va + 1) 4; Some (MovEax imm, 5)
  else if b0 =? 0x0f then
    b1 ← f (va + 1); if b1 =? 0x05 then Some (Syscall, 2) else None
  else if b0 =? 0x48 then
    b1 ← f (va + 1);
    if b1 =? 0xa1 then moffs ← fetch_le f (va + 2) 8; Some (LoadRax moffs, 10) else None
  else if b0 =? 0xcd then vector ← f (va + 1); Some (Int vector, 2)
  else None.

Definition user_step (m : Machine) : outcome :=
  match decode (fetch m) (rip (cpu m)) with
  | None => Unhandled
  | Some (i, len) =>
    let next := rip (cpu m) + len in
    match i with
    | MovEax imm => Running (on_cpu (λ c, with_rip next (with_rax imm c)) m)
    | Syscall =>
      syscall_entry
        (on_cpu (λ c, MkCpu (rip c) (rax c) next (rdx c) (rflags c) (rsp c)
                        (Z.land (rflags c) (Z.lnot 0x600)) 0x08 0x10) m)
    | LoadRax moffs =>
      match walk (tables m) (cr3 m) moffs with
      | Some t =>
        if user t then
          Running (on_cpu (λ c, with_rip next (with_rax (read_le (ram m) (physical t) 8) c)) m)
        else page_fault_handler moffs (deliver (Some 5) m)
      | None => page_fault_handler moffs (deliver (Some 4) m)
      end
    | Int vector =>
      let m := on_cpu (with_rip next) m in
      if vector =? 0x80 then user_syscall_handler (deliver None m)
      else if vector =? 0x81 then user_finish_handler (deliver None m)
      else Unhandled
    end
  end.

(** At most [fuel] instructions. *)
Fixpoint user_run (fuel : nat) (m : Machine) : outcome :=
  match fuel with
  | O => Running m
  | S fuel => match user_step m with Running m => user_run fuel m | o => o end
  end.

(** ** [run_user_mode] *)

Definition cleared (s : Statics) : Statics :=
  MkStatics 0 0 0 0 0 0 (kernel_return_rsp s) (kernel_syscall_rsp s) (user_syscall_rsp s).

(** The call: the arguments in RCX and RDX, the return address on the stack. *)
Definition call_enter_user (entry stack return_address : Z) (m : Machine) : Machine :=
  enter_user (pushq return_address
    (on_cpu (λ c, MkCpu (rip c) (rax c) entry stack (r11 c) (rsp c) (rflags c) (cs c) (ss c)) m)).

(** [None]: the call has not returned after [fuel] instructions, or never will. *)
Definition run_user_mode (fuel : nat) (return_address : Z) (m : Machine)
    : option (res PostFirmwareError (Z * Z) * Machine) :=
  let m := on_statics cleared m in
  match user_run fuel (call_enter_user USER_BASE (USER_STACK + 4096 - 16) return_address m) with
  | Returned m =>
    let s := statics m in
    Some (if negb (user_syscalls s =? 1) || negb (user_faults s =? 1)
             || negb (user_finished s =? 1) || negb (user_syscall_value s =? 0x1234)
             || negb (user_finish_value s =? 0x5678) || negb (kernel_faults s =? 0)
          then Err UserMode
          else Ok (user_syscalls s, user_faults s), m)
  | _ => None
  end.

(** ** The excursion *)

#[local] Arguments write_le : simpl never.
#[local] Arguments read_le : simpl never.
#[local] Arguments Z.land : simpl never.
#[local] Arguments Z.lor : simpl never.
#[local] Arguments Z.lnot : simpl never.
#[local] Arguments walk : simpl never.

Section excursion.
Context {L : Layout} {HL : LayoutOk L}.
(** The top of the ring-0 stack, the stack pointer and flags of the caller, the return
    address, and the page behind the shootdown address. *)
Context (T K F ret : Z) (shoot : page).

Abbreviation C := (address USER_CODE_PAGE).

(** The stacks do not run into each other or into the code page. *)
Definition stacks_apart : Prop :=
  2 ^ 15 ≤ T < 2 ^ 64 ∧ 48 ≤ K < 2 ^ 64 ∧ u64 F ∧ u64 ret ∧
  (C + 32 ≤ T - 2 ^ 15 ∨ T ≤ C) ∧ (C + 32 ≤ K - 48 ∨ K ≤ C) ∧
  (K ≤ T - 2 ^ 15 ∨ T ≤ K - 48).

(** The code is in place and so is the return address of the call. *)
Definition intact (r : gmap Z Z) : Prop :=
  (∀ (i : nat) b, user_code !! i = Some b → byte_at r (C + i) = b) ∧ read_le r (K - 8) 8 = ret.

(** The machine the kernel has prepared. *)
Definition prepared (m : Machine) : Prop :=
  (∀ va, 0 ≤ va < 2 ^ 47 → walk (tables m) (cr3 m) va = address_space shoot va) ∧
  rsp0 m = T ∧ kernel_syscall_rsp (statics m) = T.

(** In ring 3 at [pc] with [a] in RAX, and the six counters as given. *)
Record in_user (pc a : Z) (counters : list Z) (m : Machine) : Prop := {
  iu_cpu : ∃ c x d, cpu m = MkCpu pc a c d x (USER_STACK + 4096 - 16) (Z.lor F 0x200) 0x23 0x1b ∧ u64 c;
  iu_statics : kernel_return_rsp (statics m) = K - 8 ∧
    [user_syscalls (statics m); user_faults (statics m); user_finished (statics m);
     user_syscall_value (statics m); user_finish_value (statics m); kernel_faults (statics m)]
    = counters;
  iu_prepared : prepared m;
  iu_intact : intact (ram m);
}.

Lemma intact_write r a v :
  stacks_apart → intact r →
  (T - 2 ^ 15 ≤ a ∧ a + 8 ≤ T) ∨ (K - 48 ≤ a ∧ a + 8 ≤ K - 8) → intact (write_le a 8 v r).
Proof.
  intros (H1 & H2 & _ & _ & H3 & H4 & H5) [Hc Hr] Ha. split.
  - intros i b Hb. pose proof (lookup_lt_Some _ _ _ Hb) as Hi.
    change (length user_code) with 32%nat in Hi. rewrite write_le_outside by lia. by apply Hc.
  - rewrite read_write_other by lia. done.
Qed.

Lemma align16 x : 2 ^ 15 ≤ x → x - 16 < Z.land x (Z.lnot 15) ≤ x.
Proof.
  intros Hx. change (Z.land x (Z.lnot 15)) with (Z.ldiff x (Z.ones 4)).
  rewrite Z.ldiff_ones_r, Z.shiftl_mul_pow2, Z.shiftr_div_pow2 by lia.
  change (2 ^ 4) with 16. Z.to_euclidean_division_equations. lia.
Qed.

(** *** Fetching *)

Definition code_fetch (va : Z) : option Z := user_code !! Z.to_nat (va - USER_BASE).

Lemma fetch_code m va :
  prepared m → intact (ram m) → USER_BASE ≤ va < USER_BASE + 32 → fetch m va = code_fetch va.
Proof.
  intros (Hw & _) [Hc _] Hva. unfold fetch, code_fetch. unfold USER_BASE in *.
  rewrite Hw by lia. unfold address_space.
  rewrite (proj2 (Z.ltb_ge _ _)) by lia.
  replace (va / 4096 =? USER_BASE / 4096) with true
    by (symmetry; apply Z.eqb_eq; unfold USER_BASE; Z.to_euclidean_division_equations; lia).
  cbn [mbind option_bind user no_execute physical negb andb].
  destruct (user_code !! Z.to_nat (va - 0x400000000000)) as [b|] eqn:Hb.
  - rewrite <- (Hc _ _ Hb). do 2 f_equal. Z.to_euclidean_division_equations. lia.
  - apply lookup_ge_None in Hb. change (length user_code) with 32%nat in Hb. lia.
Qed.

Lemma fetch_le_ext f g va n :
  (∀ x, va ≤ x < va + Z.of_nat n → f x = g x) → fetch_le f va n = fetch_le g va n.
Proof.
  revert va. induction n as [|n IH]; intros va H; [done|]. cbn. rewrite H by lia.
  destruct (g va); [|done]. cbn. by rewrite IH by (intros x Hx; apply H; lia).
Qed.

Lemma decode_ext f g va :
  (∀ x, va ≤ x < va + 10 → f x = g x) → decode f va = decode g va.
Proof.
  intros Hfg. unfold decode. rewrite (Hfg va) by lia.
  destruct (g va) as [b|]; [|reflexivity]. cbn [mbind option_bind].
  rewrite (Hfg (va + 1)) by lia.
  rewrite (fetch_le_ext f g (va + 1) 4) by (intros x Hx; apply Hfg; lia).
  by rewrite (fetch_le_ext f g (va + 2) 8) by (intros x Hx; apply Hfg; lia).
Qed.

Lemma decode_code m pc :
  prepared m → intact (ram m) → USER_BASE ≤ pc ≤ USER_BASE + 22 →
  decode (fetch m) pc = decode code_fetch pc.
Proof. intros Hp Hi Hpc. apply decode_ext. intros x Hx. apply fetch_code; [done..|lia]. Qed.

(** *** The instructions *)

(** Run the assembly on a machine given field by field. *)
Ltac machine_unfold :=
  cbv [syscall_entry page_fault_handler user_finish_handler enter_user call_enter_user deliver
    on_statics on_cpu popq pushq top set_cpu set_statics set_ram
    with_rip with_rax with_rcx with_r11 with_rsp iretq sysretq
    set_syscall_rsp set_syscall_value inc_syscalls inc_faults inc_kernel_faults set_return_rsp finish cleared
    cpu statics ram tables cr3 rsp0 rip rax rcx rdx r11 rsp rflags cs ss
    user_syscalls user_faults user_finished user_syscall_value user_finish_value kernel_faults
    kernel_return_rsp kernel_syscall_rsp user_syscall_rsp].

Lemma pow64 : 256 ^ Z.of_nat 8 = 2 ^ 64.
Proof. reflexivity. Qed.

Lemma flags_u64 : stacks_apart → u64 (Z.lor F 0x200).
Proof.
  intros (_ & _ & HF & _). apply in_u_bits in HF as [H0 Hb]; [|lia]. apply in_u_bits; [lia|].
  split; [apply Z.lor_nonneg; lia|]. intros i Hi. rewrite Z.lor_spec, Hb by done.
  apply Z.bits_above_log2; [lia|]. change (Z.log2 0x200) with 9. lia.
Qed.

Lemma step_mov pc imm a counters m :
  USER_BASE ≤ pc ≤ USER_BASE + 22 → decode code_fetch pc = Some (MovEax imm, 5) →
  in_user pc a counters m →
  ∃ m', user_step m = Running m' ∧ in_user (pc + 5) imm counters m'.
Proof.
  intros Hpc Hd [(c & x & d & Hcpu & Hc) Hs Hp Hi]. unfold user_step.
  assert (rip (cpu m) = pc) as Hrip by (by rewrite Hcpu).
  rewrite Hrip, decode_code, Hd by done. eexists. split; [reflexivity|].
  split; [|done|done|done]. unfold on_cpu, set_cpu. cbn. rewrite Hcpu. by exists c, x, d.
Qed.

Lemma step_syscall pc a n f e v w k m :
  stacks_apart → USER_BASE ≤ pc ≤ USER_BASE + 22 → decode code_fetch pc = Some (Syscall, 2) →
  in_user pc a [n; f; e; v; w; k] m →
  ∃ m', user_step m = Running m' ∧ in_user (pc + 2) a [wrap 64 (n + 1); f; e; a; w; k] m'.
Proof.
  intros Hap Hpc Hd [(c & x & d & Hcpu & Hc) (Hr & Hs) Hp Hi]. unfold user_step.
  assert (rip (cpu m) = pc) as Hrip by (by rewrite Hcpu).
  rewrite Hrip, decode_code, Hd by done. destruct Hp as (Hw & H0 & Hk).
  destruct m as [cp [] r tb c3 r0]. cbn in *. subst cp r0. injection Hs as <- <- <- <- <- <-.
  pose proof Hap as (A1 & A2 & A3 & _). unfold USER_BASE in *. machine_unfold. rewrite Hk.
  eexists. split; [reflexivity|].
  replace (T - 8 - 8 + 0) with (T - 8 - 8) by lia.
  replace (T - 8 - 8 + 8 + 0) with (T - 8) by lia.
  rewrite read_write_le, (read_write_other (T - 8 - 8)), read_write_le, pow64 by lia.
  split; cbn; [|done|by split_and!|].
  - eexists _, _, _. rewrite !Z.mod_small by (pose proof (flags_u64 Hap); ulia).
    split; [reflexivity|ulia].
  - apply intact_write; [done| |lia]. apply intact_write; [done|done|lia].
Qed.

(** Read back what was pushed. *)
Ltac unstack :=
  repeat match goal with
  | |- context [read_le (write_le ?a 8 ?v ?r) ?b 8] =>
    first [ replace b with a by lia; rewrite (read_write_le a 8 v r), pow64
          | rewrite (read_write_other a 8 v r b 8) by lia ]
  end.

Ltac stays_intact := repeat (apply intact_write; [done| |lia]); done.

Lemma step_fault pc a n f e v w k m :
  stacks_apart → USER_BASE ≤ pc ≤ USER_BASE + 22 → u64 a →
  decode code_fetch pc = Some (LoadRax USER_FAULT_ADDRESS, 10) →
  in_user pc a [n; f; e; v; w; k] m →
  ∃ m', user_step m = Running m' ∧ in_user (pc + 10) a [n; wrap 64 (f + 1); e; v; w; k] m'.
Proof.
  intros Hap Hpc Ha Hd [(c & x & d & Hcpu & Hc) (Hr & Hs) Hp Hi]. unfold user_step.
  assert (rip (cpu m) = pc) as Hrip by (by rewrite Hcpu).
  rewrite Hrip, decode_code, Hd by done. pose proof Hp as (Hw & H0 & Hk).
  rewrite Hw by (unfold USER_FAULT_ADDRESS, USER_BASE; lia).
  change (address_space shoot USER_FAULT_ADDRESS) with (@None translation). cbv beta iota zeta.
  destruct m as [cp [] r tb c3 r0]. cbn in *. subst cp r0. injection Hs as <- <- <- <- <- <-.
  pose proof Hap as (A1 & A2 & A3 & _). pose proof (align16 T ltac:(lia)) as HA.
  pose proof (flags_u64 Hap) as HF.
  unfold page_fault_handler, deliver. machine_unfold.
  set (A := Z.land T (Z.lnot 15)) in *. set (FL := Z.lor F 512) in *.
  change (USER_FAULT_ADDRESS =? 0x400000002000) with true. cbn [negb]. unstack.
  change (35 mod 2 ^ 64 =? 35) with true. cbn [negb]. unstack.
  eexists. split; [reflexivity|]. unfold USER_BASE in *.
  assert (∀ y, u64 y → y mod 2 ^ 64 = y) as Hmod by (intros y Hy; apply Z.mod_small; exact Hy).
  split; cbn; [|done|by split_and!|stays_intact].
  rewrite (Hmod pc) by ulia. unfold wrap.
  rewrite !Hmod by (done || (unfold USER_STACK, USER_BASE; ulia) || (rewrite Hmod by ulia; ulia)).
  by exists c, x, d.
Qed.

Lemma step_finish pc a n f e v w k m :
  stacks_apart → USER_BASE ≤ pc ≤ USER_BASE + 22 → decode code_fetch pc = Some (Int 0x81, 2) →
  in_user pc a [n; f; e; v; w; k] m →
  ∃ m', user_step m = Returned m' ∧ rip (cpu m') = ret ∧ rsp (cpu m') = K ∧
    [user_syscalls (statics m'); user_faults (statics m'); user_finished (statics m');
     user_syscall_value (statics m'); user_finish_value (statics m'); kernel_faults (statics m')]
    = [n; f; wrap 64 (e + 1); v; a; k].
Proof.
  intros Hap Hpc Hd [(c & x & d & Hcpu & Hc) (Hr & Hs) Hp Hi]. unfold user_step.
  assert (rip (cpu m) = pc) as Hrip by (by rewrite Hcpu).
  rewrite Hrip, decode_code, Hd by done. cbv beta iota zeta.
  destruct m as [cp [] r tb c3 r0]. cbn in *. destruct Hp as (Hw & H0 & Hk). cbn in *. subst cp r0.
  injection Hs as <- <- <- <- <- <-. change (0x81 =? 0x80) with false. change (0x81 =? 0x81) with true.
  pose proof Hap as (A1 & A2 & A3 & A4 & A5 & A6 & A7). pose proof (align16 T ltac:(lia)) as HA.
  unfold user_finish_handler, deliver. machine_unfold. rewrite Hr.
  eexists. split; [reflexivity|]. cbn. split; [|split; [lia|reflexivity]].
  rewrite Z.add_0_r. set (A := Z.land T (Z.lnot 15)) in *.
  rewrite !read_write_other by lia. apply Hi.
Qed.

Lemma enter_in_user m :
  stacks_apart → prepared m → rsp (cpu m) = K → rflags (cpu m) = F →
  (∀ (i : nat) b, user_code !! i = Some b → byte_at (ram m) (C + i) = b) →
  in_user USER_BASE (rax (cpu m)) [0; 0; 0; 0; 0; 0]
    (call_enter_user USER_BASE (USER_STACK + 4096 - 16) ret (on_statics cleared m)).
Proof.
  intros Hap Hp Hsp Hfl Hcode.
  pose proof Hap as (A1 & A2 & A3 & A4 & A5 & A6 & A7). pose proof (flags_u64 Hap) as HF.
  assert (intact (write_le (K - 8) 8 ret (ram m))) as Hi.
  { split.
    - intros i b Hb. pose proof (lookup_lt_Some _ _ _ Hb) as Hlt.
      change (length user_code) with 32%nat in Hlt. rewrite write_le_outside by lia. by apply Hcode.
    - rewrite read_write_le, pow64. by apply Z.mod_small. }
  destruct m as [[] [] r tb c3 r0]. cbn in *. subst.
  unfold call_enter_user, enter_user. machine_unfold. 
  assert (∀ y, u64 y → y mod 2 ^ 64 = y) as Hmod by (intros y Hy; apply Z.mod_small; exact Hy).
  unstack. rewrite (Hmod F) by done.
  split; cbn; [|by split; [lia|]|done|stays_intact].
  unstack. rewrite !Hmod by (done || (unfold USER_STACK, USER_BASE; ulia) || ulia).
  eexists _, _, _. split; [reflexivity|unfold USER_BASE; ulia].
Qed.

Lemma copy_bytes_at dst src r a :
  byte_at (copy_bytes dst src r) a =
  if decide (dst ≤ a < dst + length src) then default 0 (src !! Z.to_nat (a - dst)) else byte_at r a.
Proof.
  revert dst r. induction src as [|b src IH]; intros dst r; cbn [copy_bytes length].
  { by rewrite decide_False by lia. }
  rewrite IH, byte_at_insert. destruct (decide (dst = a)) as [->|Hne].
  - rewrite Z.eqb_refl, decide_False, decide_True by lia. by rewrite Z.sub_diag.
  - rewrite (proj2 (Z.eqb_neq _ _)) by done. repeat case_decide; try lia; try done.
    replace (Z.to_nat (a - dst)) with (S (Z.to_nat (a - (dst + 1)))) by lia. done.
Qed.

Lemma user_run_step fuel m m' : user_step m = Running m' → user_run (S fuel) m = user_run fuel m'.
Proof. cbn. by intros ->. Qed.
End excursion.

(** The excursion on a machine with the page tables and the code in place. *)
Lemma excursion_runs {L : Layout} {HL : LayoutOk L} T K F ret m (fuel : nat) :
  stacks_apart T K F ret → prepared T TEST_PAGE_B m →
  (∀ (i : nat) b, user_code !! i = Some b → byte_at (ram m) (address USER_CODE_PAGE + i) = b) →
  rsp (cpu m) = K → rflags (cpu m) = F → (5 ≤ fuel)%nat →
  ∃ m', run_user_mode fuel ret m = Some (Ok (1, 1), m') ∧ rip (cpu m') = ret ∧ rsp (cpu m') = K.
Proof.
  intros Hap Hp Hcode Hsp Hfl Hfuel.
  pose proof (enter_in_user T K F ret TEST_PAGE_B m Hap Hp Hsp Hfl Hcode) as U0.
  unfold run_user_mode. set (m0 := call_enter_user _ _ _ _) in *. clearbody m0.
  apply step_mov with (imm := 0x1234) in U0 as (m1 & S1 & U1); [|unfold USER_BASE; lia|reflexivity].
  apply step_syscall in U1 as (m2 & S2 & U2); [|done|unfold USER_BASE; lia|reflexivity].
  apply step_fault in U2 as (m3 & S3 & U3); [|done|unfold USER_BASE; lia|by split|reflexivity].
  apply step_mov with (imm := 0x5678) in U3 as (m4 & S4 & U4); [|unfold USER_BASE; lia|reflexivity].
  apply step_finish in U4 as (m5 & S5 & R5 & P5 & C5); [|done|unfold USER_BASE; lia|reflexivity].
  destruct fuel as [|[|[|[|[|fuel]]]]]; [lia..|].
  rewrite (user_run_step _ _ _ S1), (user_run_step _ _ _ S2), (user_run_step _ _ _ S3),
    (user_run_step _ _ _ S4). cbn [user_run]. rewrite S5.
  injection C5 as -> -> -> -> -> ->. exists m5. split; [reflexivity|by split].
Qed.

(** C19. The excursion to user mode does what the kernel then checks: on a processor
    whose page tables were built by [setup_page_tables] (the shootdown page replaced since,
    as in [run]) and whose user page was filled by
    [setup_user_code], with stacks that do not run into one another, the program entered
    by [run_user_mode] makes one system call with 0x1234, faults once at the unmapped
    address and is resumed behind the faulting instruction, and returns through the final
    trap with 0x5678; five instructions are enough.  The result is [Ok (1, 1)], control is
    back at the return address, and the stack pointer is the caller's. *)
Theorem user_mode_exact {L : Layout} {HL : LayoutOk L} T K F ret pages built_tables ram0 m (fuel : nat) :
  (∀ q j, valid q → 0 ≤ j < 512 → slot pages q j = 0) →
  setup_page_tables pages = (Ok (cr3 m), built_tables) →
  replace_shoot_page built_tables = (Ok (), tables m) → ram m = setup_user_code ram0 →
  stacks_apart T K F ret → rsp0 m = T → kernel_syscall_rsp (statics m) = T →
  rsp (cpu m) = K → rflags (cpu m) = F → (5 ≤ fuel)%nat →
  ∃ m', run_user_mode fuel ret m = Some (Ok (1, 1), m') ∧ rip (cpu m') = ret ∧ rsp (cpu m') = K.
Proof.
  intros Hz Hset Hrep Hram Hap H0 Hk Hsp Hfl Hfuel.
  destruct (setup_entries pages Hz) as (tb & E & Hb). rewrite Hset in E. injection E as Hc3 ->.
  destruct (replace_built TEST_PAGE_A tb Hb) as (tb' & E' & Hb'). rewrite Hrep in E'.
  injection E' as Htb.
  assert (prepared T TEST_PAGE_B m) as Hp.
  { split; [|done]. intros va Hva. rewrite Hc3, Htb. by apply built_walk. }
  assert (∀ (i : nat) b, user_code !! i = Some b → byte_at (ram m) (address USER_CODE_PAGE + i) = b) as Hcode.
  { intros i b Hib. pose proof (lookup_lt_Some _ _ _ Hib). rewrite Hram. unfold setup_user_code.
    rewrite copy_bytes_at, decide_True by lia.
    replace (Z.to_nat _) with i by lia. by rewrite Hib. }
  by apply (excursion_runs T K F ret m).
Qed.

Lemma user_mode_exact_witness :
  ∃ m m', run_user_mode 5 0x1234567 m = Some (Ok (1, 1), m') ∧ rip (cpu m') = 0x1234567.
Proof.
  destruct (setup_entries (L := demo_layout) (HL := demo_layout_ok) ∅) as (t0 & E & Hb); [done|].
  destruct (replace_built (L := demo_layout) (HL := demo_layout_ok) TEST_PAGE_A t0 Hb) as (tb & E' & _).
  set (m := MkMachine (MkCpu 0 0 0 0 0 0x400000 0x202 0x08 0x10)
    (MkStatics 0 0 0 0 0 0 0 0x300000 0) (setup_user_code (H := demo_layout) ∅) tb
    (@address demo_layout PML4) 0x300000).
  destruct (user_mode_exact (L := demo_layout) (HL := demo_layout_ok) 0x300000 0x400000 0x202
    0x1234567 ∅ t0 ∅ m 5) as (m' & Hm & Hr & _);
    [done|exact E|exact E'|reflexivity| |reflexivity|reflexivity|reflexivity|reflexivity|lia|].
  - unfold stacks_apart, in_u. change (@address demo_layout USER_CODE_PAGE) with 1097728. lia.
  - exists m, m'. split; [exact Hm|exact Hr].
Defined.

End UserMode.
