(* ===== verification/Phases.v ===== *)
(** * The processors after boot, phase by phase: [thermite_ap_rust_entry],
      [message_probe], [shootdown_probe], [thermite_ipi_handler] and the part of
      [run] that drives them in
      [platform/x86_64-pc-uefi-smp-v1/runtime/src/post_firmware.rs]

    The boot processor starts the others, checks that they answer interrupts,
    passes them a message, lets them work, replaces a mapping, and waits until
    every processor has dropped the old translation before it lets them read
    again.  Each step below is one access to a shared static, one read through
    the translation cache, or one instruction of the interrupt handler; [step]
    interleaves all processors, and lets their caches refill at any time.  A call
    of the APIC driver may fail, with one of the errors [Apic] shows it to have,
    before or after its command has gone out.  The work between the phases is the
    subject of [Workers]; here [accepted] stands for what [run]'s check of it
    ([Workers.scheduler_accepts]) says, and [Run] puts the two together. *)
From S2P Require Import Prelude Interleave Target Apic.

Module Phases.
Import Target.
Import Apic.Apic (outcome, Sent, Fails, outcome_ok, reaches, apic_error).

Definition MESSAGE : Z := 0x52454c4541534544.
(** The words of the two test pages. *)
Definition OLD_WORD : Z := 0xaaaa555511112222.
Definition NEW_WORD : Z := 0xbbbb666633334444.

(** The statics, and the word the shootdown mapping leads to. *)
Record Shared : Type := MkShared {
  online_mask : Z;
  cpu_local_mask : Z;
  ready : Z;
  phase : Z;
  message_payload : Z;
  message_ready : Z;
  message_mask : Z;
  message_stale : Z;
  tlb_pre_mask : Z;
  tlb_post_mask : Z;
  tlb_stale : Z;
  tlb_observed : gmap Z Z;
  task_done : Z;
  ipi_ack_mask : Z;
  ipi_epoch : Z;
  mapped_word : Z;
}.

(** ** The probes, as both kinds of processors run them *)

(** [message_probe] *)
Inductive message_pc : Type := MWait | MLoad | MStale | MMask | MDone.

#[global] Instance message_pc_eq_dec : EqDecision message_pc.
Proof. solve_decision. Defined.

(** [shootdown_probe]; [observed] is live from the read on. *)
Inductive probe_pc : Type :=
| PRead | PStore (observed : Z) | PCheck (observed : Z) | PMask | PDone.

#[global] Instance probe_pc_eq_dec : EqDecision probe_pc.
Proof. solve_decision. Defined.

Definition set_message_stale (f : Z → Z) (s : Shared) : Shared :=
  let '(MkShared on lo re ph mp mr mm ms p1 p2 st ob td ak ep wd) := s in
  MkShared on lo re ph mp mr mm (f ms) p1 p2 st ob td ak ep wd.
Definition set_message_mask (f : Z → Z) (s : Shared) : Shared :=
  let '(MkShared on lo re ph mp mr mm ms p1 p2 st ob td ak ep wd) := s in
  MkShared on lo re ph mp mr (f mm) ms p1 p2 st ob td ak ep wd.
Definition set_pre_mask (f : Z → Z) (s : Shared) : Shared :=
  let '(MkShared on lo re ph mp mr mm ms p1 p2 st ob td ak ep wd) := s in
  MkShared on lo re ph mp mr mm ms (f p1) p2 st ob td ak ep wd.
Definition set_post_mask (f : Z → Z) (s : Shared) : Shared :=
  let '(MkShared on lo re ph mp mr mm ms p1 p2 st ob td ak ep wd) := s in
  MkShared on lo re ph mp mr mm ms p1 (f p2) st ob td ak ep wd.
Definition set_tlb_stale (f : Z → Z) (s : Shared) : Shared :=
  let '(MkShared on lo re ph mp mr mm ms p1 p2 st ob td ak ep wd) := s in
  MkShared on lo re ph mp mr mm ms p1 p2 (f st) ob td ak ep wd.
Definition set_observed (c v : Z) (s : Shared) : Shared :=
  let '(MkShared on lo re ph mp mr mm ms p1 p2 st ob td ak ep wd) := s in
  MkShared on lo re ph mp mr mm ms p1 p2 st (<[c := v]> ob) td ak ep wd.
Definition set_online (f : Z → Z) (s : Shared) : Shared :=
  let '(MkShared on lo re ph mp mr mm ms p1 p2 st ob td ak ep wd) := s in
  MkShared (f on) lo re ph mp mr mm ms p1 p2 st ob td ak ep wd.
Definition set_local (f : Z → Z) (s : Shared) : Shared :=
  let '(MkShared on lo re ph mp mr mm ms p1 p2 st ob td ak ep wd) := s in
  MkShared on (f lo) re ph mp mr mm ms p1 p2 st ob td ak ep wd.
Definition set_ready (f : Z → Z) (s : Shared) : Shared :=
  let '(MkShared on lo re ph mp mr mm ms p1 p2 st ob td ak ep wd) := s in
  MkShared on lo (f re) ph mp mr mm ms p1 p2 st ob td ak ep wd.
Definition set_phase (v : Z) (s : Shared) : Shared :=
  let '(MkShared on lo re ph mp mr mm ms p1 p2 st ob td ak ep wd) := s in
  MkShared on lo re v mp mr mm ms p1 p2 st ob td ak ep wd.
Definition set_payload (v : Z) (s : Shared) : Shared :=
  let '(MkShared on lo re ph mp mr mm ms p1 p2 st ob td ak ep wd) := s in
  MkShared on lo re ph v mr mm ms p1 p2 st ob td ak ep wd.
Definition set_message_ready (v : Z) (s : Shared) : Shared :=
  let '(MkShared on lo re ph mp mr mm ms p1 p2 st ob td ak ep wd) := s in
  MkShared on lo re ph mp v mm ms p1 p2 st ob td ak ep wd.
Definition set_done (f : Z → Z) (s : Shared) : Shared :=
  let '(MkShared on lo re ph mp mr mm ms p1 p2 st ob td ak ep wd) := s in
  MkShared on lo re ph mp mr mm ms p1 p2 st ob (f td) ak ep wd.
Definition set_ack (f : Z → Z) (s : Shared) : Shared :=
  let '(MkShared on lo re ph mp mr mm ms p1 p2 st ob td ak ep wd) := s in
  MkShared on lo re ph mp mr mm ms p1 p2 st ob td (f ak) ep wd.
Definition set_epoch (v : Z) (s : Shared) : Shared :=
  let '(MkShared on lo re ph mp mr mm ms p1 p2 st ob td ak ep wd) := s in
  MkShared on lo re ph mp mr mm ms p1 p2 st ob td ak v wd.
Definition set_word (v : Z) (s : Shared) : Shared :=
  let '(MkShared on lo re ph mp mr mm ms p1 p2 st ob td ak ep wd) := s in
  MkShared on lo re ph mp mr mm ms p1 p2 st ob td ak ep v.

(** [1_u64 << cpu], for the processors below 64 *)
Definition or_bit (cpu : Z) (mask : Z) : Z := Z.lor mask (Z.shiftl 1 cpu).
Definition add1 (x : Z) : Z := wrap 64 (x + 1).

Definition message_step (cpu : Z) (p : message_pc) (s : Shared) : message_pc * Shared :=
  match p with
  | MWait => (if message_ready s =? 0 then MWait else MLoad, s)
  | MLoad => (if message_payload s =? MESSAGE then MMask else MStale, s)
  | MStale => (MMask, set_message_stale add1 s)
  | MMask => (MDone, set_message_mask (or_bit cpu) s)
  | MDone => (MDone, s)
  end.

(** The mask is [POST_TLB_PRE_MASK] or [POST_TLB_POST_MASK]; a read goes through the
    translation cache, which it fills. *)
Definition probe_step (post : bool) (cpu expected : Z) (p : probe_pc) (tlb : option Z) (s : Shared)
    : probe_pc * option Z * Shared :=
  match p with
  | PRead => let v := default (mapped_word s) tlb in (PStore v, Some v, s)
  | PStore v => (PCheck v, tlb, set_observed cpu v s)
  | PCheck v =>
    (PMask, tlb, if negb (v =? expected) then set_tlb_stale add1 s else s)
  | PMask => (PDone, tlb, if post then set_post_mask (or_bit cpu) s else set_pre_mask (or_bit cpu) s)
  | PDone => (PDone, tlb, s)
  end.

(** ** An application processor *)

(** [thermite_ap_rust_entry], from the instruction after the tables are loaded;
    [AOff] is a processor that has not been started. *)
Inductive ap_pc : Type :=
| AOff | ALocal | AOnline | AReady | AWait1
| AMessage (p : message_pc) | AWork | AProbe1 (p : probe_pc) | ADone
| AWait2 | AProbe2 (p : probe_pc) | AIdle.

#[global] Instance ap_pc_eq_dec : EqDecision ap_pc.
Proof. solve_decision. Defined.

(** An interrupt of [IPI_VECTOR]: none, sent, and the two instructions of
    [thermite_ipi_handler] that matter: [invlpg], then [lock btsq]. *)
Inductive irq : Type := INone | ISent | IInvalidate | IAck.

Record Ap : Type := MkAp { pc : ap_pc; tlb : option Z; interrupt : irq }.

(** One access of the program. *)
Definition ap_step (cpu : Z) (p : ap_pc) (t : option Z) (s : Shared) : ap_pc * option Z * Shared :=
  match p with
  | AOff => (AOff, t, s)
  | ALocal => (AOnline, t, set_local (or_bit cpu) s)
  | AOnline => (AReady, t, set_online (or_bit cpu) s)
  | AReady => (AWait1, t, set_ready add1 s)
  | AWait1 => (if phase s <? 1 then AWait1 else AMessage MWait, t, s)
  | AMessage MDone => (AWork, t, s)
  | AMessage p => let '(p, s) := message_step cpu p s in (AMessage p, t, s)
  | AWork => (AProbe1 PRead, t, s)
  | AProbe1 PDone => (ADone, t, s)
  | AProbe1 p => let '(p, t, s) := probe_step false cpu OLD_WORD p t s in (AProbe1 p, t, s)
  | ADone => (AWait2, t, set_done add1 s)
  | AWait2 => (if phase s <? 2 then AWait2 else AProbe2 PRead, t, s)
  | AProbe2 PDone => (AIdle, t, s)
  | AProbe2 p => let '(p, t, s) := probe_step true cpu NEW_WORD p t s in (AProbe2 p, t, s)
  | AIdle => (AIdle, t, s)
  end.

(** One instruction of the interrupt handler. *)
Definition handler_step (cpu : Z) (a : Ap) (s : Shared) : Ap * Shared :=
  match interrupt a with
  | INone => (a, s)
  | ISent => (MkAp (pc a) (tlb a) IInvalidate, s)
  | IInvalidate => (MkAp (pc a) None IAck, s)
  | IAck => (MkAp (pc a) (tlb a) INone, set_ack (or_bit cpu) s)
  end.

(** ** The boot processor *)

(** Where [run] stands; the lists are the processors still to be sent to. *)
Inductive bsp_pc : Type :=
| BOnline | BStart (l : list Z) | BWaitOnline | BWaitReady | BWaitLocal
| BClearAck1 | BEpoch1 | BSend1 (l : list Z) | BWaitAck1
| BClearDone | BClearReady | BPayload | BMessageReady | BPhase1
| BMessage (p : message_pc) | BWork | BProbe1 (p : probe_pc)
| BWaitDone | BWaitPre | BWaitMessage | BCheckMessage | BCheckStale | BCheckTasks
| BRemap | BInvalidate | BClearAck2 | BEpoch2 | BSend2 (l : list Z) | BWaitAck2
| BPhase2 | BProbe2 (p : probe_pc) | BWaitPost | BCheckPost
| BOk
| BStop (here : bsp_pc) (e : PostFirmwareError)
| BRefuse (e : PostFirmwareError).

(** [timeout] ends a wait that has not succeeded. *)
Definition wait_step (timeout : bool) (met : bool) (here next : bsp_pc) (e : PostFirmwareError) : bsp_pc :=
  if met then next else if timeout then BStop here e else here.

Definition contains (mask wanted : Z) : bool := Z.land mask wanted =? wanted.

(** [send(target)?]: the next processor, or the error; [l] are those left without [target]. *)
Definition send_step (io : outcome) (next : list Z → bsp_pc) (target : Z) (l : list Z) : bsp_pc :=
  match io with
  | Sent => next l
  | Fails e sent => BStop (next (if sent then l else target :: l)) e
  end.

(** [io] is what becomes of the call of [start_ap] or [send_fixed_ipi] a step makes;
    [accepted] is [run]'s check of what the tasks have left. *)
Definition bsp_step (timeout : bool) (io : outcome) (accepted : bool) (bsp full_mask ap_mask ap_count : Z) (aps : list Z)
    (p : bsp_pc) (t : option Z) (s : Shared) : bsp_pc * option Z * Shared :=
  match p with
  | BOnline => (BStart aps, t, set_online (λ _, Z.shiftl 1 bsp) s)
  | BStart [] => (BWaitOnline, t, s)
  | BStart (c :: l) => (send_step io BStart c l, t, s)
  | BWaitOnline => (wait_step timeout (contains (online_mask s) full_mask) p BWaitReady ApStartup, t, s)
  | BWaitReady => (wait_step timeout (ap_count <=? ready s) p BWaitLocal ApStartup, t, s)
  | BWaitLocal => (wait_step timeout (contains (cpu_local_mask s) full_mask) p BClearAck1 ApStartup, t, s)
  | BClearAck1 => (BEpoch1, t, set_ack (λ _, 0) s)
  | BEpoch1 => (BSend1 aps, t, set_epoch 1 s)
  | BSend1 [] => (BWaitAck1, t, s)
  | BSend1 (c :: l) => (send_step io BSend1 c l, t, s)
  | BWaitAck1 => (wait_step timeout (contains (ipi_ack_mask s) ap_mask) p BClearDone Ipi, t, s)
  | BClearDone => (BClearReady, t, set_done (λ _, 0) s)
  | BClearReady => (BPayload, t, set_ready (λ _, 0) s)
  | BPayload => (BMessageReady, t, set_payload MESSAGE s)
  | BMessageReady => (BPhase1, t, set_message_ready 1 s)
  | BPhase1 => (BMessage MWait, t, set_phase 1 s)
  | BMessage MDone => (BWork, t, s)
  | BMessage p => let '(p, s) := message_step bsp p s in (BMessage p, t, s)
  | BWork => (BProbe1 PRead, t, s)
  | BProbe1 PDone => (BWaitDone, t, s)
  | BProbe1 p => let '(p, t, s) := probe_step false bsp OLD_WORD p t s in (BProbe1 p, t, s)
  | BWaitDone => (wait_step timeout (ap_count <=? task_done s) p BWaitPre Scheduler, t, s)
  | BWaitPre => (wait_step timeout (contains (tlb_pre_mask s) full_mask) p BWaitMessage Scheduler, t, s)
  | BWaitMessage =>
    (wait_step timeout (contains (message_mask s) full_mask) p BCheckMessage Scheduler, t, s)
  | BCheckMessage => (if message_stale s =? 0 then BCheckStale else BRefuse Scheduler, t, s)
  | BCheckStale => (if tlb_stale s =? 0 then BCheckTasks else BRefuse Tlb, t, set_tlb_stale (λ _, 0) s)
  | BCheckTasks => (if accepted then BRemap else BStop p Scheduler, t, s)
  | BRemap => (BInvalidate, t, set_word NEW_WORD s)
  | BInvalidate => (BClearAck2, None, s)
  | BClearAck2 => (BEpoch2, t, set_ack (λ _, 0) s)
  | BEpoch2 => (BSend2 aps, t, set_epoch 2 s)
  | BSend2 [] => (BWaitAck2, t, s)
  | BSend2 (c :: l) => (send_step io BSend2 c l, t, s)
  | BWaitAck2 => (wait_step timeout (contains (ipi_ack_mask s) ap_mask) p BPhase2 Tlb, t, s)
  | BPhase2 => (BProbe2 PRead, t, set_phase 2 s)
  | BProbe2 PDone => (BWaitPost, t, s)
  | BProbe2 p => let '(p, t, s) := probe_step true bsp NEW_WORD p t s in (BProbe2 p, t, s)
  | BWaitPost => (wait_step timeout (contains (tlb_post_mask s) full_mask) p BCheckPost Tlb, t, s)
  | BCheckPost => (if tlb_stale s =? 0 then BOk else BRefuse Tlb, t, s)
  | BOk | BStop _ _ | BRefuse _ => (p, t, s)
  end.

(** What a step of the boot processor does to another one: it is started, or the
    interrupt is sent to it, if the command goes out. *)
Definition bsp_effect (io : outcome) (p : bsp_pc) : option (Z * (Ap → Ap)) :=
  if reaches io then
    match p with
    | BStart (c :: _) => Some (c, λ a, MkAp ALocal (tlb a) (interrupt a))
    | BSend1 (c :: _) | BSend2 (c :: _) => Some (c, λ a, MkAp (pc a) (tlb a) ISent)
    | _ => None
    end
  else None.

Record system : Type := MkSystem {
  shared : Shared;
  bsp_at : bsp_pc;
  bsp_tlb : option Z;
  aps : gmap Z Ap;
}.

Section machine.
(** What the check of the tasks says, the boot processor, the others in the order of
    [apic_ids], and the masks. *)
Context (accepted : bool) (bsp : Z) (ids : list Z) (full_mask ap_mask : Z).

(** A processor in its handler does not run its program; a translation cache may load or
    drop the translation at any time. *)
Inductive step : system → system → Prop :=
| step_program y c a p t s :
    aps y !! c = Some a → interrupt a = INone ∨ interrupt a = ISent →
    ap_step c (pc a) (tlb a) (shared y) = (p, t, s) →
    step y (MkSystem s (bsp_at y) (bsp_tlb y) (<[c := MkAp p t (interrupt a)]> (aps y)))
| step_handler y c a a' s :
    aps y !! c = Some a → handler_step c a (shared y) = (a', s) →
    step y (MkSystem s (bsp_at y) (bsp_tlb y) (<[c := a']> (aps y)))
| step_cache y c a t :
    aps y !! c = Some a → t = None ∨ t = Some (mapped_word (shared y)) →
    step y (MkSystem (shared y) (bsp_at y) (bsp_tlb y) (<[c := MkAp (pc a) t (interrupt a)]> (aps y)))
| step_bsp_cache y t :
    t = None ∨ t = Some (mapped_word (shared y)) →
    step y (MkSystem (shared y) (bsp_at y) t (aps y))
| step_bsp y timeout io p t s :
    outcome_ok io →
    bsp_step timeout io accepted bsp full_mask ap_mask (length ids) ids (bsp_at y) (bsp_tlb y) (shared y)
      = (p, t, s) →
    step y (MkSystem s p t
      match bsp_effect io (bsp_at y) with
      | Some (c, f) => alter f c (aps y)
      | None => aps y
      end).

(** The state in which [run] reaches the start of the other processors: the boot
    processor's own CPU-local record is installed. *)
Definition booted : system :=
  MkSystem (MkShared 0 (Z.shiftl 1 bsp) 0 0 0 0 0 0 0 0 0 ∅ 0 0 0 OLD_WORD) BOnline None
    (list_to_map ((λ c, (c, MkAp AOff None INone)) <$> ids)).
End machine.

(** ** What a position of the boot processor means *)

(** The value of [POST_PHASE]. *)
Fixpoint ph (b : bsp_pc) : Z :=
  match b with
  | BMessage _ | BWork | BProbe1 _ | BWaitDone | BWaitPre | BWaitMessage | BCheckMessage
  | BCheckStale | BCheckTasks | BRemap | BInvalidate | BClearAck2 | BEpoch2 | BSend2 _ | BWaitAck2 | BPhase2 => 1
  | BProbe2 _ | BWaitPost | BCheckPost | BOk | BRefuse _ => 2
  | BStop b _ => ph b
  | _ => 0
  end.

(** The message is in place; it has been announced. *)
Fixpoint posted (b : bsp_pc) : bool :=
  match b with
  | BMessageReady | BPhase1 => true
  | BStop b _ => posted b
  | _ => 1 <=? ph b
  end.

(** The mapping has been replaced. *)
Fixpoint remapped (b : bsp_pc) : bool :=
  match b with
  | BInvalidate | BClearAck2 | BEpoch2 | BSend2 _ | BWaitAck2 | BPhase2 => true
  | BStop b _ => remapped b
  | _ => 2 <=? ph b
  end.

(** All processors have finished their work. *)
Fixpoint all_done (b : bsp_pc) : bool :=
  match b with
  | BWaitPre | BWaitMessage | BCheckMessage | BCheckStale | BCheckTasks | BRemap => true
  | BStop b _ => all_done b
  | _ => remapped b
  end.

(** The old translation is gone from this processor, and from all. *)
Fixpoint own_clean (b : bsp_pc) : bool :=
  match b with
  | BClearAck2 | BEpoch2 | BSend2 _ | BWaitAck2 | BPhase2 => true
  | BStop b _ => own_clean b
  | _ => 2 <=? ph b
  end.

Fixpoint all_clean (b : bsp_pc) : bool :=
  match b with
  | BPhase2 => true
  | BStop b _ => all_clean b
  | _ => 2 <=? ph b
  end.

(** In a round of interrupts: the processors it has not been sent to yet. *)
Fixpoint unsent (ids : list Z) (b : bsp_pc) : option (list Z) :=
  match b with
  | BEpoch1 | BEpoch2 => Some ids
  | BSend1 l | BSend2 l => Some l
  | BWaitAck1 | BWaitAck2 => Some []
  | BStop b _ => unsent ids b
  | _ => None
  end.

Definition word (b : bsp_pc) : Z := if remapped b then NEW_WORD else OLD_WORD.

(** ** What a position of another processor means *)

Definition past_message (p : ap_pc) : bool :=
  match p with AOff | ALocal | AOnline | AReady | AWait1 => false | _ => true end.
Definition past_work (p : ap_pc) : bool :=
  match p with AWait2 | AProbe2 _ | AIdle => true | _ => false end.
Definition past_phase2 (p : ap_pc) : bool :=
  match p with AProbe2 _ | AIdle => true | _ => false end.

(** The value a probe holds is the one expected. *)
Definition probe_ok (expected : Z) (p : probe_pc) : Prop :=
  match p with PStore v | PCheck v => v = expected | _ => True end.

(** The probe after the replacement has stored its observation; it has reported. *)
Definition stored (p : probe_pc) : bool :=
  match p with PRead | PStore _ => false | _ => true end.
Definition reported (p : probe_pc) : bool := match p with PDone => true | _ => false end.

Definition ap_stored (p : ap_pc) : bool :=
  match p with AProbe2 p => stored p | AIdle => true | _ => false end.
Definition ap_reported (p : ap_pc) : bool :=
  match p with AProbe2 p => reported p | AIdle => true | _ => false end.

(** An interrupt of the current round is on its way or acknowledged; outside a round there
    is none. *)
Definition irq_ok (ids : list Z) (b : bsp_pc) (ack : bool) (c : Z) (i : irq) : Prop :=
  match unsent ids b with
  | None => i = INone
  | Some l =>
    if decide (c ∈ l) then i = INone ∧ ack = false
    else (i ≠ INone ∧ ack = false) ∨ (i = INone ∧ ack = true)
  end.

(** What holds of processor [c]: [ack] and [post] are its bits, [obs] its observation. *)
Record ap_ok (ids : list Z) (b : bsp_pc) (ack post : bool) (obs : option Z) (c : Z) (a : Ap) : Prop := {
  ok_message : past_message (pc a) = true → 1 ≤ ph b;
  ok_phase2 : past_phase2 (pc a) = true → ph b = 2;
  ok_fresh : pc a ≠ AMessage MStale;
  ok_probe1 p : pc a = AProbe1 p → probe_ok OLD_WORD p;
  ok_probe2 p : pc a = AProbe2 p → probe_ok NEW_WORD p;
  ok_done : all_done b = true → past_work (pc a) = true;
  ok_tlb v : tlb a = Some v → v = word b ∨ (v = OLD_WORD ∧ all_clean b = false);
  ok_irq : irq_ok ids b ack c (interrupt a);
  ok_acked l : unsent ids b = Some l → remapped b = true →
    interrupt a = IAck ∨ ack = true → tlb a ≠ Some OLD_WORD;
  ok_stored : ap_stored (pc a) = true → obs = Some NEW_WORD;
  ok_post : post = true → ap_reported (pc a) = true;
}.

(** Where [run] may stop short, and with what: a driver call, a wait, the check of the
    tasks. *)
Definition stops (accepted : bool) (b : bsp_pc) (e : PostFirmwareError) : Prop :=
  match b with
  | BStart _ | BSend1 _ | BSend2 _ => apic_error e
  | BWaitOnline | BWaitReady | BWaitLocal => e = ApStartup
  | BWaitAck1 => e = Ipi
  | BWaitDone | BWaitPre | BWaitMessage => e = Scheduler
  | BCheckTasks => e = Scheduler ∧ accepted = false
  | BWaitAck2 | BWaitPost => e = Tlb
  | _ => False
  end.

(** What holds of the boot processor. *)
Record bsp_ok (accepted : bool) (b : bsp_pc) (t : option Z) (post : bool) (obs : option Z) : Prop := {
  bok_fresh : b ≠ BMessage MStale ∧ ∀ e, b ≠ BRefuse e;
  bok_unsent l : b = BSend1 l ∨ b = BSend2 l → NoDup l;
  bok_probe1 p : b = BProbe1 p → probe_ok OLD_WORD p;
  bok_probe2 p : b = BProbe2 p → probe_ok NEW_WORD p;
  bok_tlb v : t = Some v → v = word b ∨ (v = OLD_WORD ∧ own_clean b = false);
  bok_stored p : b = BProbe2 p → stored p = true → obs = Some NEW_WORD;
  bok_post : post = true → obs = Some NEW_WORD ∧ ph b = 2;
  bok_stops b' e : b = BStop b' e → stops accepted b' e;
  bok_accepted : b = BRemap ∨ remapped b = true → accepted = true;
}.

Definition worked (a : Ap) : Z := if past_work (pc a) then 1 else 0.

Record inv (accepted : bool) (bsp : Z) (ids : list Z) (y : system) : Prop := {
  i_ids c : is_Some (aps y !! c) ↔ c ∈ ids;
  i_size : size (aps y) = length ids;
  i_phase : phase (shared y) = ph (bsp_at y);
  i_word : mapped_word (shared y) = word (bsp_at y);
  i_posted : posted (bsp_at y) = true → message_payload (shared y) = MESSAGE;
  i_stale : message_stale (shared y) = 0 ∧ tlb_stale (shared y) = 0;
  i_done : task_done (shared y) = count worked (aps y);
  i_aps c a : aps y !! c = Some a →
    ap_ok ids (bsp_at y) (Z.testbit (ipi_ack_mask (shared y)) c)
      (Z.testbit (tlb_post_mask (shared y)) c) (tlb_observed (shared y) !! c) c a;
  i_bsp : bsp_ok accepted (bsp_at y) (bsp_tlb y) (Z.testbit (tlb_post_mask (shared y)) bsp)
    (tlb_observed (shared y) !! bsp);
}.

(** ** Facts about positions *)

Lemma ph_range b : 0 ≤ ph b ≤ 2.
Proof. induction b; cbn; lia. Qed.

Lemma posted_ph b : 1 ≤ ph b → posted b = true.
Proof. induction b; cbn; intros; try done; try lia; auto. Qed.

Lemma ph_clean b : ph b = 2 → all_clean b = true ∧ remapped b = true ∧ unsent [] b = None.
Proof. induction b; cbn; intros; try done; auto. Qed.

Lemma ph_unsent ids b : ph b = 2 → unsent ids b = None.
Proof. induction b; cbn; intros; try done; auto. Qed.

Lemma remapped_done b : all_done b = false → remapped b = false.
Proof. induction b; cbn; intros; try done; auto. Qed.

(** ** One access of an application processor *)

Lemma or_bit_other c c' m : 0 ≤ c → 0 ≤ c' → c' ≠ c → Z.testbit (or_bit c m) c' = Z.testbit m c'.
Proof.
  intros Hc Hc' Hne. unfold or_bit. rewrite Z.shiftl_1_l, lor_pow2_testbit by done.
  rewrite (proj2 (Z.eqb_neq _ _)) by congruence. apply orb_false_r.
Qed.

Lemma or_bit_same c m : 0 ≤ c → Z.testbit (or_bit c m) c = true.
Proof.
  intros Hc. unfold or_bit. rewrite Z.shiftl_1_l, lor_pow2_testbit, Z.eqb_refl by done.
  apply orb_true_r.
Qed.

(** What a processor leaves alone. *)
Lemma ap_step_frame c p t s p' t' s' :
  0 ≤ c → ap_step c p t s = (p', t', s') →
  phase s' = phase s ∧ mapped_word s' = mapped_word s ∧
  message_payload s' = message_payload s ∧ ipi_ack_mask s' = ipi_ack_mask s ∧
  ∀ c', 0 ≤ c' → c' ≠ c →
    Z.testbit (tlb_post_mask s') c' = Z.testbit (tlb_post_mask s) c' ∧
    tlb_observed s' !! c' = tlb_observed s !! c'.
Proof.
  intros Hc Hs. destruct s.
  destruct p as [| | | | |[]| |[]| | |[]|]; cbn in Hs; repeat case_match; simplify_eq/=;
    split_and!; try done; intros c' Hc' Hne; split; try done;
    by rewrite ?or_bit_other, ?lookup_insert_ne by done.
Qed.

Lemma ap_step_done c p t s p' t' s' :
  ap_step c p t s = (p', t', s') →
  task_done s' = (if decide (p = ADone) then add1 (task_done s) else task_done s) ∧
  (past_work p = true → past_work p' = true) ∧
  (past_work p = false → past_work p' = bool_decide (p = ADone)).
Proof.
  intros Hs. destruct s.
  destruct p as [| | | | |[]| |[]| | |[]|]; cbn in Hs; repeat case_match; simplify_eq/=; done.
Qed.

(** A read through the cache gives what the cache may hold. *)
Lemma read_word b t v :
  (∀ v, t = Some v → v = word b ∨ (v = OLD_WORD ∧ all_clean b = false)) →
  v = default (word b) t →
  (all_done b = false → v = OLD_WORD) ∧ (ph b = 2 → v = NEW_WORD) ∧
  (v = word b ∨ (v = OLD_WORD ∧ all_clean b = false)).
Proof.
  intros Ht Hv. assert (v = word b ∨ (v = OLD_WORD ∧ all_clean b = false)) as Hw.
  { destruct t as [x|]; cbn in Hv; subst; [by apply Ht|by left]. }
  split_and!; [| |done]; unfold word in Hw.
  - intros Hd. rewrite remapped_done in Hw by done. naive_solver.
  - intros (Hc & Hr & _)%ph_clean. rewrite Hc, Hr in Hw. naive_solver.
Qed.

Lemma ap_step_own ids b c p t i s p' t' s' :
  0 ≤ c → phase s = ph b → mapped_word s = word b →
  (posted b = true → message_payload s = MESSAGE) → message_stale s = 0 ∧ tlb_stale s = 0 →
  ap_ok ids b (Z.testbit (ipi_ack_mask s) c) (Z.testbit (tlb_post_mask s) c)
    (tlb_observed s !! c) c (MkAp p t i) →
  ap_step c p t s = (p', t', s') →
  ap_ok ids b (Z.testbit (ipi_ack_mask s) c) (Z.testbit (tlb_post_mask s') c)
    (tlb_observed s' !! c) c (MkAp p' t' i) ∧ message_stale s' = 0 ∧ tlb_stale s' = 0.
Proof.
  intros Hc Hph Hwd Hpost [Hms Hts] [O1 O2 O3 O4 O5 O6 O7 O8 O9 O10 O11] Hs.
  pose proof (read_word b t _ O7 eq_refl) as (R1 & R2 & R3).
  pose proof (ph_range b) as Hr. cbn in *. destruct s. cbn in *. subst.
  destruct p as [| | | | |[]| |[]| | |[]|]; cbn in Hs;
    try (pose proof (O4 _ eq_refl) as O4'; cbn in O4');
    try (pose proof (O5 _ eq_refl) as O5'; cbn in O5');
    repeat case_match; simplify_eq/=; zb;
    (split; [constructor; cbn|]); try done; try (intros; simplify_eq/=; done);
    try (exact O8); try (exact O9).
  - exfalso. apply posted_ph, Hpost in O1; done.
  - intros q [= <-]. apply R1. by destruct (all_done b); [specialize (O6 eq_refl)|].
  - intros l _ Hrm. destruct (all_done b) eqn:Hd; [by specialize (O6 eq_refl)|].
    by rewrite remapped_done in Hrm.
  - intros _. lia.
  - intros q [= <-]. by apply R2, O2.
  - intros l _ _ _ [= Hx]. rewrite (R2 (O2 eq_refl)) in Hx. done.
  - intros _. apply lookup_insert_eq.
Qed.

(** *** Every kind of step *)

(** One access of the boot processor, by position. *)
Ltac bsp_cases b Hs :=
  destruct b as [|[]| | | | | |[]| | | | | | |[]| |[]| | | | | | | | | | |[]| | |[]| | | | |];
  cbn in Hs; unfold wait_step, send_step in Hs; repeat case_match; simplify_eq/=.

Section invariant.
Context (accepted : bool) (bsp : Z) (ids : list Z).
Context (Hids : NoDup ids) (Hrange : ∀ c, c ∈ bsp :: ids → 0 ≤ c < 64) (Hbsp : bsp ∉ ids).

Lemma ids_length : length ids ≤ 64.
Proof.
  assert (ids ⊆+ seqZ 0 64) as Hs%submseteq_length; [|by rewrite length_seqZ in Hs; lia].
  apply NoDup_submseteq; [done|]. intros c Hc. apply elem_of_seqZ.
  pose proof (Hrange c ltac:(set_solver)). lia.
Qed.

Lemma ap_id y c a : inv accepted bsp ids y → aps y !! c = Some a → 0 ≤ c < 64 ∧ c ≠ bsp ∧ c ∈ ids.
Proof.
  intros Hi Hc. assert (c ∈ ids) as Hin by (apply (i_ids _ _ _ _ Hi); by exists a).
  split; [apply Hrange; set_solver|]. split; [set_solver|done].
Qed.

(** One processor changes; the others see the same statics. *)
Lemma inv_ap y c a a' s :
  inv accepted bsp ids y → aps y !! c = Some a →
  phase s = phase (shared y) → mapped_word s = mapped_word (shared y) →
  message_payload s = message_payload (shared y) →
  (message_stale s = 0 ∧ tlb_stale s = 0) →
  task_done s = task_done (shared y) - worked a + worked a' →
  (∀ c', 0 ≤ c' → c' ≠ c →
    Z.testbit (ipi_ack_mask s) c' = Z.testbit (ipi_ack_mask (shared y)) c' ∧
    Z.testbit (tlb_post_mask s) c' = Z.testbit (tlb_post_mask (shared y)) c' ∧
    tlb_observed s !! c' = tlb_observed (shared y) !! c') →
  ap_ok ids (bsp_at y) (Z.testbit (ipi_ack_mask s) c) (Z.testbit (tlb_post_mask s) c)
    (tlb_observed s !! c) c a' →
  inv accepted bsp ids (MkSystem s (bsp_at y) (bsp_tlb y) (<[c := a']> (aps y))).
Proof.
  intros Hi Hc H1 H2 H3 H4 H5 Hv Ha. destruct (ap_id y c a Hi Hc) as (Hr & Hne & Hin).
  destruct Hi as [J1 J2 J3 J4 J5 J6 J7 J8 J9]. split; cbn.
  - intros c'. rewrite <- J1. destruct (decide (c' = c)) as [->|Hn].
    + rewrite lookup_insert_eq, Hc. split; by eexists.
    + by rewrite lookup_insert_ne.
  - by rewrite map_size_insert_Some by (by eexists).
  - congruence.
  - congruence.
  - intros Hp. rewrite H3. auto.
  - done.
  - by rewrite (count_update _ _ _ _ _ Hc), H5, J7.
  - intros c' b Hb. destruct (decide (c' = c)) as [->|Hn].
    + rewrite lookup_insert_eq in Hb. by simplify_eq.
    + rewrite lookup_insert_ne in Hb by done. pose proof (J8 c' b Hb) as Hok.
      assert (0 ≤ c') by (apply Hrange; right; apply J1; by eexists).
      destruct (Hv c') as (-> & -> & ->); done.
  - assert (0 ≤ bsp) as Hb by (apply Hrange; set_solver).
    destruct (Hv bsp Hb ltac:(done)) as (_ & -> & ->). done.
Qed.

Lemma worked_range a : 0 ≤ worked a ≤ 1.
Proof. unfold worked. case_match; lia. Qed.

Lemma done_range y : inv accepted bsp ids y → 0 ≤ task_done (shared y) ≤ 64.
Proof.
  intros Hi. rewrite (i_done _ _ _ _ Hi). pose proof (count_bound worked (aps y) worked_range) as Hc.
  rewrite (i_size _ _ _ _ Hi) in Hc. pose proof ids_length. lia.
Qed.

Lemma program_inv y c a p t s :
  inv accepted bsp ids y → aps y !! c = Some a → ap_step c (pc a) (tlb a) (shared y) = (p, t, s) →
  inv accepted bsp ids (MkSystem s (bsp_at y) (bsp_tlb y) (<[c := MkAp p t (interrupt a)]> (aps y))).
Proof.
  intros Hi Hc Hs. destruct (ap_id y c a Hi Hc) as (Hr & _).
  destruct (ap_step_frame c _ _ _ _ _ _ ltac:(lia) Hs) as (F1 & F2 & F3 & F4 & F5).
  destruct (ap_step_done c _ _ _ _ _ _ Hs) as (D1 & D2 & D3).
  pose proof (done_range y Hi) as Hd. pose proof (i_aps _ _ _ _ Hi c a Hc) as Hok.
  destruct a as [p0 t0 i0]. cbn in *.
  destruct (ap_step_own ids _ c p0 t0 i0 _ p t s ltac:(lia) (i_phase _ _ _ _ Hi) (i_word _ _ _ _ Hi)
    (i_posted _ _ _ _ Hi) (i_stale _ _ _ _ Hi) Hok Hs) as (Hok' & Hst).
  eapply inv_ap; try done; [| |by rewrite F4].
  - rewrite D1. unfold worked, add1, wrap. cbn. case_decide as E.
    + subst p0. rewrite D3, bool_decide_eq_true_2, Z.mod_small by (done || lia). cbn. lia.
    + destruct (past_work p0) eqn:E2; [rewrite D2 by done; cbn; lia|].
      rewrite D3, bool_decide_eq_false_2 by done. cbn. lia.
  - intros c' H0 Hne. rewrite F4. split; [done|]. by apply F5.
Qed.

Lemma irq_advance b ack c i i' :
  irq_ok ids b ack c i → i ≠ INone → i' ≠ INone → irq_ok ids b ack c i'.
Proof. unfold irq_ok. intros Hq Hi Hi'. destruct (unsent ids b); [case_decide|]; naive_solver. Qed.

Lemma irq_finish b ack c i : irq_ok ids b ack c i → i ≠ INone → irq_ok ids b true c INone.
Proof. unfold irq_ok. intros Hq Hi. destruct (unsent ids b); [case_decide|]; naive_solver. Qed.

Lemma handler_inv y c a a' s :
  inv accepted bsp ids y → aps y !! c = Some a → handler_step c a (shared y) = (a', s) →
  inv accepted bsp ids (MkSystem s (bsp_at y) (bsp_tlb y) (<[c := a']> (aps y))).
Proof.
  intros Hi Hc Hs. destruct (ap_id y c a Hi Hc) as (Hr & _).
  pose proof (i_aps _ _ _ _ Hi c a Hc) as [O1 O2 O3 O4 O5 O6 O7 O8 O9 O10 O11].
  destruct (i_stale _ _ _ _ Hi) as [S1 S2].
  eapply inv_ap; [done|exact Hc|..]; unfold handler_step in Hs; destruct a as [p0 t0 []], (shared y);
    cbn in *; simplify_eq/=; try done; try lia.
  1,2,3: unfold worked; cbn; lia.
  - intros c' H0 Hne. by rewrite or_bit_other by (done || lia).
  - constructor; cbn; try done; [by eapply irq_advance|].
    intros l Hl Hrm [?|Hack]; [done|]. apply (O9 l Hl Hrm). by right.
  - constructor; cbn; try done. by eapply irq_advance.
  - rewrite or_bit_same by lia. constructor; cbn; try done; [by eapply irq_finish|].
    intros l Hl Hrm _. apply (O9 l Hl Hrm). by left.
Qed.

Lemma cache_inv y c a t :
  inv accepted bsp ids y → aps y !! c = Some a → t = None ∨ t = Some (mapped_word (shared y)) →
  inv accepted bsp ids (MkSystem (shared y) (bsp_at y) (bsp_tlb y) (<[c := MkAp (pc a) t (interrupt a)]> (aps y))).
Proof.
  intros Hi Hc Ht. destruct (i_aps _ _ _ _ Hi c a Hc) as [O1 O2 O3 O4 O5 O6 O7 O8 O9 O10 O11].
  rewrite (i_word _ _ _ _ Hi) in Ht.
  eapply inv_ap; try done; [apply Hi|unfold worked; cbn; lia|].
  constructor; cbn; try done.
  - intros v ->. destruct Ht as [|[= ->]]; [done|by left].
  - intros l Hl Hrm _ ->. destruct Ht as [|[= Hw]]; [done|]. unfold word in Hw. by rewrite Hrm in Hw.
Qed.

Lemma bsp_cache_inv y t :
  inv accepted bsp ids y → t = None ∨ t = Some (mapped_word (shared y)) →
  inv accepted bsp ids (MkSystem (shared y) (bsp_at y) t (aps y)).
Proof.
  intros [J1 J2 J3 J4 J5 J6 J7 J8 [B1 B2 B3 B4 B5 B6 B7 B8 B9]] Ht. rewrite J4 in Ht.
  split; cbn; try done. constructor; try done.
  intros v ->. destruct Ht as [|[= ->]]; [done|by left].
Qed.

(** *** The boot processor *)

Context (full_mask ap_mask : Z).
Context (Hap : ∀ c, c ∈ ids → Z.testbit ap_mask c = true).
Context (Hfull : ∀ c, c ∈ bsp :: ids → Z.testbit full_mask c = true).

Abbreviation bstep timeout io := (bsp_step timeout io accepted bsp full_mask ap_mask (length ids) ids).

Lemma contains_bit m w c : contains m w = true → Z.testbit w c = true → Z.testbit m c = true.
Proof.
  unfold contains. rewrite Z.eqb_eq. intros <-. rewrite Z.land_spec. by intros [? _]%andb_true_iff.
Qed.

Lemma bsp_shared timeout io b t s p' t' s' :
  phase s = ph b → mapped_word s = word b → (posted b = true → message_payload s = MESSAGE) →
  message_stale s = 0 ∧ tlb_stale s = 0 → bsp_ok accepted b t (Z.testbit (tlb_post_mask s) bsp) (tlb_observed s !! bsp) →
  bstep timeout io b t s = (p', t', s') →
  (phase s' = ph p' ∧ mapped_word s' = word p' ∧ (posted p' = true → message_payload s' = MESSAGE)) ∧
  (message_stale s' = 0 ∧ tlb_stale s' = 0) ∧
  (task_done s' = task_done s ∨ (task_done s' = 0 ∧ ph b = 0 ∧ ph p' = 0)).
Proof.
  intros Hph Hwd Hpo [Hm Ht] Hb Hs. destruct s. cbn in *.
  bsp_cases b Hs; try (split_and!; auto; done).
  - by destruct (bok_fresh _ _ _ _ _ Hb).
  - pose proof (bok_probe1 _ _ _ _ _ Hb _ eq_refl) as Hv. cbn in Hv. by subst.
  - pose proof (bok_probe2 _ _ _ _ _ Hb _ eq_refl) as Hv. cbn in Hv. by subst.
Qed.

Lemma bsp_own timeout io b t s p' t' s' :
  outcome_ok io →
  mapped_word s = word b → (posted b = true → message_payload s = MESSAGE) →
  message_stale s = 0 ∧ tlb_stale s = 0 → bsp_ok accepted b t (Z.testbit (tlb_post_mask s) bsp) (tlb_observed s !! bsp) →
  bstep timeout io b t s = (p', t', s') →
  bsp_ok accepted p' t' (Z.testbit (tlb_post_mask s') bsp) (tlb_observed s' !! bsp).
Proof.
  intros Hio Hwd Hpo [Hm Ht] [[B1 B1'] B2 B3 B4 B5 B6 B7 B8 B9] Hs.
  assert (0 ≤ bsp) as Hb0 by (apply Hrange; set_solver). destruct s. cbn in *.
  bsp_cases b Hs; zb; simplify_eq/=; try done;
    constructor; try (split; [discriminate|intros ?; discriminate]); try done;
    try (intros; simplify_eq/=; done);
    try (intros l' [[= <-]|[= <-]]; exact Hids).
  all: try (intros l' Hl; specialize (B2 (z :: l) ltac:(tauto)); apply NoDup_cons in B2 as [_ B2];
            destruct Hl; by simplify_eq).
  all: try (intros q [= <-]; cbn; intros; by apply (B6 _ eq_refl)).
  all: try (by intros [_ ?]%B7).
  all: try (by intros [?|?]).
  all: try (intros _; apply B9; first [by left | by right]).
  - exfalso. by apply H, Hpo.
  - intros q [= <-]. cbn. destruct t as [v|]; cbn; [|done]. by destruct (B5 v eq_refl) as [?|[? _]].
  - intros v [= <-]. destruct t as [v|]; cbn; [|by left]. by apply B5.
  - intros q [= <-]. apply (B3 _ eq_refl).
  - intros v Hv. destruct (B5 v Hv) as [->|[? _]]; right; done.
  - intros q [= <-]. cbn. destruct t as [v|]; cbn; [|done]. by destruct (B5 v eq_refl) as [?|[_ ?]].
  - intros v [= <-]. destruct t as [v|]; cbn; [|by left]. by apply B5.
  - intros q [= <-]. apply (B4 _ eq_refl).
  - intros q [= <-] _. specialize (B4 _ eq_refl). cbn in B4. subst. apply lookup_insert_eq.
  - intros _. specialize (B4 _ eq_refl). cbn in B4. subst. split; [apply lookup_insert_eq|done].
  - intros _. split; [|done]. by apply (B6 _ eq_refl).
Qed.

Lemma ap_ok_same b b' ack post obs c a :
  ph b' = ph b → all_done b' = all_done b → all_clean b' = all_clean b → remapped b' = remapped b →
  unsent ids b' = unsent ids b → ap_ok ids b ack post obs c a → ap_ok ids b' ack post obs c a.
Proof.
  intros E1 E2 E3 E4 E5 [O1 O2 O3 O4 O5 O6 O7 O8 O9 O10 O11].
  split; unfold irq_ok, word in *; rewrite ?E1, ?E2, ?E3, ?E4, ?E5; done.
Qed.

Lemma reported_phase2 p : ap_reported p = true → past_phase2 p = true.
Proof. by destruct p. Qed.

(** The four transitions of a round of interrupts. *)
Lemma irq_open b b' ack c i :
  c ∈ ids → unsent ids b = None → unsent ids b' = Some ids →
  irq_ok ids b ack c i → irq_ok ids b' (Z.testbit 0 c) c i.
Proof.
  unfold irq_ok. intros Hc E E'. rewrite E, E', decide_True by done.
  intros ->. split; [done|]. apply Z.testbit_0_l.
Qed.

Lemma irq_send b b' z l ack i :
  unsent ids b = Some (z :: l) → unsent ids b' = Some l → NoDup (z :: l) →
  irq_ok ids b ack z i → irq_ok ids b' ack z ISent.
Proof.
  unfold irq_ok. intros E E' [Hz _]%NoDup_cons. rewrite E, E', decide_True by set_solver.
  rewrite decide_False by done. intros [_ ->]. by left.
Qed.

Lemma irq_skip b b' z l c ack i :
  unsent ids b = Some (z :: l) → unsent ids b' = Some l → c ≠ z →
  irq_ok ids b ack c i → irq_ok ids b' ack c i.
Proof.
  unfold irq_ok. intros E E' Hz. rewrite E, E'.
  destruct (decide (c ∈ l)); [rewrite decide_True by set_solver|rewrite decide_False by set_solver]; done.
Qed.

Lemma irq_close b b' c ack i :
  unsent ids b = Some [] → unsent ids b' = None → ack = true →
  irq_ok ids b ack c i → irq_ok ids b' ack c i.
Proof.
  unfold irq_ok. intros E E' ->. rewrite E, E', decide_False by set_solver. naive_solver.
Qed.

(** An interrupt goes out to [z], seen from [z] and from another processor. *)
Lemma ap_sent b b' z l ack post obs a :
  ph b' = ph b → all_done b' = all_done b → all_clean b' = all_clean b → remapped b' = remapped b →
  unsent ids b = Some (z :: l) → unsent ids b' = Some l → NoDup (z :: l) →
  ap_ok ids b ack post obs z a → ap_ok ids b' ack post obs z (MkAp (pc a) (tlb a) ISent).
Proof.
  intros E1 E2 E3 E4 E5 E6 Hnd [O1 O2 O3 O4 O5 O6 O7 O8 O9 O10 O11].
  split; cbn; unfold word in *; rewrite ?E1, ?E2, ?E3, ?E4; try done.
  - by apply (irq_send b b' z l _ (interrupt a)).
  - intros l' _ Hr [?|Hk]; [done|]. apply (O9 _ E5 Hr). by right.
Qed.

Lemma ap_skipped b b' z l c ack post obs a :
  c ≠ z →
  ph b' = ph b → all_done b' = all_done b → all_clean b' = all_clean b → remapped b' = remapped b →
  unsent ids b = Some (z :: l) → unsent ids b' = Some l →
  ap_ok ids b ack post obs c a → ap_ok ids b' ack post obs c a.
Proof.
  intros Hc E1 E2 E3 E4 E5 E6 [O1 O2 O3 O4 O5 O6 O7 O8 O9 O10 O11].
  split; unfold word in *; rewrite ?E1, ?E2, ?E3, ?E4; try done.
  - by apply (irq_skip b b' z l).
  - intros l' _ Hr. by apply (O9 _ E5).
Qed.

(** What a step of the boot processor means for processor [c]. *)
Definition affected (io : outcome) (b : bsp_pc) (c : Z) (a : Ap) : Ap :=
  match bsp_effect io b with
  | Some (c', f) => if decide (c = c') then f a else a
  | None => a
  end.
#[local] Arguments affected : simpl never.

Lemma bsp_aps timeout io b t s p' t' s' c a :
  c ∈ ids → bsp_ok accepted b t (Z.testbit (tlb_post_mask s) bsp) (tlb_observed s !! bsp) →
  (length ids ≤ task_done s → past_work (pc a) = true) → message_stale s = 0 ∧ tlb_stale s = 0 →
  ap_ok ids b (Z.testbit (ipi_ack_mask s) c) (Z.testbit (tlb_post_mask s) c)
    (tlb_observed s !! c) c a →
  bstep timeout io b t s = (p', t', s') →
  ap_ok ids p' (Z.testbit (ipi_ack_mask s') c) (Z.testbit (tlb_post_mask s') c)
    (tlb_observed s' !! c) c (affected io b c a).
Proof.
  intros Hc Hb Hdone [Hm Ht] Hok Hs. pose proof Hok as [O1 O2 O3 O4 O5 O6 O7 O8 O9 O10 O11].
  assert (0 ≤ bsp) as Hb0 by (apply Hrange; set_solver).
  assert (0 ≤ c ∧ c ≠ bsp) as [Hc0 Hcb] by (split; [apply Hrange; set_solver|set_solver]).
  destruct s. cbn in *.
  bsp_cases b Hs; unfold affected, bsp_effect; cbn [reaches]; rewrite ?Tauto.if_same; try case_decide; subst;
    rewrite ?or_bit_other, ?lookup_insert_ne by congruence;
    try (refine (ap_ok_same _ _ _ _ _ _ _ _ _ _ _ _ Hok); reflexivity); try done.
  all: try (by refine (ap_skipped _ _ z l _ _ _ _ _ _ _ _ _ _ _ _ Hok)).
  all: try (refine (ap_sent _ _ _ l _ _ _ _ _ _ _ _ _ _ _ Hok); try reflexivity;
            apply (bok_unsent _ _ _ _ _ Hb); by (left + right)).
  - constructor; cbn; try done. intros Hp%O11%reported_phase2%O2. done.
  - constructor; cbn; try done. intros Hp%O11%reported_phase2%O2. done.
  - constructor; cbn; try done. by apply (irq_open BClearAck1 BEpoch1 (Z.testbit ipi_ack_mask0 c)).
  - constructor; cbn; try done. eapply (irq_close BWaitAck1 BClearDone c); [done..| |exact O8].
    by eapply contains_bit; [|apply Hap].
  - constructor; cbn; try done. by intros ?%O2.
  - constructor; cbn; try done. intros _. apply Hdone. by zb.
  - constructor; cbn; try done. intros v Hv. destruct (O7 v Hv) as [->|[-> _]]; by right.
  - constructor; cbn; try done; [by apply (irq_open BClearAck2 BEpoch2 (Z.testbit ipi_ack_mask0 c))|].
    intros l _ _ [Hi|Hz]; [|by rewrite Z.testbit_0_l in Hz].
    unfold irq_ok in O8. cbn in O8. by rewrite O8 in Hi.
  - assert (Z.testbit ipi_ack_mask0 c = true) as Hack by (by eapply contains_bit; [|apply Hap]).
    constructor; cbn; try done; [|by eapply (irq_close BWaitAck2 BPhase2 c); [..|exact Hack|]].
    intros v Hv. destruct (O7 v Hv) as [->|[-> _]]; [by left|].
    by destruct (O9 _ eq_refl eq_refl (or_intror Hack)).
Qed.

(** The boot processor's step on the map of the others. *)
Definition effect (io : outcome) (b : bsp_pc) (m : gmap Z Ap) : gmap Z Ap :=
  match bsp_effect io b with Some (c, f) => alter f c m | None => m end.

Lemma effect_lookup io b m c : effect io b m !! c = affected io b c <$> m !! c.
Proof.
  unfold effect, affected. destruct (bsp_effect io b) as [[c' f]|]; [|by destruct (m !! c)].
  case_decide as E; [subst; by rewrite lookup_alter_eq|]. rewrite lookup_alter_ne by done.
  by destruct (m !! c).
Qed.

Lemma effect_size io b m : size (effect io b m) = size m.
Proof.
  unfold effect. destruct (bsp_effect io b) as [[c' f]|]; [|done].
  by rewrite <- !size_dom, dom_alter_L.
Qed.

(** Being started or interrupted does not count as work. *)
Lemma effect_worked io b m :
  (∀ c a, m !! c = Some a → past_work (pc a) = true → 1 ≤ ph b) →
  count worked (effect io b m) = count worked m.
Proof.
  intros Hm. unfold effect. destruct (bsp_effect io b) as [[c f]|] eqn:E; [|done].
  destruct (m !! c) as [a|] eqn:Ha; [|by rewrite alter_id; [|intros ? ?; congruence]].
  assert (worked (f a) = worked a) as Hw.
  { specialize (Hm c a Ha). unfold worked. unfold bsp_effect in E. destruct (reaches io); [|done]. destruct b as [|[]| | | | | |[]| | | | | | |[]| |[]| | | | | | | | | | |[]| | |[]| | | | |];
      simplify_eq/=; try done. destruct (past_work (pc a)); [|done]. by specialize (Hm eq_refl). }
  assert (alter f c m = <[c := f a]> m) as ->.
  { apply map_eq. intros c'. destruct (decide (c' = c)) as [->|Hn].
    - by rewrite lookup_alter_eq, lookup_insert_eq, Ha.
    - by rewrite lookup_alter_ne, lookup_insert_ne. }
  rewrite (count_update _ _ _ _ _ Ha). lia.
Qed.

Lemma work_phase y c a :
  inv accepted bsp ids y → aps y !! c = Some a → past_work (pc a) = true → 1 ≤ ph (bsp_at y).
Proof.
  intros Hi Hc Hw. apply (ok_message _ _ _ _ _ _ _ (i_aps _ _ _ _ Hi c a Hc)).
  by destruct (pc a).
Qed.

(** Before phase 1 nobody has worked. *)
Lemma no_work y : inv accepted bsp ids y → ph (bsp_at y) = 0 → count worked (aps y) = 0.
Proof.
  intros Hi Hph. rewrite (count_all _ _ 0); [lia|]. intros c a Ha. unfold worked.
  destruct (past_work (pc a)) eqn:Hw; [|done]. pose proof (work_phase y c a Hi Ha Hw). lia.
Qed.

Lemma all_worked y c a :
  inv accepted bsp ids y → aps y !! c = Some a → length ids ≤ task_done (shared y) → past_work (pc a) = true.
Proof.
  intros Hi Hc Hd. rewrite (i_done _ _ _ _ Hi), <- (i_size _ _ _ _ Hi) in Hd.
  pose proof (count_full worked (aps y) c a (λ q, proj2 (worked_range q)) Hd Hc) as Hw. unfold worked in Hw.
  by destruct (past_work (pc a)).
Qed.

Lemma bsp_inv y timeout io p t s :
  inv accepted bsp ids y → outcome_ok io → bstep timeout io (bsp_at y) (bsp_tlb y) (shared y) = (p, t, s) →
  inv accepted bsp ids (MkSystem s p t (effect io (bsp_at y) (aps y))).
Proof.
  intros Hi Hio Hs. pose proof Hi as [J1 J2 J3 J4 J5 J6 J7 J8 J9].
  destruct (bsp_shared _ _ _ _ _ _ _ _ J3 J4 J5 J6 J9 Hs) as ((S1 & S2 & S3) & S4 & S5).
  split; cbn; try done.
  - intros c. rewrite <- J1, effect_lookup. apply fmap_is_Some.
  - by rewrite effect_size.
  - rewrite effect_worked by (intros c a Ha; by apply (work_phase y c a)).
    destruct S5 as [->|(-> & Hph & _)]; [done|]. by rewrite no_work.
  - intros c a'. rewrite effect_lookup. intros (a & Ha & ->)%fmap_Some.
    eapply bsp_aps; [|exact J9| |exact J6|by apply J8|exact Hs].
    + apply J1. by exists a.
    + by apply (all_worked y c).
  - exact (bsp_own _ _ _ _ _ _ _ _ Hio J4 J5 J6 J9 Hs).
Qed.

Lemma phases_step_inv y y' : inv accepted bsp ids y → step accepted bsp ids full_mask ap_mask y y' → inv accepted bsp ids y'.
Proof.
  intros Hi. inversion_clear 1 as [? c a p t s Hc _ Hs|? c a a' s Hc Hs|? c a t Hc Ht|? t Ht|? b io p t s Hio Hs].
  - by apply program_inv with (a := a).
  - by apply handler_inv with (a := a).
  - by apply cache_inv with (a := a).
  - by apply bsp_cache_inv.
  - by apply bsp_inv with (timeout := b) (io := io).
Qed.

Lemma phases_booted_inv : inv accepted bsp ids (booted bsp ids).
Proof.
  assert (∀ c a, aps (booted bsp ids) !! c = Some a → c ∈ ids ∧ a = MkAp AOff None INone) as Hl.
  { intros c a Ha%elem_of_list_to_map_2. apply list_elem_of_fmap in Ha as (x & [= -> ->] & Hx). done. }
  split; cbn; try done.
  - intros c. split; [intros [a Ha]; by apply (Hl c a)|].
    intros Hc. exists (MkAp AOff None INone). apply elem_of_list_to_map_1.
    + rewrite <- list_fmap_compose. cbn. by rewrite list_fmap_id.
    + apply list_elem_of_fmap. by exists c.
  - rewrite map_size_list_to_map, length_fmap; [done|].
    rewrite <- list_fmap_compose. cbn. by rewrite list_fmap_id.
  - rewrite (count_all _ _ 0); [lia|]. intros c a Ha. by destruct (Hl c a Ha) as [_ ->].
  - intros c a [Hc ->]%Hl. rewrite !Z.testbit_0_l. constructor; cbn; done.
  - rewrite !Z.testbit_0_l. constructor; try done; [by intros l [?|?]|by intros [?|?]].
Qed.

(** Reports stay; [BCheckPost] is reached when all are in. *)
Definition all_reported (y : system) : Prop :=
  bsp_at y = BCheckPost ∨ bsp_at y = BOk →
  ∀ c, c ∈ bsp :: ids → Z.testbit (tlb_post_mask (shared y)) c = true.

Lemma or_bit_grows c c' m : 0 ≤ c → 0 ≤ c' → Z.testbit m c' = true → Z.testbit (or_bit c m) c' = true.
Proof.
  intros Hc Hc' Hm. destruct (decide (c' = c)) as [->|Hn]; [by apply or_bit_same|].
  by rewrite or_bit_other.
Qed.

Lemma ap_step_reports c p t s p' t' s' c' :
  0 ≤ c → 0 ≤ c' → ap_step c p t s = (p', t', s') →
  Z.testbit (tlb_post_mask s) c' = true → Z.testbit (tlb_post_mask s') c' = true.
Proof.
  intros Hc Hc' Hs Hb. destruct s.
  destruct p as [| | | | |[]| |[]| | |[]|]; cbn in *; repeat case_match; simplify_eq/=; try done.
  by apply or_bit_grows.
Qed.

Lemma bsp_step_reports timeout io b t s p' t' s' :
  bstep timeout io b t s = (p', t', s') → p' = BCheckPost ∨ p' = BOk →
  tlb_post_mask s' = tlb_post_mask s ∧
  (b = BCheckPost ∨ b = BOk ∨ contains (tlb_post_mask s) full_mask = true).
Proof.
  intros Hs Hp. destruct s. bsp_cases b Hs; destruct Hp; simplify_eq/=; auto.
Qed.

Lemma step_reported y y' :
  inv accepted bsp ids y → all_reported y → step accepted bsp ids full_mask ap_mask y y' → all_reported y'.
Proof.
  intros Hi Hr. inversion_clear 1 as [? c a p t s Hc _ Hs|? c a a' s Hc Hs|? c a t Hc Ht|? t Ht|? b io p t s Hio Hs];
    intros Hat c' Hc'; cbn in *; pose proof (Hrange c' Hc') as Hr'; try (by apply Hr).
  - destruct (ap_id y c a Hi Hc) as (Hrc & _).
    eapply ap_step_reports; [..|exact Hs|by apply Hr]; lia.
  - specialize (Hr Hat c' Hc'). unfold handler_step in Hs. destruct (shared y).
    by destruct (interrupt a); simplify_eq/=.
  - destruct (bsp_step_reports _ _ _ _ _ _ _ _ Hs Hat) as (-> & [Hb|[Hb|Hb]]); [apply Hr; auto..|].
    by eapply contains_bit; [|apply Hfull].
Qed.

Lemma reachable_inv y :
  rtc (step accepted bsp ids full_mask ap_mask) (booted bsp ids) y → inv accepted bsp ids y ∧ all_reported y.
Proof.
  intros Hy. apply rtc_nsteps in Hy as [n Hy].
  assert (inv accepted bsp ids (booted bsp ids) ∧ all_reported (booted bsp ids)) as H0.
  { split; [exact phases_booted_inv|]. by intros [?|?]. }
  revert H0 Hy. generalize (booted bsp ids) as x. induction n as [|n IH]; intros x [Hi Hr] Hy.
  - by inversion Hy; subst.
  - inversion Hy as [|? ? z ? Hs Hn]; subst. apply (IH z); [|done].
    split; [by eapply phases_step_inv|by eapply step_reported].
Qed.

(** What the invariant says of the reports. *)
Lemma reported_stored p : ap_reported p = true → ap_stored p = true.
Proof. by destruct p as [| | | | |[]| |[]| | |[]|]. Qed.

Lemma reported_new y c :
  inv accepted bsp ids y → c ∈ bsp :: ids → Z.testbit (tlb_post_mask (shared y)) c = true →
  tlb_observed (shared y) !! c = Some NEW_WORD.
Proof.
  intros Hi [->|Hc]%elem_of_cons Hb; [by apply (i_bsp _ _ _ _ Hi)|].
  apply (i_ids _ _ _ _ Hi) in Hc as [a Ha]. pose proof (i_aps _ _ _ _ Hi c a Ha) as Hok.
  apply (ok_stored _ _ _ _ _ _ _ Hok), reported_stored, (ok_post _ _ _ _ _ _ _ Hok), Hb.
Qed.

Lemma own_clean_ph b : ph b = 2 → own_clean b = true.
Proof. induction b; cbn; intros; try done; auto. Qed.

Lemma phase2_clean y :
  inv accepted bsp ids y → phase (shared y) = 2 →
  bsp_tlb y ≠ Some OLD_WORD ∧ ∀ c a, aps y !! c = Some a → tlb a ≠ Some OLD_WORD.
Proof.
  intros Hi Hp. rewrite (i_phase _ _ _ _ Hi) in Hp. destruct (ph_clean _ Hp) as (Hc & Hm & _).
  pose proof (own_clean_ph _ Hp) as Ho. split.
  - intros Ht. destruct (bok_tlb _ _ _ _ _ (i_bsp _ _ _ _ Hi) _ Ht) as [Hw|[_ ?]]; [|congruence].
    unfold word in Hw. by rewrite Hm in Hw.
  - intros c a Ha Ht. destruct (ok_tlb _ _ _ _ _ _ _ (i_aps _ _ _ _ Hi c a Ha) _ Ht) as [Hw|[_ ?]];
      [|congruence]. unfold word in Hw. by rewrite Hm in Hw.
Qed.
End invariant.

(** ** A schedule, to run the machine *)

(** [apic_ids] without the boot processor, and the masks [run] computes. *)
Definition others (bsp : Z) (apic_ids : list Z) : list Z := filter (λ c, c ≠ bsp) apic_ids.
Definition ap_mask_of (bsp full_mask : Z) : Z := Z.land full_mask (Z.lnot (Z.shiftl 1 bsp)).

Section schedule.
Context (accepted : bool) (bsp : Z) (ids : list Z) (full_mask ap_mask : Z).

Definition turn_bsp (y : system) : system :=
  let '(p, t, s) := bsp_step false Sent accepted bsp full_mask ap_mask (length ids) ids (bsp_at y) (bsp_tlb y) (shared y) in
  MkSystem s p t match bsp_effect Sent (bsp_at y) with Some (c, f) => alter f c (aps y) | None => aps y end.

Definition turn_ap (c : Z) (y : system) : system :=
  match aps y !! c with
  | None => y
  | Some a =>
    match interrupt a with
    | INone =>
      let '(p, t, s) := ap_step c (pc a) (tlb a) (shared y) in
      MkSystem s (bsp_at y) (bsp_tlb y) (<[c := MkAp p t (interrupt a)]> (aps y))
    | _ =>
      let '(a', s) := handler_step c a (shared y) in
      MkSystem s (bsp_at y) (bsp_tlb y) (<[c := a']> (aps y))
    end
  end.

Fixpoint drive (rounds : nat) (y : system) : system :=
  match rounds with
  | O => y
  | S n => drive n (foldr turn_ap (turn_bsp y) ids)
  end.

Lemma turn_ap_steps c y : rtc (step accepted bsp ids full_mask ap_mask) y (turn_ap c y).
Proof.
  unfold turn_ap. destruct (aps y !! c) as [a|] eqn:Hc; [|done].
  destruct (interrupt a) eqn:Hi; [destruct (ap_step _ _ _ _) as [[p t] s] eqn:Hs|
    destruct (handler_step _ _ _) as [a' s] eqn:Hs..]; apply rtc_once;
    [|by eapply step_handler..].
  rewrite <- Hi. eapply step_program; eauto.
Qed.

Lemma turn_bsp_steps y : rtc (step accepted bsp ids full_mask ap_mask) y (turn_bsp y).
Proof.
  unfold turn_bsp.
  destruct (bsp_step false Sent accepted bsp full_mask ap_mask (length ids) ids (bsp_at y) (bsp_tlb y) (shared y))
    as [[p t] s] eqn:Hs.
  apply rtc_once. by apply step_bsp with (timeout := false) (io := Sent).
Qed.

Lemma drive_steps n y : rtc (step accepted bsp ids full_mask ap_mask) y (drive n y).
Proof.
  revert y. induction n as [|n IH]; intros y; [done|]. cbn. etrans; [|apply IH].
  etrans; [apply turn_bsp_steps|]. generalize (turn_bsp y) as z.
  assert (∀ l z, rtc (step accepted bsp ids full_mask ap_mask) z (foldr turn_ap z l)) as Hl; [|auto].
  induction l as [|c l IHl]; intros z; [done|]. cbn. etrans; [apply IHl|apply turn_ap_steps].
Qed.
End schedule.

(** ** The shootdown *)

(** What the admission checks give about the processors and their masks. *)
Lemma others_ok bsp apic_ids full_mask :
  (∀ c, c ∈ apic_ids → u32 c) → bsp ∈ apic_ids → expected_mask apic_ids = Ok full_mask →
  (∀ c, c ∈ bsp :: others bsp apic_ids ↔ c ∈ apic_ids) ∧
  (∀ c, c ∈ bsp :: others bsp apic_ids → 0 ≤ c < 64) ∧
  NoDup (others bsp apic_ids) ∧ bsp ∉ others bsp apic_ids ∧
  (∀ c, c ∈ bsp :: others bsp apic_ids → Z.testbit full_mask c = true) ∧
  (∀ c, 0 ≤ c → Z.testbit (ap_mask_of bsp full_mask) c = true ↔ c ∈ others bsp apic_ids).
Proof.
  intros Hu Hb Hm. destruct (expected_mask_Ok _ _ Hu Hm) as (Hnd & H64 & _ & Hbit).
  assert (∀ c, c ∈ bsp :: others bsp apic_ids ↔ c ∈ apic_ids) as Hin.
  { intros c. unfold others. rewrite elem_of_cons, list_elem_of_filter. destruct (decide (c = bsp)); naive_solver. }
  assert (∀ c, c ∈ bsp :: others bsp apic_ids → 0 ≤ c < 64) as Hrange.
  { intros c Hc%Hin. pose proof (Hu c Hc). pose proof (H64 c Hc). ulia. }
  assert (0 ≤ bsp < 64) as Hb64 by (apply Hrange; by left).
  split_and!; [done|done|by apply NoDup_filter|unfold others; rewrite list_elem_of_filter; naive_solver|..].
  - intros c Hc. apply Hbit; [by apply Hrange|by apply Hin].
  - intros c Hc. unfold ap_mask_of, others. rewrite Z.land_spec, Z.lnot_spec, andb_true_iff, negb_true_iff by done.
    rewrite Hbit, list_elem_of_filter, Z.shiftl_1_l, Z.pow2_bits_eqb by lia. rewrite Z.eqb_neq. naive_solver.
Qed.

(** C12. However the processors' accesses, interrupts and cache fills interleave, and
    whichever calls of the APIC driver fail, no processor ever reads a stale message or a
    stale translation: the two failure counters stay zero, and no check of them fails.
    [run] stops short in this part only where a wait times out, where the driver does not
    get an interrupt out, or where the check of the tasks refuses what they left, each with
    the error of that place.  Once [POST_PHASE] is 2 no translation cache holds the old
    word, and when [run] goes on, the tasks were accepted and every processor has stored
    the new word. *)
Theorem shootdown_never_stale (accepted : bool) (bsp : Z) (apic_ids : list Z) (full_mask : Z) (y : system) :
  (∀ c, c ∈ apic_ids → u32 c) → bsp ∈ apic_ids → expected_mask apic_ids = Ok full_mask →
  rtc (step accepted bsp (others bsp apic_ids) full_mask (ap_mask_of bsp full_mask))
    (booted bsp (others bsp apic_ids)) y →
  message_stale (shared y) = 0 ∧ tlb_stale (shared y) = 0 ∧ (∀ e, bsp_at y ≠ BRefuse e) ∧
  (∀ b e, bsp_at y = BStop b e → stops accepted b e) ∧
  (phase (shared y) = 2 →
    bsp_tlb y ≠ Some OLD_WORD ∧ ∀ c a, aps y !! c = Some a → tlb a ≠ Some OLD_WORD) ∧
  (bsp_at y = BOk → accepted = true ∧ ∀ c, c ∈ apic_ids → tlb_observed (shared y) !! c = Some NEW_WORD).
Proof.
  intros Hu Hb Hm Hy. destruct (others_ok _ _ _ Hu Hb Hm) as (Hin & Hrange & Hnd & Hnb & Hfull & Hap).
  destruct (reachable_inv accepted bsp (others bsp apic_ids) Hnd Hrange Hnb full_mask (ap_mask_of bsp full_mask)) with (y := y)
    as [Hi Hr]; [|done|done|].
  { intros c Hc. pose proof (Hrange c ltac:(by right)). by apply Hap; [lia|]. }
  destruct (i_stale _ _ _ _ Hi) as [S1 S2]. pose proof (i_bsp _ _ _ _ Hi) as Hok. split_and!; try done.
  - apply Hok.
  - intros b e. apply Hok.
  - by apply (phase2_clean accepted bsp (others bsp apic_ids)).
  - intros Hat. split; [apply (bok_accepted _ _ _ _ _ Hok); rewrite Hat; by right|].
    intros c Hc%Hin. apply (reported_new accepted bsp (others bsp apic_ids) y c Hi Hc), Hr; [by right|exact Hc].
Qed.

(** Three processors run to the end. *)
Definition three : system :=
  drive true 1 [0; 2] 7 5 120 (booted 1 [0; 2]).

Lemma shootdown_never_stale_witness :
  bsp_at three = BOk ∧ tlb_stale (shared three) = 0 ∧
  ∀ c, c ∈ [0; 1; 2] → tlb_observed (shared three) !! c = Some NEW_WORD.
Proof.
  assert (bsp_at three = BOk) as Hok by (vm_compute; reflexivity).
  destruct (shootdown_never_stale true 1 [0; 1; 2] 7 three) as (_ & S & _ & _ & _ & Ho).
  - intros c Hc. repeat (apply elem_of_cons in Hc as [->|Hc]; [ulia|]). destruct (not_elem_of_nil _ Hc).
  - apply elem_of_cons. right. apply list_elem_of_here.
  - vm_compute. reflexivity.
  - exact (drive_steps true 1 [0; 2] 7 5 120 (booted 1 [0; 2])).
  - split_and!; [exact Hok|exact S|exact (proj2 (Ho Hok))].
Defined.
End Phases.
