(* ===== verification/Reports.v ===== *)
(** * The masks [run] reports, in
      [platform/x86_64-pc-uefi-smp-v1/runtime/src/post_firmware.rs]

    [run] ends with a report that counts the bits of the masks the processors
    have set.  Here: in the state in which [Phases] leaves the boot processor,
    each of these masks is exactly the one expected.  From above, because a
    processor sets only its own bit; from below, because each mask is waited
    for and never cleared after its wait. *)
From S2P Require Import Prelude Interleave Target Phases.

Module Reports.
Import Target Phases.

(** The masks: all processors, or those without the boot processor. *)
Definition reports (s : Shared) : list Z :=
  [online_mask s; cpu_local_mask s; message_mask s; tlb_post_mask s].

(** What the boot processor has waited for. *)
Definition waited (b : bsp_pc) : list bool :=
  match b with
  | BWaitReady | BWaitLocal => [true; false; false; false]
  | BClearAck1 | BEpoch1 | BSend1 _ | BWaitAck1 | BClearDone | BClearReady | BPayload | BMessageReady
  | BPhase1 | BMessage _ | BWork | BProbe1 _ | BWaitDone | BWaitPre | BWaitMessage => [true; true; false; false]
  | BCheckMessage | BCheckStale | BCheckTasks | BRemap | BInvalidate | BClearAck2 | BEpoch2 | BSend2 _ | BWaitAck2
  | BPhase2 | BProbe2 _ | BWaitPost => [true; true; true; false]
  | BCheckPost | BOk => [true; true; true; true]
  | _ => [false; false; false; false]
  end.

Definition acked (b : bsp_pc) : bool :=
  match b with BPhase2 | BProbe2 _ | BWaitPost | BCheckPost | BOk => true | _ => false end.

(** [m] has only bits of [l], and all bits of [w] if [k]. *)
Definition between (l : list Z) (k : bool) (w m : Z) : Prop :=
  0 ≤ m ∧ (∀ c, 0 ≤ c → Z.testbit m c = true → c ∈ l) ∧ (k = true → contains m w = true).

Lemma contains_spec m w : contains m w = true ↔ ∀ c, 0 ≤ c → Z.testbit w c = true → Z.testbit m c = true.
Proof.
  split; [intros H c _; by apply contains_bit|]. intros H. unfold contains. apply Z.eqb_eq, Z.bits_inj'.
  intros i Hi. rewrite Z.land_spec. specialize (H i Hi). destruct (Z.testbit w i); [by rewrite H|apply andb_false_r].
Qed.

Lemma between_grows l k w m c : 0 ≤ c → c ∈ l → between l k w m → between l k w (or_bit c m).
Proof.
  intros Hc Hin (H0 & Hl & Hk). split_and!.
  - unfold or_bit. rewrite Z.shiftl_1_l. apply Z.lor_nonneg. split; [done|apply Z.pow_nonneg; lia].
  - intros d Hd. destruct (decide (d = c)) as [->|Hne]; [done|]. rewrite or_bit_other by done. by apply Hl.
  - rewrite contains_spec in Hk. intros Ht. apply contains_spec. intros d Hd Hw.
    apply or_bit_grows; [done..|by apply Hk].
Qed.

Lemma between_weaken l k k' w m : (k' = true → k = true) → between l k w m → between l k' w m.
Proof. intros Hk (? & ? & ?). split_and!; auto. Qed.

Lemma between_learn l w m k : contains m w = true → between l k w m → between l true w m.
Proof. intros Hc (? & ? & ?). by split_and!. Qed.

Lemma between_exact l w m :
  0 ≤ w → (∀ c, 0 ≤ c → Z.testbit w c = true ↔ c ∈ l) → between l true w m → m = w.
Proof.
  intros Hw Hl (H0 & Hb & Hc). rewrite contains_spec in Hc. apply Z.bits_inj'. intros c Hc0.
  apply eq_true_iff_eq. split; [intros ?%Hb; [by apply Hl|done]|by apply Hc].
Qed.

Lemma between_zero l w : between l false w 0.
Proof. split_and!; [done| |done]. intros c _. by rewrite Z.testbit_0_l. Qed.

Lemma between_bit l w c : 0 ≤ c → c ∈ l → between l false w (Z.shiftl 1 c).
Proof. intros Hc Hin. exact (between_grows l false w 0 c Hc Hin (between_zero l w)). Qed.

Section masks.
Context (accepted : bool) (bsp : Z) (ids : list Z) (full_mask ap_mask : Z).
Hypothesis range : ∀ c, c ∈ bsp :: ids → 0 ≤ c < 64.

Definition mask_inv (b : bsp_pc) (s : Shared) : Prop :=
  Forall2 (λ k m, between (bsp :: ids) k full_mask m) (waited b) (reports s) ∧
  between ids (acked b) ap_mask (ipi_ack_mask s).

Lemma ap_masks c p t s p' t' s' b :
  c ∈ ids → ap_step c p t s = (p', t', s') → mask_inv b s → mask_inv b s'.
Proof.
  intros Hc Hs [Hr Ha]. assert (0 ≤ c) by (apply range; by right).
  destruct s. destruct p as [| | | | |[]| |[]| | |[]|]; cbn in Hs; repeat case_match; simplify_eq/=; try done;
    unfold mask_inv, reports in *; cbn in *; (split; [|done]).
  all: decompose_Forall_hyps; match goal with E : waited _ = _ |- _ => rewrite E end.
  all: repeat (apply Forall2_cons; split); try done; apply between_grows; done || by right.
Qed.

Lemma handler_masks c a s a' s' b :
  c ∈ ids → handler_step c a s = (a', s') → mask_inv b s → mask_inv b s'.
Proof.
  intros Hc Hs [Hr Ha]. assert (0 ≤ c) by (apply range; by right).
  unfold handler_step in Hs. destruct s. destruct (interrupt a); simplify_eq/=; try done.
  split; [done|]. cbn in *. by apply between_grows.
Qed.

(** The boot processor: its own bit, the two rounds that clear the acknowledgements, and the
    waits. *)
Lemma bsp_masks timeout io b t s p' t' s' :
  bsp_step timeout io accepted bsp full_mask ap_mask (length ids) ids b t s = (p', t', s') →
  mask_inv b s → mask_inv p' s'.
Proof.
  intros Hs [Hr Ha]. pose proof (range bsp ltac:(by left)). destruct s.
  bsp_cases b Hs; unfold mask_inv, reports in *; cbn in *; try done; decompose_Forall_hyps;
    (split; [repeat (apply Forall2_cons; split); try done|]); try done.
  all: first [by eapply between_learn | by eapply between_weaken; [|eassumption]
    | apply between_bit; [lia|by left] | apply between_grows; [lia|by left|done] | apply between_zero].
Qed.

Lemma step_masks y y' :
  (∀ c, is_Some (aps y !! c) → c ∈ ids) → step accepted bsp ids full_mask ap_mask y y' →
  mask_inv (bsp_at y) (shared y) → mask_inv (bsp_at y') (shared y').
Proof.
  intros Hd. inversion_clear 1 as [? c a p t s Hc _ Hs|? c a a' s Hc Hs|? c a t Hc Ht|? t Ht|? b io p t s _ Hs];
    cbn; try done.
  - eapply ap_masks; [|exact Hs]. by apply Hd; eexists.
  - eapply handler_masks; [|exact Hs]. by apply Hd; eexists.
  - by eapply bsp_masks.
Qed.

Lemma booted_masks : mask_inv (bsp_at (booted bsp ids)) (shared (booted bsp ids)).
Proof.
  pose proof (range bsp ltac:(by left)). split; [|apply between_zero]. unfold reports. cbn.
  repeat (apply Forall2_cons; split); try apply between_zero; [|done]. apply between_bit; [lia|by left].
Qed.
End masks.

(** When [run] gets past the shootdown, every processor has reported: the masks of the
    processors online, with a CPU-local record, that saw the message and that saw the new
    mapping are the mask of all of them, the acknowledgements are those of all but the
    boot processor, and nobody has seen a stale message. *)
Lemma reports_exact (accepted : bool) (bsp : Z) (apic_ids : list Z) (full_mask : Z) (y : system) :
  (∀ c, c ∈ apic_ids → u32 c) → bsp ∈ apic_ids → expected_mask apic_ids = Ok full_mask →
  rtc (step accepted bsp (others bsp apic_ids) full_mask (ap_mask_of bsp full_mask))
    (booted bsp (others bsp apic_ids)) y →
  bsp_at y = BOk →
  reports (shared y) = [full_mask; full_mask; full_mask; full_mask] ∧
  ipi_ack_mask (shared y) = ap_mask_of bsp full_mask ∧ message_stale (shared y) = 0.
Proof.
  intros Hu Hb Hm Hy Hok. destruct (others_ok _ _ _ Hu Hb Hm) as (Hin & Hrange & Hnd & Hnb & Hfull & Hap).
  destruct (expected_mask_Ok _ _ Hu Hm) as (_ & _ & Hm0 & Hbit). set (ids := others bsp apic_ids) in *.
  assert (∀ c, c ∈ ids → Z.testbit (ap_mask_of bsp full_mask) c = true) as Hap'.
  { intros c Hc. pose proof (Hrange c ltac:(by right)). by apply Hap; [lia|]. }
  assert (∀ x, inv accepted bsp ids x → mask_inv bsp ids full_mask (ap_mask_of bsp full_mask) (bsp_at x) (shared x) →
    rtc (step accepted bsp ids full_mask (ap_mask_of bsp full_mask)) x y →
    mask_inv bsp ids full_mask (ap_mask_of bsp full_mask) (bsp_at y) (shared y)) as Hreach.
  { intros x Hi Hx R. induction R as [|x z y Hs _ IH]; [done|]. apply IH; [done|done| |].
    - by eapply phases_step_inv.
    - eapply step_masks; [done| |exact Hs|done]. intros c Hc. by apply (i_ids _ _ _ _ Hi). }
  destruct (Hreach _ (phases_booted_inv accepted bsp ids Hnd) (booted_masks bsp ids full_mask _ Hrange) Hy) as [Hr Ha].
  rewrite Hok in Hr, Ha. cbn [waited acked] in Hr, Ha. unfold reports in *. decompose_Forall_hyps.
  assert (∀ m, between (bsp :: ids) true full_mask m → m = full_mask) as Heq.
  { intros m. apply between_exact; [done|]. intros c Hc. by rewrite Hbit, Hin. }
  split_and!.
  - rewrite !(Heq (_ (shared y))) by done. done.
  - apply (between_exact ids); [|done|done]. unfold ap_mask_of. apply Z.land_nonneg. by left.
  - destruct (reachable_inv accepted bsp ids Hnd Hrange Hnb full_mask (ap_mask_of bsp full_mask)) with (y := y) as [Hi _]; [done..|].
    apply (i_stale _ _ _ _ Hi).
Qed.
End Reports.
