(* ===== verification/Rendezvous.v ===== *)
(** * The processors before the firmware is left: [ap_entry], [record_cpu],
      [perform_work] and [observe_max] in
      [platform/x86_64-pc-uefi-smp-v1/runtime/src/main.rs]

    The MP services of the firmware run [ap_entry] on every other processor at
    once.  Each one registers itself, draws a seed task, waits until all have
    one, shares the remaining tasks through a counter, passes a ticket lock and
    then works for a while under the clock.  [ap_step] is one access to a shared
    static, one read of the clock or the call of [WhoAmI]; [step] interleaves the
    processors in any order.  What [efi_main] does with the outcome is the
    subject of [Boot]. *)
From S2P Require Import Prelude Interleave Workers.

Module Rendezvous.

Definition SUCCESS : Z := 0.
Definition WORK_PER_CPU : Z := 2048.
Definition MAX_CPUS : Z := 64.
Definition PAYLOAD_VALUE : Z := 0x5448524d.
Definition SCHED_TASKS : Z := 4096.

(** The statics. *)
Record Shared : Type := MkShared {
  ready : bool;
  payload : Z;
  work_total : Z;
  ap_count : Z;
  active : Z;
  max_active : Z;
  cpu_mask : Z;
  duplicate_cpus : Z;
  stale_reads : Z;
  bad_cpu_ids : Z;
  timer_failures : Z;
  ipi_epoch : Z;
  ipi_ack_mask : Z;
  sched_ready : Z;
  next_task : Z;
  task_sum : Z;
  task_cpu_mask : Z;
  lock_next : Z;
  lock_owner : Z;
  lock_counter : Z;
  once_owner : Z;
}.

(** What they are when the image is loaded. *)
Definition loaded : Shared := MkShared false 0 0 0 0 0 0 0 0 0 0 0 0 0 0 0 0 0 0 0 0.

Definition set_ready (f : bool → bool) (s : Shared) : Shared :=
  let '(MkShared rd pl wt ac av mx cm du st bd tm ep ak sr nx ts tc ln lo lc oo) := s in
  MkShared (f rd) pl wt ac av mx cm du st bd tm ep ak sr nx ts tc ln lo lc oo.

Definition set_payload (f : Z → Z) (s : Shared) : Shared :=
  let '(MkShared rd pl wt ac av mx cm du st bd tm ep ak sr nx ts tc ln lo lc oo) := s in
  MkShared rd (f pl) wt ac av mx cm du st bd tm ep ak sr nx ts tc ln lo lc oo.

Definition set_work_total (f : Z → Z) (s : Shared) : Shared :=
  let '(MkShared rd pl wt ac av mx cm du st bd tm ep ak sr nx ts tc ln lo lc oo) := s in
  MkShared rd pl (f wt) ac av mx cm du st bd tm ep ak sr nx ts tc ln lo lc oo.

Definition set_ap_count (f : Z → Z) (s : Shared) : Shared :=
  let '(MkShared rd pl wt ac av mx cm du st bd tm ep ak sr nx ts tc ln lo lc oo) := s in
  MkShared rd pl wt (f ac) av mx cm du st bd tm ep ak sr nx ts tc ln lo lc oo.

Definition set_active (f : Z → Z) (s : Shared) : Shared :=
  let '(MkShared rd pl wt ac av mx cm du st bd tm ep ak sr nx ts tc ln lo lc oo) := s in
  MkShared rd pl wt ac (f av) mx cm du st bd tm ep ak sr nx ts tc ln lo lc oo.

Definition set_max_active (f : Z → Z) (s : Shared) : Shared :=
  let '(MkShared rd pl wt ac av mx cm du st bd tm ep ak sr nx ts tc ln lo lc oo) := s in
  MkShared rd pl wt ac av (f mx) cm du st bd tm ep ak sr nx ts tc ln lo lc oo.

Definition set_cpu_mask (f : Z → Z) (s : Shared) : Shared :=
  let '(MkShared rd pl wt ac av mx cm du st bd tm ep ak sr nx ts tc ln lo lc oo) := s in
  MkShared rd pl wt ac av mx (f cm) du st bd tm ep ak sr nx ts tc ln lo lc oo.

Definition set_duplicate_cpus (f : Z → Z) (s : Shared) : Shared :=
  let '(MkShared rd pl wt ac av mx cm du st bd tm ep ak sr nx ts tc ln lo lc oo) := s in
  MkShared rd pl wt ac av mx cm (f du) st bd tm ep ak sr nx ts tc ln lo lc oo.

Definition set_stale_reads (f : Z → Z) (s : Shared) : Shared :=
  let '(MkShared rd pl wt ac av mx cm du st bd tm ep ak sr nx ts tc ln lo lc oo) := s in
  MkShared rd pl wt ac av mx cm du (f st) bd tm ep ak sr nx ts tc ln lo lc oo.

Definition set_bad_cpu_ids (f : Z → Z) (s : Shared) : Shared :=
  let '(MkShared rd pl wt ac av mx cm du st bd tm ep ak sr nx ts tc ln lo lc oo) := s in
  MkShared rd pl wt ac av mx cm du st (f bd) tm ep ak sr nx ts tc ln lo lc oo.

Definition set_timer_failures (f : Z → Z) (s : Shared) : Shared :=
  let '(MkShared rd pl wt ac av mx cm du st bd tm ep ak sr nx ts tc ln lo lc oo) := s in
  MkShared rd pl wt ac av mx cm du st bd (f tm) ep ak sr nx ts tc ln lo lc oo.

Definition set_ipi_epoch (f : Z → Z) (s : Shared) : Shared :=
  let '(MkShared rd pl wt ac av mx cm du st bd tm ep ak sr nx ts tc ln lo lc oo) := s in
  MkShared rd pl wt ac av mx cm du st bd tm (f ep) ak sr nx ts tc ln lo lc oo.

Definition set_ipi_ack_mask (f : Z → Z) (s : Shared) : Shared :=
  let '(MkShared rd pl wt ac av mx cm du st bd tm ep ak sr nx ts tc ln lo lc oo) := s in
  MkShared rd pl wt ac av mx cm du st bd tm ep (f ak) sr nx ts tc ln lo lc oo.

Definition set_sched_ready (f : Z → Z) (s : Shared) : Shared :=
  let '(MkShared rd pl wt ac av mx cm du st bd tm ep ak sr nx ts tc ln lo lc oo) := s in
  MkShared rd pl wt ac av mx cm du st bd tm ep ak (f sr) nx ts tc ln lo lc oo.

Definition set_next_task (f : Z → Z) (s : Shared) : Shared :=
  let '(MkShared rd pl wt ac av mx cm du st bd tm ep ak sr nx ts tc ln lo lc oo) := s in
  MkShared rd pl wt ac av mx cm du st bd tm ep ak sr (f nx) ts tc ln lo lc oo.

Definition set_task_sum (f : Z → Z) (s : Shared) : Shared :=
  let '(MkShared rd pl wt ac av mx cm du st bd tm ep ak sr nx ts tc ln lo lc oo) := s in
  MkShared rd pl wt ac av mx cm du st bd tm ep ak sr nx (f ts) tc ln lo lc oo.

Definition set_task_cpu_mask (f : Z → Z) (s : Shared) : Shared :=
  let '(MkShared rd pl wt ac av mx cm du st bd tm ep ak sr nx ts tc ln lo lc oo) := s in
  MkShared rd pl wt ac av mx cm du st bd tm ep ak sr nx ts (f tc) ln lo lc oo.

Definition set_lock_next (f : Z → Z) (s : Shared) : Shared :=
  let '(MkShared rd pl wt ac av mx cm du st bd tm ep ak sr nx ts tc ln lo lc oo) := s in
  MkShared rd pl wt ac av mx cm du st bd tm ep ak sr nx ts tc (f ln) lo lc oo.

Definition set_lock_owner (f : Z → Z) (s : Shared) : Shared :=
  let '(MkShared rd pl wt ac av mx cm du st bd tm ep ak sr nx ts tc ln lo lc oo) := s in
  MkShared rd pl wt ac av mx cm du st bd tm ep ak sr nx ts tc ln (f lo) lc oo.

Definition set_lock_counter (f : Z → Z) (s : Shared) : Shared :=
  let '(MkShared rd pl wt ac av mx cm du st bd tm ep ak sr nx ts tc ln lo lc oo) := s in
  MkShared rd pl wt ac av mx cm du st bd tm ep ak sr nx ts tc ln lo (f lc) oo.

Definition set_once_owner (f : Z → Z) (s : Shared) : Shared :=
  let '(MkShared rd pl wt ac av mx cm du st bd tm ep ak sr nx ts tc ln lo lc oo) := s in
  MkShared rd pl wt ac av mx cm du st bd tm ep ak sr nx ts tc ln lo lc (f oo).

(** The next access of a processor, with its live local variables. *)
Inductive pc : Type :=
| EEntry
| EBad
| ERecord (cpu : Z)
| EDuplicate (cpu : Z)
| EReady (cpu : Z)
| EPayload (cpu : Z)
| EStale (cpu : Z)
| ECount (cpu : Z)
| ESched (cpu : Z)
| ESeed (cpu seed : Z)
| ESpin (cpu : Z)
| ENext (cpu local_tasks : Z)
| ETask (cpu local_tasks task : Z)
| EMark (cpu local_tasks : Z)
| ETicket (cpu : Z)
| ELock (cpu ticket : Z)
| EEnter (cpu ticket : Z)
| EStore (cpu ticket : Z)
| EOnce (cpu : Z)
| EStart
| EActive (start : Z)
| EObserve (start candidate : Z)
| EMax (start candidate observed : Z)
| EWork (start i : Z)
| ELeave (start : Z)
| EEnd (start : Z)
| ETimer
| EDone.

#[global] Instance pc_eq_dec : EqDecision pc.
Proof. solve_decision. Defined.

(** [fetch_add(v)] on a 64-bit static. *)
Definition fetch_add (v x : Z) : Z := wrap 64 (x + v).

(** [if CPU_MASK.fetch_or(bit) & bit != 0] *)
Definition seen (mask cpu : Z) : bool := negb (Z.land mask (Z.shiftl 1 cpu) =? 0).

Section entry.
(** [WhoAmI] of the firmware, on each processor: a status and the number stored; the
    [expected_aps] of the context. *)
Context (who : Z → Z * Z) (expected : Z).

(** [ap_entry], with [record_cpu], [observe_max] and [perform_work] inlined; [tsc] is what
    the clock shows, [spurious] lets the weak exchange fail. *)
Definition ap_step (spurious : bool) (tsc : Z) (self : Z) (p : pc) (s : Shared) : res False pc * Shared :=
  match p with
  | EEntry => (Ok (if negb ((who self).1 =? SUCCESS) then EBad else ERecord (who self).2), s)
  | EBad => (Ok EDone, set_bad_cpu_ids (fetch_add 1) s)
  | ERecord cpu =>
    if MAX_CPUS <=? cpu then (Ok (EReady cpu), set_bad_cpu_ids (fetch_add 1) s)
    else (Ok (if seen (cpu_mask s) cpu then EDuplicate cpu else EReady cpu),
          set_cpu_mask (Z.lor (Z.shiftl 1 cpu)) s)
  | EDuplicate cpu => (Ok (EReady cpu), set_duplicate_cpus (fetch_add 1) s)
  | EReady cpu => (Ok (if negb (ready s) then EStale cpu else EPayload cpu), s)
  | EPayload cpu => (Ok (if negb (payload s =? PAYLOAD_VALUE) then EStale cpu else ECount cpu), s)
  | EStale cpu => (Ok (ECount cpu), set_stale_reads (fetch_add 1) s)
  | ECount cpu => (Ok (ESched cpu), set_ap_count (fetch_add 1) s)
  | ESched cpu =>
    (ready ← uadd 64 (sched_ready s) 1;
     if expected <? ready then Ok EBad else seed_task ← usub ready 1; Ok (ESeed cpu seed_task),
     set_sched_ready (fetch_add 1) s)
  | ESeed cpu seed => (Ok (ESpin cpu), set_task_sum (fetch_add seed) s)
  | ESpin cpu => (Ok (if negb (sched_ready s =? expected) then ESpin cpu else ENext cpu 1), s)
  | ENext cpu local =>
    (Ok (if SCHED_TASKS <=? next_task s then EMark cpu local else ETask cpu local (next_task s)),
     set_next_task (fetch_add 1) s)
  | ETask cpu local task =>
    (local ← uadd 64 local 1; Ok (ENext cpu local), set_task_sum (fetch_add task) s)
  | EMark cpu local =>
    if negb (local =? 0) then
      match Workers.shl1 cpu with
      | Ok b => (Ok (ETicket cpu), set_task_cpu_mask (Z.lor b) s)
      | _ => (Panic, s)
      end
    else (Ok (ETicket cpu), s)
  | ETicket cpu => (Ok (ELock cpu (lock_next s)), set_lock_next (fetch_add 1) s)
  | ELock cpu ticket => (Ok (if lock_owner s =? ticket then EEnter cpu ticket else ELock cpu ticket), s)
  | EEnter cpu ticket => (Ok (EStore cpu ticket), set_lock_counter (fetch_add 1) s)
  | EStore cpu ticket =>
    match uadd 64 ticket 1 with
    | Ok v => (Ok (EOnce cpu), set_lock_owner (λ _, v) s)
    | Err e => (Err e, s)
    | Panic => (Panic, s)
    end
  | EOnce cpu =>
    match uadd 64 cpu 1 with
    | Ok v => (Ok EStart, set_once_owner (λ o, if o =? 0 then v else o) s)
    | Err e => (Err e, s)
    | Panic => (Panic, s)
    end
  | EStart => (Ok (EActive tsc), s)
  | EActive start =>
    (candidate ← uadd 64 (active s) 1; Ok (EObserve start candidate), set_active (fetch_add 1) s)
  | EObserve start candidate => (Ok (EMax start candidate (max_active s)), s)
  | EMax start candidate observed =>
    if observed <? candidate then
      if negb spurious && (max_active s =? observed)
      then (Ok (EWork start 0), set_max_active (λ _, candidate) s)
      else (Ok (EMax start candidate (max_active s)), s)
    else (Ok (EWork start 0), s)
  | EWork start i =>
    (Ok (if i + 1 <? WORK_PER_CPU then EWork start (i + 1) else ELeave start),
     set_work_total (fetch_add 1) s)
  | ELeave start => (Ok (EEnd start), set_active (λ a, wrap 64 (a - 1)) s)
  | EEnd start => (Ok (if tsc <=? start then ETimer else EDone), s)
  | ETimer => (Ok EDone, set_timer_failures (fetch_add 1) s)
  | EDone => (Ok EDone, s)
  end.

(** The task an access carries out. *)
Definition executes (p : pc) : list Z :=
  match p with ESeed _ seed => [seed] | ETask _ _ task => [task] | _ => [] end.

(** The processors, the statics, the clock, and the tasks carried out so far. *)
Record system : Type := MkSystem {
  shared : Shared;
  pcs : gmap Z pc;
  clock : Z;
  executed : list Z;
}.

(** The clock is the invariant time-stamp counter: it advances, for all processors. *)
Inductive step : system → system → Prop :=
| step_cpu c p sp tsc p' s' y :
    pcs y !! c = Some p → clock y < tsc → ap_step sp tsc c p (shared y) = (Ok p', s') →
    step y (MkSystem s' (<[c := p']> (pcs y)) tsc (executed y ++ executes p)).
End entry.

(** What [efi_main] stores before the processors start. *)
Definition prepare (enabled : Z) (s : Shared) : Shared :=
  let s := set_payload (λ _, PAYLOAD_VALUE) s in
  let s := set_ready (λ _, true) s in
  let s := set_sched_ready (λ _, 0) s in
  let s := set_next_task (λ _, Z.max 0 (enabled - 1)) s in
  let s := set_task_sum (λ _, 0) s in
  let s := set_task_cpu_mask (λ _, 0) s in
  let s := set_active (λ _, 0) s in
  let s := set_max_active (λ _, 0) s in
  let s := set_lock_next (λ _, 0) s in
  let s := set_lock_owner (λ _, 0) s in
  let s := set_lock_counter (λ _, 0) s in
  set_once_owner (λ _, 0) s.

Definition started_all (enabled now : Z) (aps : gset Z) : system :=
  MkSystem (prepare enabled loaded) (gset_to_gmap EEntry aps) now [].

(** ** What the counters count *)

(** Past each of the accesses that count. *)
Definition recorded (p : pc) : bool := match p with EEntry | EBad | ERecord _ => false | _ => true end.
Definition counted (p : pc) : Z :=
  match p with
  | EEntry | EBad | ERecord _ | EDuplicate _ | EReady _ | EPayload _ | EStale _ | ECount _ => 0
  | _ => 1
  end.
Definition started (p : pc) : Z := match p with ESched _ => 0 | _ => counted p end.
Definition left_loop (p : pc) : Z :=
  match p with ESeed _ _ | ESpin _ | ENext _ _ | ETask _ _ _ => 0 | _ => started p end.
Definition marked (p : pc) : bool :=
  match p with EMark _ _ => false | _ => 1 <=? left_loop p end.
Definition ticketed (p : pc) : Z :=
  match p with EMark _ _ | ETicket _ => 0 | _ => left_loop p end.
Definition entered (p : pc) : Z := match p with ELock _ _ | EEnter _ _ => 0 | _ => ticketed p end.
Definition in_active (p : pc) : Z :=
  match p with EObserve _ _ | EMax _ _ _ | EWork _ _ | ELeave _ => 1 | _ => 0 end.
Definition worked (p : pc) : Z :=
  match p with EWork _ i => i | ELeave _ | EEnd _ | ETimer | EDone => WORK_PER_CPU | _ => 0 end.

(** Tasks taken and not yet carried out; tickets drawn and not yet given back. *)
Definition tasks (p : pc) : list Z :=
  match p with ESeed _ seed => [seed] | ETask _ _ task => [task] | _ => [] end.
Definition tickets (p : pc) : list Z :=
  match p with ELock _ t | EEnter _ t | EStore _ t => [t] | _ => [] end.

(** What processor [c] knows about the statics, with [n] processors. *)
Definition pc_ok (n : Z) (s : Shared) (now c : Z) (p : pc) : Prop :=
  match p with
  | EEntry => True
  | EBad | EDuplicate _ | EStale _ | ETimer => False
  | ERecord cpu | EReady cpu | EPayload cpu | ECount cpu | ESched cpu | ESpin cpu
  | ETicket cpu | ELock cpu _ | EOnce cpu => cpu = c
  | ESeed cpu seed => cpu = c ∧ 0 ≤ seed < n
  | ENext cpu local => cpu = c ∧ 1 ≤ local ≤ 1 + next_task s - n
  | ETask cpu local _ => cpu = c ∧ 1 ≤ local ≤ next_task s - n
  | EMark cpu local => cpu = c ∧ 1 ≤ local
  | EEnter cpu t | EStore cpu t => cpu = c ∧ t = lock_owner s
  | EStart => once_owner s ≠ 0
  | EActive start => once_owner s ≠ 0 ∧ start ≤ now
  | EObserve start v => once_owner s ≠ 0 ∧ start ≤ now ∧ 1 ≤ v ≤ n
  | EMax start v o => once_owner s ≠ 0 ∧ start ≤ now ∧ 1 ≤ v ≤ n ∧ o ≤ max_active s
  | EWork start i => once_owner s ≠ 0 ∧ start ≤ now ∧ 1 ≤ max_active s ∧ 0 ≤ i < WORK_PER_CPU
  | ELeave start | EEnd start => once_owner s ≠ 0 ∧ start ≤ now ∧ 1 ≤ max_active s
  | EDone => once_owner s ≠ 0 ∧ 1 ≤ max_active s
  end.

(** The statics the processors do not change, and the ones that count failures. *)
Definition quiet (s : Shared) : Prop :=
  ready s = true ∧ payload s = PAYLOAD_VALUE ∧ duplicate_cpus s = 0 ∧ stale_reads s = 0 ∧
  bad_cpu_ids s = 0 ∧ timer_failures s = 0 ∧ ipi_epoch s = 0 ∧ ipi_ack_mask s = 0.

Record inv (n : Z) (y : system) : Prop := {
  inv_size : size (pcs y) = n :> Z ∧ 1 ≤ n ≤ 64;
  inv_keys c p : pcs y !! c = Some p → 0 ≤ c < 64;
  inv_quiet : quiet (shared y);
  inv_counted : ap_count (shared y) = count counted (pcs y);
  inv_ready : sched_ready (shared y) = count started (pcs y);
  inv_active : active (shared y) = count in_active (pcs y);
  inv_worked : work_total (shared y) = count worked (pcs y);
  inv_entered : lock_counter (shared y) = count entered (pcs y);
  inv_max : 0 ≤ max_active (shared y) ≤ n;
  inv_recorded : mask_ok recorded (pcs y) (cpu_mask (shared y));
  inv_marked : mask_ok marked (pcs y) (task_cpu_mask (shared y));
  inv_sum : task_sum (shared y) = wrap 64 (zsum (executed y));
  inv_tasks : tasks_ok SCHED_TASKS n tasks left_loop (pcs y) (executed y)
    (sched_ready (shared y)) (next_task (shared y));
  inv_tickets : tickets_ok tickets ticketed (pcs y) (lock_next (shared y)) (lock_owner (shared y));
  inv_pcs c p : pcs y !! c = Some p → pc_ok n (shared y) (clock y) c p;
}.

Lemma pool_counts w :
  0 ≤ count counted w ≤ size w ∧ 0 ≤ count started w ≤ size w ∧ 0 ≤ count in_active w ≤ size w ∧
  0 ≤ count left_loop w ≤ size w ∧ 0 ≤ count ticketed w ≤ size w ∧ 0 ≤ count entered w ≤ size w.
Proof. split_and!; apply count_bound; intros []; cbn; lia. Qed.

Lemma seen_testbit m c : 0 ≤ c → seen m c = Z.testbit m c.
Proof.
  intros Hc. unfold seen. destruct (Z.testbit m c) eqn:E.
  - apply negb_true_iff, Z.eqb_neq. intros H0. apply (f_equal (λ z, Z.testbit z c)) in H0.
    rewrite Z.land_spec, E, Z.shiftl_1_l, Z.pow2_bits_true, Z.testbit_0_l in H0 by done. done.
  - apply negb_false_iff, Z.eqb_eq, Z.bits_inj'. intros i Hi. rewrite Z.land_spec, Z.testbit_0_l.
    rewrite Z.shiftl_1_l, Z.pow2_bits_eqb by done. destruct (Z.eqb_spec c i) as [->|]; [by rewrite E|].
    apply andb_false_r.
Qed.

(** ** One step *)

Section machine.
Context (who : Z → Z * Z) (n : Z).
(** The firmware names every processor by its own number. *)
Context (Hwho : ∀ c, 0 ≤ c < 64 → who c = (SUCCESS, c)).

(** Processor [c] makes a successful access in a system that satisfies the invariant. *)
Definition moves y c p sp tsc p' s' : Prop :=
  inv n y ∧ pcs y !! c = Some p ∧ clock y < tsc ∧ ap_step who n sp tsc c p (shared y) = (Ok p', s').

(** Case analysis on a successful access. *)
Ltac ap_cases p Hs :=
  destruct p; cbn in Hs; unfold Workers.shl1, uadd, usub, MAX_CPUS in Hs;
  repeat (case_match; simplify_eq/=); simplify_eq/=; zb.

(** A processor never leaves the path without errors. *)
Definition good (p : pc) : bool :=
  match p with EBad | EDuplicate _ | EStale _ | ETimer => false | _ => true end.

Lemma step_good y c p sp tsc p' s' :
  moves y c p sp tsc p' s' → good p' = true.
Proof.
  intros (Hinv & Hi & Ht & Hs). pose proof (inv_keys _ _ Hinv _ _ Hi) as Hk.
  pose proof (inv_pcs _ _ Hinv _ _ Hi) as Hp. destruct (inv_quiet _ _ Hinv) as (Q1 & Q2 & _).
  pose proof (inv_recorded _ _ Hinv c ltac:(lia)) as Hrec. rewrite Hi in Hrec.
  pose proof (Hwho c Hk) as Hw. pose proof (inv_size _ _ Hinv) as [Hsz Hn].
  pose proof (pool_counts (<[c := EDone]> (pcs y))) as (_ & Hst & _).
  rewrite map_size_insert_Some, Hsz in Hst by (by rewrite Hi).
  rewrite (count_update _ _ _ _ _ Hi), <- (inv_ready _ _ Hinv) in Hst.
  destruct (shared y) eqn:Ey. cbn in *.
  destruct p; cbn in *; try done; unfold Workers.shl1, uadd, usub in Hs; try rewrite Hw in Hs;
    repeat (case_match; simplify_eq/=); simplify_eq/=; zb; try done; try lia.
  match goal with H : seen _ _ = true |- _ => rewrite seen_testbit, Hrec in H by lia end.
  by match goal with H : ∃ _, _ |- _ => destruct H as (q & [= <-] & ?) end.
Qed.

Lemma entry_step_size y c p sp tsc p' s' :
  moves y c p sp tsc p' s' → size (<[c := p']> (pcs y)) = n :> Z ∧ 1 ≤ n ≤ 64.
Proof.
  intros (Hinv & Hi & _). pose proof (inv_size _ _ Hinv).
  by rewrite map_size_insert_Some by (by rewrite Hi).
Qed.

Lemma step_counts y c p sp tsc p' s' :
  moves y c p sp tsc p' s' → let w' := <[c := p']> (pcs y) in
  ap_count s' = count counted w' ∧ sched_ready s' = count started w' ∧
  active s' = count in_active w' ∧ lock_counter s' = count entered w'.
Proof.
  intros Hm w'. pose proof (pool_counts w') as Hc. pose proof (step_good _ _ _ _ _ _ _ Hm) as Hg.
  pose proof (entry_step_size _ _ _ _ _ _ _ Hm) as [Hsz Hn]. unfold w' in *. clear w'.
  rewrite Hsz in Hc. clear Hsz. destruct Hm as (Hinv & Hi & Ht & Hs).
  pose proof (inv_pcs _ _ Hinv _ _ Hi) as Hp. pose proof (inv_keys _ _ Hinv _ _ Hi) as Hk.
  destruct Hinv as [_ _ _ H1 H2 H3 _ H4 _ _ _ _ _ _ _].
  rewrite !(count_update _ _ _ _ _ Hi) in *. destruct y as [[] w now ex].
  cbn in *. ap_cases p Hs; try done; unfold fetch_add; rewrite ?wrap_small by lia; lia.
Qed.

(** Invariant facts about the processor that moves. *)
Ltac facts Hm :=
  pose proof (step_good _ _ _ _ _ _ _ Hm) as Hgood; destruct Hm as (Hinv & Hi & Ht & Hs);
  pose proof (inv_pcs _ _ Hinv _ _ Hi) as Hp; pose proof (inv_keys _ _ Hinv _ _ Hi) as Hk;
  pose proof (inv_size _ _ Hinv) as [Hsz Hn].

Lemma count_worked y : inv n y → 0 ≤ count worked (pcs y) ≤ WORK_PER_CPU * n.
Proof.
  intros Hinv. pose proof (inv_size _ _ Hinv) as [Hsz _].
  set (g := λ q, Z.max 0 (Z.min (worked q) WORK_PER_CPU)).
  assert (count worked (pcs y) = count g (pcs y)) as ->.
  { unfold count. f_equal. apply list_fmap_ext. intros i q Hq.
    apply list_elem_of_lookup_2, elem_of_values in Hq as (c & Hc).
    pose proof (inv_pcs _ _ Hinv _ _ Hc) as Hok. unfold g, WORK_PER_CPU in *. destruct q; cbn in *; try done; try lia. all: unfold WORK_PER_CPU in *; lia. }
  rewrite <- Hsz, <- (count_all (λ _, WORK_PER_CPU) (pcs y) WORK_PER_CPU) by done. split.
  - apply count_nonneg. intros q. unfold g. lia.
  - apply count_le. intros q. unfold g, WORK_PER_CPU. lia.
Qed.

Lemma step_worked y c p sp tsc p' s' :
  moves y c p sp tsc p' s' → work_total s' = count worked (<[c := p']> (pcs y)).
Proof.
  intros Hm. facts Hm. pose proof (count_worked _ Hinv) as Hc.
  pose proof (inv_worked _ _ Hinv) as Hw. rewrite (count_update _ _ _ _ _ Hi).
  destruct y as [[] w now ex]. unfold WORK_PER_CPU in *. cbn in *.
  ap_cases p Hs; unfold fetch_add, WORK_PER_CPU in *; rewrite ?wrap_small by lia; lia.
Qed.

Lemma entry_step_max y c p sp tsc p' s' :
  moves y c p sp tsc p' s' →
  0 ≤ max_active s' ≤ n ∧ max_active (shared y) ≤ max_active s' ∧ quiet s' ∧
  (once_owner (shared y) ≠ 0 → once_owner s' ≠ 0).
Proof.
  intros Hm. facts Hm. pose proof (inv_max _ _ Hinv) as Hx. pose proof (inv_quiet _ _ Hinv) as Hq.
  destruct y as [[] w now ex]. cbn in *. unfold quiet in *. cbn in *.
  ap_cases p Hs; try done; split_and!; try tauto; try lia; intros; repeat case_match; zb; lia.
Qed.

Lemma entry_step_masks y c p sp tsc p' s' :
  moves y c p sp tsc p' s' →
  mask_ok recorded (<[c := p']> (pcs y)) (cpu_mask s') ∧ mask_ok marked (<[c := p']> (pcs y)) (task_cpu_mask s').
Proof.
  intros Hm. facts Hm. split.
  - apply (mask_step recorded _ _ p _ (cpu_mask (shared y))); [done|lia|apply Hinv| |];
      clear Hinv Hi; destruct y as [[] w now ex]; cbn in *; ap_cases p Hs; try done; try lia.
    all: try apply Z.lor_comm.
  - apply (mask_step marked _ _ p _ (task_cpu_mask (shared y))); [done|lia|apply Hinv| |];
      clear Hinv Hi; destruct y as [[] w now ex]; cbn in *; ap_cases p Hs; try done; try lia.
    destruct Hp as [-> _]. apply Z.lor_comm.
Qed.

Lemma entry_step_sum y c p sp tsc p' s' :
  moves y c p sp tsc p' s' → task_sum s' = wrap 64 (zsum (executed y ++ executes p)).
Proof.
  intros Hm. facts Hm. pose proof (inv_sum _ _ Hinv) as Hsum. rewrite zsum_app.
  destruct y as [[] w now ex]. cbn in *.
  ap_cases p Hs; rewrite ?zsum_cons; change (zsum []) with 0; rewrite ?Z.add_0_r; try done.
  all: unfold fetch_add; by rewrite wrap_add_l.
Qed.

Lemma entry_task_cases y c p sp tsc p' s' :
  moves y c p sp tsc p' s' →
  task_move SCHED_TASKS tasks left_loop (executes p) p p' (sched_ready (shared y)) (next_task (shared y))
    (sched_ready s') (next_task s').
Proof.
  intros Hm. facts Hm. unfold task_move. destruct y as [[] w now ex]. cbn in *.
  ap_cases p Hs; try done; try (by left; rewrite ?Z.add_simpl_r; split_and!); right; (split; [done|]);
    first [by left; split_and!|by right; left; split_and!|by right; right; split_and!].
Qed.

Lemma entry_step_tasks y c p sp tsc p' s' :
  moves y c p sp tsc p' s' →
  tasks_ok SCHED_TASKS n tasks left_loop (<[c := p']> (pcs y)) (executed y ++ executes p)
    (sched_ready s') (next_task s').
Proof.
  intros Hm. pose proof (entry_task_cases _ _ _ _ _ _ _ Hm) as Hcase. facts Hm.
  pose proof (pool_counts (pcs y)) as (_ & Hc & _ & Hl & _). rewrite Hsz in *.
  pose proof (inv_ready _ _ Hinv) as Hr.
  eapply tasks_step; [exact Hi|unfold SCHED_TASKS; lia|lia| | |by apply inv_tasks|exact Hcase]; lia.
Qed.

Lemma entry_ticket_cases y c p sp tsc p' s' :
  moves y c p sp tsc p' s' →
  ticket_move tickets ticketed p p' (lock_next (shared y)) (lock_owner (shared y))
    (lock_next s') (lock_owner s').
Proof.
  intros Hm. facts Hm. unfold ticket_move. destruct y as [[] w now ex]. cbn in *.
  ap_cases p Hs; try done; try (by left; split_and!); right; (split_and!; [done|done|]); try (by right).
  destruct Hp as [_ ->]. by left.
Qed.

Lemma entry_step_tickets y c p sp tsc p' s' :
  moves y c p sp tsc p' s' →
  tickets_ok tickets ticketed (<[c := p']> (pcs y)) (lock_next s') (lock_owner s').
Proof.
  intros Hm. pose proof (entry_ticket_cases _ _ _ _ _ _ _ Hm) as Hcase. facts Hm.
  pose proof (pool_counts (pcs y)) as (_ & _ & _ & _ & Hc & _). rewrite Hsz in *.
  eapply tickets_step; [done|lia|by apply (inv_tickets n)|exact Hcase].
Qed.

(** The lock is held by one processor at a time. *)
Definition holds (p : pc) : bool := match p with EEnter _ _ | EStore _ _ => true | _ => false end.

Lemma entry_one_holder y i j p q :
  inv n y → pcs y !! i = Some p → pcs y !! j = Some q → holds p = true → holds q = true → i = j.
Proof.
  intros Hinv Hi Hj Hp Hq.
  eapply (tickets_once _ _ _ _ _ i j p q (lock_owner (shared y)) (inv_tickets _ _ Hinv)); try done.
  - pose proof (inv_pcs _ _ Hinv _ _ Hi) as Hok. destruct p; cbn in *; try done; destruct Hok as [_ ->]; set_solver.
  - pose proof (inv_pcs _ _ Hinv _ _ Hj) as Hok. destruct q; cbn in *; try done; destruct Hok as [_ ->]; set_solver.
Qed.

(** What a processor knows survives the accesses of the others. *)
Lemma entry_pc_ok_stable s s' now now' c q :
  max_active s ≤ max_active s' → (once_owner s ≠ 0 → once_owner s' ≠ 0) →
  next_task s ≤ next_task s' → now ≤ now' → (holds q = true → lock_owner s' = lock_owner s) →
  pc_ok n s now c q → pc_ok n s' now' c q.
Proof.
  intros Hm Ho Hx Hw Hl. destruct q; cbn in *; try done; try (intros; intuition lia).
  all: intros [-> ->]; split; [done|]; symmetry; auto.
Qed.

Lemma next_task_bound y : inv n y → 0 ≤ next_task (shared y) < 2 ^ 32.
Proof.
  intros Hinv. destruct (inv_tasks _ _ Hinv) as (k & Hk & -> & _).
  pose proof (pool_counts (pcs y)) as (_ & _ & _ & Hc & _). pose proof (inv_size _ _ Hinv) as [Hsz Hn].
  unfold SCHED_TASKS in Hk. lia.
Qed.

Lemma step_next y c p sp tsc p' s' : moves y c p sp tsc p' s' → next_task (shared y) ≤ next_task s'.
Proof.
  intros Hm. pose proof (entry_task_cases _ _ _ _ _ _ _ Hm) as Hcase. facts Hm.
  pose proof (next_task_bound _ Hinv). unfold task_move in Hcase.
  assert (wrap 64 (next_task (shared y) + 1) = next_task (shared y) + 1) as Hw by (apply wrap_small; lia).
  naive_solver lia.
Qed.

Lemma entry_step_pcs y c p sp tsc p' s' i q :
  moves y c p sp tsc p' s' → <[c := p']> (pcs y) !! i = Some q → pc_ok n s' tsc i q.
Proof.
  intros Hm. pose proof (entry_step_max _ _ _ _ _ _ _ Hm) as (Hmx & Hmm & _ & Ho).
  pose proof (step_next _ _ _ _ _ _ _ Hm) as Hnx. pose proof (entry_ticket_cases _ _ _ _ _ _ _ Hm) as Hcase.
  pose proof (step_counts _ _ _ _ _ _ _ Hm) as (_ & Hst & Hac & _).
  pose proof (pool_counts (<[c := p']> (pcs y))) as (_ & Hc1 & Hc2 & _).
  pose proof (entry_step_size _ _ _ _ _ _ _ Hm) as [Hs1 _]. rewrite Hs1 in *. clear Hs1.
  facts Hm. pose proof (next_task_bound _ Hinv) as Hnb.
  intros [[<- <-]|[Hne Hq]]%lookup_insert_Some.
  - clear Hcase Hst. rewrite !(count_update _ _ _ _ _ Hi) in *.
    pose proof (inv_ready _ _ Hinv) as Hr0. pose proof (inv_active _ _ Hinv) as Ha0.
    pose proof (inv_max _ _ Hinv) as Hx0. pose proof (Hwho c Hk) as Hw.
    destruct (inv_tasks _ _ Hinv) as (k & Hk0 & Hk1 & _). pose proof (pool_counts (pcs y)) as (_ & Hl0 & Hl1 & Hl & _).
    destruct y as [[] w now ex]. cbn in *.
    ap_cases p Hs; try done; unfold fetch_add in *; rewrite ?wrap_small in * by lia;
      rewrite ?Hw in *; split_and?; cbn; try done; try lia.
  - apply (entry_pc_ok_stable (shared y) _ (clock y)); [lia|done|lia|lia| |by apply (inv_pcs _ _ Hinv)].
    intros Hh. destruct Hcase as [(_ & _ & _ & _ & E)|(_ & _ & [(E1 & E2 & E)|[_ E]])]; [done| |done].
    exfalso. apply Hne. apply (entry_one_holder y c i p q); try done.
    clear - Hs E1 E2. destruct y as [[] w now ex]. cbn in *. by ap_cases p Hs.
Qed.

Lemma ap_step_inv y c p sp tsc p' s' :
  moves y c p sp tsc p' s' → inv n (MkSystem s' (<[c := p']> (pcs y)) tsc (executed y ++ executes p)).
Proof.
  intros Hm. destruct (step_counts _ _ _ _ _ _ _ Hm) as (H1 & H2 & H3 & H4).
  destruct (entry_step_max _ _ _ _ _ _ _ Hm) as (H5 & _ & H6 & _).
  destruct (entry_step_masks _ _ _ _ _ _ _ Hm) as (H7 & H8).
  split; cbn; try done.
  - by eapply entry_step_size.
  - intros i q. destruct Hm as (Hinv & Hi & _).
    intros [[<- _]|[_ Hq]]%lookup_insert_Some; by eapply (inv_keys _ _ Hinv).
  - by eapply step_worked.
  - by eapply entry_step_sum.
  - by eapply entry_step_tasks.
  - by eapply entry_step_tickets.
  - intros i q. by eapply entry_step_pcs.
Qed.

(** No access panics. *)
Lemma ap_returns y c p sp tsc :
  inv n y → pcs y !! c = Some p → ∃ p' s', ap_step who n sp tsc c p (shared y) = (Ok p', s').
Proof.
  intros Hinv Hi. pose proof (inv_pcs _ _ Hinv _ _ Hi) as Hp. pose proof (inv_keys _ _ Hinv _ _ Hi) as Hk.
  pose proof (inv_size _ _ Hinv) as [Hsz Hn]. pose proof (next_task_bound _ Hinv) as Hx.
  pose proof (inv_ready _ _ Hinv) as Hr. pose proof (inv_active _ _ Hinv) as Ha.
  pose proof (inv_tickets _ _ Hinv) as (Ht & Ho & _). pose proof (pool_counts (pcs y)) as Hc. rewrite Hsz in Hc.
  destruct y as [[] w now ex]. cbn in *. subst.
  destruct p; cbn in *; unfold Workers.shl1, uadd, usub; try done;
    repeat (case_match; simplify_eq/=); zb; first [lia|eexists _, _; reflexivity].
Qed.
End machine.

(** ** The whole dispatch *)

Lemma started_inv enabled now aps :
  (∀ c, c ∈ aps → 0 ≤ c < MAX_CPUS) → aps ≠ ∅ → enabled = size aps + 1 →
  inv (size aps) (started_all enabled now aps).
Proof.
  intros Hk Hne ->. assert (size aps ≠ 0%nat) as Hsz by (by rewrite size_empty_iff, leibniz_equiv_iff).
  pose proof (Workers.cpus_bound aps Hk) as Hle.
  set (w := gset_to_gmap EEntry aps : gmap Z pc).
  assert (∀ c p, w !! c = Some p → p = EEntry ∧ c ∈ aps) as Hw.
  { intros c p. unfold w. rewrite lookup_gset_to_gmap_Some. naive_solver. }
  assert (∀ f, f EEntry = 0 → count f w = 0) as H0.
  { intros f Hf. rewrite (count_all f w 0); [lia|]. by intros i p [-> _]%Hw. }
  assert (∀ f, f EEntry = [] → gather f w = []) as Hg.
  { intros f Hf. destruct (gather f w) as [|x l] eqn:E; [done|].
    assert (x ∈ gather f w) as (i & p & [-> _]%Hw & Hx)%elem_of_gather by (rewrite E; set_solver).
    rewrite Hf in Hx. set_solver. }
  assert (∀ f, f EEntry = false → mask_ok f w 0) as Hm.
  { intros f Hf c Hc. rewrite Z.testbit_0_l. split; [done|]. intros (p & [-> _]%Hw & Hp). congruence. }
  split; cbn; fold w; try (by rewrite H0); try (by apply Hm).
  - split; [|lia]. unfold w. by rewrite <- (size_dom (D:=gset Z)), dom_gset_to_gmap.
  - intros c p [_ Hc]%Hw. by apply Hk.
  - by split_and!.
  - lia.
  - done.
  - exists 0. rewrite !H0, Hg by done. unfold SCHED_TASKS. split_and!; lia || done.
  - unfold tickets_ok. rewrite H0, Hg by done. split_and!; lia || done.
  - by intros c p [-> _]%Hw.
Qed.

Section dispatch.
Context (who : Z → Z * Z) (enabled now : Z) (aps : gset Z).
Context (Hwho : ∀ c, 0 ≤ c < MAX_CPUS → who c = (SUCCESS, c)).
Context (Hk : ∀ c, c ∈ aps → 0 ≤ c < MAX_CPUS) (Hne : aps ≠ ∅) (Hen : enabled = size aps + 1).

Lemma reachable_entries y :
  rtc (step who (enabled - 1)) (started_all enabled now aps) y → inv (size aps) y ∧ dom (pcs y) = aps.
Proof.
  replace (enabled - 1) with (Z.of_nat (size aps)) by lia.
  pose proof (started_inv enabled now aps Hk Hne Hen) as H0.
  assert (dom (pcs (started_all enabled now aps)) = aps) as H1 by apply dom_gset_to_gmap.
  revert H0 H1. generalize (started_all enabled now aps) as x. intros x H0 H1 Hr.
  induction Hr as [x|x x1 x2 Hs _ IH]; [done|].
  destruct Hs as [c p sp tsc p' s' x Hi Ht Hs]. apply IH.
  - apply (ap_step_inv who _ Hwho x c p sp). by split_and!.
  - cbn. by rewrite dom_insert_lookup_L by (by rewrite Hi).
Qed.

(** When every callback has returned. *)
Lemma all_done_counts y (f : pc → Z) :
  inv (size aps) y → (∀ c p, pcs y !! c = Some p → p = EDone) → count f (pcs y) = f EDone * size aps.
Proof.
  intros Hinv Hd. destruct (inv_size _ _ Hinv) as [<- _]. apply count_all. by intros i p ->%Hd.
Qed.

Lemma all_done_mask y (f : pc → bool) m :
  dom (pcs y) = aps → (∀ c p, pcs y !! c = Some p → p = EDone) → f EDone = true → mask_ok f (pcs y) m →
  ∀ c, 0 ≤ c → Z.testbit m c = true ↔ c ∈ aps.
Proof.
  intros Hdom Hd Hf Hm c Hc. rewrite (Hm c Hc), <- Hdom, elem_of_dom. split.
  - intros (p & Hp & _). by exists p.
  - intros [p Hp]. exists p. split; [done|]. by rewrite (Hd c p Hp).
Qed.
End dispatch.

(** A processor whose next access does more than spin. *)
Definition can_move (expected : Z) (s : Shared) (p : pc) : Prop :=
  match p with
  | EDone => False
  | ESpin _ => sched_ready s = expected
  | ELock _ t => lock_owner s = t
  | _ => True
  end.

Lemma entry_can_move_changes who expected tsc c s p p' s' :
  can_move expected s p → ap_step who expected false tsc c p s = (Ok p', s') → p' ≠ p.
Proof.
  destruct p; cbn; unfold Workers.shl1, uadd, usub; intros Hm Hs;
    repeat (case_match; simplify_eq/=); simplify_eq/=; zb; try congruence; try lia; try done.
  all: intros [=]; lia.
Qed.

Lemma entry_some_mover n y :
  inv n y → (∃ c p, pcs y !! c = Some p ∧ p ≠ EDone) → ∃ c p, pcs y !! c = Some p ∧ can_move n (shared y) p.
Proof.
  intros Hinv (c & p & Hc & Hp).
  destruct p as [| | | | | | | | | | x | | | | |x t| | | | | | | | | | | |]; try done; try (by exists c; eexists).
  - destruct (inv_size _ _ Hinv) as [Hsz Hn]. pose proof (pool_counts (pcs y)) as (_ & Hst & _).
    rewrite Hsz in Hst. destruct (decide (count started (pcs y) = n)) as [Hall|Hsome].
    + exists c, (ESpin x). split; [done|]. cbn. by rewrite (inv_ready _ _ Hinv).
    + destruct (count_missing started (pcs y) 1) as (i & q & Hq & Hlt); [by intros []|lia|].
      exists i, q. split; [done|]. by destruct q; cbn in *; try lia.
  - destruct (tickets_owner _ _ _ _ _ c (ELock x t) t (inv_tickets _ _ Hinv) Hc) as (j & q & Hq & Hin);
      [set_solver|]. exists j, q. split; [done|]. destruct q; cbn in *; try done; set_solver.
Qed.

(** ** What the dispatch does *)

(** What the callbacks leave in the statics. *)
Record outcome (enabled : Z) (aps : gset Z) (s : Shared) : Prop := {
  out_recorded c : 0 ≤ c → Z.testbit (cpu_mask s) c = true ↔ c ∈ aps;
  out_marked c : 0 ≤ c → Z.testbit (task_cpu_mask s) c = true ↔ c ∈ aps;
  out_count : ap_count s = enabled - 1;
  out_work : work_total s = (enabled - 1) * WORK_PER_CPU;
  out_lock : lock_counter s = enabled - 1 ∧ once_owner s ≠ 0;
  out_active : active s = 0 ∧ 1 ≤ max_active s ≤ enabled - 1;
  out_sum : task_sum s = SCHED_TASKS * (SCHED_TASKS - 1) / 2;
  out_quiet : quiet s;
}.

Lemma finished (who : Z → Z * Z) (enabled now : Z) (aps : gset Z) (y : system) :
  (∀ c, 0 ≤ c < MAX_CPUS → who c = (SUCCESS, c)) →
  (∀ c, c ∈ aps → 0 ≤ c < MAX_CPUS) → aps ≠ ∅ → enabled = size aps + 1 →
  rtc (step who (enabled - 1)) (started_all enabled now aps) y →
  (∀ c p, pcs y !! c = Some p → p = EDone) →
  executed y ≡ₚ seqZ 0 SCHED_TASKS ∧ outcome enabled aps (shared y).
Proof.
  intros Hwho Hk Hne Hen Hr Hdone.
  destruct (reachable_entries who enabled now aps Hwho Hk Hne Hen y Hr) as [Hinv Hdom].
  pose proof (λ f, all_done_counts aps y f Hinv Hdone) as Hcount.
  assert (∃ c, pcs y !! c = Some EDone) as [c0 Hc0].
  { destruct (set_choose_L aps Hne) as [c Hc]. rewrite <- Hdom in Hc.
    apply elem_of_dom in Hc as [p Hp]. exists c. by rewrite (Hdone c p Hp) in Hp. }
  destruct (inv_pcs _ _ Hinv _ _ Hc0) as [Honce Hmax]. pose proof (inv_size _ _ Hinv) as [_ Hn].
  assert (executed y ≡ₚ seqZ 0 SCHED_TASKS) as Hex.
  { pose proof (inv_tasks _ _ Hinv) as Htasks. rewrite (inv_ready _ _ Hinv), Hcount in Htasks.
    cbn [started counted] in Htasks. rewrite Z.mul_1_l in Htasks.
    eapply tasks_complete; [| | |exact Htasks]; [lia|rewrite Hcount; cbn; lia|by intros i p ->%Hdone]. }
  pose proof (inv_max _ _ Hinv) as Hmx. split; [done|]. split.
  - by apply (all_done_mask aps y recorded _ Hdom Hdone eq_refl (inv_recorded _ _ Hinv)).
  - by apply (all_done_mask aps y marked _ Hdom Hdone eq_refl (inv_marked _ _ Hinv)).
  - rewrite (inv_counted _ _ Hinv), Hcount. cbn. lia.
  - rewrite (inv_worked _ _ Hinv), Hcount. cbn. lia.
  - split; [|done]. rewrite (inv_entered _ _ Hinv), Hcount. cbn. lia.
  - split; [|lia]. rewrite (inv_active _ _ Hinv), Hcount. done.
  - rewrite (inv_sum _ _ Hinv), Hex. pose proof (zsum_seqZ SCHED_TASKS ltac:(done)) as Hz.
    unfold SCHED_TASKS in *. replace (zsum (seqZ 0 4096)) with 8386560 by lia. reflexivity.
  - apply (inv_quiet _ _ Hinv).
Qed.

(** C13. When the firmware has run [ap_entry] to the end on every other processor, in
    whatever order their accesses were interleaved: each of the 4096 tasks was carried out
    exactly once and the sum is theirs, precisely those processors are recorded and marked
    as workers, each worked its 2048 units and passed the lock once, one of them won the
    once cell, none is still active, at least one was, and nothing was counted as stale,
    duplicate, bad or late. *)
Theorem rendezvous_exact (who : Z → Z * Z) (enabled now : Z) (aps : gset Z) (y : system) :
  (∀ c, 0 ≤ c < MAX_CPUS → who c = (SUCCESS, c)) →
  (∀ c, c ∈ aps → 0 ≤ c < MAX_CPUS) → aps ≠ ∅ → enabled = size aps + 1 →
  rtc (step who (enabled - 1)) (started_all enabled now aps) y →
  (∀ c p, pcs y !! c = Some p → p = EDone) →
  executed y ≡ₚ seqZ 0 SCHED_TASKS ∧ task_sum (shared y) = SCHED_TASKS * (SCHED_TASKS - 1) / 2 ∧
  (∀ c, 0 ≤ c → (Z.testbit (cpu_mask (shared y)) c = true ↔ c ∈ aps) ∧
                (Z.testbit (task_cpu_mask (shared y)) c = true ↔ c ∈ aps)) ∧
  ap_count (shared y) = enabled - 1 ∧ work_total (shared y) = (enabled - 1) * WORK_PER_CPU ∧
  lock_counter (shared y) = enabled - 1 ∧ once_owner (shared y) ≠ 0 ∧
  active (shared y) = 0 ∧ 1 ≤ max_active (shared y) ≤ enabled - 1 ∧
  duplicate_cpus (shared y) = 0 ∧ stale_reads (shared y) = 0 ∧ bad_cpu_ids (shared y) = 0 ∧
  timer_failures (shared y) = 0.
Proof.
  intros Hwho Hk Hne Hen Hr Hdone.
  destruct (finished who enabled now aps y Hwho Hk Hne Hen Hr Hdone)
    as [Hex [H1 H2 H3 H4 [H5 H5'] [H6 H6'] H7 (_ & _ & Q1 & Q2 & Q3 & Q4 & _)]].
  split_and!; [done..| |done|done|done|done|done|lia|lia|done|done|done|done].
  intros c Hc. split; [by apply H1|by apply H2].
Qed.

(** The dispatch never gets stuck: in every reachable state at most one processor is
    inside the lock, no task was carried out twice, no access panics, and as long as some
    processor has not returned some processor can move on. *)
Theorem rendezvous_never_stuck (who : Z → Z * Z) (enabled now : Z) (aps : gset Z) (y : system) :
  (∀ c, 0 ≤ c < MAX_CPUS → who c = (SUCCESS, c)) →
  (∀ c, c ∈ aps → 0 ≤ c < MAX_CPUS) → aps ≠ ∅ → enabled = size aps + 1 →
  rtc (step who (enabled - 1)) (started_all enabled now aps) y →
  (∀ i j p q, pcs y !! i = Some p → pcs y !! j = Some q → holds p = true → holds q = true → i = j) ∧
  NoDup (executed y) ∧
  (∀ c p sp tsc, pcs y !! c = Some p → (ap_step who (enabled - 1) sp tsc c p (shared y)).1 ≠ Panic) ∧
  ((∃ c p, pcs y !! c = Some p ∧ p ≠ EDone) → ∃ y', step who (enabled - 1) y y' ∧ pcs y' ≠ pcs y).
Proof.
  intros Hwho Hk Hne Hen Hr.
  destruct (reachable_entries who enabled now aps Hwho Hk Hne Hen y Hr) as [Hinv Hdom].
  replace (enabled - 1) with (Z.of_nat (size aps)) by lia. split_and!.
  - intros i j p q Hi Hj; by apply (entry_one_holder who (size aps) Hwho y i j p q).
  - refine (tasks_once _ _ _ _ _ _ _ _ _ (inv_tasks _ _ Hinv)).
    pose proof (pool_counts (pcs y)) as (_ & Hc & _). rewrite (inv_ready _ _ Hinv).
    pose proof (inv_size _ _ Hinv) as [Hsz _]. lia.
  - intros c p sp tsc Hc. by destruct (ap_returns who _ y c p sp tsc Hinv Hc) as (? & ? & ->).
  - intros Hex. destruct (entry_some_mover _ _ Hinv Hex) as (c & p & Hc & Hp).
    destruct (ap_returns who _ y c p false (clock y + 1) Hinv Hc) as (p' & s' & Hs).
    eexists. split; [eapply (step_cpu who _ c p false (clock y + 1)); [done|lia|exact Hs]|].
    cbn. intros Heq. apply (f_equal (.!! c)) in Heq. rewrite lookup_insert_eq, Hc in Heq.
    injection Heq. by eapply entry_can_move_changes.
Qed.

(** ** A schedule, to run the machine *)

(** [k] accesses of processor [c] in a row. *)
Fixpoint drive (who : Z → Z * Z) (expected : Z) (k : nat) (c : Z) (y : system) : system :=
  match k with
  | O => y
  | S k =>
    match pcs y !! c with
    | Some p =>
      match ap_step who expected false (clock y + 1) c p (shared y) with
      | (Ok p', s') =>
        drive who expected k c (MkSystem s' (<[c := p']> (pcs y)) (clock y + 1) (executed y ++ executes p))
      | _ => y
      end
    | None => y
    end
  end.

Lemma entry_drive_rtc who expected k c y : rtc (step who expected) y (drive who expected k c y).
Proof.
  revert y. induction k as [|k IH]; cbn; intros y; [done|].
  destruct (pcs y !! c) as [p|] eqn:Hc; [|done].
  destruct (ap_step _ _ _ _ _ _ _) as [[p'| |] s'] eqn:Hs; try done.
  eapply rtc_l; [eapply step_cpu; [done| |exact Hs]; lia|]. apply IH.
Qed.

(** Processor 1 waits for processor 2, which does all the shared tasks. *)
Definition demo_who (c : Z) : Z * Z := (SUCCESS, c).
Definition demo_start : system := started_all 3 0 {[1; 2]}.
Definition demo_run : system :=
  drive demo_who 2 (Z.to_nat 2100) 1 (drive demo_who 2 (Z.to_nat 10300) 2 (drive demo_who 2 9 1 demo_start)).

Lemma demo_reached : rtc (step demo_who (3 - 1)) demo_start demo_run.
Proof. unfold demo_run. do 2 (etrans; [|apply entry_drive_rtc]). apply entry_drive_rtc. Qed.

Lemma demo_aps c : c ∈ ({[1; 2]} : gset Z) → 0 ≤ c < MAX_CPUS.
Proof. unfold MAX_CPUS. set_solver by lia. Qed.

Definition all_done (y : system) : bool := forallb (λ p, bool_decide (p = EDone)) (values (pcs y)).

Lemma all_done_spec y : all_done y = true → ∀ c p, pcs y !! c = Some p → p = EDone.
Proof.
  unfold all_done. rewrite forallb_forall. intros H c p Hc.
  assert (p ∈ values (pcs y)) as Hin%list_elem_of_In by (apply elem_of_values; by exists c).
  by apply H, bool_decide_eq_true in Hin.
Qed.

Lemma demo_done c p : pcs demo_run !! c = Some p → p = EDone.
Proof. apply all_done_spec. vm_cast_no_check (eq_refl true). Qed.

Lemma rendezvous_exact_witness :
  rtc (step demo_who (3 - 1)) demo_start demo_run ∧ task_sum (shared demo_run) = 8386560 ∧
  work_total (shared demo_run) = 4096 ∧ timer_failures (shared demo_run) = 0.
Proof.
  destruct (rendezvous_exact demo_who 3 0 {[1; 2]} demo_run) as (_ & H1 & _ & _ & H2 & _ & _ & _ & _ & _ & _ & _ & H3).
  - intros c _. reflexivity.
  - exact demo_aps.
  - discriminate.
  - vm_compute. reflexivity.
  - exact demo_reached.
  - exact demo_done.
  - split; [exact demo_reached|]. split; [exact H1|]. split; [exact H2|exact H3].
Defined.

Lemma rendezvous_never_stuck_witness :
  ∃ y', step demo_who (3 - 1) demo_start y' ∧ pcs y' ≠ pcs demo_start.
Proof.
  destruct (rendezvous_never_stuck demo_who 3 0 {[1; 2]} demo_start) as (_ & _ & _ & H).
  - intros c _. reflexivity.
  - exact demo_aps.
  - discriminate.
  - vm_compute. reflexivity.
  - exact (rtc_refl _ _).
  - apply H. exists 1, EEntry. split; [reflexivity|discriminate].
Defined.
End Rendezvous.
