(* ===== verification/Boot.v ===== *)
(** * The boot stages after the handoff: [kernel_shell.rs], [ipi_entry] and
      [efi_main] from the clock boundary to the end, in
      [platform/x86_64-pc-uefi-smp-v1/runtime/src/main.rs]

    [efi_main] finds the MP services, prepares the statics, has [ap_entry] and
    then [ipi_entry] run on the other processors, checks what they left, takes
    the inventory of processors and hands over to [post_firmware::run].  The
    results of firmware calls are inputs ([Firmware]); what the callbacks leave
    in the statics is what [Rendezvous] says.  A stage is an operation on the
    serial port and the statics; an early return of [efi_main] is its error. *)
From S2P Require Import Prelude Target Console FwCfg Handoff Interleave Workers Rendezvous.
From stdpp Require Import strings.

#[local] Open Scope Z_scope.

Module Boot.
Import Target Console Handoff.
Import Rendezvous (Shared, MkShared, SUCCESS, MAX_CPUS, SCHED_TASKS, WORK_PER_CPU, fetch_add, seen, prepare, loaded,
  set_bad_cpu_ids, set_cpu_mask, set_duplicate_cpus, set_work_total, set_task_sum, set_task_cpu_mask,
  set_once_owner, set_ipi_epoch, set_ipi_ack_mask).

(** ** [kernel_shell.rs] *)

Record Clock : Type := MkClock { slot : Z }.
Record Instant : Type := MkInstant {
  ticks : Z; scale_numerator : Z; scale_denominator : Z; error_ticks : Z;
}.

(** [tpl_clock_read], with what the time-stamp counter shows. *)
Definition tpl_clock_read (tsc : Z) (clock : Clock) : Instant :=
  MkInstant tsc 1 1000000 (Z.land (slot clock) 1).

Definition kernel_step (tsc : Z) (clock : Clock) : Z := scale_denominator (tpl_clock_read tsc clock).

(** ** Routines of the boot processor *)

Definition record_cpu (cpu : Z) (s : Shared) : Shared :=
  if MAX_CPUS <=? cpu then set_bad_cpu_ids (fetch_add 1) s
  else
    let s' := set_cpu_mask (Z.lor (Z.shiftl 1 cpu)) s in
    if seen (Rendezvous.cpu_mask s) cpu then set_duplicate_cpus (fetch_add 1) s' else s'.

Definition perform_work (s : Shared) : Shared :=
  Nat.iter (Z.to_nat WORK_PER_CPU) (set_work_total (fetch_add 1)) s.

(** The tasks of a machine with one processor. *)
Definition run_alone (s : Shared) : Shared :=
  foldl (λ s task, set_task_sum (fetch_add task) s) s (seqZ 0 SCHED_TASKS).

(** [ipi_entry] on one processor; the epoch is not written while the callbacks run, so each
    has one effect on the statics. *)
Definition ipi_entry (who : Z → Z * Z) (s : Shared) (self : Z) : Shared :=
  let '(status, cpu) := who self in
  if negb (status =? SUCCESS) || (MAX_CPUS <=? cpu) || negb (Rendezvous.ipi_epoch s =? 1)
  then set_bad_cpu_ids (fetch_add 1) s
  else set_ipi_ack_mask (Z.lor (Z.shiftl 1 cpu)) s.

(** ** Stages *)

(** A line of the log: text, numbers, and text that ends the line. *)
Inductive item : Type := T (s : string) | N (v : Z) | L (s : string).

Section stages.
Context {W : Type} `{PortIo W}.

Record world : Type := MkWorld { io : W; statics : Shared }.

Definition serial {A} (m : op W Z A) : op world Z A :=
  zoom io (λ w b, MkWorld w (statics b)) m.

Definition say (l : list item) : op W Z unit :=
  for_each l (λ i,
    match i with
    | T s => serial_bytes (ascii s)
    | N v => serial_usize v
    | L s => serial_bytes (ascii s ++ [10])
    end).

Definition emit (l : list item) : op world Z unit := serial (say l).

Definition store (f : Shared → Shared) : op world Z unit :=
  modify (λ b, MkWorld (io b) (f (statics b))).
Definition load {A} (f : Shared → A) : op world Z A := reads (λ b, f (statics b)).

(** [if refused { return fail(&serial, stage, status); }] *)
Definition fail_if (refused : bool) (stage : string) (status : Z) : op world Z unit :=
  if refused then (status ← serial (fail (ascii stage) status); lift (Err status)) else mret ().

(** A blocking [StartupAllAPs]: its status, and what the callbacks leave in the statics. *)
Definition call (f : Shared → Z * Shared) : op world Z Z := λ b,
  let '(status, s) := f (statics b) in (Ok status, MkWorld (io b) s).

(** What the firmware and the clock answer. *)
Record Firmware : Type := MkFirmware {
  clock_reads : Z * Z;
  locate : Z * Z;
  number_of_processors : Z * Z * Z;
  bsp_who : Z * Z;
  startup : Shared → Z * Shared;
  broadcast : Shared → Z * Shared;
  stall : Z * Z * Z;
  block : op W Z unit;
  processor_info : Z → Z * Z * Z;
}.

(** [TPL_CLOCK_READ_BINDING] against the shell. *)
Definition clock_boundary (fw : Firmware) : op world Z unit :=
  let clock_boundary := tpl_clock_read (clock_reads fw).1 (MkClock 0) in
  let shell_denominator := kernel_step (clock_reads fw).2 (MkClock 0) in
  fail_if ((scale_numerator clock_boundary =? 0) || (scale_denominator clock_boundary =? 0)
           || negb (shell_denominator =? scale_denominator clock_boundary)) "clock-boundary" STATUS_MAX;;
  emit [L "THERMITE_BOUNDARY name=kernel::clock::read@v1 symbol=tpl_clock_read contract=monotonic_with_error resolved=1"].

(** The MP services: how many processors are enabled, and the number of this one. *)
Definition discover (fw : Firmware) : op world Z (Z * Z * Z) :=
  let '(locate_status, interface) := locate fw in
  fail_if (negb (locate_status =? SUCCESS) || (interface =? 0)) "locate-mp-services" locate_status;;
  let '(count_status, discovered, enabled) := number_of_processors fw in
  fail_if (negb (count_status =? SUCCESS) || (enabled =? 0) || (MAX_CPUS <? enabled)) "cpu-discovery" count_status;;
  emit [T "THERMITE_CPUS discovered="; N discovered; T " enabled="; N enabled; L ""];;
  let '(who_status, bsp) := bsp_who fw in
  fail_if (negb (who_status =? SUCCESS)) "bsp-identity" who_status;;
  mret (discovered, enabled, bsp).

Definition shl1 (cpu : Z) : op world Z Z :=
  lift (if cpu <? 64 then Ok (Z.shiftl 1 cpu) else Panic).

(** The work of all processors, and the check of it. *)
Definition schedule (fw : Firmware) (enabled bsp : Z) : op world Z unit :=
  store (prepare enabled);;
  (if 1 <? enabled then
     startup_status ← call (startup fw);
     fail_if (negb (startup_status =? SUCCESS)) "startup-all-aps" startup_status
   else mret ());;
  store (record_cpu bsp);;
  store perform_work;;
  (if enabled =? 1 then
     store run_alone;;
     bit ← shl1 bsp;
     store (set_task_cpu_mask (λ _, bit));;
     owner ← lift (uadd 64 bsp 1);
     store (set_once_owner (λ _, owner))
   else mret ());;
  task_sum ← load Rendezvous.task_sum;
  let expected_task_sum := SCHED_TASKS * (SCHED_TASKS - 1) / 2 in
  task_cpu_mask ← load Rendezvous.task_cpu_mask;
  let worker_cpus := Workers.count_ones task_cpu_mask in
  let expected_lock_count := Z.max 0 (enabled - 1) in
  lock_counter ← load Rendezvous.lock_counter;
  once_owner ← load Rendezvous.once_owner;
  fail_if (negb (task_sum =? expected_task_sum) || (worker_cpus =? 0)
           || ((4 <=? enabled) && (worker_cpus <? 2))
           || negb (lock_counter =? expected_lock_count) || (once_owner =? 0))
    "scheduler-invariants" STATUS_MAX;;
  emit [T "THERMITE_SCHED tasks="; N SCHED_TASKS; T " sum="; N task_sum; T " worker_cpus="; N worker_cpus;
        T " lock_entries="; N expected_lock_count; L " once=1 bsp_work=1"].

(** The broadcast to all processors. *)
Definition interrupt (fw : Firmware) (enabled bsp : Z) : op world Z unit :=
  bit ← shl1 bsp;
  store (set_ipi_ack_mask (λ _, bit));;
  store (set_ipi_epoch (λ _, 1));;
  (if 1 <? enabled then
     ipi_status ← call (broadcast fw);
     fail_if (negb (ipi_status =? SUCCESS)) "ipi-broadcast" ipi_status
   else mret ());;
  expected_mask ←
    (if enabled =? 64 then mret (umax 64)
     else b ← shl1 enabled; lift (usub b 1));
  ack_mask ← load Rendezvous.ipi_ack_mask;
  emit [T "THERMITE_IPI epoch=1 acked="; N (Workers.count_ones ack_mask); T " expected="; N enabled; L ""];;
  fail_if (negb (ack_mask =? expected_mask)) "ipi-acknowledgement" STATUS_MAX.

Definition monotonic_clock (fw : Firmware) (enabled : Z) : op world Z unit :=
  let '(clock_start, stall_status, clock_end) := stall fw in
  timer_failures ← load Rendezvous.timer_failures;
  fail_if (negb (stall_status =? SUCCESS) || (clock_end <=? clock_start) || negb (timer_failures =? 0))
    "monotonic-clock" stall_status;;
  emit [T "THERMITE_CLOCK monotonic=1 per_cpu="; N enabled; L ""].

(** [if let Err(status) = block_probe(..) { return fail(..) }] *)
Definition block_read (fw : Firmware) : op world Z unit := λ b,
  match serial (block fw) b with
  | (Ok _, b) => (Ok (), b)
  | (Err status, b) => fail_if true "block-read" status b
  | (Panic, b) => (Panic, b)
  end.

(** The counters of all stages. *)
Definition smp_invariants (enabled : Z) : op world Z unit :=
  aps ← load Rendezvous.ap_count;
  work ← load Rendezvous.work_total;
  stale ← load Rendezvous.stale_reads;
  duplicate ← load Rendezvous.duplicate_cpus;
  bad_ids ← load Rendezvous.bad_cpu_ids;
  cpu_mask ← load Rendezvous.cpu_mask;
  let unique := Workers.count_ones cpu_mask in
  max_parallel ← load Rendezvous.max_active;
  expected_work ← lift (umul 64 enabled WORK_PER_CPU);
  let required_parallel := Z.min (Z.max 0 (enabled - 1)) 1 in
  emit [T "THERMITE_SMP online="; N enabled; T " aps="; N aps; T " unique="; N unique; T " work="; N work;
        T " expected="; N expected_work; T " parallel_aps="; N max_parallel; T " stale="; N stale;
        T " duplicate="; N duplicate; T " bad_ids="; N bad_ids; L ""];;
  fail_if (negb (aps =? enabled - 1) || negb (unique =? enabled) || negb (work =? expected_work)
           || (max_parallel <? required_parallel) || negb (stale =? 0) || negb (duplicate =? 0)
           || negb (bad_ids =? 0)) "smp-invariants" STATUS_MAX.

(** The processor inventory: the array, how much of it is filled, and the boot processor. *)
Fixpoint inventory_loop (fw : Firmware) (numbers : list Z) (apic_ids : list Z) (apic_count bsp_apic_id : Z)
    : op world Z (list Z * Z * Z) :=
  match numbers with
  | [] => mret (apic_ids, apic_count, bsp_apic_id)
  | processor_number :: numbers =>
    let '(info_status, processor_id, status_flag) := processor_info fw processor_number in
    fail_if (negb (info_status =? SUCCESS)) "processor-information" info_status;;
    '(apic_ids, apic_count) ←
      (if negb (Z.land status_flag 2 =? 0) then
         fail_if ((MAX_CPUS <=? processor_id) || (apic_count =? MAX_CPUS)) "processor-apic-id" STATUS_MAX;;
         apic_ids ← lift (index_set apic_ids apic_count (wrap 32 processor_id));
         mret (apic_ids, apic_count + 1)
       else mret (apic_ids, apic_count));
    let bsp_apic_id := if negb (Z.land status_flag 1 =? 0) then wrap 32 processor_id else bsp_apic_id in
    inventory_loop fw numbers apic_ids apic_count bsp_apic_id
  end.

Definition inventory (fw : Firmware) (discovered enabled : Z) : op world Z (list Z * Z) :=
  '(apic_ids, apic_count, bsp_apic_id) ←
    inventory_loop fw (seqZ 0 discovered) (replicate 64 0) 0 (umax 32);
  fail_if (negb (apic_count =? enabled) || (bsp_apic_id =? umax 32)) "processor-inventory" STATUS_MAX;;
  mret (take (Z.to_nat apic_count) apic_ids, bsp_apic_id).

(** [efi_main] between the memory map and [post_firmware::run]. *)
Definition boot_processors (fw : Firmware) : op world Z (list Z * Z) :=
  clock_boundary fw;;
  '(discovered, enabled, bsp) ← discover fw;
  schedule fw enabled bsp;;
  interrupt fw enabled bsp;;
  monotonic_clock fw enabled;;
  block_read fw;;
  smp_invariants enabled;;
  inventory fw discovered enabled.
End stages.

(** ** The report of the post-firmware runtime *)

Record PostFirmwareReport : Type := MkReport {
  online : Z; failed : Z; failed_apic_id : Z; ap_workers : Z; worker_cpus : Z; parallel_cpus : Z;
  report_task_sum : Z; heap_bytes : Z; heap_allocations : Z; heap_oom_rejected : Z;
  atomic_message_cpus : Z; atomic_message_stale : Z; device_negative_checks : Z; cpu_local_cpus : Z;
  power_action : FwCfg.PowerAction; model_registry_entries : Z; lock_entries : Z; ipi_acks : Z;
  timer_cpus : Z; timer_ipi_fallbacks : Z; tlb_cpus : Z; dma_bytes : Z; dma_generation : Z;
  entropy_bytes : Z; syscalls : Z; faults : Z;
}.

(** The lines [efi_main] prints from it. *)
Definition report_lines (post : PostFirmwareReport) : list item :=
  [T "THERMITE_KERNEL mode=freestanding online="; N (online post); T " failed="; N (failed post);
   T " failed_apic="; N (failed_apic_id post); L " firmware_calls=0";
   T "THERMITE_ALLOC frames=64 heap_bytes="; N (heap_bytes post); T " allocations="; N (heap_allocations post);
   T " zeroed=1 reclaimed=1 oom_rejected="; N (heap_oom_rejected post); L " bridge=global_alloc";
   T "THERMITE_ATOMIC increment_total=8386560 message_cpus="; N (atomic_message_cpus post);
   T " message_stale="; N (atomic_message_stale post); L " ordering=release-acquire";
   T "THERMITE_DEVICE mmio_widths=8,16,32,64 pio_widths=8,16,32 barriers=4 pci=1 virtio=1 negatives=";
   N (device_negative_checks post); L "";
   T "THERMITE_CPU_LOCAL installed="; N (cpu_local_cpus post); T " gs_verified="; N (cpu_local_cpus post);
   L " generation=1";
   T "THERMITE_MODEL event_action=1 atomic=1 frame=1 dma_iommu=1 scheduler=1 registry_entries=";
   N (model_registry_entries post); L " linked=thermite-kernel";
   T "THERMITE_POST_SCHED tasks=4096 sum="; N (report_task_sum post); T " worker_cpus="; N (worker_cpus post);
   T " ap_workers="; N (ap_workers post); T " parallel_cpus="; N (parallel_cpus post);
   T " lock_entries="; N (lock_entries post); L "";
   T "THERMITE_POST_IPI epoch=2 acked_aps="; N (ipi_acks post); L "";
   T "THERMITE_TIMER source=tsc-deadline-apic per_cpu="; N (timer_cpus post);
   T " tsc_ipi_fallbacks="; N (timer_ipi_fallbacks post); L "";
   T "THERMITE_TLB epoch=2 invalidated_cpus="; N (tlb_cpus post); L " stale=0";
   T "THERMITE_POST_DMA device=virtio-blk domain=identity bytes="; N (dma_bytes post);
   T " generation="; N (dma_generation post); L " ownership=cpu signature=55aa stale_rejected=1";
   T "THERMITE_ENTROPY source=rdrand bytes="; N (entropy_bytes post); L " health=passed";
   T "THERMITE_USER ring=3 syscall_instruction=syscall syscall="; N (syscalls post);
   T " fault="; N (faults post); L " resume=1"].

Definition power (action : FwCfg.PowerAction) : string * Z :=
  match action with FwCfg.Reboot => ("reboot"%string, 0) | FwCfg.PowerOff => ("poweroff"%string, 2) end.

(** How [efi_main] ends: it spins for ever, or it calls [reset_system] (if there is one)
    and returns the status. *)
Inductive ending : Type := Spins | Returns (reset : option Z) (status : Z).

Definition boot_end {W} `{PortIo W} (run : res PostFirmwareError PostFirmwareReport) (runtime_services : Z)
    : op W Z ending :=
  match run with
  | Ok post =>
    say (report_lines post);;
    let '(power_name, reset_type) := power (power_action post) in
    say [T "THERMITE_POWER action="; T power_name; L " terminal=1"; L "THERMITE_SUCCESS gate=boot-smp-v1"];;
    mret (Returns (if runtime_services =? 0 then None else Some reset_type) SUCCESS)
  | Err error =>
    say [T "THERMITE_FAIL stage=post-firmware status="; N (code error); L ""];;
    mret Spins
  | Panic => lift Panic
  end.

(** ** How a stage ends *)

(** The line of [fail]. *)
Definition fail_text (stage : list Z) (status : Z) : list Z :=
  crlf (ascii "THERMITE_FAIL stage="%string) ++ crlf stage
  ++ crlf (ascii " status="%string) ++ ([48; 120] ++ hex16 status) ++ [13; 10].

Section ends.
Context {W : Type} `{Uart W}.

(** On a working serial port and statics [s], [m] ends with [r] and statics [s']. *)
Definition Ends {A} (m : op (world (W := W)) Z A) (s : Shared) (r : res Z A) (s' : Shared) : Prop :=
  ∀ w, live w → ∃ w', m (MkWorld w s) = (r, MkWorld w' s') ∧ live w'.

Lemma ends_ret {A} (a : A) s : Ends (mret a) s (Ok a) s.
Proof. intros w Hw. by exists w. Qed.

Lemma ends_lift {A} (r : res Z A) s : Ends (lift r) s r s.
Proof. intros w Hw. by exists w. Qed.

Lemma ends_bind {A B} (m : op world Z A) (k : A → op world Z B) s a s1 r s' :
  Ends m s (Ok a) s1 → Ends (k a) s1 r s' → Ends (m ≫= k) s r s'.
Proof.
  intros Hm Hk w Hw. destruct (Hm w Hw) as (w1 & E1 & L1). destruct (Hk w1 L1) as (w2 & E2 & L2).
  exists w2. unfold mbind, op_bind. by rewrite E1.
Qed.

(** It ends in one of the ways [Q] allows. *)
Definition Leads {A} (m : op (world (W := W)) Z A) (s : Shared) (Q : res Z A → W → Shared → Prop) : Prop :=
  ∀ w, live w → ∃ r w' s', m (MkWorld w s) = (r, MkWorld w' s') ∧ live w' ∧ Q r w' s'.

(** It is refused at [stage]: the status is returned behind the line that names the stage. *)
Definition refused {A} (stage : string) (status : Z) (r : res Z A) (w : W) : Prop :=
  r = Err status ∧ fail_text (ascii stage) status `suffix_of` sent w.

Lemma ends_leads {A} (m : op world Z A) s r s' Q : Ends m s r s' → (∀ w, Q r w s') → Leads m s Q.
Proof. intros Hm HQ w Hw. destruct (Hm w Hw) as (w' & E & L). by exists r, w', s'. Qed.

Lemma leads_bind {A B} (m : op world Z A) (k : A → op world Z B) s a s1 Q :
  Ends m s (Ok a) s1 → Leads (k a) s1 Q → Leads (m ≫= k) s Q.
Proof.
  intros Hm Hk w Hw. destruct (Hm w Hw) as (w1 & E1 & L1). destruct (Hk w1 L1) as (r & w2 & s2 & E2 & L2).
  exists r, w2, s2. unfold mbind, op_bind. by rewrite E1.
Qed.

(** A refusal ends all that follows. *)
Lemma leads_refused {A B} (m : op world Z A) (k : A → op world Z B) s stage status Q :
  Leads m s (λ r w _, refused stage status r w) → (∀ r w s', refused stage status r w → Q r w s') →
  Leads (m ≫= k) s Q.
Proof.
  intros Hm HQ w Hw. destruct (Hm w Hw) as (r & w1 & s1 & E1 & L1 & -> & Ht).
  exists (Err status), w1, s1. unfold mbind, op_bind. rewrite E1. split_and!; [done..|]. by apply HQ.
Qed.

Lemma ends_serial {A} (m : op W Z A) a l s : Sends m a l → Ends (serial m) s (Ok a) s.
Proof.
  intros Hm w Hw. destruct (Hm w Hw) as (w' & E1 & L1 & _). exists w'.
  unfold serial, zoom. cbn. by rewrite E1.
Qed.

Definition printable (i : item) : Prop := match i with N v => u64 v | _ => True end.

(** The bytes of a line. *)
Definition text (i : item) : list Z :=
  match i with T s => crlf (ascii s) | N v => digits v | L s => crlf (ascii s ++ [10]) end.

Lemma sends_say l : Forall printable l → Sends (say l) () (l ≫= text).
Proof.
  intros Hl. apply sends_each. intros i Hi. rewrite Forall_forall in Hl. specialize (Hl i Hi).
  destruct i; [apply sends_bytes|by apply sends_usize|apply sends_bytes].
Qed.

Lemma ends_emit l s : Forall printable l → Ends (emit l) s (Ok ()) s.
Proof. intros Hl. by eapply ends_serial, sends_say. Qed.

Lemma ends_store f s : Ends (store f) s (Ok ()) (f s).
Proof. intros w Hw. by exists w. Qed.

Lemma ends_load {A} (f : Shared → A) s : Ends (load f) s (Ok (f s)) s.
Proof. intros w Hw. by exists w. Qed.

Lemma ends_call f s status s' : f s = (status, s') → Ends (call f) s (Ok status) s'.
Proof. intros Hf w Hw. exists w. unfold call. cbn. by rewrite Hf. Qed.

Lemma ends_pass b stage status s : b = false → Ends (fail_if b stage status) s (Ok ()) s.
Proof. intros ->. apply ends_ret. Qed.

Lemma leads_refuse b stage status s (Q : res Z unit → W → Shared → Prop) :
  b = true → (∀ r w, refused stage status r w → Q r w s) → Leads (fail_if b stage status) s Q.
Proof.
  intros -> HQ w Hw. destruct (sends_fail (E := Z) (ascii stage) status w Hw) as (w' & E & L & S).
  exists (Err status), w', s. unfold fail_if, serial, zoom, mbind, op_bind, lift. cbn [io statics]. rewrite E.
  split; [reflexivity|]. split; [exact L|]. apply HQ. split; [done|]. rewrite app_nil_r in S. by exists (sent w).
Qed.

Lemma ends_shl1 cpu s : cpu < 64 → Ends (shl1 cpu) s (Ok (Z.shiftl 1 cpu)) s.
Proof. intros Hc. unfold shl1. rewrite (proj2 (Z.ltb_lt _ _) Hc). apply ends_lift. Qed.
End ends.

(** ** The routines of the boot processor *)

Lemma iter_work k s :
  Nat.iter k (set_work_total (fetch_add 1)) s =
  (if decide (k = O) then s else set_work_total (fetch_add k) s).
Proof.
  induction k as [|k IH]; [done|].
  rewrite Nat.iter_succ, IH.
  destruct s as [rd pl wt]. case_decide as E; [subst; done|]. cbn. f_equal. unfold fetch_add.
  rewrite wrap_add_l. f_equal. lia.
Qed.

Lemma perform_work_total s : perform_work s = set_work_total (fetch_add WORK_PER_CPU) s.
Proof. unfold perform_work. by rewrite iter_work. Qed.

Lemma run_alone_loop s l :
  u64 (Rendezvous.task_sum s) →
  foldl (λ s task, set_task_sum (fetch_add task) s) s l = set_task_sum (fetch_add (zsum l)) s.
Proof.
  revert s. induction l as [|x l IH]; intros s Hu.
  - destruct s. cbn in *. f_equal. unfold fetch_add. change (zsum []) with 0.
    rewrite Z.add_0_r. symmetry. by apply wrap_small.
  - cbn [foldl]. rewrite IH; [|destruct s; cbn; apply Z.mod_pos_bound; lia].
    rewrite zsum_cons. destruct s. cbn. f_equal. unfold fetch_add. rewrite wrap_add_l. f_equal. lia.
Qed.

Lemma zsum_tasks : zsum (seqZ 0 SCHED_TASKS) = 8386560.
Proof. pose proof (zsum_seqZ SCHED_TASKS ltac:(done)) as Hz. unfold SCHED_TASKS in *. lia. Qed.

Lemma run_alone_sum s :
  u64 (Rendezvous.task_sum s) → run_alone s = set_task_sum (fetch_add 8386560) s.
Proof. intros Hu. unfold run_alone. by rewrite run_alone_loop, zsum_tasks. Qed.

#[local] Opaque perform_work run_alone.

Lemma count_ones_bound m : 0 ≤ Workers.count_ones m ≤ 64.
Proof.
  unfold Workers.count_ones. pose proof (List.filter_length_le (Z.testbit m) (seqZ 0 64)) as Hl.
  rewrite length_seqZ in Hl. lia.
Qed.

Lemma count_ones_bit c : 0 ≤ c < 64 → Workers.count_ones (Z.shiftl 1 c) = 1.
Proof.
  intros Hc. rewrite (Workers.count_ones_size _ {[c]}), size_singleton; [done| |].
  - intros i ->%elem_of_singleton. exact Hc.
  - intros i Hi. rewrite Z.shiftl_1_l, Z.pow2_bits_eqb, Z.eqb_eq, elem_of_singleton by lia.
    split; congruence.
Qed.

(** The callbacks of the broadcast, in any order. *)
Lemma ipi_fold who l s :
  (∀ c, c ∈ l → 0 ≤ c < 64 ∧ who c = (SUCCESS, c)) → Rendezvous.ipi_epoch s = 1 →
  ∃ m, foldl (ipi_entry who) s l = set_ipi_ack_mask (λ _, m) s ∧
    (0 ≤ Rendezvous.ipi_ack_mask s → 0 ≤ m) ∧ ∀ c, 0 ≤ c → Z.testbit m c = true ↔ Z.testbit (Rendezvous.ipi_ack_mask s) c = true ∨ c ∈ l.
Proof.
  revert s. induction l as [|x l IH]; intros s Hl He.
  - exists (Rendezvous.ipi_ack_mask s). split; [by destruct s|]. split; [done|]. set_solver.
  - destruct (Hl x ltac:(set_solver)) as [Hx Hw].
    assert (ipi_entry who s x = set_ipi_ack_mask (Z.lor (Z.shiftl 1 x)) s) as Hs.
    { unfold ipi_entry. rewrite Hw, He. unfold MAX_CPUS. rewrite (proj2 (Z.leb_gt _ _)) by lia. done. }
    cbn [foldl]. rewrite Hs.
    destruct (IH (set_ipi_ack_mask (Z.lor (Z.shiftl 1 x)) s)) as (m & Hm & Hp & Hb);
      [set_solver|by destruct s|].
    exists m. split; [rewrite Hm; by destruct s|]. split.
    { intros Hs0. apply Hp. destruct s; cbn in *. apply Z.lor_nonneg. split; [|done]. apply Z.shiftl_nonneg. lia. }
    intros c Hc. rewrite Hb by done.
    replace (Rendezvous.ipi_ack_mask (set_ipi_ack_mask (Z.lor (Z.shiftl 1 x)) s))
      with (Z.lor (Rendezvous.ipi_ack_mask s) (2 ^ x)) by (destruct s; cbn; rewrite Z.shiftl_1_l; apply Z.lor_comm).
    rewrite lor_pow2_testbit, orb_true_iff, Z.eqb_eq by lia. set_solver.
Qed.

(** ** A machine whose firmware does what the MP services promise *)

Section machine.
Context {W : Type} `{Uart W}.
Context (fw : Firmware (W := W)) (discovered enabled bsp : Z) (aps : gset Z).

(** The processor numbers of the machine, the enabled ones first to last, and the flags and
    APIC ids the firmware reports. *)
Definition flags (n : Z) : Z := (processor_info fw n).2.
Definition apic_id (n : Z) : Z := (processor_info fw n).1.2.
Definition is_enabled (n : Z) : bool := negb (Z.land (flags n) 2 =? 0).
Definition is_bsp (n : Z) : bool := negb (Z.land (flags n) 1 =? 0).

(** The promises of the MP services: the counts and the callers' numbers are right, a blocking
    dispatch runs its procedure once on every other enabled processor and returns, and the
    information about each processor is given. *)
Record services : Prop := {
  s_bsp : bsp ∉ aps;
  s_size : enabled = size aps + 1;
  s_discovered : u64 discovered;
  s_locate : (locate fw).1 = SUCCESS ∧ (locate fw).2 ≠ 0;
  s_number : number_of_processors fw = (SUCCESS, discovered, enabled);
  s_who : bsp_who fw = (SUCCESS, bsp);
  s_startup : aps ≠ ∅ → ∃ who now y,
    (∀ c, 0 ≤ c < MAX_CPUS → who c = (SUCCESS, c)) ∧
    rtc (Rendezvous.step who (enabled - 1)) (Rendezvous.started_all enabled now aps) y ∧
    (∀ c p, Rendezvous.pcs y !! c = Some p → p = Rendezvous.EDone) ∧
    startup fw (prepare enabled loaded) = (SUCCESS, Rendezvous.shared y);
  s_broadcast : ∃ who order, order ≡ₚ elements aps ∧
    (∀ c, 0 ≤ c < MAX_CPUS → who c = (SUCCESS, c)) ∧
    ∀ s, broadcast fw s = (SUCCESS, foldl (ipi_entry who) s order);
  s_info n : 0 ≤ n < discovered → (processor_info fw n).1.1 = SUCCESS;
  s_numbers n : 0 ≤ n < discovered ∧ is_enabled n = true ↔ n ∈ ({[bsp]} ∪ aps : gset Z);
  s_apic n : 0 ≤ n < discovered → u64 (apic_id n);
  s_boot n : 0 ≤ n < discovered → is_bsp n = true ↔ n = bsp;
}.

(** What else the stages rely on: the enabled processors have numbers below the size of the
    masks, the clock advances over the stall, and the boot disk can be read. *)
Record surroundings : Prop := {
  c_range c : c ∈ ({[bsp]} ∪ aps : gset Z) → 0 ≤ c < MAX_CPUS;
  c_stall : (stall fw).1.2 = SUCCESS ∧ (stall fw).1.1 < (stall fw).2;
  c_block : ∃ l, Sends (block fw) () l;
}.

Context (Hsv : services) (Hsr : surroundings).

Lemma enabled_range : 1 ≤ enabled ≤ 64 ∧ (1 < enabled ↔ aps ≠ ∅).
Proof.
  rewrite (s_size Hsv).
  assert (size ({[bsp]} ∪ aps : gset Z) ≤ 64) as Hle by (apply Workers.cpus_bound, Hsr).
  rewrite size_union, size_singleton in Hle by (pose proof (s_bsp Hsv); set_solver).
  split; [lia|]. rewrite <- leibniz_equiv_iff, <- size_empty_iff. lia.
Qed.

(** What the statics hold once all processors have worked. *)
Record settled (s : Shared) : Prop := {
  st_mask c : 0 ≤ c → Z.testbit (Rendezvous.cpu_mask s) c = true ↔ c ∈ ({[bsp]} ∪ aps : gset Z);
  st_aps : Rendezvous.ap_count s = enabled - 1;
  st_work : Rendezvous.work_total s = enabled * WORK_PER_CPU;
  st_max : Z.min (enabled - 1) 1 ≤ Rendezvous.max_active s ≤ 64;
  st_stale : Rendezvous.stale_reads s = 0;
  st_duplicate : Rendezvous.duplicate_cpus s = 0;
  st_bad : Rendezvous.bad_cpu_ids s = 0;
  st_timer : Rendezvous.timer_failures s = 0;
}.

(** The statics after the dispatch, if there was one. *)
Definition dispatched (s : Shared) : Prop :=
  (∀ c, 0 ≤ c → Z.testbit (Rendezvous.cpu_mask s) c = true ↔ c ∈ aps) ∧
  Rendezvous.ap_count s = enabled - 1 ∧ Rendezvous.work_total s = (enabled - 1) * WORK_PER_CPU ∧
  Z.min (enabled - 1) 1 ≤ Rendezvous.max_active s ≤ 64 ∧ Rendezvous.quiet s ∧
  Rendezvous.lock_counter s = enabled - 1 ∧
  (aps ≠ ∅ → Rendezvous.outcome enabled aps s) ∧ (aps = ∅ → Rendezvous.task_sum s = 0).

Lemma dispatch_ends :
  ∃ s, Ends (if 1 <? enabled then
      startup_status ← call (startup fw);
      fail_if (negb (startup_status =? SUCCESS)) "startup-all-aps" startup_status
    else mret ()) (prepare enabled loaded) (Ok ()) s ∧ dispatched s.
Proof.
  destruct enabled_range as [Hr Hne]. destruct (Z.ltb_spec 1 enabled) as [Hlt|Hge].
  - apply Hne in Hlt. destruct (s_startup Hsv Hlt) as (who & now & y & Hw & Hy & Hd & Hs).
    exists (Rendezvous.shared y). split.
    + eapply ends_bind; [by apply ends_call|]. by apply ends_pass.
    + destruct (Rendezvous.finished who enabled now aps y Hw) as [_ Ho]; try done.
      { intros c Hc. apply (c_range Hsr). set_solver. }
      { apply (s_size Hsv). }
      pose proof Ho as [H1 H2 H3 H4 [H5 _] [_ H6] H7 H8]. split_and!; try done; lia.
  - assert (aps = ∅) as Hem by (destruct (decide (aps = ∅)) as [|Hn]; [done|apply Hne in Hn; lia]).
    assert (enabled = 1) as He by lia.
    exists (prepare enabled loaded). split; [apply ends_ret|]. unfold dispatched. rewrite He, Hem. cbn.
    split_and!; try done; try lia. intros c Hc. rewrite Z.testbit_0_l. set_solver.
Qed.

Lemma record_settles s :
  dispatched s → settled (perform_work (record_cpu bsp s)) ∧
  Rendezvous.task_sum (perform_work (record_cpu bsp s)) = Rendezvous.task_sum s ∧
  Rendezvous.task_cpu_mask (perform_work (record_cpu bsp s)) = Rendezvous.task_cpu_mask s ∧
  Rendezvous.lock_counter (perform_work (record_cpu bsp s)) = Rendezvous.lock_counter s ∧
  Rendezvous.once_owner (perform_work (record_cpu bsp s)) = Rendezvous.once_owner s.
Proof.
  intros (H1 & H2 & H3 & H4 & (_ & _ & Q1 & Q2 & Q3 & Q4 & _) & _).
  pose proof (c_range Hsr bsp ltac:(set_solver)) as Hb. unfold MAX_CPUS in Hb.
  destruct enabled_range as [Hr _]. rewrite perform_work_total.
  assert (seen (Rendezvous.cpu_mask s) bsp = false) as Hs.
  { rewrite Rendezvous.seen_testbit by lia. apply not_true_iff_false. rewrite H1 by lia. apply (s_bsp Hsv). }
  unfold record_cpu, MAX_CPUS. rewrite (proj2 (Z.leb_gt _ _)), Hs by lia.
  destruct s. cbn in *. split; [|done]. split; cbn; try done.
  - intros c Hc. rewrite Z.lor_comm, Z.shiftl_1_l, lor_pow2_testbit, orb_true_iff, Z.eqb_eq, H1 by lia.
    set_solver.
  - unfold fetch_add, WORK_PER_CPU in *. rewrite wrap_small by lia. lia.
Qed.

(** A machine with one processor does all the tasks itself. *)
Lemma alone_ends s s' :
  dispatched s → s' = perform_work (record_cpu bsp s) →
  ∃ s1, Ends (if enabled =? 1 then
      store run_alone;;
      bit ← shl1 bsp;
      store (set_task_cpu_mask (λ _, bit));;
      owner ← lift (uadd 64 bsp 1);
      store (set_once_owner (λ _, owner))
    else mret ()) s' (Ok ()) s1 ∧ settled s1 ∧
    Rendezvous.task_sum s1 = 8386560 ∧ Rendezvous.lock_counter s1 = enabled - 1 ∧
    Rendezvous.once_owner s1 ≠ 0 ∧ 1 ≤ Workers.count_ones (Rendezvous.task_cpu_mask s1) ≤ 64 ∧
    (2 ≤ enabled → Workers.count_ones (Rendezvous.task_cpu_mask s1) = enabled - 1).
Proof.
  intros Hd ->. destruct (record_settles s Hd) as (Hst & E1 & E2 & E3 & E4).
  destruct Hd as (_ & _ & _ & _ & _ & Hl & Ho & Hz). destruct enabled_range as [Hr Hne].
  pose proof (c_range Hsr bsp ltac:(set_solver)) as Hb. unfold MAX_CPUS in Hb.
  set (s' := perform_work (record_cpu bsp s)) in *. clearbody s'.
  destruct (Z.eqb_spec enabled 1) as [He|He].
  - assert (aps = ∅) as Hem by (destruct (decide (aps = ∅)) as [|Hn]; [done|apply Hne in Hn; lia]).
    specialize (Hz Hem). rewrite <- E1 in Hz.
    assert (run_alone s' = set_task_sum (λ _, 8386560) s') as Ha.
    { rewrite run_alone_sum by (rewrite Hz; done).
      destruct s'. cbn in *. subst. done. }
    eexists. split_and!.
    { eapply ends_bind; [apply ends_store|]. eapply ends_bind; [apply ends_shl1; lia|].
      eapply ends_bind; [apply ends_store|]. unfold uadd. rewrite (proj2 (Z.ltb_lt _ _)) by lia.
      eapply ends_bind; [apply ends_lift|]. apply ends_store. }
    all: rewrite Ha; destruct s'; cbn in *; try lia.
    + destruct Hst. by split.
    + rewrite count_ones_bit; lia.
    + rewrite count_ones_bit; lia.
  - exists s'. split; [apply ends_ret|]. split; [done|].
    assert (aps ≠ ∅) as Hn by (apply Hne; lia). destruct (Ho Hn) as [_ H2 _ _ [H5 H5'] _ H7 _].
    assert (Workers.count_ones (Rendezvous.task_cpu_mask s') = enabled - 1) as Hc.
    { rewrite E2, (Workers.count_ones_size _ aps); [rewrite (s_size Hsv); lia| |done].
      intros c Hc. apply (c_range Hsr). set_solver. }
    rewrite E1, E3, E4, Hc. split_and!; try done; lia.
Qed.

Lemma schedule_ends : ∃ s, Ends (schedule fw enabled bsp) loaded (Ok ()) s ∧ settled s.
Proof.
  destruct dispatch_ends as (s0 & He0 & Hd). destruct (alone_ends s0 _ Hd eq_refl)
    as (s1 & He1 & Hst & Ht & Hl & Ho & Hc & Hc2). destruct enabled_range as [Hr _].
  exists s1. split; [|done]. unfold schedule.
  eapply ends_bind; [apply ends_store|]. eapply ends_bind; [exact He0|].
  eapply ends_bind; [apply ends_store|]. eapply ends_bind; [apply ends_store|].
  eapply ends_bind; [exact He1|]. do 4 (eapply ends_bind; [apply ends_load|]).
  cbv beta. rewrite Ht, Hl. cbv zeta.
  eapply ends_bind; [apply ends_pass|apply ends_emit].
  - change (SCHED_TASKS * (SCHED_TASKS - 1) / 2) with 8386560. rewrite Z.eqb_refl.
    rewrite (proj2 (Z.eqb_neq _ _) Ho). zcase; cbn; try done; lia.
  - repeat constructor; cbn; unfold in_u, SCHED_TASKS; lia.
Qed.

(** The mask the code expects: the lowest [enabled] bits. *)
Definition lowest : gset Z := list_to_set (seqZ 0 enabled).

Lemma lowest_mask m :
  0 ≤ m → (∀ c, 0 ≤ c → Z.testbit m c = true ↔ c ∈ ({[bsp]} ∪ aps : gset Z)) →
  (m =? 2 ^ enabled - 1) = bool_decide ({[bsp]} ∪ aps = lowest).
Proof.
  intros Hm Hb. destruct enabled_range as [Hr _].
  assert (2 ^ enabled - 1 = Z.ones enabled) as -> by (rewrite Z.ones_equiv; lia).
  apply eq_true_iff_eq. rewrite Z.eqb_eq, bool_decide_eq_true. split.
  - intros ->. apply set_eq. intros c. unfold lowest. rewrite elem_of_list_to_set, elem_of_seqZ. split.
    + intros Hc. pose proof (c_range Hsr c Hc) as Hr0. apply Hb in Hc; [|lia].
      apply Z.ones_spec_iff in Hc; lia.
    + intros Hc. apply Hb; [lia|]. apply Z.ones_spec_iff; lia.
  - intros Heq. apply Z.bits_inj'. intros c Hc. apply eq_true_iff_eq.
    rewrite Hb, Heq, Z.ones_spec_iff by lia. unfold lowest. rewrite elem_of_list_to_set, elem_of_seqZ. lia.
Qed.

Lemma broadcast_ends s :
  Rendezvous.ipi_epoch s = 1 → Rendezvous.ipi_ack_mask s = Z.shiftl 1 bsp →
  ∃ m, Ends (if 1 <? enabled then
      ipi_status ← call (broadcast fw); fail_if (negb (ipi_status =? SUCCESS)) "ipi-broadcast" ipi_status
    else mret ()) s (Ok ()) (set_ipi_ack_mask (λ _, m) s) ∧ 0 ≤ m ∧
    ∀ c, 0 ≤ c → Z.testbit m c = true ↔ c ∈ ({[bsp]} ∪ aps : gset Z).
Proof.
  intros He Hk. destruct enabled_range as [Hr Hne].
  pose proof (c_range Hsr bsp ltac:(set_solver)) as Hb. unfold MAX_CPUS in Hb.
  assert (∀ c, 0 ≤ c → Z.testbit (Z.shiftl 1 bsp) c = true ↔ c = bsp) as Hbit.
  { intros c Hc. rewrite Z.shiftl_1_l, Z.pow2_bits_eqb, Z.eqb_eq by lia. split; congruence. }
  destruct (Z.ltb_spec 1 enabled) as [Hlt|Hge].
  - destruct (s_broadcast Hsv) as (who & order & Hp & Hw & Hs).
    assert (∀ c, c ∈ order ↔ c ∈ aps) as Hin by (intros c; by rewrite Hp, elem_of_elements).
    destruct (ipi_fold who order s) as (m & Hm & Hpos & Hmb); [|done|].
    { intros c Hc%Hin. assert (0 ≤ c < MAX_CPUS) as Hr0 by (apply (c_range Hsr); set_solver). by split; [|apply Hw]. }
    exists m. split_and!.
    + eapply ends_bind; [apply ends_call; by rewrite Hs, Hm|]. by apply ends_pass.
    + apply Hpos. rewrite Hk. apply Z.shiftl_nonneg. lia.
    + intros c Hc. rewrite Hmb, Hk, Hbit, Hin by done. set_solver.
  - assert (aps = ∅) as Hem by (destruct (decide (aps = ∅)) as [|Hn]; [done|apply Hne in Hn; lia]).
    exists (Z.shiftl 1 bsp). split_and!.
    + replace (set_ipi_ack_mask (λ _, Z.shiftl 1 bsp) s) with s; [apply ends_ret|]. rewrite <- Hk. by destruct s.
    + apply Z.shiftl_nonneg. lia.
    + intros c Hc. rewrite Hbit by done. set_solver.
Qed.

Lemma interrupt_ends s :
  settled s → ∃ s', settled s' ∧ Leads (interrupt fw enabled bsp) s (λ r w s2, s2 = s' ∧
    if decide ({[bsp]} ∪ aps = lowest) then r = Ok () else refused "ipi-acknowledgement" STATUS_MAX r w).
Proof.
  intros Hst. destruct enabled_range as [Hr Hne].
  pose proof (c_range Hsr bsp ltac:(set_solver)) as Hb. unfold MAX_CPUS in Hb.
  set (s1 := set_ipi_epoch (λ _, 1) (set_ipi_ack_mask (λ _, Z.shiftl 1 bsp) s)).
  destruct (broadcast_ends s1) as (m & Hm & Hm0 & Hmb); [by destruct s..|].
  exists (set_ipi_ack_mask (λ _, m) s1). split; [destruct s; destruct Hst; by split|].
  unfold interrupt. eapply leads_bind; [apply ends_shl1; lia|].
  eapply leads_bind; [apply ends_store|]. eapply leads_bind; [apply ends_store|].
  eapply leads_bind; [exact Hm|].
  eapply (leads_bind _ _ _ (2 ^ enabled - 1)).
  { destruct (Z.eqb_spec enabled 64) as [->|He]; [apply ends_ret|].
    eapply ends_bind; [apply ends_shl1; lia|]. rewrite Z.shiftl_1_l. unfold usub.
    rewrite (proj2 (Z.leb_le _ _)) by (pose proof (Z.pow_pos_nonneg 2 enabled); lia). apply ends_lift. }
  eapply leads_bind; [apply ends_load|]. cbv beta.
  eapply leads_bind; [apply ends_emit|].
  { pose proof (count_ones_bound (Rendezvous.ipi_ack_mask (set_ipi_ack_mask (λ _, m) s1))).
    repeat constructor; cbn; unfold in_u; lia. }
  replace (Rendezvous.ipi_ack_mask (set_ipi_ack_mask (λ _, m) s1)) with m by (by destruct s).
  rewrite (lowest_mask m) by (done || lia). case_decide as Hd.
  - eapply ends_leads; [apply ends_pass; by rewrite bool_decide_eq_true_2|done].
  - apply leads_refuse; [by rewrite bool_decide_eq_false_2|done].
Qed.

Lemma clock_ends s : settled s → Ends (monotonic_clock fw enabled) s (Ok ()) s.
Proof.
  intros Hst. destruct enabled_range as [Hr _]. destruct (c_stall Hsr) as [Hs1 Hs2]. unfold monotonic_clock.
  destruct (stall fw) as [[t0 status] t1]. cbn in Hs1, Hs2. subst status.
  eapply ends_bind; [apply ends_load|]. cbv beta. rewrite (st_timer _ Hst).
  eapply ends_bind; [apply ends_pass|apply ends_emit].
  - rewrite (proj2 (Z.leb_gt _ _)) by lia. reflexivity.
  - repeat constructor; cbn; unfold in_u; lia.
Qed.

Lemma block_ends s : Ends (block_read fw) s (Ok ()) s.
Proof.
  intros w Hw. destruct (c_block Hsr) as [l Hl]. destruct (ends_serial _ _ _ s Hl w Hw) as (w' & E & Hw').
  exists w'. unfold block_read. by rewrite E.
Qed.

Lemma smp_ends s : settled s → Ends (smp_invariants enabled) s (Ok ()) s.
Proof.
  intros Hst. destruct enabled_range as [Hr _]. pose proof (st_max _ Hst) as Hx.
  assert (Workers.count_ones (Rendezvous.cpu_mask s) = enabled) as Hu.
  { rewrite (Workers.count_ones_size _ ({[bsp]} ∪ aps)); [|apply Hsr|apply Hst].
    rewrite size_union, size_singleton by (pose proof (s_bsp Hsv); set_solver). rewrite (s_size Hsv). lia. }
  unfold smp_invariants. do 7 (eapply ends_bind; [apply ends_load|]). cbv beta zeta.
  rewrite (st_aps _ Hst), (st_work _ Hst), (st_stale _ Hst), (st_duplicate _ Hst), (st_bad _ Hst), Hu.
  unfold umul, WORK_PER_CPU. rewrite (proj2 (Z.ltb_lt (enabled * 2048) (2 ^ 64))) by lia.
  eapply ends_bind; [apply ends_lift|]. cbv beta. eapply ends_bind; [apply ends_emit|].
  - repeat constructor; cbn; unfold in_u; lia.
  - apply ends_pass. rewrite !Z.eqb_refl, (proj2 (Z.ltb_ge _ _)) by lia. reflexivity.
Qed.

(** *** The inventory *)

(** The boot processor's id as the loop leaves it. *)
Definition last_bsp (l : list Z) (b : Z) : Z := foldl (λ b n, if is_bsp n then apic_id n else b) b l.

Lemma last_bsp_other l b : bsp ∉ l → (∀ n, n ∈ l → 0 ≤ n < discovered) → last_bsp l b = b.
Proof.
  unfold last_bsp. revert b. induction l as [|n l IH]; intros b Hn Hl; [done|]. cbn [foldl].
  destruct (is_bsp n) eqn:E; [|apply IH; set_solver].
  apply (s_boot Hsv) in E; [set_solver|apply Hl; set_solver].
Qed.

Lemma last_bsp_found l b : bsp ∈ l → (∀ n, n ∈ l → 0 ≤ n < discovered) → last_bsp l b = apic_id bsp.
Proof.
  unfold last_bsp. revert b. induction l as [|n l IH]; intros b Hn Hl; [set_solver|]. cbn [foldl].
  destruct (decide (bsp ∈ l)) as [Hin|Hout]; [apply IH; set_solver|].
  assert (n = bsp) as -> by set_solver. rewrite (proj2 (s_boot Hsv bsp ltac:(apply Hl; set_solver)) eq_refl).
  apply last_bsp_other; set_solver.
Qed.

(** The APIC ids of the processors enabled, in the order of their numbers. *)
Definition enabled_ids : list Z := apic_id <$> List.filter is_enabled (seqZ 0 discovered).

Lemma enabled_ids_small n :
  Forall (λ id, id < MAX_CPUS) enabled_ids → 0 ≤ n < discovered → is_enabled n = true → 0 ≤ apic_id n < 64.
Proof.
  rewrite Forall_forall. intros Hs Hn He. split; [apply (s_apic Hsv n Hn)|]. apply Hs.
  apply list_elem_of_fmap. exists n. split; [done|]. apply list_elem_of_In, filter_In. split; [|done].
  apply list_elem_of_In, elem_of_seqZ. lia.
Qed.

Lemma inventory_loop_ends l arr c b s :
  Forall (λ id, id < MAX_CPUS) enabled_ids →
  (∀ n, n ∈ l → 0 ≤ n < discovered) → length arr = 64%nat → 0 ≤ c →
  c + length (List.filter is_enabled l) ≤ 64 →
  ∃ arr', Ends (inventory_loop fw l arr c b) s
      (Ok (arr', c + length (List.filter is_enabled l), last_bsp l b)) s ∧
    length arr' = 64%nat ∧
    take (Z.to_nat (c + length (List.filter is_enabled l))) arr' =
      take (Z.to_nat c) arr ++ (apic_id <$> List.filter is_enabled l).
Proof.
  intros Hsmall. revert arr c b. induction l as [|n l IH]; intros arr c b Hl Ha Hc Hle.
  { exists arr. cbn. rewrite Z.add_0_r, app_nil_r. split; [apply ends_ret|done]. }
  pose proof (Hl n ltac:(set_solver)) as Hn. pose proof (s_info Hsv n Hn) as Hi.
  assert (∀ n', n' ∈ l → 0 ≤ n' < discovered) as Hl' by set_solver.
  cbn [inventory_loop]. destruct (processor_info fw n) as [[st id] fl] eqn:Einfo. cbn in Hi. subst st.
  assert (is_enabled n = negb (Z.land fl 2 =? 0)) as Een by (unfold is_enabled, flags; by rewrite Einfo).
  assert (is_bsp n = negb (Z.land fl 1 =? 0)) as Ebn by (unfold is_bsp, flags; by rewrite Einfo).
  assert (apic_id n = id) as Eid by (unfold apic_id; by rewrite Einfo).
  assert (n ∈ ({[bsp]} ∪ aps : gset Z) → wrap 32 id = id ∧ (MAX_CPUS <=? id) = false) as Hid.
  { intros [_ He]%(s_numbers Hsv). pose proof (enabled_ids_small n Hsmall Hn He) as Hin. rewrite Eid in Hin.
    unfold MAX_CPUS in *. split; [apply wrap_small; lia|apply Z.leb_gt; lia]. }
  assert ((if negb (Z.land fl 1 =? 0) then wrap 32 id else b) = (if is_bsp n then apic_id n else b)) as Eb.
  { rewrite <- Ebn, Eid. destruct (is_bsp n) eqn:E; [|done]. apply (s_boot Hsv n Hn) in E.
    apply Hid. set_solver. }
  rewrite <- Een. cbn [List.filter]. destruct (is_enabled n) eqn:Ee.
  - destruct Hid as [Hw Hm]; [by apply (s_numbers Hsv)|]. cbn [length List.filter] in Hle. rewrite Ee in Hle.
    cbn [length] in Hle.
    destruct (IH (<[Z.to_nat c := id]> arr) (c + 1) (if is_bsp n then apic_id n else b)) as (arr' & He & Hla & Ht);
      [done|by rewrite length_insert|lia|lia|].
    exists arr'. cbn [length].
    replace (c + S (length (List.filter is_enabled l))) with (c + 1 + length (List.filter is_enabled l)) by lia.
    split_and!; [|done|].
    + eapply ends_bind; [by apply ends_pass|]. eapply ends_bind.
      { eapply ends_bind; [apply ends_pass; rewrite Hm, (proj2 (Z.eqb_neq _ _)) by (unfold MAX_CPUS; lia); done|].
        unfold index_set. rewrite (proj2 (Z.ltb_lt _ _)), Hw by lia.
        eapply ends_bind; [apply ends_lift|apply ends_ret]. }
      cbv beta iota. rewrite Eb. exact He.
    + rewrite Ht, fmap_cons, Eid. replace (Z.to_nat (c + 1)) with (S (Z.to_nat c)) by lia.
      rewrite (take_S_r _ _ id) by (apply list_lookup_insert_eq; lia).
      rewrite take_insert_ge by lia. by rewrite <- app_assoc.
  - cbn [List.filter] in Hle. rewrite Ee in Hle.
    destruct (IH arr c (if is_bsp n then apic_id n else b)) as (arr' & He & Hla & Ht); [done..|].
    exists arr'. split_and!; [|done|done].
    eapply ends_bind; [by apply ends_pass|]. eapply ends_bind; [apply ends_ret|].
    cbv beta iota. rewrite Eb. exact He.
Qed.

(** An enabled processor with an APIC id from 64 on is refused. *)
Lemma inventory_loop_refused l arr c b s :
  (∀ n, n ∈ l → 0 ≤ n < discovered) → length arr = 64%nat → 0 ≤ c →
  c + length (List.filter is_enabled l) ≤ 64 →
  (∃ n, n ∈ l ∧ is_enabled n = true ∧ MAX_CPUS ≤ apic_id n) →
  Leads (inventory_loop fw l arr c b) s (λ r w _, refused "processor-apic-id" STATUS_MAX r w).
Proof.
  revert arr c b. induction l as [|n l IH]; intros arr c b Hl Ha Hc Hle (n0 & Hn0 & He0 & Hb0); [set_solver|].
  pose proof (s_info Hsv n (Hl n ltac:(set_solver))) as Hi.
  cbn [inventory_loop]. destruct (processor_info fw n) as [[st id] fl] eqn:Einfo. cbn in Hi. subst st.
  assert (is_enabled n = negb (Z.land fl 2 =? 0)) as Een by (unfold is_enabled, flags; by rewrite Einfo).
  assert (apic_id n = id) as Eid by (unfold apic_id; by rewrite Einfo).
  assert (is_enabled n && (MAX_CPUS <=? id) = false → n0 ∈ l) as Hrest.
  { intros Hno. apply elem_of_cons in Hn0 as [->|Hin]; [|done]. rewrite Eid in Hb0. rewrite He0 in Hno. cbn in Hno. apply Z.leb_gt in Hno. lia. }
  eapply leads_bind; [by apply ends_pass|]. rewrite <- Een. cbn [List.filter] in Hle. destruct (is_enabled n) eqn:Ee.
  - cbn [length] in Hle. destruct (Z.leb_spec MAX_CPUS id) as [Hbig|Hsm].
    + apply (leads_refused _ _ _ "processor-apic-id" STATUS_MAX); [|done].
      apply (leads_refused _ _ _ "processor-apic-id" STATUS_MAX); [|done]. by apply leads_refuse.
    + eapply leads_bind.
      { eapply ends_bind; [apply ends_pass; rewrite (proj2 (Z.eqb_neq _ _)) by (unfold MAX_CPUS; lia); done|].
        unfold index_set. rewrite (proj2 (Z.ltb_lt _ _)) by lia. eapply ends_bind; [apply ends_lift|apply ends_ret]. }
      cbv beta iota. apply IH; [set_solver|by rewrite length_insert|lia|lia|].
      exists n0. split_and!; [|done..]. by apply Hrest.
  - eapply leads_bind; [apply ends_ret|]. cbv beta iota. apply IH; [set_solver|done|done|done|].
    exists n0. split_and!; [|done..]. by apply Hrest.
Qed.

Lemma enabled_count : length (List.filter is_enabled (seqZ 0 discovered)) = enabled :> Z.
Proof.
  transitivity (Z.of_nat (size ({[bsp]} ∪ aps : gset Z))).
  - f_equal. unfold size, set_size. cbn. apply Permutation_length, NoDup_Permutation.
    + apply NoDup_ListNoDup, List.NoDup_filter, NoDup_ListNoDup, NoDup_seqZ.
    + apply NoDup_elements.
    + intros n. rewrite elem_of_elements, list_elem_of_In, filter_In, <- list_elem_of_In, elem_of_seqZ.
      rewrite <- (s_numbers Hsv). rewrite Z.add_0_l. done.
  - rewrite size_union, size_singleton by (pose proof (s_bsp Hsv); set_solver). rewrite (s_size Hsv). lia.
Qed.

Lemma inventory_ends s :
  Forall (λ id, id < MAX_CPUS) enabled_ids →
  Ends (inventory fw discovered enabled) s (Ok (enabled_ids, apic_id bsp)) s.
Proof.
  intros Hsmall. destruct enabled_range as [Hr _]. pose proof enabled_count as Hlen.
  assert (∀ n, n ∈ seqZ 0 discovered → 0 ≤ n < discovered) as Hin by (intros n; rewrite elem_of_seqZ; lia).
  destruct (inventory_loop_ends (seqZ 0 discovered) (replicate 64 0) 0 (umax 32) s Hsmall) as (arr & He & Hla & Ht);
    [done|done|lia|lia|].
  destruct (proj2 (s_numbers Hsv bsp)) as [Hb1 Hb2]; [set_solver|].
  assert (last_bsp (seqZ 0 discovered) (umax 32) = apic_id bsp) as Hb.
  { apply last_bsp_found; [|done]. apply elem_of_seqZ. lia. }
  pose proof (enabled_ids_small bsp Hsmall Hb1 Hb2) as Hab.
  rewrite Z.add_0_l, Hlen, Hb in He. rewrite Z.add_0_l, Hlen in Ht. cbn [Z.to_nat take app] in Ht.
  unfold inventory. eapply ends_bind; [exact He|]. cbv beta iota.
  eapply ends_bind; [apply ends_pass|].
  - rewrite Z.eqb_refl, (proj2 (Z.eqb_neq _ _)) by (unfold umax; lia). reflexivity.
  - rewrite Ht. apply ends_ret.
Qed.

Lemma inventory_refused s :
  ¬ Forall (λ id, id < MAX_CPUS) enabled_ids →
  Leads (inventory fw discovered enabled) s (λ r w _, refused "processor-apic-id" STATUS_MAX r w).
Proof.
  intros (id & Hin & Hid)%not_Forall_Exists%Exists_exists; [|intros ?; apply _].
  apply list_elem_of_fmap in Hin as (n & -> & Hn). apply list_elem_of_In, filter_In in Hn as [Hn He].
  apply list_elem_of_In in Hn. destruct enabled_range as [Hr _]. pose proof enabled_count as Hlen.
  apply (leads_refused _ _ _ "processor-apic-id" STATUS_MAX); [|done].
  apply inventory_loop_refused; [intros m; rewrite elem_of_seqZ; lia|done|lia|lia|].
  exists n. split_and!; [done..|]. by apply Z.nlt_ge.
Qed.
End machine.

(** How the way from the clock boundary to the runtime ends. *)
Definition inventory_outcome {W} `{Uart W} (fw : Firmware (W := W)) (discovered enabled bsp : Z) (aps : gset Z)
    (r : res Z (list Z * Z)) (w : W) : Prop :=
  if decide ({[bsp]} ∪ aps = lowest enabled) then
    if decide (Forall (λ id, id < MAX_CPUS) (enabled_ids fw discovered))
    then r = Ok (enabled_ids fw discovered, apic_id fw bsp)
    else refused "processor-apic-id" STATUS_MAX r w
  else refused "ipi-acknowledgement" STATUS_MAX r w.

(** [efi_main] from the clock boundary to the runtime, on any working serial port. *)
Lemma boot_processors_ends {W} `{Uart W} (fw : Firmware (W := W)) (discovered enabled bsp : Z) (aps : gset Z) :
  services fw discovered enabled bsp aps → surroundings fw bsp aps →
  Leads (boot_processors fw) loaded (λ r w _, inventory_outcome fw discovered enabled bsp aps r w).
Proof.
  intros Hsv Hsr. destruct (enabled_range fw discovered enabled bsp aps Hsv Hsr) as [Hr _].
  destruct (schedule_ends fw discovered enabled bsp aps Hsv Hsr) as (s1 & He1 & Hst1).
  destruct (interrupt_ends fw discovered enabled bsp aps Hsv Hsr s1 Hst1) as (s2 & Hst2 & He2).
  unfold boot_processors, clock_boundary, inventory_outcome.
  eapply leads_bind; [eapply ends_bind; [by apply ends_pass|apply ends_emit; by repeat constructor]|].
  eapply leads_bind.
  { unfold discover. destruct (s_locate _ _ _ _ _ Hsv) as [L1 L2]. destruct (locate fw) as [ls li]. cbn in L1, L2.
    rewrite (s_number _ _ _ _ _ Hsv), (s_who _ _ _ _ _ Hsv), L1. cbv iota beta.
    eapply ends_bind; [apply ends_pass; by rewrite (proj2 (Z.eqb_neq _ _) L2)|].
    eapply ends_bind; [apply ends_pass|].
    { unfold MAX_CPUS. rewrite (proj2 (Z.eqb_neq enabled 0)), (proj2 (Z.ltb_ge _ _)) by lia. reflexivity. }
    eapply ends_bind; [apply ends_emit|].
    { pose proof (s_discovered _ _ _ _ _ Hsv). repeat constructor; cbn; unfold in_u in *; lia. }
    eapply ends_bind; [by apply ends_pass|]. apply ends_ret. }
  cbv beta iota. eapply leads_bind; [exact He1|]. destruct (decide ({[bsp]} ∪ aps = lowest enabled)) as [Hd|Hd].
  - assert (Ends (interrupt fw enabled bsp) s1 (Ok ()) s2) as He2'.
    { intros w Hw. destruct (He2 w Hw) as (r & w' & s' & E & L & -> & ->). by exists w'. }
    eapply leads_bind; [exact He2'|]. eapply leads_bind; [by eapply clock_ends|].
    eapply leads_bind; [by eapply block_ends|]. eapply leads_bind; [by eapply smp_ends|].
    case_decide as Hsmall.
    + eapply ends_leads; [by apply inventory_ends with (aps := aps)|done].
    + by apply inventory_refused with (bsp := bsp) (aps := aps).
  - apply (leads_refused _ _ _ "ipi-acknowledgement" STATUS_MAX); [|done].
    intros w Hw. destruct (He2 w Hw) as (r & w' & s' & E & L & _ & Hf). by exists r, w', s'.
Qed.

(** C22. On a machine whose firmware keeps the promises of the MP services, whose enabled
    processors have numbers below 64, whose clock advances and whose boot disk can be read,
    [efi_main] gets from the clock boundary to the post-firmware runtime exactly when the
    enabled processors are the ones numbered from zero and all their APIC ids are below 64;
    it then passes on the APIC ids of precisely the enabled processors, in order, and that
    of the boot processor.  With other numbers it returns [usize::MAX] behind the failure
    line of [ipi-acknowledgement], although every processor has worked and acknowledged;
    with an APIC id of 64 or more, behind that of [processor-apic-id]. *)
Theorem boot_processors_exact {W} `{Uart W} (fw : Firmware (W := W)) (discovered enabled bsp : Z) (aps : gset Z) (w : W) :
  services fw discovered enabled bsp aps → surroundings fw bsp aps → live w →
  ∃ r b, boot_processors fw (MkWorld w loaded) = (r, b) ∧
    if decide ({[bsp]} ∪ aps = lowest enabled) then
      if decide (Forall (λ id, id < MAX_CPUS) (enabled_ids fw discovered))
      then r = Ok (enabled_ids fw discovered, apic_id fw bsp)
      else r = Err STATUS_MAX ∧ fail_text (ascii "processor-apic-id") STATUS_MAX `suffix_of` sent (io b)
    else r = Err STATUS_MAX ∧ fail_text (ascii "ipi-acknowledgement") STATUS_MAX `suffix_of` sent (io b).
Proof.
  intros Hsv Hsr Hw. destruct (boot_processors_ends fw discovered enabled bsp aps Hsv Hsr w Hw) as (r & w' & s & E & _ & Ho).
  exists r, (MkWorld w' s). split; [exact E|exact Ho].
Qed.

(** The end of [efi_main]: the success line is printed, last, when the runtime returned a
    report, and the machine is then reset as the report asks; after an error the code is
    printed and the processor spins. *)
Definition end_lines (run : res PostFirmwareError PostFirmwareReport) : list item :=
  match run with
  | Ok post => report_lines post ++ [T "THERMITE_POWER action="; T (power (power_action post)).1; L " terminal=1";
      L "THERMITE_SUCCESS gate=boot-smp-v1"]
  | Err e => [T "THERMITE_FAIL stage=post-firmware status="; N (code e); L ""]
  | Panic => []
  end.

Theorem boot_end_exact {W} `{Uart W} run runtime_services (w : W) :
  Forall printable (end_lines run) → run ≠ Panic → live w →
  ∃ w', boot_end run runtime_services w =
      (Ok match run with
          | Ok post => Returns (if runtime_services =? 0 then None
              else Some match power_action post with FwCfg.Reboot => 0 | FwCfg.PowerOff => 2 end) SUCCESS
          | _ => Spins
          end, w') ∧ sent w' = sent w ++ (end_lines run ≫= text).
Proof.
  intros Hp Hnp Hw. destruct run as [post|e|]; [| |done]; unfold boot_end; cbn [end_lines] in *.
  - apply Forall_app in Hp as [Hp _]. destruct (power (power_action post)) as [name reset] eqn:Epow.
    set (last := [T "THERMITE_POWER action="; T name; L " terminal=1"; L "THERMITE_SUCCESS gate=boot-smp-v1"]).
    assert (Sends (say last) () (last ≫= text)) as Hlast by (apply sends_say; by repeat constructor).
    destruct (sends_say _ Hp w Hw) as (w1 & E1 & L1 & S1). destruct (Hlast w1 L1) as (w2 & E2 & _ & S2).
    exists w2. rewrite (op_bind_run _ _ _ _ _ E1). cbv beta iota. rewrite (op_bind_run _ _ _ _ _ E2).
    split; [by destruct (power_action post); injection Epow as _ <-|].
    rewrite S2, S1, bind_app, <- app_assoc. done.
  - destruct (sends_say _ Hp w Hw) as (w1 & E1 & _ & S1). exists w1.
    by rewrite (op_bind_run _ _ _ _ _ E1).
Qed.

(** *** A machine to run it on *)

#[local] Instance demo_ports : PortIo (list Z) := {
  Target.port_in width port w := (96, w);
  Target.port_out width port value w := if port =? COM1 then w ++ [value] else w;
}.
#[local] Instance demo_uart : Uart (list Z).
Proof.
  refine {| sent w := w; live _ := True; vacant _ := True |}; try done.
  intros w _. exists 0%nat. split; [lia|done].
Defined.

(** Three of four processors are enabled; the boot processor is number 0. *)
Definition demo_services_of {W} (probe : op W Z unit) (apic : Z → Z) : Firmware (W := W) :=
  MkFirmware (5, 6) (SUCCESS, 0x9000) (SUCCESS, 4, 3) (SUCCESS, 0)
    (λ _, (SUCCESS, Rendezvous.shared Rendezvous.demo_run))
    (λ s, (SUCCESS, foldl (ipi_entry Rendezvous.demo_who) s [2; 1]))
    (10, SUCCESS, 20) probe
    (λ n, (SUCCESS, apic n, if n =? 0 then 7 else if n =? 3 then 0 else 6)).

Lemma demo_services {W} `{Uart W} (probe : op W Z unit) apic :
  (∀ n, 0 ≤ n < 4 → u64 (apic n)) → services (demo_services_of probe apic) 4 3 0 {[1; 2]}.
Proof.
  intros Hapic. assert (∀ n : Z, 0 ≤ n < 4 → n = 0 ∨ n = 1 ∨ n = 2 ∨ n = 3) as Hcase by lia.
  split.
  - set_solver.
  - vm_compute. reflexivity.
  - done.
  - done.
  - reflexivity.
  - reflexivity.
  - intros _. exists Rendezvous.demo_who, 0, Rendezvous.demo_run. split_and!.
    + by intros c _.
    + apply Rendezvous.demo_reached.
    + apply Rendezvous.demo_done.
    + reflexivity.
  - exists Rendezvous.demo_who, [2; 1]. split_and!; [|by intros c _|by intros s].
    apply NoDup_Permutation; [apply NoDup_cons; split; [set_solver|apply NoDup_singleton]|apply NoDup_elements|]. set_solver.
  - done.
  - intros n. split.
    + intros [Hn He]. destruct (Hcase n Hn) as [->|[->|[->| ->]]]; [set_solver..|done].
    + set_unfold. intros [->|[->| ->]]; (split; [lia|reflexivity]).
  - exact Hapic.
  - intros n Hn. destruct (Hcase n Hn) as [->|[->|[->| ->]]]; vm_compute; (split; [done|intros ?; done]).
Qed.

Lemma demo_surroundings {W} `{Uart W} (probe : op W Z unit) l apic :
  Sends probe () l → surroundings (demo_services_of probe apic) 0 {[1; 2]}.
Proof. intros Hl. split; [unfold MAX_CPUS; set_solver by lia|done|by exists l]. Qed.

Definition demo_firmware (apic : Z → Z) : Firmware (W := list Z) := demo_services_of (mret ()) apic.

(** Ids below 64 are passed on, an id of 70 is refused. *)
Lemma boot_processors_exact_witness :
  (∃ b, boot_processors (demo_firmware (λ n, 2 * n)) (MkWorld [] loaded) = (Ok ([0; 2; 4], 0), b)) ∧
  ∃ b, boot_processors (demo_firmware (λ n, 35 * n)) (MkWorld [] loaded) = (Err STATUS_MAX, b).
Proof.
  split.
  - destruct (boot_processors_exact (demo_firmware (λ n, 2 * n)) 4 3 0 {[1; 2]} []) as (r & b & E & Hr);
      [apply demo_services; intros n Hn; ulia|exact (demo_surroundings (mret ()) [] _ (sends_ret _))|exact I|].
    exists b. rewrite E. f_equal. vm_compute in Hr. exact Hr.
  - destruct (boot_processors_exact (demo_firmware (λ n, 35 * n)) 4 3 0 {[1; 2]} []) as (r & b & E & Hr);
      [apply demo_services; intros n Hn; ulia|exact (demo_surroundings (mret ()) [] _ (sends_ret _))|exact I|].
    exists b. rewrite E. f_equal. vm_compute in Hr. exact (proj1 Hr).
Defined.
End Boot.
