(* ===== verification/Bringup.v ===== *)
(** * Bringing the kernel up: [install_trampoline], [install_cpu_local],
      [allocator_probe], [exit_boot_services] and [entropy_probe] in
      [platform/x86_64-pc-uefi-smp-v1/runtime/src/post_firmware.rs], and the
      last part of [ap_trampoline.S]

    What [run] does on the boot processor before and between the phases of
    [Phases]: the start-up page of the other processors, the records behind
    [gs], the use of the page heap of [Heap] by one processor, the exit from
    the firmware and the hardware random numbers. *)
From S2P Require Import Prelude Target Heap RawMemory Paging Apic Interleave UserMode.

Module Bringup.
Import Target RawMemory.

(** ** The trampoline page *)

Definition STACK_BYTES : Z := 16 * 1024.
Definition TRAMPOLINE_PARAMETERS : Z := Apic.TRAMPOLINE_BASE + 0x0c00.

(** The top of the stack of a processor, with [stacks] the address of [AP_STACKS]. *)
Definition stack_top (stacks cpu : Z) : Z := stacks + (cpu + 1) * STACK_BYTES.

(** [code] are the bytes between the two linker symbols, [entry] is the address of
    [thermite_ap_rust_entry]; [allocated] is what [allocate_pages] answers: its status and
    the address. *)
Definition install_trampoline (code : list Z) (entry stacks : Z) (allocated : Z * Z) (cr3 : Z)
    (apic_ids : list Z) : op (gmap Z Z) PostFirmwareError unit :=
  lift (bail_if ((0x0c00 <? length code) || (umax 32 <? cr3)) TrampolineTooLarge);;
  let '(status, address) := allocated in
  lift (bail_if (negb (status =? SUCCESS) || negb (address =? Apic.TRAMPOLINE_BASE))
          (TrampolineAllocation status));;
  modify (UserMode.copy_bytes Apic.TRAMPOLINE_BASE code);;
  modify (write_le TRAMPOLINE_PARAMETERS 8 cr3);;
  modify (write_le (TRAMPOLINE_PARAMETERS + 8) 8 entry);;
  for_each apic_ids (λ cpu,
    lift (bail_if (MAX_CPUS <=? cpu) InvalidCpuId);;
    modify (write_le (TRAMPOLINE_PARAMETERS + 16 + cpu * 8) 8 (stack_top stacks cpu))).

(** [thermite_ap_protected] loads CR3 from the page. *)
Definition ap_cr3 (m : gmap Z Z) : Z := read_le m 0x80c00 4.

(** [thermite_ap_long], on a processor whose [cpuid] leaf 1 gives [ebx]: where it calls,
    with which stack and argument; [None] is the parked processor. *)
Definition ap_long (ebx : Z) (m : gmap Z Z) : option (Z * Z * Z) :=
  let rbx := Z.land (Z.shiftr ebx 24) 63 in
  let rsp := read_le m (0x80c10 + rbx * 8) 8 in
  if rsp =? 0 then None
  else
    let rsp := Z.land rsp (bnot 64 15) in
    let rsp := wrap 64 (rsp - 32) in
    Some (read_le m 0x80c08 8, rsp, rbx).

(** [cpu_id()], with the same register. *)
Definition cpu_id (ebx : Z) : Z := Z.land (Z.shiftr ebx 24) 0xff.

(** ** The CPU-local records *)

Definition RECORD_BYTES : Z := 64.

Record Local : Type := MkLocal { ram : gmap Z Z; gs_base : Z; local_mask : Z }.

(** [records] is the address of [CPU_LOCALS]. *)
Definition write_record (at_ logical_id top : Z) (m : gmap Z Z) : gmap Z Z :=
  write_le (at_ + 24) 8 0 (write_le (at_ + 16) 8 top (write_le (at_ + 8) 8 1 (write_le at_ 8 logical_id m))).

Definition install_cpu_local (records stacks logical_id : Z) : op Local PostFirmwareError unit :=
  lift (bail_if (MAX_CPUS <=? logical_id) InvalidCpuId);;
  let record := records + logical_id * RECORD_BYTES in
  modify (λ s, MkLocal (write_record record logical_id (stack_top stacks logical_id) (ram s)) (gs_base s) (local_mask s));;
  modify (λ s, MkLocal (ram s) record (local_mask s));;
  observed ← reads (λ s, read_le (ram s) (gs_base s) 8);
  lift (bail_if (negb (observed =? logical_id)) InvalidCpuId);;
  b ← lift (bit logical_id);
  modify (λ s, MkLocal (ram s) (gs_base s) (Z.lor (local_mask s) b)).

(** ** The exit from the firmware *)

Section exit.
(** [GetMemoryMap] answers a status, the key and the descriptor size;
    [ExitBootServices] takes a key. *)
Context {W : Type} (get_memory_map : W → Z * Z * Z * W) (exit_ : Z → W → Z * W).

Fixpoint exit_loop (turns : nat) (last_status : Z) : op W PostFirmwareError unit :=
  match turns with
  | O => lift (Err (ExitBootServices last_status))
  | S turns =>
    '(map_status, key, descriptor_size) ← access get_memory_map;
    lift (bail_if (negb (map_status =? SUCCESS) || (descriptor_size =? 0)) (MemoryMap map_status));;
    last_status ← access (exit_ key);
    if last_status =? SUCCESS then mret () else exit_loop turns last_status
  end.

Definition exit_boot_services : op W PostFirmwareError unit := exit_loop 4 (umax 64).
End exit.

(** ** Random numbers *)

Section entropy.
(** [rdrand] with [setc]: the value and the flag. *)
Context {W : Type} (rdrand : W → Z * Z * W).

Definition entropy_word : op W PostFirmwareError Z :=
  r ← for_nat 16 ('(value, valid) ← access rdrand; mret (if negb (valid =? 0) then Some value else None));
  match r with Some value => mret value | None => lift (Err Entropy) end.

(** The array of four words is consumed by a reduction and not returned. *)
Definition entropy_probe : op W PostFirmwareError Z :=
  entropy ← fill 4 entropy_word;
  let health := foldl Z.lxor 0 entropy in
  mret 32.
End entropy.

(** ** The allocator probe *)

(** A call of [alloc] that runs to its end, [dealloc] likewise. *)
Fixpoint run_alloc (fuel : nat) (pc : Heap.alloc_pc) (h : Heap.HeapState) : res False Z * Heap.HeapState :=
  match fuel with
  | O => (Panic, h)
  | S fuel =>
    match pc with
    | Heap.ADone ptr => (Ok ptr, h)
    | _ =>
      match Heap.alloc_step false pc h with
      | (Ok pc, h) => run_alloc fuel pc h
      | (Err e, h) => (Err e, h)
      | (Panic, h) => (Panic, h)
      end
    end
  end.

Section probe.
Context (fuel : nat).

Definition alloc (l : Heap.Layout) : op Heap.HeapState PostFirmwareError Z := λ h,
  match run_alloc fuel (Heap.AStart l) h with (Ok ptr, h) => (Ok ptr, h) | (_, h) => (Panic, h) end.

Definition dealloc (address : Z) (l : Heap.Layout) : op Heap.HeapState PostFirmwareError unit := λ h,
  match Heap.dealloc_check (Heap.heap_base h) address l with
  | Ok pc => (Ok (), (Heap.dealloc_step pc h).2)
  | _ => (Panic, h)
  end.

(** [Box<[u64; 128]>] *)
Definition BOX : Heap.Layout := Heap.MkLayout 1024 8.

Definition on_memory (f : gmap Z Z → gmap Z Z) : op Heap.HeapState PostFirmwareError unit :=
  modify (λ h, Heap.MkHeap (Heap.heap_base h) (Heap.heap_bitmap h) (Heap.heap_allocations h) (f (Heap.memory h))).

(** [Box::new([0_u64; 128])]; a null pointer ends in the allocation error handler. *)
Definition box_new : op Heap.HeapState PostFirmwareError Z :=
  ptr ← alloc BOX;
  if ptr =? 0 then lift Panic
  else on_memory (Heap.zeroes ptr 1024);; mret ptr.

Definition word (ptr i : Z) : op Heap.HeapState PostFirmwareError Z :=
  reads (λ h, read_le (Heap.memory h) (ptr + 8 * i) 8).

(** [.iter().any(|value| *value != 0)] *)
Definition any_set (ptr : Z) : op Heap.HeapState PostFirmwareError bool :=
  reads (λ h, existsb (λ i, negb (read_le (Heap.memory h) (ptr + 8 * i) 8 =? 0)) (seqZ 0 128)).

Definition refuse (b : bool) : op Heap.HeapState PostFirmwareError unit :=
  lift (bail_if b (Target.Heap (umax 64))).

(** An early return drops the boxes that are live. *)
Definition refuse_dropping (b : bool) (boxes : list Z) : op Heap.HeapState PostFirmwareError unit :=
  if b then for_each boxes (λ ptr, dealloc ptr BOX);; refuse true else mret ().

Definition allocator_probe : op Heap.HeapState PostFirmwareError (Z * Z * Z) :=
  heap_base ← reads Heap.heap_base;
  refuse (heap_base =? 0);;
  first ← box_new;
  second ← box_new;
  first_set ← any_set first;
  second_set ← any_set second;
  refuse_dropping ((first <? heap_base) || (heap_base + Heap.HEAP_BYTES <=? first)
                   || (second <? heap_base) || (heap_base + Heap.HEAP_BYTES <=? second)
                   || (first =? second) || first_set || second_set) [second; first];;
  on_memory (write_le first 8 0x544845524d495445);;
  on_memory (write_le (second + 8 * 127) 8 0x4845415042524944);;
  f0 ← word first 0;
  s127 ← word second 127;
  refuse_dropping (negb (f0 =? 0x544845524d495445) || negb (s127 =? 0x4845415042524944)) [second; first];;
  dealloc first BOX;;
  dealloc second BOX;;
  bitmap ← reads Heap.heap_bitmap;
  refuse (negb (bitmap =? 0));;
  reclaimed ← box_new;
  reclaimed_set ← any_set reclaimed;
  refuse_dropping (negb (reclaimed =? first) || reclaimed_set) [reclaimed];;
  dealloc reclaimed BOX;;
  bitmap ← reads Heap.heap_bitmap;
  refuse (negb (bitmap =? 0));;
  oversized ← alloc (Heap.MkLayout (Heap.HEAP_BYTES + 4096) 4096);
  bitmap ← reads Heap.heap_bitmap;
  refuse (negb (oversized =? 0) || negb (bitmap =? 0));;
  allocations ← reads Heap.heap_allocations;
  mret (Heap.HEAP_BYTES, allocations, 1).
End probe.

(** ** The start-up page is what the trampoline reads *)

Lemma small_ids (l : list Z) : NoDup l → (∀ c, c ∈ l → 0 ≤ c < MAX_CPUS) → length l ≤ 64.
Proof.
  intros Hnd Hl. assert (length l ≤ length (seqZ 0 64))%nat as H'; [|rewrite length_seqZ in H'; lia].
  apply submseteq_length, NoDup_submseteq; [done|]. intros c Hc%Hl. apply elem_of_seqZ. unfold MAX_CPUS in Hc. lia.
Qed.

Lemma for_each_params stacks l m0 :
  (∀ c, c ∈ l → 0 ≤ c < MAX_CPUS) →
  ∃ m, for_each l (λ cpu,
      lift (bail_if (MAX_CPUS <=? cpu) InvalidCpuId);;
      modify (write_le (TRAMPOLINE_PARAMETERS + 16 + cpu * 8) 8 (stack_top stacks cpu))) m0 = (Ok (), m) ∧
    (∀ c, c ∈ l → read_le m (TRAMPOLINE_PARAMETERS + 16 + c * 8) 8 = stack_top stacks c mod 2 ^ 64) ∧
    (∀ a, (∀ c, c ∈ l → a < TRAMPOLINE_PARAMETERS + 16 + c * 8 ∨ TRAMPOLINE_PARAMETERS + 24 + c * 8 ≤ a) →
       byte_at m a = byte_at m0 a).
Proof.
  revert m0. induction l as [|c l IH]; intros m0 Hl.
  { exists m0. split_and!; [done|set_solver|done]. }
  pose proof (Hl c ltac:(set_solver)) as Hc.
  destruct (IH (write_le (TRAMPOLINE_PARAMETERS + 16 + c * 8) 8 (stack_top stacks c) m0)) as (m & Hm & Hr & Ho);
    [set_solver|].
  exists m. split_and!.
  - cbn [for_each]. unfold mbind, op_bind at 1 2, lift, bail_if, modify. unfold MAX_CPUS in *.
    rewrite (proj2 (Z.leb_gt _ _)) by lia. exact Hm.
  - intros c' Hc'. destruct (decide (c' ∈ l)) as [Hin|Hout]; [by apply Hr|].
    assert (c' = c) as -> by set_solver. rewrite <- UserMode.pow64, <- (read_write_le (TRAMPOLINE_PARAMETERS + 16 + c * 8) 8 (stack_top stacks c) m0).
    apply read_le_ext. intros i Hi. apply Ho. intros x Hx. assert (x ≠ c) by set_solver. lia.
  - intros a Ha. rewrite Ho by set_solver. apply write_le_outside.
    destruct (Ha c ltac:(set_solver)); lia.
Qed.

Lemma cpu_id_low ebx : 0 ≤ ebx → cpu_id ebx < 64 → Z.land (Z.shiftr ebx 24) 63 = cpu_id ebx.
Proof.
  unfold cpu_id. intros H0 Hc.
  change 63 with (Z.ones 6). change 0xff with (Z.ones 8) in *. rewrite !Z.land_ones in * by lia.
  change (2 ^ 6) with 64. change (2 ^ 8) with 256 in *. Z.to_euclidean_division_equations. lia.
Qed.

Lemma align_16 x : 0 ≤ x < 2 ^ 64 → x mod 16 = 0 → Z.land x (bnot 64 15) = x.
Proof.
  intros Hx Hm. apply Z.bits_inj'. intros i Hi. rewrite Z.land_spec.
  destruct (Z.testbit x i) eqn:E; [|done]. cbn.
  assert (4 ≤ i) as H4.
  { destruct (Z.le_gt_cases 4 i); [done|exfalso]. change 16 with (2 ^ 4) in Hm.
    assert (Z.testbit (x mod 2 ^ 4) i = true) as Ht by (rewrite Z.mod_pow2_bits_low by lia; done).
    by rewrite Hm, Z.testbit_0_l in Ht. }
  assert (i < 64) as H64.
  { destruct (Z.lt_ge_cases i 64) as [|Hge]; [done|exfalso].
    destruct (Z.eq_dec x 0) as [->|]; [by rewrite Z.testbit_0_l in E|].
    rewrite Z.bits_above_log2 in E; [done|lia|]. apply Z.log2_lt_pow2; [lia|].
    apply Z.lt_le_trans with (2 ^ 64); [lia|]. apply Z.pow_le_mono_r; lia. }
  change (bnot 64 15) with (Z.shiftl (Z.ones 60) 4).
  rewrite Z.shiftl_spec, Z.ones_spec_low by lia. done.
Qed.

(** The low bytes of a value just written. *)
Lemma read_write_prefix a (n k : nat) v m : (k ≤ n)%nat → read_le (write_le a n v m) a k = v mod 256 ^ k.
Proof.
  revert a v m k. induction n as [|n IH]; intros a v m [|k] Hk; cbn [read_le write_le]; try lia;
    try (by rewrite Z.mod_1_r).
  rewrite IH, write_le_outside, byte_at_insert, Z.eqb_refl by lia.
  rewrite Nat2Z.inj_succ, Z.pow_succ_r by lia. by rewrite Z.rem_mul_r by lia.
Qed.

(** The page before the stacks are entered. *)
Definition page_head (code : list Z) (entry cr3 : Z) (m : gmap Z Z) : gmap Z Z :=
  write_le (TRAMPOLINE_PARAMETERS + 8) 8 entry (write_le TRAMPOLINE_PARAMETERS 8 cr3
    (UserMode.copy_bytes Apic.TRAMPOLINE_BASE code m)).

Lemma page_head_outside code entry cr3 m a :
  length code ≤ 0x0c00 → a < Apic.TRAMPOLINE_BASE ∨ Apic.TRAMPOLINE_BASE + 4096 ≤ a →
  byte_at (page_head code entry cr3 m) a = byte_at m a.
Proof.
  unfold page_head, TRAMPOLINE_PARAMETERS, Apic.TRAMPOLINE_BASE. intros Hl Ha.
  rewrite !write_le_outside, UserMode.copy_bytes_at by lia. by rewrite decide_False by lia.
Qed.

Lemma trampoline_run (code : list Z) (entry stacks cr3 : Z) (apic_ids : list Z) (m0 : gmap Z Z) :
  length code ≤ 0x0c00 → 0 ≤ cr3 ≤ umax 32 → (∀ c, c ∈ apic_ids → 0 ≤ c < MAX_CPUS) →
  ∃ m, install_trampoline code entry stacks (SUCCESS, Apic.TRAMPOLINE_BASE) cr3 apic_ids m0 = (Ok (), m) ∧
    (∀ c, c ∈ apic_ids → read_le m (TRAMPOLINE_PARAMETERS + 16 + c * 8) 8 = stack_top stacks c mod 2 ^ 64) ∧
    (∀ a, a < 0x80c10 ∨ 0x81000 ≤ a → byte_at m a = byte_at (page_head code entry cr3 m0) a).
Proof.
  intros Hlen Hcr3 Hids.
  destruct (for_each_params stacks apic_ids (page_head code entry cr3 m0) Hids) as (m & Hm & Hr & Ho).
  exists m. split_and!; [|done|].
  - unfold install_trampoline, mbind, op_bind, lift, bail_if, modify.
    rewrite (proj2 (Z.ltb_ge _ _)), (proj2 (Z.ltb_ge _ _)) by (unfold umax in *; lia). exact Hm.
  - intros a Ha. apply Ho. intros c Hc. pose proof (Hids c Hc).
    unfold TRAMPOLINE_PARAMETERS, Apic.TRAMPOLINE_BASE, MAX_CPUS in *. lia.
Qed.

(** C31. The start-up page leads every listed processor to its own stack: after
    [install_trampoline] the code is in place byte for byte, CR3 is what the trampoline
    loads, and a processor whose APIC id is listed calls [thermite_ap_rust_entry] with that
    id and an aligned stack pointer inside the 16 KiB that belong to it alone; only the
    page itself is written. *)
Theorem trampoline_exact (code : list Z) (entry stacks cr3 : Z) (apic_ids : list Z) (m0 : gmap Z Z) :
  length code ≤ 0x0c00 → 0 ≤ cr3 ≤ umax 32 → u64 entry →
  0 < stacks → stacks mod 16 = 0 → stacks + MAX_CPUS * STACK_BYTES < 2 ^ 64 →
  (∀ c, c ∈ apic_ids → 0 ≤ c < MAX_CPUS) →
  ∃ m, install_trampoline code entry stacks (SUCCESS, Apic.TRAMPOLINE_BASE) cr3 apic_ids m0 = (Ok (), m) ∧
    (∀ (i : nat) b, code !! i = Some b → byte_at m (Apic.TRAMPOLINE_BASE + i) = b) ∧
    ap_cr3 m = cr3 ∧
    (∀ ebx, u32 ebx → cpu_id ebx ∈ apic_ids →
       ∃ rsp, ap_long ebx m = Some (entry, rsp, cpu_id ebx) ∧ rsp mod 16 = 0 ∧
         stacks + cpu_id ebx * STACK_BYTES ≤ rsp < stacks + (cpu_id ebx + 1) * STACK_BYTES) ∧
    (∀ a, a < Apic.TRAMPOLINE_BASE ∨ Apic.TRAMPOLINE_BASE + 4096 ≤ a → byte_at m a = byte_at m0 a).
Proof.
  intros Hlen Hcr3 He Hs0 Hs16 Hs64 Hids.
  destruct (trampoline_run code entry stacks cr3 apic_ids m0 Hlen Hcr3 Hids) as (m & Hm & Hr & Hlow).
  set (m1 := page_head code entry cr3 m0) in *.
  unfold TRAMPOLINE_PARAMETERS, Apic.TRAMPOLINE_BASE, MAX_CPUS, STACK_BYTES, umax, in_u in *.
  exists m. split_and!.
  - exact Hm.
  - intros i b Hi. pose proof (lookup_lt_Some _ _ _ Hi). rewrite Hlow by lia. unfold m1, page_head, TRAMPOLINE_PARAMETERS, Apic.TRAMPOLINE_BASE.
    rewrite !write_le_outside, UserMode.copy_bytes_at, decide_True by lia.
    replace (Z.to_nat _) with i by lia. by rewrite Hi.
  - unfold ap_cr3. rewrite (read_le_ext _ m1) by (intros b Hb; apply Hlow; lia). unfold m1, page_head, TRAMPOLINE_PARAMETERS, Apic.TRAMPOLINE_BASE.
    rewrite read_write_other, read_write_prefix by lia. apply Z.mod_small. lia.
  - intros ebx Hebx Hc. pose proof (Hids _ Hc) as Hr0. set (c := cpu_id ebx) in *.
    unfold ap_long. rewrite cpu_id_low by (fold c; lia). fold c.
    rewrite (Hr c Hc : read_le m (0x80c10 + c * 8) 8 = _). unfold stack_top, STACK_BYTES.
    rewrite Z.mod_small by lia. rewrite (proj2 (Z.eqb_neq _ 0)) by lia.
    assert ((stacks + (c + 1) * (16 * 1024)) mod 16 = 0) as Hmod.
    { replace (stacks + (c + 1) * (16 * 1024)) with (stacks + ((c + 1) * 1024) * 16) by lia.
      by rewrite Z.mod_add by lia. }
    rewrite align_16, wrap_small by lia. eexists. split_and!; [|..].
    + rewrite (read_le_ext _ m1) by (intros b Hb; apply Hlow; lia). unfold m1, page_head, TRAMPOLINE_PARAMETERS, Apic.TRAMPOLINE_BASE. rewrite read_write_le, UserMode.pow64, Z.mod_small by lia.
      reflexivity.
    + replace (stacks + (c + 1) * (16 * 1024) - 32) with (stacks + (c + 1) * (16 * 1024) + (-2) * 16) by lia.
      by rewrite Z.mod_add by lia.
    + lia.
    + lia.
  - intros a Ha. rewrite Hlow by lia. by apply page_head_outside.
Qed.

Lemma trampoline_exact_witness :
  ∃ m, install_trampoline [0xfa; 0xfc] 0x140001000 0x200000 (SUCCESS, Apic.TRAMPOLINE_BASE) 0x101000 [0; 2] ∅ = (Ok (), m) ∧
    ap_long 0x02000800 m = Some (0x140001000, 0x20bfe0, 2).
Proof.
  destruct (trampoline_exact [0xfa; 0xfc] 0x140001000 0x200000 0x101000 [0; 2] ∅) as (m & Hm & _).
  - cbn. lia.
  - unfold umax. lia.
  - unfold in_u. lia.
  - lia.
  - reflexivity.
  - unfold MAX_CPUS, STACK_BYTES. lia.
  - intros c Hc. unfold MAX_CPUS. apply elem_of_cons in Hc as [->|Hc]; [lia|].
    apply list_elem_of_singleton in Hc as ->. lia.
  - exists m. split; [exact Hm|]. vm_compute in Hm. injection Hm as <-. vm_compute. reflexivity.
Defined.

(** ** The records behind [gs] *)

Definition record_at (m : gmap Z Z) (at_ : Z) : Z * Z * Z * Z :=
  (read_le m at_ 8, read_le m (at_ + 8) 8, read_le m (at_ + 16) 8, read_le m (at_ + 24) 8).

Lemma write_record_outside at_ id top m b :
  b < at_ ∨ at_ + 32 ≤ b → byte_at (write_record at_ id top m) b = byte_at m b.
Proof. intros Hb. unfold write_record. by rewrite !write_le_outside by lia. Qed.

Lemma write_record_read at_ id top m :
  u64 id → u64 top → record_at (write_record at_ id top m) at_ = (id, 1, top, 0).
Proof.
  intros Hid Htop. unfold record_at, write_record.
  repeat (first [rewrite read_write_le | rewrite read_write_other by lia]).
  rewrite !UserMode.pow64, !Z.mod_small by ulia. done.
Qed.

(** [install_cpu_local] gives a processor its record: [gs] points to it, it holds the id, the
    first generation, the top of the processor's own stack and depth zero, the processor is
    recorded, and nothing outside the record (the records of the other processors included) is
    written; an id from 64 on is refused and changes nothing. *)
Theorem cpu_local_exact (records stacks id : Z) (s : Local) :
  0 ≤ stacks → stacks + MAX_CPUS * STACK_BYTES < 2 ^ 64 → 0 ≤ id →
  let '(r, s') := install_cpu_local records stacks id s in
  if id <? MAX_CPUS then
    r = Ok () ∧ gs_base s' = records + id * RECORD_BYTES ∧
    record_at (ram s') (gs_base s') = (id, 1, stack_top stacks id, 0) ∧
    local_mask s' = Z.lor (local_mask s) (2 ^ id) ∧
    ∀ b, b < gs_base s' ∨ gs_base s' + RECORD_BYTES ≤ b → byte_at (ram s') b = byte_at (ram s) b
  else r = Err InvalidCpuId ∧ s' = s.
Proof.
  intros H0 H1 Hid. unfold install_cpu_local, mbind, op_bind, lift, bail_if, modify, reads.
  destruct (Z.ltb_spec id MAX_CPUS) as [Hlt|Hge].
  2: by rewrite (proj2 (Z.leb_le _ _)) by lia.
  rewrite (proj2 (Z.leb_gt _ _)) by lia. cbn [ram gs_base local_mask]. unfold MAX_CPUS, STACK_BYTES, RECORD_BYTES in *.
  assert (u64 (stack_top stacks id)) as Ht by (unfold stack_top, STACK_BYTES; ulia).
  pose proof (write_record_read (records + id * 64) id _ (ram s) ltac:(ulia) Ht) as R.
  pose proof (f_equal (λ x, x.1.1.1) R : read_le _ _ 8 = id) as R0.
  rewrite R0, Z.eqb_refl, bit_ok by lia. cbn [negb ram gs_base local_mask]. split_and!; [done..|exact R|done|].
  intros b Hb. apply write_record_outside. lia.
Qed.

Lemma cpu_local_exact_witness :
  (install_cpu_local 0x1000 0x200000 3 (MkLocal ∅ 0 1)).1 = Ok () ∧
  local_mask (install_cpu_local 0x1000 0x200000 3 (MkLocal ∅ 0 1)).2 = 9.
Proof.
  pose proof (cpu_local_exact 0x1000 0x200000 3 (MkLocal ∅ 0 1) ltac:(lia) ltac:(vm_compute; reflexivity) ltac:(lia)) as X.
  destruct (install_cpu_local 0x1000 0x200000 3 (MkLocal ∅ 0 1)) as [r s']. cbn in X. destruct X as (-> & _ & _ & E & _).
  split; [reflexivity|]. cbn. rewrite E. reflexivity.
Defined.

(** ** The exit succeeds exactly when the map is still current *)

(** What the firmware specification promises: the map comes with the key of the moment, and
    the exit is granted exactly for the current key. *)
Class BootFirmware (W : Type) := {
  fw_map : W → Z * Z * Z * W;
  fw_exit : Z → W → Z * W;
  map_key : W → Z;
  owned : W → bool;
  fw_map_ok w : ∃ d w', fw_map w = (SUCCESS, map_key w, d, w') ∧ d ≠ 0 ∧ owned w' = owned w;
  fw_exit_granted k w : owned w = true → k = map_key w →
    ∃ w', fw_exit k w = (SUCCESS, w') ∧ owned w' = false;
  fw_exit_refused k w : owned w = true → k ≠ map_key w →
    ∃ s w', fw_exit k w = (s, w') ∧ s ≠ SUCCESS ∧ owned w' = true;
}.

Section boot_firmware.
Context {W : Type} `{BootFirmware W}.

(** An attempt: the key it uses is still current when the exit is called; the machine
    after a failed one. *)
Definition stable (w : W) : bool := map_key (fw_map w).2 =? map_key w.
Definition retry (w : W) : W := (fw_exit (map_key w) (fw_map w).2).2.

Lemma exit_loop_exact turns last w :
  owned w = true →
  ∃ r w', exit_loop fw_map fw_exit turns last w = (r, w') ∧
    (r = Ok () ↔ ∃ i : nat, (i < turns)%nat ∧ stable (Nat.iter i retry w) = true) ∧
    (r = Ok () ↔ owned w' = false) ∧ r ≠ Panic.
Proof.
  revert last w. induction turns as [|turns IH]; intros last w Hw.
  { eexists _, w. split; [reflexivity|]. split_and!; [split; [done|intros (i & ? & _); lia]|by rewrite Hw|done]. }
  destruct (fw_map_ok w) as (d & w1 & Em & Hd & Ho).
  assert (stable w = (map_key w1 =? map_key w)) as Hst by (unfold stable; by rewrite Em).
  assert (retry w = (fw_exit (map_key w) w1).2) as Hre by (unfold retry; by rewrite Em).
  cbn [exit_loop]. unfold mbind, op_bind, access, lift, bail_if, mret, op_ret. rewrite Em.
  rewrite (proj2 (Z.eqb_neq _ _) Hd). change (negb (SUCCESS =? SUCCESS)) with false. cbn [orb].
  destruct (Z.eqb_spec (map_key w1) (map_key w)) as [Hk|Hk].
  - destruct (fw_exit_granted (map_key w) w1) as (w2 & E2 & Ho2); [congruence..|]. rewrite E2.
    change (SUCCESS =? SUCCESS) with true. cbv iota. eexists _, w2. split; [reflexivity|]. rewrite Ho2.
    split_and!; [|done|done]. split; [|done]. intros _. exists O. split; [lia|]. cbn. by rewrite Hst.
  - destruct (fw_exit_refused (map_key w) w1) as (s & w2 & E2 & Hs & Ho2); [congruence..|]. rewrite E2 in *.
    rewrite (proj2 (Z.eqb_neq _ _) Hs). cbn in Hre. destruct (IH s w2 Ho2) as (r & w' & E & Hr & Hr2 & Hr3).
    eexists r, w'. split; [exact E|]. split_and!; [|done|done]. rewrite Hr. split.
    + intros (i & Hi & Hsi). exists (S i). split; [lia|]. by rewrite Nat.iter_succ_r, Hre.
    + intros ([|i] & Hi & Hsi); [cbn in Hsi; by rewrite Hst in Hsi|].
      exists i. split; [lia|]. by rewrite Nat.iter_succ_r, Hre in Hsi.
Qed.

(** [exit_boot_services] takes the machine from the firmware exactly when, in one of
    its four attempts, the memory map is still current when the exit is called; when it
    reports an error the firmware still owns the machine. *)
Theorem exit_boot_services_exact (w : W) :
  owned w = true →
  ∃ r w', exit_boot_services fw_map fw_exit w = (r, w') ∧ r ≠ Panic ∧
    (r = Ok () ↔ ∃ i : nat, (i < 4)%nat ∧ stable (Nat.iter i retry w) = true) ∧
    (r = Ok () ↔ owned w' = false).
Proof.
  intros Hw. destruct (exit_loop_exact 4 (umax 64) w Hw) as (r & w' & E & H1 & H2 & H3).
  by exists r, w'.
Qed.
End boot_firmware.

(** A firmware whose map changes under the first two attempts. *)
Record demo_fw : Type := MkDemoFw { d_key : Z; d_owned : bool; d_changes : list bool }.
#[local] Instance demo_boot_firmware : BootFirmware demo_fw.
Proof.
  refine {|
    fw_map w := (SUCCESS, d_key w, 48,
      match d_changes w with
      | true :: l => MkDemoFw (d_key w + 1) (d_owned w) l
      | _ :: l => MkDemoFw (d_key w) (d_owned w) l
      | [] => w
      end);
    fw_exit k w := if k =? d_key w then (SUCCESS, MkDemoFw (d_key w) false (d_changes w)) else (2, w);
    map_key := d_key; owned := d_owned |}.
  - intros w. eexists _, _. split; [reflexivity|]. split; [done|]. by destruct (d_changes w) as [|[]].
  - intros k w Hw ->. rewrite Z.eqb_refl. by eexists.
  - intros k w Hw Hk. rewrite (proj2 (Z.eqb_neq _ _) Hk). eexists _, _. split; [reflexivity|]. done.
Defined.

Lemma exit_boot_services_exact_witness :
  ∃ w', exit_boot_services fw_map fw_exit (MkDemoFw 7 true [true; true; false]) = (Ok (), w') ∧ owned w' = false.
Proof.
  destruct (exit_boot_services_exact (MkDemoFw 7 true [true; true; false])) as (r & w' & E & _ & H1 & H2); [reflexivity|].
  assert (r = Ok ()) as Hr by (apply H1; exists 2%nat; split; [lia|reflexivity]).
  rewrite Hr in E. exists w'. split; [exact E|]. apply H2. exact Hr.
Defined.

(** ** The allocator probe on a fresh heap *)

Lemma run_alloc_rtc pc h ptr h' :
  rtc Heap.alone (pc, h) (Heap.ADone ptr, h') →
  ∃ n, ∀ fuel, (n ≤ fuel)%nat → run_alloc fuel pc h = (Ok ptr, h').
Proof.
  intros Hr. remember (pc, h) as x eqn:Ex. remember (Heap.ADone ptr, h') as y eqn:Ey.
  revert pc h Ex. induction Hr as [x|x x1 x2 Hs _ IH]; intros pc h Ex; subst.
  - injection Ex as <- <-. exists 1%nat. intros [|fuel] Hf; [lia|done].
  - inversion Hs as [pc0 h0 pc1 h1 Hstep]; subst.
    destruct (IH eq_refl pc1 h1 eq_refl) as [n Hn]. exists (S n). intros [|fuel] Hf; [lia|]. cbn [run_alloc].
    destruct pc; try (rewrite Hstep; apply Hn; lia).
    cbn in Hstep. injection Hstep as <- <-. exact (Hn (S fuel) ltac:(lia)).
Qed.

Lemma byte_at_zeroes a (n : nat) m x :
  byte_at (Heap.zeroes a n m) x = if decide (a ≤ x < a + n) then 0 else byte_at m x.
Proof.
  induction n as [|n IH]; cbn [Heap.zeroes]; [by rewrite decide_False by lia|].
  rewrite byte_at_insert, IH. zcase; repeat case_decide; try done; lia.
Qed.

Lemma read_le_zero m a (n : nat) : (∀ b, a ≤ b < a + n → byte_at m b = 0) → read_le m a n = 0.
Proof.
  revert a. induction n as [|n IH]; intros a Hb; cbn [read_le]; [done|].
  rewrite Hb by lia. rewrite IH; [lia|]. intros b Hb'. apply Hb. lia.
Qed.

Section fresh.
Context (base : Z) (Hbase : Heap.base_ok base).

(** Page [f] is the first free one. *)
Lemma alloc_page bm cnt mem f :
  (bm = 0 ∧ f = 0) ∨ (bm = 1 ∧ f = 1) →
  rtc Heap.alone (Heap.AStart BOX, Heap.MkHeap base bm cnt mem)
    (Heap.ADone (base + f * 4096), Heap.MkHeap base (2 * bm + 1) (wrap 64 (cnt + 1))
      (Heap.zeroes (base + f * 4096) (Z.to_nat 4096) mem)).
Proof.
  intros Hf. eapply rtc_l.
  { constructor. cbn. rewrite (proj2 (Z.eqb_neq _ _)) by (unfold Heap.base_ok in Hbase; lia). reflexivity. }
  change (Heap.layout_pages BOX) with 1. destruct Hf as [[-> ->]|[-> ->]].
  - apply (Heap.alone_take base 0 cnt mem 1 0); [done|lia..|reflexivity].
  - do 2 (eapply rtc_l; [constructor; reflexivity|]).
    apply (Heap.alone_take base 1 cnt mem 1 1); [done|lia..|reflexivity].
Qed.

Lemma box_new_run bm cnt mem f :
  (bm = 0 ∧ f = 0) ∨ (bm = 1 ∧ f = 1) →
  ∃ n, ∀ fuel, (n ≤ fuel)%nat → box_new fuel (Heap.MkHeap base bm cnt mem) =
    (Ok (base + f * 4096), Heap.MkHeap base (2 * bm + 1) (wrap 64 (cnt + 1))
      (Heap.zeroes (base + f * 4096) 1024 (Heap.zeroes (base + f * 4096) (Z.to_nat 4096) mem))).
Proof.
  intros Hf. destruct (run_alloc_rtc _ _ _ _ (alloc_page bm cnt mem f Hf)) as [n Hn]. exists n. intros fuel Hfuel.
  unfold box_new, mbind, op_bind, alloc, lift, on_memory, modify, mret, op_ret. rewrite Hn by done.
  rewrite (proj2 (Z.eqb_neq _ _)) by (unfold Heap.base_ok in Hbase; lia). reflexivity.
Qed.

Lemma dealloc_run bm cnt mem f :
  f = 0 ∨ f = 1 →
  dealloc (base + f * 4096) BOX (Heap.MkHeap base bm cnt mem) =
    (Ok (), Heap.MkHeap base (Z.land bm (bnot 64 (Heap.page_mask 1 f))) cnt mem).
Proof.
  intros Hf. destruct Hbase as [Hb Hm]. unfold umax in Hb.
  assert (Heap.dealloc_check base (base + f * 4096) BOX = Ok (Heap.DClear 1 f)) as E.
  { unfold Heap.dealloc_check. rewrite (proj2 (Z.eqb_neq base 0)), (proj2 (Z.ltb_ge (base + f * 4096) base)) by lia.
    cbn [orb].
    unfold uadd, Heap.HEAP_BYTES, Heap.HEAP_PAGES. rewrite (proj2 (Z.ltb_lt (base + 64 * 4096) (2 ^ 64))) by lia. cbn [mbind res_bind].
    rewrite (proj2 (Z.leb_gt (base + 64 * 4096) (base + f * 4096))), Z.mod_add, Hm by lia. cbn [orb negb].
    change (Heap.layout_pages BOX) with 1. replace (base + f * 4096 - base) with (f * 4096) by lia.
    rewrite Z.div_mul by lia. by destruct Hf as [-> | ->]. }
  unfold dealloc. cbn [Heap.heap_base]. by rewrite E.
Qed.

(** Memory that was just handed out reads as zero. *)
Lemma any_set_zero ptr h :
  (∀ x, ptr ≤ x < ptr + 1024 → byte_at (Heap.memory h) x = 0) → any_set ptr h = (Ok false, h).
Proof.
  intros Hz. unfold any_set, reads. f_equal. f_equal. apply not_true_iff_false. rewrite existsb_exists.
  intros (i & Hi%list_elem_of_In%elem_of_seqZ & Hn). rewrite read_le_zero in Hn; [done|].
  intros b Hb. apply Hz. lia.
Qed.

Lemma oversized_run bm cnt mem :
  ∃ n, ∀ fuel, (n ≤ fuel)%nat →
    alloc fuel (Heap.MkLayout (Heap.HEAP_BYTES + 4096) 4096) (Heap.MkHeap base bm cnt mem) =
    (Ok 0, Heap.MkHeap base bm cnt mem).
Proof.
  exists 2%nat. intros [|[|fuel]] Hf; [lia..|]. unfold alloc. cbn [run_alloc].
  assert (Heap.alloc_step false (Heap.AStart (Heap.MkLayout (Heap.HEAP_BYTES + 4096) 4096)) (Heap.MkHeap base bm cnt mem)
    = (Ok (Heap.ADone 0), Heap.MkHeap base bm cnt mem)) as ->; [|done].
  cbn. rewrite (proj2 (Z.eqb_neq _ _)) by (unfold Heap.base_ok in Hbase; lia). reflexivity.
Qed.

Lemma ok_bind {S A B} (m : op S PostFirmwareError A) (k : A → op S PostFirmwareError B) s a s' r :
  m s = (Ok a, s') → k a s' = r → (m ≫= k) s = r.
Proof. intros E <-. unfold mbind, op_bind. by rewrite E. Qed.

Lemma refuse_pass b h : b = false → refuse b h = (Ok (), h).
Proof. by intros ->. Qed.

Lemma refuse_dropping_pass b l h : b = false → refuse_dropping b l h = (Ok (), h).
Proof. by intros ->. Qed.

Lemma word_read ptr i h v : read_le (Heap.memory h) (ptr + 8 * i) 8 = v → word ptr i h = (Ok v, h).
Proof. by intros <-. Qed.

(** On a reserved heap with nothing allocated the probe succeeds: two boxes come from
    different pages, zeroed and writable; after both are dropped the first page is handed
    out again, zeroed; a request larger than the arena is refused; and the heap is left
    empty, with three allocations counted. *)
Theorem allocator_probe_exact cnt mem :
  u64 (cnt + 3) → 0 ≤ cnt →
  ∃ n, ∀ fuel, (n ≤ fuel)%nat → ∃ mem',
    allocator_probe fuel (Heap.MkHeap base 0 cnt mem) =
      (Ok (Heap.HEAP_BYTES, cnt + 3, 1), Heap.MkHeap base 0 (cnt + 3) mem').
Proof.
  intros Hu H0. pose proof Hbase as [Hb Hmod]. unfold umax in Hb.
  set (p1 := base + 0 * 4096). set (p2 := base + 1 * 4096).
  set (m1 := Heap.zeroes p1 1024 (Heap.zeroes p1 (Z.to_nat 4096) mem)).
  set (m2 := Heap.zeroes p2 1024 (Heap.zeroes p2 (Z.to_nat 4096) m1)).
  set (m3 := write_le (p2 + 8 * 127) 8 0x4845415042524944 (write_le p1 8 0x544845524d495445 m2)).
  set (m4 := Heap.zeroes p1 1024 (Heap.zeroes p1 (Z.to_nat 4096) m3)).
  destruct (box_new_run 0 cnt mem 0 ltac:(by left)) as [n1 N1].
  destruct (box_new_run 1 (cnt + 1) m1 1 ltac:(by right)) as [n2 N2].
  destruct (box_new_run 0 (cnt + 2) m3 0 ltac:(by left)) as [n3 N3].
  destruct (oversized_run 0 (cnt + 3) m4) as [n4 N4].
  assert (∀ k, k = cnt ∨ k = cnt + 1 ∨ k = cnt + 2 → wrap 64 (k + 1) = k + 1) as Hw.
  { intros k Hk. apply wrap_small. unfold in_u in Hu. lia. }
  rewrite Hw in N1, N2, N3 by lia. replace (cnt + 1 + 1) with (cnt + 2) in N2 by lia.
  replace (cnt + 2 + 1) with (cnt + 3) in N3 by lia. fold p1 m1 in N1. fold p2 m2 in N2. fold p1 m4 in N3.
  change (2 * 0 + 1) with 1 in N1, N3. change (2 * 1 + 1) with 3 in N2.
  assert (∀ x, p1 ≤ x < p1 + 1024 → byte_at m2 x = 0) as Z1
    by (intros x Hx; unfold m2, m1, p1, p2 in *; rewrite !byte_at_zeroes; repeat case_decide; lia).
  assert (∀ x, p2 ≤ x < p2 + 1024 → byte_at m2 x = 0) as Z2
    by (intros x Hx; unfold m2; rewrite byte_at_zeroes; case_decide; lia).
  assert (∀ x, p1 ≤ x < p1 + 1024 → byte_at m4 x = 0) as Z3
    by (intros x Hx; unfold m4; rewrite byte_at_zeroes; case_decide; lia).
  exists (n1 + n2 + n3 + n4)%nat. intros fuel Hfuel. exists m4. unfold allocator_probe.
  eapply ok_bind; [reflexivity|]. eapply ok_bind; [apply refuse_pass; cbn; apply Z.eqb_neq; lia|].
  eapply ok_bind; [apply N1; lia|]. eapply ok_bind; [apply N2; lia|].
  eapply ok_bind; [by apply any_set_zero|]. eapply ok_bind; [by apply any_set_zero|].
  cbn [Heap.heap_base]. eapply ok_bind.
  { apply refuse_dropping_pass. unfold Heap.HEAP_BYTES, Heap.HEAP_PAGES, p1, p2. zcase; cbn; try done; lia. }
  eapply ok_bind; [reflexivity|]. eapply ok_bind; [reflexivity|].
  cbn [Heap.heap_base Heap.heap_bitmap Heap.heap_allocations Heap.memory]. fold m3.
  eapply ok_bind; [apply (word_read _ _ _ 0x544845524d495445)|].
  { cbn [Heap.memory]. unfold m3. replace (p1 + 8 * 0) with p1 by lia.
    rewrite read_write_other by (unfold p1, p2; lia). by rewrite read_write_le. }
  eapply ok_bind; [apply (word_read _ _ _ 0x4845415042524944)|].
  { cbn [Heap.memory]. unfold m3. by rewrite read_write_le. }
  eapply ok_bind; [by apply refuse_dropping_pass|]. eapply ok_bind; [exact (dealloc_run 3 _ _ 0 (or_introl eq_refl))|].
  eapply ok_bind; [exact (dealloc_run 2 _ _ 1 (or_intror eq_refl))|].
  eapply ok_bind; [reflexivity|]. eapply ok_bind; [by apply refuse_pass|].
  eapply ok_bind; [apply N3; lia|]. eapply ok_bind; [by apply any_set_zero|].
  eapply ok_bind; [apply refuse_dropping_pass; by rewrite Z.eqb_refl|]. eapply ok_bind; [exact (dealloc_run 1 _ _ 0 (or_introl eq_refl))|].
  eapply ok_bind; [reflexivity|]. eapply ok_bind; [by apply refuse_pass|].
  eapply ok_bind; [apply N4; lia|]. eapply ok_bind; [reflexivity|].
  eapply ok_bind; [by apply refuse_pass|]. eapply ok_bind; reflexivity.
Qed.
End fresh.

Lemma allocator_probe_exact_witness :
  ∃ fuel mem', allocator_probe fuel (Heap.MkHeap 0x100000 0 0 ∅) =
    (Ok (262144, 3, 1), Heap.MkHeap 0x100000 0 3 mem').
Proof.
  destruct (allocator_probe_exact 0x100000) with (cnt := 0) (mem := ∅ : gmap Z Z) as (n & Hn).
  - split; [unfold umax; lia|reflexivity].
  - unfold in_u. lia.
  - lia.
  - destruct (Hn n (le_n n)) as (mem' & Hm). exists n, mem'. exact Hm.
Defined.

(** ** Random numbers *)

(** A source of draws, each with its validity. *)
(** An instruction that delivers a number within sixteen tries. *)
Definition delivers {W} (rdrand : W → Z * Z * W) : Prop := ∀ w, ∃ n : nat, (n < 16)%nat ∧
  (rdrand (Nat.iter n (λ w, (rdrand w).2) w)).1.2 ≠ 0.

Lemma entropy_word_delivers {W} (rdrand : W → Z * Z * W) w :
  delivers rdrand → ∃ v w', entropy_word rdrand w = (Ok v, w').
Proof.
  intros Hd. destruct (Hd w) as (n & Hn & Hv). unfold entropy_word.
  assert (∀ m w, (n < m)%nat → (rdrand (Nat.iter n (λ w, (rdrand w).2) w)).1.2 ≠ 0 → ∃ v w',
    for_nat m ('(value, valid) ← access rdrand; mret (if negb (valid =? 0) then Some value else None)) w
      = ((Ok (Some v) : res PostFirmwareError _), w')) as Hloop.
  { clear. induction n as [|n IH]; intros [|m] w Hlt Hv; try lia; cbn [for_nat]; unfold mbind, op_bind, access;
      [cbn in Hv|rewrite Nat.iter_succ_r in Hv]; destruct (rdrand w) as [[value valid] w1] eqn:E; cbn in Hv.
    - rewrite (proj2 (Z.eqb_neq _ _) Hv). by eexists _, _.
    - destruct (valid =? 0); cbn [negb]; [apply IH; [lia|done]|by eexists _, _]. }
  destruct (Hloop 16%nat w Hn Hv) as (v & w' & E). exists v, w'. by rewrite (op_bind_run _ _ _ _ _ E).
Qed.

Lemma entropy_delivers {W} (rdrand : W → Z * Z * W) w :
  delivers rdrand → ∃ w', entropy_probe rdrand w = (Ok 32, w').
Proof.
  intros Hd. assert (∀ n w, ∃ l w', fill n (entropy_word rdrand) w = (Ok l, w')) as Hf.
  { induction n as [|n IH]; intros w1; cbn [fill]; [by eexists _, _|].
    destruct (entropy_word_delivers rdrand w1 Hd) as (v & w2 & E). rewrite (op_bind_run _ _ _ _ _ E).
    destruct (IH w2) as (l & w3 & E3). rewrite (op_bind_run _ _ _ _ _ E3). by eexists _, _. }
  destruct (Hf 4%nat w) as (l & w' & E). exists w'. unfold entropy_probe. by rewrite (op_bind_run _ _ _ _ _ E).
Qed.

(** A firmware that keeps its map long enough in one of four attempts lets the machine go. *)
Lemma exit_granted {W} `{BootFirmware W} (w : W) :
  owned w = true → (∃ i : nat, (i < 4)%nat ∧ stable (Nat.iter i retry w) = true) →
  ∃ w', exit_boot_services fw_map fw_exit w = (Ok (), w').
Proof.
  intros Hw Hs. destruct (exit_loop_exact 4 (umax 64) w Hw) as (r & w' & E & H1 & _).
  exists w'. unfold exit_boot_services. rewrite E. f_equal. by apply H1.
Qed.

Definition draw (w : list (Z * Z)) : Z * Z * list (Z * Z) :=
  match w with [] => (0, 0, []) | x :: w => (x, w) end.

(** [entropy_probe] fails exactly when some word meets sixteen refusals in a row. *)
Fixpoint words (n : nat) (w : list (Z * Z)) (misses : nat) : bool :=
  match w with
  | [] => false
  | (_, valid) :: w =>
    if valid =? 0 then (if (misses <? 15)%nat then words n w (S misses) else false)
    else match n with O => true | S n => words n w 0 end
  end.

Definition draw_once : op (list (Z * Z)) PostFirmwareError (option Z) :=
  '(value, valid) ← access draw; mret (if negb (valid =? 0) then Some value else None).

Lemma for_nat_empty k : for_nat k draw_once [] = (Ok None, []).
Proof. induction k as [|k IH]; [done|]. cbn [for_nat]. unfold mbind, op_bind. exact IH. Qed.

Lemma words_step n w m :
  (m < 16)%nat →
  words n w m = match for_nat (16 - m) draw_once w with
                | (Ok (Some _), w') => match n with O => true | S n => words n w' 0 end
                | _ => false
                end.
Proof.
  revert m. induction w as [|[value valid] w IH]; intros m Hm; [by rewrite for_nat_empty|].
  replace (16 - m)%nat with (S (15 - m)) by lia. cbn [words for_nat].
  assert (draw_once ((value, valid) :: w) = (Ok (if negb (valid =? 0) then Some value else None), w)) as E by done.
  unfold mbind, op_bind. rewrite E. destruct (valid =? 0); [|done]. cbn [negb].
  destruct (Nat.ltb_spec m 15).
  - rewrite IH by lia. by replace (16 - S m)%nat with (15 - m)%nat by lia.
  - by replace (15 - m)%nat with O by lia.
Qed.

Lemma for_nat_total k w : ∃ r w', for_nat k draw_once w = (Ok r, w').
Proof.
  revert w. induction k as [|k IH]; intros w; [by eexists _, _|]. cbn [for_nat].
  unfold mbind, op_bind. destruct w as [|[value valid] w]; [apply IH|].
  change (draw_once ((value, valid) :: w)) with
    ((Ok (if negb (valid =? 0) then Some value else None) : res PostFirmwareError _), w).
  cbv iota. destruct (negb (valid =? 0)); [by eexists _, _|apply IH].
Qed.

Lemma entropy_word_run r w w' :
  for_nat 16 draw_once w = (Ok r, w') →
  entropy_word draw w = (match r with Some v => Ok v | None => Err Entropy end, w').
Proof.
  intros E. unfold entropy_word. fold draw_once. unfold mbind, op_bind. rewrite E. by destruct r.
Qed.

Lemma fill_words n w :
  match (fill (S n) (entropy_word draw) w).1 with
  | Ok l => words n w 0 = true ∧ length l = S n
  | Err e => words n w 0 = false ∧ e = Entropy
  | Panic => False
  end.
Proof.
  revert w. induction n as [|n IH]; intros w; rewrite words_step by lia; change (16 - 0)%nat with 16%nat;
    destruct (for_nat_total 16 w) as ([v|] & w1 & E); rewrite E; pose proof (entropy_word_run _ _ _ E) as R;
    (cbn [fill] in *); unfold mbind, op_bind at 1; rewrite R; [done..|specialize (IH w1)|done].
  unfold mbind, op_bind in IH |- *. destruct (entropy_word draw w1) as [[v1|e|] w2]; [|done..].
  destruct (fill n (entropy_word draw) w2) as [[l|e|] w3]; [|done..]. cbn in IH |- *. naive_solver.
Qed.

(** [entropy_probe] fills its four words and answers 32, or answers [Entropy]; the second
    exactly when one of the words meets sixteen refusals in a row. *)
Theorem entropy_probe_exact w :
  (entropy_probe draw w).1 = if words 3 w 0 then Ok 32 else Err Entropy.
Proof.
  pose proof (fill_words 3 w) as F. unfold entropy_probe, mbind, op_bind at 1.
  destruct (fill 4 (entropy_word draw) w) as [[l|e|] w1]; cbn in F |- *; [..|done];
    destruct F as [-> ?]; congruence.
Qed.
End Bringup.
