(* ===== verification/Timer.v ===== *)
(** * The timer: [arm_timer], [thermite_timer_handler] and the part of [run] that
      waits for the timers of all processors in
      [platform/x86_64-pc-uefi-smp-v1/runtime/src/post_firmware.rs]

    First [arm_timer] on one processor, over its APIC, its counter and the
    shared statics: what it programs and when it falls back to an interrupt of
    its own.  Then the processors together: each arms its timer as soon as it
    has finished with the translation probe, while the boot processor tests the
    gate, clears the mask, arms its own timer, sends the interrupt to whoever is
    still missing, and waits for the full mask. *)
From S2P Require Import Prelude Interleave Target Descriptors Apic Phases Bringup.

Module Timer.
Import Target Apic.

Definition TSC_DEADLINE_MSR : Z := 0x6e0.
Definition APIC_LVT_TIMER : Z := 0x320.
Definition APIC_TIMER_INITIAL : Z := 0x380.
Definition APIC_TIMER_DIVIDE : Z := 0x3e0.
Definition TIMER_VECTOR : Z := 0xf2.

(** ** Arming one timer *)

(** [rdtsc] gives [eax] and [edx]; [POST_TIMER_MASK] and [POST_TIMER_IPI_FALLBACKS] are
    shared with the other processors and with the interrupt handler. *)
Class TimerStatics (W : Type) := {
  rdtsc : W → Z * Z * W;
  load_timer_mask : W → Z * W;
  add_fallback : W → W;
}.

Section arm.
Context {W : Type} `{MmioRegs W, Msrs W, TimerStatics W}.

Definition wrmsr (msr value : Z) : op W PostFirmwareError unit := modify (msr_write msr value).

(** The loop that waits for the deadline; the fuel bounds its turns. *)
Fixpoint spin (fuel : nat) (deadline : Z) : op W PostFirmwareError unit :=
  match fuel with
  | O => lift Panic
  | S fuel =>
    '(next_low, next_high) ← access rdtsc;
    if deadline <=? Z.lor (Z.shiftl next_high 32) next_low then mret () else spin fuel deadline
  end.

(** [ebx] is what [cpuid] leaf 1 says on this processor. *)
Definition arm_timer (fuel : nat) (ebx : Z) : op W PostFirmwareError unit :=
  '(low, high) ← access rdtsc;
  apic_write APIC_TIMER_DIVIDE 0x0b;;
  apic_write APIC_TIMER_INITIAL 0;;
  apic_write APIC_LVT_TIMER (Z.lor (Z.shiftl 1 18) TIMER_VECTOR);;
  let now := Z.lor (Z.shiftl high 32) low in
  let deadline := saturating_add 64 now 100000 in
  wrmsr TSC_DEADLINE_MSR deadline;;
  spin fuel deadline;;
  let cpu := Bringup.cpu_id ebx in
  cpu_bit ← lift (bit cpu);
  mask ← access load_timer_mask;
  if Z.land mask cpu_bit =? 0 then
    modify add_fallback;;
    wait_icr;;
    apic_write APIC_ICR_LOW (Z.lor (Z.shiftl 1 18) TIMER_VECTOR);;
    wait_icr
  else mret ().
End arm.

(** ** All processors *)

Record Shared : Type := MkShared { timer_mask : Z; fallbacks : Z }.

(** [arm_timer] up to the deadline works on the processor's own registers; [TIdle] and
    [TFail] are its two ends. *)
Inductive arm_pc : Type := TArm | TSpin | TLoad | TCount | TSelf | TIdle | TFail (e : PostFirmwareError).

(** The part of [run] from the test of the gate to the full mask. *)
Inductive bsp_pc : Type :=
| BClear1 | BInt | BGate | BClear2 | BArm (p : arm_pc)
| BEach (l : list Z) | BSend (c : Z) (l : list Z) | BWait
| BOk | BTimeout | BRefuse | BStop (e : PostFirmwareError).

Inductive program : Type := Ap (p : arm_pc) | Bsp (p : bsp_pc).

(** [thermite_timer_handler]: [lock btsq], then the end of interrupt. *)
Inductive handler_pc : Type := HNone | HBit | HEoi.

(** A processor: its program, whether its deadline is still to come, whether the vector is
    requested, and its handler. *)
Record Cpu : Type := MkCpu { prog : program; armed : bool; irr : bool; handler : handler_pc }.

(** What one access of a program does to the processor's own registers and to others. *)
Inductive effect : Type := Nothing | Arms | SelfIpi | Gate | Ipi (c : Z).

#[global] Instance effect_eq_dec : EqDecision effect.
Proof. solve_decision. Defined.

(** [io] is what becomes of the accesses to the APIC a step makes: writing the timer
    registers, all of which precede the deadline, and the interrupt to itself. *)
Definition arm_step (passed : bool) (io : outcome) (cpu : Z) (p : arm_pc) (s : Shared)
    : arm_pc * effect * Shared :=
  match p with
  | TArm => match io with Sent => (TSpin, Arms, s) | Fails e _ => (TFail e, Nothing, s) end
  | TSpin => (if passed then TLoad else TSpin, Nothing, s)
  | TLoad =>
    match bit cpu with
    | Ok cpu_bit => (if Z.land (timer_mask s) cpu_bit =? 0 then TCount else TIdle, Nothing, s)
    | Err e => (TFail e, Nothing, s)
    | Panic => (p, Nothing, s)
    end
  | TCount => (TSelf, Nothing, MkShared (timer_mask s) (Phases.add1 (fallbacks s)))
  | TSelf =>
    (match io with Sent => TIdle | Fails e _ => TFail e end, if reaches io then SelfIpi else Nothing, s)
  | TIdle | TFail _ => (p, Nothing, s)
  end.

(** [flag] is the clock that has passed the deadline, or the end of a wait in vain; [io] is
    what becomes of [arm_timer]'s accesses and of [send_raw_ipi]. *)
Definition bsp_step (flag : bool) (io : outcome) (bsp : Z) (apic_ids : list Z) (full_mask : Z) (p : bsp_pc)
    (s : Shared) : bsp_pc * effect * Shared :=
  match p with
  | BClear1 => (BInt, Nothing, MkShared 0 (fallbacks s))
  | BInt => (BGate, Gate, s)
  | BGate => (if Z.land (timer_mask s) (Z.shiftl 1 bsp) =? 0 then BRefuse else BClear2, Nothing, s)
  | BClear2 => (BArm TArm, Nothing, MkShared 0 (fallbacks s))
  | BArm TIdle => (BEach apic_ids, Nothing, s)
  | BArm (TFail e) => (BStop e, Nothing, s)
  | BArm p => let '(p, e, s) := arm_step flag io bsp p s in (BArm p, e, s)
  | BEach [] => (BWait, Nothing, s)
  | BEach (c :: l) =>
    match bit c with
    | Ok cpu_bit =>
      (if negb (c =? bsp) && (Z.land (timer_mask s) cpu_bit =? 0) then BSend c l else BEach l, Nothing, s)
    | Err e => (BStop e, Nothing, s)
    | Panic => (p, Nothing, s)
    end
  | BSend c l =>
    (match io with Sent => BEach l | Fails e _ => BStop e end, if reaches io then Ipi c else Nothing, s)
  | BWait =>
    (if Phases.contains (timer_mask s) full_mask then BOk else if flag then BTimeout else BWait, Nothing, s)
  | BOk | BTimeout | BRefuse | BStop _ => (p, Nothing, s)
  end.

Definition handler_step (cpu : Z) (h : handler_pc) (s : Shared) : handler_pc * Shared :=
  match h with
  | HNone => (HNone, s)
  | HBit => (HEoi, MkShared (Phases.or_bit cpu (timer_mask s)) (fallbacks s))
  | HEoi => (HNone, s)
  end.

(** An effect on the processor that causes it, and on the one it names. *)
Definition own (e : effect) (u : Cpu) : Cpu :=
  match e with
  | Arms => MkCpu (prog u) true (irr u) (handler u)
  | SelfIpi => MkCpu (prog u) (armed u) true (handler u)
  | Gate => MkCpu (prog u) (armed u) (irr u) HBit
  | Nothing | Ipi _ => u
  end.

Definition raise (u : Cpu) : Cpu := MkCpu (prog u) (armed u) true (handler u).

Definition deliver (e : effect) (w : gmap Z Cpu) : gmap Z Cpu :=
  match e with Ipi c => alter raise c w | _ => w end.

Record system : Type := MkSystem { shared : Shared; cpus : gmap Z Cpu }.

Section machine.
(** [fires c] says whether the deadline timer of [c] works at all. *)
Context (bsp : Z) (apic_ids : list Z) (full_mask : Z) (fires : Z → bool).

Definition program_step (flag : bool) (io : outcome) (cpu : Z) (p : program) (s : Shared) : program * effect * Shared :=
  match p with
  | Ap p => let '(p, e, s) := arm_step flag io cpu p s in (Ap p, e, s)
  | Bsp p => let '(p, e, s) := bsp_step flag io bsp apic_ids full_mask p s in (Bsp p, e, s)
  end.

(** A processor runs its program or its handler; it accepts the vector between two accesses
    of its program; a timer that works fires at any time after it was armed. *)
Inductive step : system → system → Prop :=
| step_program y c u flag io p e s :
    cpus y !! c = Some u → handler u = HNone → outcome_ok io → program_step flag io c (prog u) (shared y) = (p, e, s) →
    step y (MkSystem s (deliver e (<[c := own e (MkCpu p (armed u) (irr u) (handler u))]> (cpus y))))
| step_accept y c u :
    cpus y !! c = Some u → handler u = HNone → irr u = true →
    step y (MkSystem (shared y) (<[c := MkCpu (prog u) (armed u) false HBit]> (cpus y)))
| step_handler y c u h s :
    cpus y !! c = Some u → handler_step c (handler u) (shared y) = (h, s) →
    step y (MkSystem s (<[c := MkCpu (prog u) (armed u) (irr u) h]> (cpus y)))
| step_deadline y c u :
    cpus y !! c = Some u → armed u = true → fires c = true →
    step y (MkSystem (shared y) (<[c := MkCpu (prog u) false true (handler u)]> (cpus y))).

(** The state [Phases] leaves: every processor is past its second translation probe, no
    timer has been armed. *)
Definition started : system :=
  MkSystem (MkShared 0 0)
    (list_to_map ((λ c, (c, MkCpu (if c =? bsp then Bsp BClear1 else Ap TArm) false false HNone)) <$> apic_ids)).
End machine.

(** ** What holds at every position of the boot processor *)

(** The bit of [c] is set, or will be by its own interrupt. *)
Definition covered (y : system) (c : Z) : Prop :=
  Z.testbit (timer_mask (shared y)) c = true ∨
  ∃ u, cpus y !! c = Some u ∧ (irr u = true ∨ handler u = HBit).

(** The processors that have to be covered. *)
Definition settled (bsp : Z) (b : bsp_pc) (c : Z) : Prop :=
  match b with
  | BArm TIdle => c = bsp
  | BEach l => c ∉ l ∨ c = bsp
  | BSend d l => (c ∉ l ∧ c ≠ d) ∨ c = bsp
  | BWait | BOk | BTimeout => True
  | _ => False
  end.

(** The boot processor has given up: a wait in vain, or an error of the driver. *)
Definition gave_up (b : bsp_pc) : bool :=
  match b with BTimeout | BStop _ | BArm (TFail _) => true | _ => false end.

(** The processors still to be looked at. *)
Definition todo (b : bsp_pc) : list Z :=
  match b with BEach l => l | BSend c l => c :: l | _ => [] end.

(** A processor that may still count a fallback. *)
Definition may_arm (p : arm_pc) : Z :=
  match p with TArm | TSpin | TLoad | TCount => 1 | _ => 0 end.
Definition may (u : Cpu) : Z :=
  match prog u with
  | Ap p | Bsp (BArm p) => may_arm p
  | Bsp (BClear1 | BInt | BGate | BClear2) => 1
  | _ => 0
  end.

Definition position (bsp : Z) (y : system) : option bsp_pc :=
  match cpus y !! bsp with Some (MkCpu (Bsp b) _ _ _) => Some b | _ => None end.

Record Inv (bsp : Z) (ids : list Z) (y : system) : Prop := {
  i_dom c : is_Some (cpus y !! c) ↔ c ∈ ids;
  i_kind c u : cpus y !! c = Some u → c ≠ bsp → ∃ p, prog u = Ap p;
  i_mask : 0 ≤ timer_mask (shared y);
  i_known c : 0 ≤ c → Z.testbit (timer_mask (shared y)) c = true → c ∈ ids;
  i_fallbacks : 0 ≤ fallbacks (shared y) ∧ fallbacks (shared y) + count may (cpus y) ≤ length ids;
  i_bsp : ∃ b u, cpus y !! bsp = Some u ∧ prog u = Bsp b ∧ b ≠ BRefuse ∧
    (b = BGate → Z.testbit (timer_mask (shared y)) bsp = true ∨ handler u = HBit) ∧
    (∀ c, c ∈ ids → settled bsp b c → covered y c) ∧
    (∀ c, c ∈ todo b → c ∈ ids) ∧
    (b = BOk → ∀ c, c ∈ ids → Z.testbit (timer_mask (shared y)) c = true) ∧
    (∀ e, b = BStop e ∨ b = BArm (TFail e) → apic_error e);
}.

#[local] Arguments bit : simpl never.

Lemma land_bit_zero m c : 0 ≤ c → (Z.land m (Z.shiftl 1 c) =? 0) = negb (Z.testbit m c).
Proof. intros Hc. rewrite Z.shiftl_1_l. by apply land_pow2_zero. Qed.

Lemma deliver_lookup e w c :
  deliver e w !! c = (if decide (e = Ipi c) then raise else id) <$> w !! c.
Proof.
  destruct e as [| | | |d]; cbn [deliver]; try (rewrite decide_False by done; by destruct (w !! c)).
  destruct (decide (d = c)) as [->|Hne].
  - rewrite lookup_alter_eq. by rewrite decide_True.
  - rewrite lookup_alter_ne, decide_False by congruence. by destruct (w !! c).
Qed.

Lemma position_lookup bsp y b : position bsp y = Some b ↔ ∃ u, cpus y !! bsp = Some u ∧ prog u = Bsp b.
Proof.
  unfold position. destruct (cpus y !! bsp) as [[[p|p] ? ? ?]|]; cbn; naive_solver.
Qed.

Section proofs.
Context (bsp : Z) (ids : list Z) (full : Z) (fires : Z → bool).
Hypothesis ids_small : ∀ c, c ∈ ids → 0 ≤ c < 64.
Hypothesis bsp_listed : bsp ∈ ids.
Hypothesis full_bits : ∀ c, 0 ≤ c → Z.testbit full c = true ↔ c ∈ ids.

Notation step := (step bsp ids full fires).
Notation Inv := (Inv bsp ids).

(** A step changes one processor and the statics, and may raise the vector of another. *)
Inductive move (c : Z) (u : Cpu) (s : Shared) : Cpu → effect → Shared → Prop :=
| move_program flag io p e s' :
    handler u = HNone → outcome_ok io → program_step bsp ids full flag io c (prog u) s = (p, e, s') →
    move c u s (own e (MkCpu p (armed u) (irr u) (handler u))) e s'
| move_accept :
    handler u = HNone → irr u = true → move c u s (MkCpu (prog u) (armed u) false HBit) Nothing s
| move_handler h s' :
    handler_step c (handler u) s = (h, s') → move c u s (MkCpu (prog u) (armed u) (irr u) h) Nothing s'
| move_deadline :
    armed u = true → move c u s (MkCpu (prog u) false true (handler u)) Nothing s.

Lemma step_move y y' :
  step y y' → ∃ c u u' e, cpus y !! c = Some u ∧ cpus y' = deliver e (<[c := u']> (cpus y)) ∧
    move c u (shared y) u' e (shared y').
Proof.
  destruct 1 as [y c u flag io p e s Hc Hh Ho Hp|y c u Hc Hh Hi|y c u h s Hc Hh|y c u Hc Ha Hf];
    [eexists c, u, _, e|eexists c, u, _, Nothing..]; (split; [done|split; [reflexivity|]]).
  - by eapply move_program.
  - by apply move_accept.
  - by eapply move_handler.
  - by apply move_deadline.
Qed.

Lemma prog_own e u : prog (own e u) = prog u.
Proof. by destruct e. Qed.

(** The shape of a program is kept. *)
Lemma move_kind c u s u' e s' :
  move c u s u' e s' →
  match prog u with Ap _ => ∃ p, prog u' = Ap p | Bsp _ => ∃ p, prog u' = Bsp p end.
Proof.
  destruct 1 as [flag io p e s' _ _ Hp| | |]; cbn; [|by destruct (prog u); eexists..].
  rewrite prog_own. cbn. unfold program_step in Hp.
  destruct (prog u) as [q|q]; repeat case_match; simplify_eq; by eexists.
Qed.

(** Every processor counts at most one fallback. *)
Lemma move_fallbacks c u s u' e s' :
  move c u s u' e s' →
  (fallbacks s' = fallbacks s ∧ may u' ≤ may u) ∨
  (fallbacks s' = Phases.add1 (fallbacks s) ∧ may u = 1 ∧ may u' = 0).
Proof.
  destruct 1 as [flag io p e s' _ _ Hp| |h s' Hh|]; [|by left..| |by left].
  - unfold may. rewrite prog_own. cbn. unfold program_step, bsp_step, arm_step in Hp.
    destruct (prog u) as [[]|[| | | |[]|[]| | | | | |]]; repeat case_match; simplify_eq; cbn; lia.
  - left. unfold handler_step in Hh. destruct (handler u); by simplify_eq.
Qed.

(** The mask grows by the processor's own bit, or is cleared by the boot processor. *)
Lemma move_mask c u s u' e s' :
  move c u s u' e s' →
  (timer_mask s' = timer_mask s) ∨
  (timer_mask s' = Phases.or_bit c (timer_mask s)) ∨
  (timer_mask s' = 0 ∧ (prog u = Bsp BClear1 ∨ prog u = Bsp BClear2)).
Proof.
  destruct 1 as [flag io p e s' _ _ Hp| |h s' Hh|]; [|by left| |by left].
  - unfold program_step, bsp_step, arm_step in Hp.
    destruct (prog u) as [[]|[| | | |[]|[]| | | | | |]]; repeat case_match; simplify_eq; cbn; tauto.
  - unfold handler_step in Hh. destruct (handler u); simplify_eq; cbn; tauto.
Qed.

Lemma move_own c u s u' e s' :
  0 ≤ c → move c u s u' e s' → irr u = true ∨ handler u = HBit →
  irr u' = true ∨ handler u' = HBit ∨ Z.testbit (timer_mask s') c = true.
Proof.
  intros Hc0 Hm Hcov. destruct Hm as [flag io p e s' Hh Ho Hp|Hh Hi|h s' Hh|Ha]; cbn.
  - destruct Hcov as [Hi|Hb]; [|congruence]. destruct e; cbn; auto.
  - auto.
  - destruct Hcov as [Hi|Hb]; [auto|]. rewrite Hb in Hh. cbn in Hh. simplify_eq. cbn.
    do 2 right. by apply Phases.or_bit_same.
  - auto.
Qed.

(** What is covered stays covered until the mask is cleared. *)
Lemma covered_move y c u u' e s' d :
  0 ≤ c → 0 ≤ d → cpus y !! c = Some u → move c u (shared y) u' e s' →
  prog u ≠ Bsp BClear1 → prog u ≠ Bsp BClear2 →
  covered y d → covered (MkSystem s' (deliver e (<[c := u']> (cpus y)))) d.
Proof.
  intros Hc0 Hd0 Hc Hm N1 N2 [Hbit|(v & Hv & Hcov)].
  - left. cbn. destruct (move_mask _ _ _ _ _ _ Hm) as [->|[->|[_ [?|?]]]]; [done| |done..].
    by apply Phases.or_bit_grows.
  - unfold covered. cbn. rewrite deliver_lookup. destruct (decide (d = c)) as [->|Hne].
    + simplify_eq. rewrite lookup_insert_eq.
      destruct (move_own _ _ _ _ _ _ Hc0 Hm Hcov) as [Hi|[Hh|Hb]]; [..|by left]; right;
        eexists; (split; [reflexivity|]); destruct (decide _); cbn; auto.
    + rewrite lookup_insert_ne, Hv by done. right. eexists. split; [reflexivity|].
      destruct (decide _); cbn; [by left|done].
Qed.

(** A position of the boot processor asks for no more than it has arranged. *)
Lemma settled_move y u u' e s' b b' d :
  0 ≤ bsp < 64 → d ∈ ids → (∀ c, c ∈ todo b → is_Some (cpus y !! c) ∧ 0 ≤ c < 64) →
  cpus y !! bsp = Some u → prog u = Bsp b → prog u' = Bsp b' →
  move bsp u (shared y) u' e s' → settled bsp b' d →
  settled bsp b d ∨ covered (MkSystem s' (deliver e (<[bsp := u']> (cpus y)))) d.
Proof.
  intros H0 Hd Htodo Hu Hb Hb' Hm Hs. assert (0 ≤ d) as Hd0 by (apply ids_small in Hd; lia).
  destruct Hm as [flag io p e s' Hh Ho Hp|Hh Hi|h s' Hh|Ha]; [|cbn in Hb'; rewrite Hb in Hb'; simplify_eq; by left..].
  rewrite prog_own in Hb'. cbn in Hb'. subst p. rewrite Hb in Hp. cbn [program_step] in Hp.
  destruct b as [| | | |[]|[|d' l]|d' l| | | | |]; cbn in Hp; simplify_eq/=; try (left; exact Hs); try done.
  - by destruct (_ =? 0).
  - by destruct io; simplify_eq/=.
  - by destruct flag.
  - rewrite bit_ok in Hp by lia. simplify_eq/=. rewrite land_pow2_zero in Hs by lia.
    destruct (Z.testbit (timer_mask (shared y)) bsp) eqn:E; [|done].
    cbn in Hs. subst d. right. by left.
  - destruct io; simplify_eq/=; [|done]. right. right. eexists. cbn. rewrite lookup_insert_eq. split; [reflexivity|by left].
  - destruct Hs as [?| ->]; [done|by left].
  - left. left. apply not_elem_of_nil.
  - destruct (Htodo d' ltac:(apply list_elem_of_here)) as [_ Hd'].
    rewrite bit_ok in Hp by lia. simplify_eq/=. rewrite land_pow2_zero in Hs by lia.
    destruct (decide (d = d')) as [->|Hne].
    + destruct (Z.eqb_spec d' bsp); [by left; right|].
      destruct (Z.testbit (timer_mask (shared y)) d') eqn:E; [right; by left|]. cbn in Hs. tauto.
    + left. rewrite not_elem_of_cons. case_match; cbn in Hs; tauto.
  - destruct io; simplify_eq/=; [|done]. destruct (decide (d = d')) as [->|Hne].
    + right. right. cbn. rewrite lookup_alter_eq. destruct (Htodo d' ltac:(apply list_elem_of_here)) as [[v Hv] _].
      destruct (decide (d' = bsp)) as [->|Hn]; [rewrite lookup_insert_eq|rewrite lookup_insert_ne, Hv by congruence];
        eexists; (split; [reflexivity|by left]).
    + left. tauto.
  - by left.
Qed.

Lemma gate_move u u' s s' e b b' :
  0 ≤ bsp → prog u = Bsp b → prog u' = Bsp b' → move bsp u s u' e s' → b' = BGate →
  (b = BGate → Z.testbit (timer_mask s) bsp = true ∨ handler u = HBit) →
  Z.testbit (timer_mask s') bsp = true ∨ handler u' = HBit.
Proof.
  intros H0 Hb Hb' Hm -> Hg. destruct Hm as [flag io p e s' Hh Ho Hp|Hh Hi|h s' Hh|Ha].
  - rewrite prog_own in Hb'. cbn in Hb'. subst p. rewrite Hb in Hp. cbn [program_step] in Hp.
    destruct b as [| | | |[]|[|d' l]|d' l| | | | |]; cbn in Hp; repeat case_match; simplify_eq/=. by right.
  - by right.
  - cbn in Hb'. rewrite Hb in Hb'. simplify_eq. destruct (handler u) eqn:E; cbn in Hh; simplify_eq/=.
    + by destruct (Hg eq_refl); [left|].
    + left. by apply Phases.or_bit_same.
    + by destruct (Hg eq_refl); [left|].
  - cbn in Hb'. rewrite Hb in Hb'. simplify_eq. cbn. by apply Hg.
Qed.

(** The other facts about a position of the boot processor. *)
Lemma position_move u u' s s' e b b' :
  0 ≤ bsp < 64 → prog u = Bsp b → prog u' = Bsp b' → move bsp u s u' e s' → b ≠ BRefuse →
  (b = BGate → Z.testbit (timer_mask s) bsp = true ∨ handler u = HBit) →
  (∀ c, c ∈ todo b → c ∈ ids) → (∀ x, b = BStop x ∨ b = BArm (TFail x) → apic_error x) →
  b' ≠ BRefuse ∧ (∀ c, c ∈ todo b' → c ∈ ids) ∧
  (b' = BOk → b = BOk ∨ Phases.contains (timer_mask s') full = true) ∧
  (∀ x, b' = BStop x ∨ b' = BArm (TFail x) → apic_error x).
Proof.
  intros H0 Hb Hb' Hm Hr Hg Ht He. destruct Hm as [flag io p e s' Hh Ho Hp|Hh Hi|h s' Hh|Ha];
    [|cbn in Hb'; rewrite Hb in Hb'; simplify_eq; auto..].
  rewrite prog_own in Hb'. cbn in Hb'. subst p. rewrite Hb in Hp. cbn [program_step] in Hp.
  assert (∀ x, x ∈ @nil Z → x ∈ ids) as Hnil by (intros x Hx; by apply not_elem_of_nil in Hx).
  destruct b as [| | | |[]|[|d' l]|d' l| | | | |]; cbn in Hp; simplify_eq; cbn [todo] in *;
    try (split_and!; [congruence|done|congruence|by intros x [?|?]]).
  - destruct (Hg eq_refl) as [Hbit|?]; [|congruence]. rewrite land_bit_zero, Hbit by lia.
    split_and!; [done..|by intros x [?|?]].
  - destruct io; simplify_eq; (split_and!; [congruence|done|congruence|]); intros x [?|?]; by simplify_eq.
  - destruct flag; (split_and!; [congruence|done|congruence|by intros x [?|?]]).
  - rewrite bit_ok in Hp by lia. simplify_eq. destruct (_ =? 0); (split_and!; [congruence|done|congruence|by intros x [?|?]]).
  - destruct io; simplify_eq; (split_and!; [congruence|done|congruence|]); intros x [?|?]; by simplify_eq.
  - split_and!; [congruence|done|congruence|]. intros x [[= <-]|?]; [|done]. apply He. by right.
  - pose proof (ids_small d' (Ht d' ltac:(apply list_elem_of_here))). rewrite bit_ok in Hp by lia. simplify_eq.
    case_match; (split_and!; [congruence| |congruence|by intros x [?|?]]); intros x Hx; apply Ht; [done|by right].
  - assert (∀ x, x ∈ l → x ∈ ids) by (intros x Hx; apply Ht; by right).
    destruct io; simplify_eq; (split_and!; [congruence|done|congruence|]); intros x [?|?]; by simplify_eq.
  - destruct (Phases.contains (timer_mask s') full) eqn:E; [|destruct flag]; (split_and!; [done..|first [done | by intros _; right]|by intros x [?|?]]).
  - split_and!; auto.
  - split_and!; auto.
Qed.

Lemma count_alter f g c (w : gmap Z Cpu) :
  (∀ u, f (g u) = f u) → count f (alter g c w) = count f w.
Proof.
  intros Hf. destruct (w !! c) as [u|] eqn:E.
  - assert (alter g c w = <[c := g u]> w) as ->.
    { apply map_eq. intros d. destruct (decide (c = d)) as [<-|Hne].
      - by rewrite lookup_alter_eq, E, lookup_insert_eq.
      - by rewrite lookup_alter_ne, lookup_insert_ne. }
    rewrite (count_update f w c u _ E), Hf. lia.
  - by rewrite alter_id' by done.
Qed.

Lemma deliver_dom e w c : is_Some (deliver e w !! c) ↔ is_Some (w !! c).
Proof. rewrite deliver_lookup. apply fmap_is_Some. Qed.

Lemma deliver_prog e w c u :
  deliver e w !! c = Some u → ∃ v, w !! c = Some v ∧ prog u = prog v ∧ handler u = handler v.
Proof.
  rewrite deliver_lookup. intros (v & -> & Hv)%fmap_Some. exists v. destruct (decide _); by subst.
Qed.

Lemma inv_mask y c u u' e s' :
  Inv y → cpus y !! c = Some u → move c u (shared y) u' e s' →
  0 ≤ timer_mask s' ∧ ∀ d, 0 ≤ d → Z.testbit (timer_mask s') d = true → d ∈ ids.
Proof.
  intros HI Hc Hm. pose proof (i_mask _ _ _ HI) as H0. pose proof (i_known _ _ _ HI) as Hk.
  assert (c ∈ ids) as Hin by (apply (i_dom _ _ _ HI); eauto).
  pose proof (ids_small c Hin). destruct (move_mask _ _ _ _ _ _ Hm) as [->|[->|[-> _]]]; [done| |].
  - split; [unfold Phases.or_bit; rewrite Z.shiftl_1_l; apply Z.lor_nonneg; lia|].
    intros d Hd. destruct (decide (d = c)) as [->|Hne]; [done|].
    rewrite Phases.or_bit_other by lia. by apply Hk.
  - split; [done|]. intros d _. by rewrite Z.testbit_0_l.
Qed.

Lemma inv_fallbacks y c u u' e s' :
  Inv y → length ids < 2 ^ 32 → cpus y !! c = Some u → move c u (shared y) u' e s' →
  0 ≤ fallbacks s' ∧ fallbacks s' + count may (deliver e (<[c := u']> (cpus y))) ≤ length ids.
Proof.
  intros HI Hl Hc Hm. destruct (i_fallbacks _ _ _ HI) as [H0 H1].
  assert (count may (deliver e (<[c := u']> (cpus y))) = count may (<[c := u']> (cpus y))) as ->
    by (destruct e; try done; by apply count_alter).
  rewrite (count_update _ _ _ _ _ Hc).
  assert (0 ≤ count may (cpus y)) by (apply count_nonneg; intros v; unfold may; repeat case_match; cbn; unfold may_arm; repeat case_match; lia).
  destruct (move_fallbacks _ _ _ _ _ _ Hm) as [[-> ?]|(-> & ? & ?)]; [lia|].
  unfold Phases.add1. rewrite wrap_small by lia. lia.
Qed.

(** The boot processor's own step. *)
Lemma inv_bsp_self y u u' e s' :
  Inv y → cpus y !! bsp = Some u → move bsp u (shared y) u' e s' →
  let y' := MkSystem s' (deliver e (<[bsp := u']> (cpus y))) in
  ∃ b v, cpus y' !! bsp = Some v ∧ prog v = Bsp b ∧ b ≠ BRefuse ∧
    (b = BGate → Z.testbit (timer_mask s') bsp = true ∨ handler v = HBit) ∧
    (∀ c, c ∈ ids → settled bsp b c → covered y' c) ∧ (∀ c, c ∈ todo b → c ∈ ids) ∧
    (b = BOk → ∀ c, c ∈ ids → Z.testbit (timer_mask s') c = true) ∧
    (∀ e, b = BStop e ∨ b = BArm (TFail e) → apic_error e).
Proof.
  intros HI Hu Hm y'. pose proof (ids_small bsp bsp_listed) as H0.
  destruct (i_bsp _ _ _ HI) as (b & ? & Hu' & Hb & Hr & Hg & Hs & Ht & Hok & He). simplify_eq.
  pose proof (move_kind _ _ _ _ _ _ Hm) as Hk. rewrite Hb in Hk. destruct Hk as [b' Hb'].
  destruct (position_move _ _ _ _ _ _ _ ltac:(lia) Hb Hb' Hm Hr Hg Ht He) as (Hr' & Ht' & Hok' & He').
  assert (∃ v, cpus y' !! bsp = Some v ∧ prog v = prog u' ∧ handler v = handler u') as (v & Hv & Ev & Eh).
  { destruct (cpus y' !! bsp) as [v|] eqn:E.
    - destruct (deliver_prog _ _ _ _ E) as (w & Hw & ? & ?). rewrite lookup_insert_eq in Hw. simplify_eq. eauto.
    - exfalso. apply (eq_None_not_Some (cpus y' !! bsp)) in E. apply E. cbn. rewrite deliver_dom, lookup_insert_eq. eauto. }
  exists b', v. rewrite Ev, Eh. split_and!; [done..| | |done| |done].
  - intros Heq. apply (gate_move u u' (shared y) s' e b b'); [lia|assumption..].
  - intros d Hd Hsd. pose proof (ids_small d Hd).
    destruct (settled_move y u u' e s' b b' d) as [Hold|Hcov]; [lia|done| |done..| |exact Hcov].
    + intros x Hx%Ht. split; [by apply (i_dom _ _ _ HI)|by apply ids_small].
    + apply covered_move with u; [lia..|done|done| | |by apply Hs]; rewrite Hb; intros [=->]; done.
  - intros Heq c Hc. pose proof (ids_small c Hc).
    destruct (Hok' Heq) as [->|Hcon]; [|by eapply Phases.contains_bit, full_bits; [exact Hcon|lia|]].
    destruct (move_mask _ _ _ _ _ _ Hm) as [->|[->|[_ [?|?]]]]; [by apply Hok| |congruence..].
    apply Phases.or_bit_grows; [lia..|by apply Hok].
Qed.

(** A step of another processor. *)
Lemma inv_bsp_other y c u u' e s' :
  Inv y → c ≠ bsp → cpus y !! c = Some u → move c u (shared y) u' e s' →
  let y' := MkSystem s' (deliver e (<[c := u']> (cpus y))) in
  ∃ b v, cpus y' !! bsp = Some v ∧ prog v = Bsp b ∧ b ≠ BRefuse ∧
    (b = BGate → Z.testbit (timer_mask s') bsp = true ∨ handler v = HBit) ∧
    (∀ c, c ∈ ids → settled bsp b c → covered y' c) ∧ (∀ c, c ∈ todo b → c ∈ ids) ∧
    (b = BOk → ∀ c, c ∈ ids → Z.testbit (timer_mask s') c = true) ∧
    (∀ e, b = BStop e ∨ b = BArm (TFail e) → apic_error e).
Proof.
  intros HI Hne Hc Hm y'. pose proof (ids_small bsp bsp_listed) as H0.
  assert (c ∈ ids) as Hin by (apply (i_dom _ _ _ HI); eauto). pose proof (ids_small c Hin) as Hc0.
  destruct (i_bsp _ _ _ HI) as (b & v & Hv & Hb & Hr & Hg & Hs & Ht & Hok & He).
  destruct (i_kind _ _ _ HI c u Hc Hne) as [p Hp].
  assert (∀ d, 0 ≤ d → Z.testbit (timer_mask (shared y)) d = true → Z.testbit (timer_mask s') d = true) as Hmono.
  { intros d Hd Hbit. destruct (move_mask _ _ _ _ _ _ Hm) as [->|[->|[_ [?|?]]]]; [done| |congruence..].
    apply Phases.or_bit_grows; [lia..|done]. }
  assert (∃ v', cpus y' !! bsp = Some v' ∧ prog v' = prog v ∧ handler v' = handler v) as (v' & Hv' & Ep & Eh).
  { cbn. rewrite deliver_lookup, lookup_insert_ne, Hv by done. eexists. split; [reflexivity|]. by destruct (decide _). }
  exists b, v'. rewrite Ep, Eh. split_and!; [done..| | |done| |done].
  - intros Heq. destruct (Hg Heq); [left; apply Hmono; [lia|done]|by right].
  - intros d Hd Hsd. pose proof (ids_small d Hd).
    apply covered_move with u; [lia..|done|done|congruence|congruence|by apply Hs].
  - intros Heq d Hd. pose proof (ids_small d Hd). apply Hmono; [lia|by apply Hok].
Qed.

Lemma inv_step y y' : length ids < 2 ^ 32 → Inv y → step y y' → Inv y'.
Proof.
  intros Hl HI (c & u & u' & e & Hc & Hy' & Hm)%step_move. destruct y' as [s' w]. cbn in Hy', Hm. subst w.
  destruct (inv_mask _ _ _ _ _ _ HI Hc Hm) as [Hm0 Hmk].
  split; cbn [shared cpus]; [| |done|done|by eapply inv_fallbacks|].
  - intros d. rewrite deliver_dom, <- (i_dom _ _ _ HI). destruct (decide (d = c)) as [->|Hne].
    + rewrite lookup_insert_eq, Hc. split; eauto.
    + by rewrite lookup_insert_ne.
  - intros d v (v' & Hv & -> & _)%deliver_prog Hne. destruct (decide (d = c)) as [->|Hn].
    + rewrite lookup_insert_eq in Hv. simplify_eq. pose proof (move_kind _ _ _ _ _ _ Hm) as Hk.
      destruct (i_kind _ _ _ HI c u Hc Hne) as [p Hp]. by rewrite Hp in Hk.
    + rewrite lookup_insert_ne in Hv by done. by apply (i_kind _ _ _ HI d v').
  - destruct (decide (c = bsp)) as [->|Hne]; [by eapply inv_bsp_self|by eapply inv_bsp_other].
Qed.

Lemma started_lookup c u :
  NoDup ids → cpus (started bsp ids) !! c = Some u ↔
  c ∈ ids ∧ u = MkCpu (if c =? bsp then Bsp BClear1 else Ap TArm) false false HNone.
Proof.
  intros Hnd. cbn. rewrite <- elem_of_list_to_map.
  - rewrite list_elem_of_fmap. split; [by intros (x & [= -> ->] & ?)|intros [? ->]; eauto].
  - rewrite <- list_fmap_compose. by apply NoDup_fmap_2; [intros ? ?|].
Qed.

Lemma inv_started : NoDup ids → Inv (started bsp ids).
Proof.
  intros Hnd. pose proof (λ c u, started_lookup c u Hnd) as HL. split.
  - intros c. split; [by intros [u [? _]%HL]|]. intros Hc. eexists. apply HL. done.
  - intros c u [Hc ->]%HL Hne. cbn. rewrite (proj2 (Z.eqb_neq _ _) Hne). eauto.
  - done.
  - intros c _. cbn. by rewrite Z.testbit_0_l.
  - split; [done|]. rewrite (count_all may _ 1).
    + cbn [shared started fallbacks cpus]. rewrite map_size_list_to_map, length_fmap; [lia|].
      rewrite <- list_fmap_compose. by apply NoDup_fmap_2; [intros ? ?|].
    + intros c u [_ ->]%HL. unfold may. cbn. by destruct (c =? bsp).
  - exists BClear1, (MkCpu (Bsp BClear1) false false HNone). split_and!; try done.
    + apply HL. by rewrite Z.eqb_refl.
    + intros c Hc. by apply not_elem_of_nil in Hc.
    + by intros e [?|?].
Qed.

Lemma inv_rtc y y' : length ids < 2 ^ 32 → Inv y → rtc step y y' → Inv y'.
Proof. intros Hl HI. induction 1 as [|x y z Hs _ IH]; [done|]. apply IH. by eapply inv_step. Qed.

(** Steps of interrupts alone: the programs stand still, the mask grows. *)
Definition quiet (y y' : system) : Prop :=
  rtc step y y' ∧ (∀ c, prog <$> cpus y' !! c = prog <$> cpus y !! c) ∧
  ∀ c, 0 ≤ c → Z.testbit (timer_mask (shared y)) c = true → Z.testbit (timer_mask (shared y')) c = true.

#[local] Instance quiet_refl : Reflexive quiet.
Proof. intros y. split_and!; [apply rtc_refl|done|done]. Qed.

#[local] Instance quiet_trans : Transitive quiet.
Proof.
  intros x y z (R1 & P1 & M1) (R2 & P2 & M2). split_and!; [by etrans| |auto].
  intros c. by rewrite P2, P1.
Qed.

Lemma prog_insert (w : gmap Z Cpu) c u a i h d :
  w !! c = Some u → prog <$> <[c := MkCpu (prog u) a i h]> w !! d = prog <$> w !! d.
Proof.
  intros Hc. destruct (decide (d = c)) as [->|Hne].
  - by rewrite lookup_insert_eq, Hc.
  - by rewrite lookup_insert_ne.
Qed.

(** A handler runs to its end. *)
Lemma drain_handler y c u :
  0 ≤ c → cpus y !! c = Some u → ∃ y', quiet y y' ∧
    cpus y' !! c = Some (MkCpu (prog u) (armed u) (irr u) HNone) ∧
    (handler u = HBit → Z.testbit (timer_mask (shared y')) c = true).
Proof.
  intros Hc0 Hc.
  assert (∀ y u, cpus y !! c = Some u → handler u = HEoi → ∃ y', quiet y y' ∧
    cpus y' !! c = Some (MkCpu (prog u) (armed u) (irr u) HNone) ∧ shared y' = shared y) as Heoi.
  { clear y u Hc. intros y u Hc Hh. eexists (MkSystem (shared y) _). split_and!;
      [split_and!; [apply rtc_once, (step_handler _ _ _ _ y c u HNone (shared y)); [done|by rewrite Hh]| |done]|apply lookup_insert_eq|done].
    intros d. by apply prog_insert. }
  destruct (handler u) eqn:Hh.
  - exists y. split_and!; [done| |done]. rewrite Hc. destruct u. by cbn in Hh |- *; subst.
  - set (y1 := MkSystem (MkShared (Phases.or_bit c (timer_mask (shared y))) (fallbacks (shared y)))
      (<[c := MkCpu (prog u) (armed u) (irr u) HEoi]> (cpus y))).
    assert (quiet y y1) as Q1.
    { split_and!; [apply rtc_once, (step_handler _ _ _ _ y c u HEoi); [done|by rewrite Hh]| |].
      - intros d. by apply prog_insert.
      - intros d Hd Hb. by apply Phases.or_bit_grows. }
    destruct (Heoi y1 (MkCpu (prog u) (armed u) (irr u) HEoi)) as (y2 & Q2 & E2 & S2);
      [apply lookup_insert_eq|done|].
    exists y2. split_and!; [by etrans|done|]. intros _. rewrite S2. by apply Phases.or_bit_same.
  - destruct (Heoi y u Hc Hh) as (y2 & Q2 & E2 & _). exists y2. by split_and!.
Qed.

(** What is covered comes to be set. *)
Lemma settle y c : 0 ≤ c → covered y c → ∃ y', quiet y y' ∧ Z.testbit (timer_mask (shared y')) c = true.
Proof.
  intros Hc0 [Hb|(u & Hu & Hcov)]; [by exists y|].
  destruct (drain_handler y c u Hc0 Hu) as (y1 & Q1 & E1 & B1).
  destruct Hcov as [Hi|Hh]; [|by exists y1; auto].
  set (y2 := MkSystem (shared y1) (<[c := MkCpu (prog u) (armed u) false HBit]> (cpus y1))).
  assert (quiet y1 y2) as Q2.
  { split_and!; [|intros d; by apply (prog_insert (cpus y1) c (MkCpu (prog u) (armed u) (irr u) HNone))|done].
    apply rtc_once, (step_accept _ _ _ _ y1 c (MkCpu (prog u) (armed u) (irr u) HNone)); [exact E1|done|done]. }
  destruct (drain_handler y2 c _ Hc0 (lookup_insert_eq _ _ _)) as (y3 & Q3 & _ & B3).
  exists y3. split; [by etrans; [|etrans]|by apply B3].
Qed.

Lemma quiet_position y y' : quiet y y' → position bsp y' = position bsp y.
Proof.
  intros (_ & P & _). specialize (P bsp). unfold position.
  destruct (cpus y !! bsp) as [[p ? ? ?]|], (cpus y' !! bsp) as [[p' ? ? ?]|]; cbn in P; by simplify_eq.
Qed.

(** At the wait, the interrupts under way fill the mask. *)
Lemma settle_all y (l : list Z) :
  length ids < 2 ^ 32 → Inv y → position bsp y = Some BWait → (∀ c, c ∈ l → c ∈ ids) →
  ∃ y', quiet y y' ∧ ∀ c, c ∈ l → Z.testbit (timer_mask (shared y')) c = true.
Proof.
  intros Hl HI Hp. induction l as [|c l IH]; intros Hin.
  { exists y. split; [done|]. intros c Hc. by apply not_elem_of_nil in Hc. }
  destruct IH as (y1 & Q1 & B1); [intros d Hd; apply Hin; by right|].
  assert (c ∈ ids) as Hc by (apply Hin; by left). pose proof (ids_small c Hc).
  pose proof (inv_rtc _ _ Hl HI (proj1 Q1)) as HI1. rewrite <- (quiet_position _ _ Q1) in Hp.
  apply position_lookup in Hp as (u & Hu & Hup).
  destruct (i_bsp _ _ _ HI1) as (b & v & Hv & Hb & _ & _ & Hs & _).
  assert (b = BWait) as -> by congruence.
  destruct (settle y1 c ltac:(lia) (Hs c Hc I)) as (y2 & Q2 & B2).
  exists y2. split; [by etrans|]. intros d [->|Hd]%elem_of_cons; [done|].
  assert (d ∈ ids) as Hd' by (apply Hin; by right). pose proof (ids_small d Hd').
  apply Q2; [lia|by apply B1].
Qed.

(** How far the boot processor is from its wait. *)
Definition rank (b : bsp_pc) : nat :=
  match b with
  | BClear1 => 12 + 2 * length ids
  | BInt => 11 + 2 * length ids
  | BGate => 10 + 2 * length ids
  | BClear2 => 9 + 2 * length ids
  | BArm TArm => 8 + 2 * length ids
  | BArm TSpin => 7 + 2 * length ids
  | BArm TLoad => 6 + 2 * length ids
  | BArm TCount => 5 + 2 * length ids
  | BArm TSelf => 4 + 2 * length ids
  | BArm TIdle => 3 + 2 * length ids
  | BEach l => 2 + 2 * length l
  | BSend _ l => 3 + 2 * length l
  | _ => 0
  end.

(** With the driver calls successful it comes closer at every access. *)
Lemma bsp_advance y b u :
  cpus y !! bsp = Some u → prog u = Bsp b → handler u = HNone → rank b ≠ 0%nat → (∀ c, c ∈ todo b → c ∈ ids) →
  ∃ y' b', step y y' ∧ position bsp y' = Some b' ∧ (rank b' < rank b)%nat ∧ gave_up b' = false.
Proof.
  intros Hu Hb Hh Hr Ht. pose proof (ids_small bsp bsp_listed) as H0.
  destruct (program_step bsp ids full true Sent bsp (prog u) (shared y)) as [[p e] s] eqn:E.
  pose proof (step_program bsp ids full fires y bsp u true Sent p e s Hu Hh I E) as Hs.
  rewrite Hb in E. cbn [program_step] in E.
  destruct (bsp_step true Sent bsp ids full b (shared y)) as [[b' e'] s'] eqn:Eb. simplify_eq.
  eexists _, b'. split; [exact Hs|split].
  - apply position_lookup. cbn [cpus]. rewrite deliver_lookup, lookup_insert_eq.
    eexists. split; [reflexivity|]. by destruct (decide _), e.
  - destruct b as [| | | |[]|[|d' l]|d' l| | | | |]; cbn in Eb, Hr; try done;
      try (pose proof (ids_small d' (Ht d' ltac:(apply list_elem_of_here))));
      rewrite ?bit_ok in Eb by lia; repeat case_match; simplify_eq; cbn; (split; [lia|done]).
Qed.

(** The boot processor gets to its wait. *)
Lemma reaches_wait n y b :
  length ids < 2 ^ 32 → Inv y → position bsp y = Some b → (rank b < n)%nat → gave_up b = false →
  ∃ y', rtc step y y' ∧ (position bsp y' = Some BWait ∨ position bsp y' = Some BOk).
Proof.
  intros Hl. revert y b. induction n as [|n IH]; intros y b HI Hp Hn Ht; [lia|].
  pose proof (i_bsp _ _ _ HI) as (b' & u & Hu & Hb & Hr & _ & _ & Htodo & _).
  assert (b = b') as <- by (apply position_lookup in Hp as (? & ? & ?); congruence).
  destruct (decide (rank b = 0%nat)) as [H0|H0].
  - exists y. split; [apply rtc_refl|].
    destruct b as [| | | |[]| | | | | | |]; cbn in H0, Ht; try lia; try done; tauto.
  - destruct (drain_handler y bsp u ltac:(apply ids_small; done) Hu) as (y1 & Q1 & E1 & _).
    destruct (bsp_advance y1 b _ E1 Hb eq_refl H0 Htodo) as (y2 & b2 & S2 & P2 & R2 & T2).
    assert (rtc step y y2) as R by (etrans; [exact (proj1 Q1)|by apply rtc_once]).
    destruct (IH y2 b2 (inv_rtc _ _ Hl HI R) P2 ltac:(lia) T2) as (y3 & R3 & W3).
    exists y3. split; [by etrans|done].
Qed.

(** From its wait it gets to the end. *)
Lemma wait_ends y :
  length ids < 2 ^ 32 → 0 ≤ full → Inv y → position bsp y = Some BWait →
  ∃ y', rtc step y y' ∧ position bsp y' = Some BOk.
Proof.
  intros Hl Hf HI Hp. destruct (settle_all y ids Hl HI Hp ltac:(done)) as (y1 & Q1 & B1).
  rewrite <- (quiet_position _ _ Q1) in Hp. apply position_lookup in Hp as (u & Hu & Hb).
  destruct (drain_handler y1 bsp u ltac:(apply ids_small; done) Hu) as (y2 & Q2 & E2 & _).
  assert (Phases.contains (timer_mask (shared y2)) full = true) as Hc.
  { unfold Phases.contains. apply Z.eqb_eq, Z.bits_inj'. intros i Hi. rewrite Z.land_spec.
    destruct (Z.testbit full i) eqn:E; [|apply andb_false_r]. apply full_bits in E; [|done].
    apply andb_true_iff. split; [|done]. apply Q2; [done|by apply B1]. }
  eexists. split.
  - etrans; [exact (proj1 Q1)|]. etrans; [exact (proj1 Q2)|]. apply rtc_once.
    eapply (step_program bsp ids full fires y2 bsp _ false Sent (Bsp BOk) Nothing (shared y2) E2); [done|done|].
    cbn [prog]. rewrite Hb. cbn. by rewrite Hc.
  - apply position_lookup. cbn. rewrite lookup_insert_eq. eauto.
Qed.
End proofs.

(** What the admission checks give, and the invariant of every reachable state. *)
Lemma timers_inv (bsp : Z) (ids : list Z) (full : Z) (fires : Z → bool) (y : system) :
  (∀ c, c ∈ ids → u32 c) → bsp ∈ ids → expected_mask ids = Ok full →
  rtc (step bsp ids full fires) (started bsp ids) y →
  Inv bsp ids y ∧ (∀ c, c ∈ ids → 0 ≤ c < 64) ∧ 0 ≤ full ∧
  (∀ c, 0 ≤ c → Z.testbit full c = true ↔ c ∈ ids) ∧ length ids < 2 ^ 32.
Proof.
  intros Hu Hbsp Hfull R. destruct (expected_mask_Ok ids full Hu Hfull) as (Hnd & H64 & Hf0 & Hbits).
  assert (∀ c, c ∈ ids → 0 ≤ c < 64) as Hsmall.
  { intros c Hc. pose proof (H64 c Hc). pose proof (Hu c Hc). ulia. }
  assert (length ids < 2 ^ 32) as Hl.
  { pose proof (Bringup.small_ids ids Hnd Hsmall). lia. }
  split_and!; [|done..]. eapply inv_rtc; eauto using inv_started.
Qed.

Lemma timers_full bsp ids full y :
  Inv bsp ids y → 0 ≤ full → (∀ c, 0 ≤ c → Z.testbit full c = true ↔ c ∈ ids) →
  position bsp y = Some BOk → timer_mask (shared y) = full.
Proof.
  intros HI Hf Hbits (v & Hv & Hvb)%position_lookup.
  destruct (i_bsp _ _ _ HI) as (b & u & Hbu & Hb & _ & _ & _ & _ & Hok & _). assert (b = BOk) as -> by congruence.
  apply Z.bits_inj'. intros i Hi. apply eq_bool_prop_intro. rewrite !Is_true_true.
  rewrite (Hbits i Hi). split; [by apply (i_known _ _ _ HI)|by apply Hok].
Qed.

Lemma fallbacks_bound bsp ids y : Inv bsp ids y → 0 ≤ fallbacks (shared y) ≤ length ids.
Proof.
  intros HI. pose proof (i_fallbacks _ _ _ HI).
  pose proof (count_nonneg may (cpus y) ltac:(intros v; unfold may; repeat case_match; cbn; unfold may_arm; repeat case_match; lia)).
  lia.
Qed.

(** C14. The timers of all processors are accounted for, whether or not the deadline timers
    of some work, however processors and interrupts interleave, and whichever accesses to
    their APICs fail: the test of the gate never fails, [run] goes on only with exactly the
    online processors in the mask, and the fallback counter never exceeds their number.
    [run] stops here only when its wait ends in vain or when its own APIC driver fails, and
    then with the driver's error; as long as neither has happened the end can be reached, even
    if other processors have failed to arm: a bit that the boot processor clears too late is
    set again. *)
Theorem timers_complete (bsp : Z) (ids : list Z) (full : Z) (fires : Z → bool) (y : system) :
  (∀ c, c ∈ ids → u32 c) → bsp ∈ ids → expected_mask ids = Ok full →
  rtc (step bsp ids full fires) (started bsp ids) y →
  0 ≤ fallbacks (shared y) ≤ length ids ∧
  ∃ b, position bsp y = Some b ∧ b ≠ BRefuse ∧
    (∀ e, b = BStop e → apic_error e) ∧
    (b = BOk → timer_mask (shared y) = full) ∧
    (gave_up b = false → ∃ y', rtc (step bsp ids full fires) y y' ∧ position bsp y' = Some BOk).
Proof.
  intros Hu Hbsp Hfull R.
  destruct (timers_inv bsp ids full fires y Hu Hbsp Hfull R) as (HI & Hsmall & Hf0 & Hbits & Hl).
  split; [apply (fallbacks_bound _ _ _ HI)|].
  destruct (i_bsp _ _ _ HI) as (b & u & Hbu & Hb & Hr & _ & _ & _ & Hok & He).
  assert (position bsp y = Some b) as Hp by (apply (proj2 (position_lookup bsp y b)); eauto).
  exists b. split_and!; [done..| | |].
  - intros e Hbe. apply He. by left.
  - intros ->. by apply (timers_full bsp ids).
  - intros Ht. destruct (reaches_wait bsp ids full fires Hsmall Hbsp Hbits (S (rank ids b)) y b) as (y1 & R1 & [W|W]);
      [done|done|done|lia|done| |by eauto].
    destruct (wait_ends bsp ids full fires Hsmall Hbsp Hbits y1) as (y2 & R2 & W2); [done|done| |done|].
    + eapply inv_rtc; [done..|exact HI|exact R1].
    + exists y2. split; [by etrans|done].
Qed.

(** ** A run, step by step *)

Inductive action : Type := Run (c : Z) (flag : bool) | Accept (c : Z) | Handle (c : Z) | Fire (c : Z).

Definition perform (bsp : Z) (ids : list Z) (full : Z) (fires : Z → bool) (a : action) (y : system)
    : option system :=
  match a with
  | Run c flag =>
    match cpus y !! c with
    | Some (MkCpu p a i HNone) =>
      let '(p, e, s) := program_step bsp ids full flag Sent c p (shared y) in
      Some (MkSystem s (deliver e (<[c := own e (MkCpu p a i HNone)]> (cpus y))))
    | _ => None
    end
  | Accept c =>
    match cpus y !! c with
    | Some (MkCpu p a true HNone) => Some (MkSystem (shared y) (<[c := MkCpu p a false HBit]> (cpus y)))
    | _ => None
    end
  | Handle c =>
    match cpus y !! c with
    | Some (MkCpu p a i h) =>
      let '(h, s) := handler_step c h (shared y) in Some (MkSystem s (<[c := MkCpu p a i h]> (cpus y)))
    | None => None
    end
  | Fire c =>
    match cpus y !! c with
    | Some (MkCpu p true i h) =>
      if fires c then Some (MkSystem (shared y) (<[c := MkCpu p false true h]> (cpus y))) else None
    | _ => None
    end
  end.

Fixpoint perform_all (bsp : Z) (ids : list Z) (full : Z) (fires : Z → bool) (l : list action) (y : system)
    : option system :=
  match l with
  | [] => Some y
  | a :: l => y ← perform bsp ids full fires a y; perform_all bsp ids full fires l y
  end.

Lemma perform_step bsp ids full fires a y y' :
  perform bsp ids full fires a y = Some y' → step bsp ids full fires y y'.
Proof.
  destruct a as [c flag|c|c|c]; cbn; destruct (cpus y !! c) as [[p ar i h]|] eqn:E; try done.
  - destruct h; try done. destruct (program_step _ _ _ _ _ _ _ _) as [[p' e] s] eqn:Ep. intros [= <-].
    exact (step_program _ _ _ _ y c _ flag Sent p' e s E eq_refl I Ep).
  - destruct i, h; try done. intros [= <-]. exact (step_accept _ _ _ _ y c _ E eq_refl eq_refl).
  - destruct (handler_step c h (shared y)) as [h' s] eqn:Eh. intros [= <-].
    exact (step_handler _ _ _ _ y c _ h' s E Eh).
  - destruct ar; [|done]. destruct (fires c) eqn:Ef; [|done]. intros [= <-].
    exact (step_deadline _ _ _ _ y c _ E eq_refl Ef).
Qed.

Lemma perform_all_rtc bsp ids full fires l y y' :
  perform_all bsp ids full fires l y = Some y' → rtc (step bsp ids full fires) y y'.
Proof.
  revert y. induction l as [|a l IH]; intros y; cbn; [intros [= ->]; apply rtc_refl|].
  intros (y1 & E & H)%bind_Some. eapply rtc_l; [by eapply perform_step|by apply IH].
Qed.

(** The other processor is slow: the boot processor sends it the interrupt before it has
    armed its timer. *)
Definition slow : list action :=
  [Run 1 true; Run 1 true; Handle 1; Handle 1; Run 1 true; Run 1 true; Run 1 true; Fire 1; Accept 1; Handle 1;
   Handle 1; Run 1 true; Run 1 true; Run 1 true; Run 1 true; Run 1 true; Run 1 true; Run 1 true;
   Accept 0; Handle 0; Handle 0; Run 1 true; Run 0 true; Run 0 true; Run 0 true].

(** The interrupt the boot processor sends in place of a missing timer is not counted: two
    processors, the timer of one of them dead, end with both in the mask, both done, and no
    fallback. *)
Theorem fallbacks_undercounted :
  ∃ y, rtc (step 1 [0; 1] 3 (λ c, c =? 1)) (started 1 [0; 1]) y ∧
    position 1 y = Some BOk ∧ prog <$> cpus y !! 0 = Some (Ap TIdle) ∧
    timer_mask (shared y) = 3 ∧ fallbacks (shared y) = 0.
Proof.
  destruct (perform_all 1 [0; 1] 3 (λ c, c =? 1) slow (started 1 [0; 1])) as [y|] eqn:E; [|by vm_compute in E].
  exists y. split; [by eapply perform_all_rtc|]. vm_compute in E. injection E as <-. by vm_compute.
Qed.

Lemma timers_complete_witness :
  match perform_all 1 [0; 1] 3 (λ c, c =? 1) slow (started 1 [0; 1]) with
  | Some y => timer_mask (shared y) = 3
  | None => False
  end ∧
  ∃ y, rtc (step 1 [0; 1] 3 (λ _, false)) (started 1 [0; 1]) y ∧ position 1 y = Some BOk.
Proof.
  assert (∀ c, c ∈ [0; 1] → u32 c) as Hu.
  { intros c Hc. repeat (apply elem_of_cons in Hc as [->|Hc]; [ulia|]). destruct (not_elem_of_nil _ Hc). }
  assert (1 ∈ [0; 1]) as H1 by (apply elem_of_cons; right; apply list_elem_of_here).
  split.
  - destruct (perform_all 1 [0; 1] 3 (λ c, c =? 1) slow (started 1 [0; 1])) as [y|] eqn:E; [|vm_compute in E; discriminate].
    destruct (timers_complete 1 [0; 1] 3 (λ c, c =? 1) y Hu H1 eq_refl (perform_all_rtc _ _ _ _ _ _ _ E))
      as (_ & b & Hb & _ & _ & Hok & _).
    apply Hok. vm_compute in E. injection E as <-. vm_compute in Hb. by injection Hb as <-.
  - destruct (timers_complete 1 [0; 1] 3 (λ _, false) (started 1 [0; 1]) Hu H1 eq_refl (rtc_refl _ _))
      as (_ & b & Hb & _ & _ & _ & Hend).
    apply Hend. vm_compute in Hb. by injection Hb as <-.
Defined.
(** ** One processor, access by access

    The machine answers a read with any function of what was done before it; [answer] gets
    the accesses so far, the latest first. *)
Inductive event : Type :=
| ReadReg (address : Z) | WriteReg (address value : Z) | ReadMsr (msr : Z) | WriteMsr (msr value : Z)
| ReadTsc | LoadMask | AddFallback.

(** What changes the machine, in order. *)
Definition changes (e : event) : bool :=
  match e with WriteReg _ _ | WriteMsr _ _ | AddFallback => true | _ => false end.
Definition writes (h : list event) : list event := reverse (List.filter changes h).

(** The fields of the two commands: timer mode, mask bit and vector of the first; destination
    shorthand, delivery mode and vector of the second. *)
Definition lvt_fields (v : Z) : Z * bool * Z := (Z.land (Z.shiftr v 17) 3, Z.testbit v 16, Z.land v 255).
Definition icr_fields (v : Z) : Z * Z * Z := (Z.land (Z.shiftr v 18) 3, delivery v, Z.land v 255).

Section history.
Context (answer : list event → Z) (base : Z).

#[local] Instance trace_regs : MmioRegs (list event) := {
  reg_read width address h := (answer (ReadReg address :: h), ReadReg address :: h);
  reg_write width address value h := WriteReg address value :: h;
}.
#[local] Instance trace_msrs : Msrs (list event) := {
  msr_read msr h := (answer (ReadMsr msr :: h), ReadMsr msr :: h);
  msr_write msr value h := WriteMsr msr value :: h;
}.
#[local] Instance trace_statics : TimerStatics (list event) := {
  rdtsc h := let v := answer (ReadTsc :: h) in (v mod 2 ^ 32, v / 2 ^ 32, ReadTsc :: h);
  load_timer_mask h := (answer (LoadMask :: h), LoadMask :: h);
  add_fallback h := AddFallback :: h;
}.

(** What the processor relies on: an enabled xAPIC whose command register becomes idle, and a
    counter that goes on. *)
Hypothesis base_low : 0 ≤ base < 2 ^ 32.
Hypothesis base_msr : ∀ h, base_value base (answer (ReadMsr APIC_BASE_MSR :: h)).
Hypothesis icr_idle : ∀ h, ∃ n : nat, n < 10000000 ∧
  Z.testbit (poll base (Nat.iter n (λ h, (poll base h).2) h)).1 12 = false.
Hypothesis tsc_width : ∀ h, u64 (answer (ReadTsc :: h)).
Hypothesis tsc_passes : ∀ h d, 0 ≤ d < 2 ^ 63 → ∃ n, d ≤ answer (ReadTsc :: repeat ReadTsc n ++ h).

Fixpoint dest (h : list event) : Z :=
  match h with
  | [] => 0
  | WriteReg a v :: h => if a =? base + APIC_ICR_HIGH then Z.shiftr v 24 else dest h
  | _ :: h => dest h
  end.

Fixpoint commands (h : list event) : list (Z * Z) :=
  match h with
  | [] => []
  | WriteReg a v :: h => if a =? base + APIC_ICR_LOW then commands h ++ [(dest h, v)] else commands h
  | _ :: h => commands h
  end.

(** The polls are all the theorem below needs of the class, so every state counts as idle. *)
#[local] Instance trace_lapic : Lapic (list event).
Proof.
  refine {| window := base; destination := dest; sent := commands; idle _ := True |}; try done.
  - intros w v. cbn. rewrite Z.eqb_refl. split_and!; [done| |done].
    by rewrite (proj2 (Z.eqb_neq _ _)) by (unfold APIC_ICR_HIGH, APIC_ICR_LOW; lia).
  - intros w v _. cbn. rewrite Z.eqb_refl. split; [|done].
    by rewrite (proj2 (Z.eqb_neq _ _)) by (unfold APIC_ICR_HIGH, APIC_ICR_LOW; lia).
Defined.

(** The accesses [m] makes change the machine as [l] says, and it returns. *)
Definition Writes (m : op (list event) PostFirmwareError unit) (l : list event) : Prop :=
  ∀ h, ∃ h', m h = (Ok (), h') ∧ writes h' = writes h ++ l.

Lemma writes_bind m k l1 l2 : Writes m l1 → Writes k l2 → Writes (m;; k) (l1 ++ l2).
Proof.
  intros Hm Hk h. destruct (Hm h) as (h1 & E1 & W1). destruct (Hk h1) as (h2 & E2 & W2).
  exists h2. rewrite (op_bind_run _ _ _ _ _ E1). split; [done|]. by rewrite W2, W1, app_assoc.
Qed.

Lemma writes_snoc e h : changes e = true → writes (e :: h) = writes h ++ [e].
Proof. intros He. unfold writes. cbn [List.filter]. by rewrite He, reverse_cons. Qed.

Lemma writes_read e h : changes e = false → writes (e :: h) = writes h.
Proof. intros He. unfold writes. cbn [List.filter]. by rewrite He. Qed.

Lemma apic_write_writes o v : 0 ≤ o < 4096 → Writes (apic_write o v) [WriteReg (base + o) v].
Proof.
  intros Ho h. rewrite apic_write_run by done. eexists. split; [reflexivity|].
  change (writes (WriteReg (base + o) v :: ReadMsr APIC_BASE_MSR :: h) = writes h ++ [WriteReg (base + o) v]).
  by rewrite writes_snoc, writes_read.
Qed.

(** One turn of [wait_icr]. *)
Definition icr_poll : op (list event) PostFirmwareError (option unit) :=
  low ← apic_read APIC_ICR_LOW; mret (if Z.land low (Z.shiftl 1 12) =? 0 then Some () else None).

Lemma poll_writes n h : writes (for_nat n icr_poll h).2 = writes h.
Proof.
  revert h. induction n as [|n IH]; intros h; [done|]. cbn [for_nat]. unfold mbind, op_bind.
  assert (∃ r, icr_poll h = (Ok r, (poll base h).2)) as [r ->].
  { unfold icr_poll, mbind, op_bind. rewrite apic_read_run. by eexists. }
  assert (writes (poll base h).2 = writes h) as Hp by (change (writes (ReadReg (base + APIC_ICR_LOW) :: ReadMsr APIC_BASE_MSR :: h) = writes h); by rewrite !writes_read).
  destruct r; [exact Hp|]. by rewrite IH.
Qed.

#[local] Opaque for_pos.

Lemma icr_loop_writes n h h' :
  (idle ← for_pos n icr_poll; match idle with Some _ => mret () | None => lift (Err Target.Ipi) end) h = (Ok (), h') →
  writes h' = writes h.
Proof.
  pose proof (poll_writes (Pos.to_nat n) h) as Hw. rewrite <- for_pos_nat in Hw.
  unfold mbind, op_bind. destruct (for_pos n icr_poll h) as [[[|]|e|] h1]; cbn in Hw |- *; [|done..].
  by intros [= <-].
Qed.

Lemma wait_icr_writes : Writes wait_icr [].
Proof.
  intros h. destruct (wait_run h) as (h' & E & _). exists h'. split; [exact E|].
  rewrite app_nil_r. apply (icr_loop_writes 10000000). rewrite <- E. unfold wait_icr, icr_poll. reflexivity.
Qed.

Lemma tsc_join v : u64 v → Z.lor (Z.shiftl (v / 2 ^ 32) 32) (v mod 2 ^ 32) = v.
Proof.
  intros Hv. rewrite Z.lor_comm, Descriptors.lor_shiftl_add by (try lia; apply Z.mod_pos_bound; lia).
  pose proof (Z.div_mod v (2 ^ 32)). lia.
Qed.

(** The counter passes the deadline. *)
Lemma spin_writes d h :
  0 ≤ d < 2 ^ 63 → ∃ n, ∀ fuel, (n ≤ fuel)%nat → ∃ h', spin fuel d h = (Ok (), h') ∧ writes h' = writes h.
Proof.
  intros Hd. destruct (tsc_passes h d Hd) as [n Hn]. exists (S n). revert h Hn.
  induction n as [|n IH]; intros h Hn [|fuel] Hf; try lia; cbn [spin]; unfold mbind, op_bind; cbn [access rdtsc trace_statics];
    rewrite tsc_join by apply tsc_width.
  - cbn in Hn. rewrite (proj2 (Z.leb_le _ _) Hn). eexists. split; [reflexivity|]. by rewrite writes_read.
  - destruct (Z.leb_spec d (answer (ReadTsc :: h))).
    + eexists. split; [reflexivity|]. by rewrite writes_read.
    + destruct (IH (ReadTsc :: h)) with fuel as (h' & E & W); [|lia|].
      * by rewrite (cons_middle ReadTsc), app_assoc, <- repeat_cons.
      * exists h'. split; [exact E|]. by rewrite W, writes_read.
Qed.

Definition LVT_VALUE : Z := Z.lor (Z.shiftl 1 18) TIMER_VECTOR.
Definition ICR_VALUE : Z := Z.lor (Z.shiftl 1 18) TIMER_VECTOR.

(** [arm_timer] programs the timer of its own processor for a deadline 100000 ticks ahead,
    waits until the counter has passed it, and then, exactly when the handler has not recorded
    the processor, counts a fallback and sends the timer vector to itself; a processor with an
    id from 64 on is refused after its timer was programmed. *)
Theorem arm_timer_exact (ebx : Z) (h : list event) :
  u32 ebx → answer (ReadTsc :: h) < 2 ^ 62 →
  let programmed := [WriteReg (base + APIC_TIMER_DIVIDE) 0x0b; WriteReg (base + APIC_TIMER_INITIAL) 0;
                     WriteReg (base + APIC_LVT_TIMER) LVT_VALUE;
                     WriteMsr TSC_DEADLINE_MSR (answer (ReadTsc :: h) + 100000)] in
  lvt_fields LVT_VALUE = (2, false, TIMER_VECTOR) ∧ icr_fields ICR_VALUE = (1, 0, TIMER_VECTOR) ∧
  ∃ n, ∀ fuel, (n ≤ fuel)%nat → ∃ h1 h2,
    writes h1 = writes h ++ programmed ∧
    if Bringup.cpu_id ebx <? 64 then
      arm_timer fuel ebx h = (Ok (), h2) ∧
      writes h2 = writes h1 ++
        if Z.testbit (answer (LoadMask :: h1)) (Bringup.cpu_id ebx) then []
        else [AddFallback; WriteReg (base + APIC_ICR_LOW) ICR_VALUE]
    else arm_timer fuel ebx h = (Err InvalidCpuId, h1).
Proof.
  intros Hu Hnow programmed. split; [done|]. split; [done|].
  set (now := answer (ReadTsc :: h)) in *. pose proof (tsc_width h) as Hw. fold now in Hw.
  assert (0 ≤ Bringup.cpu_id ebx < 256) as Hcpu.
  { unfold Bringup.cpu_id. change 0xff with (Z.ones 8). rewrite Z.land_ones by lia. apply Z.mod_pos_bound. lia. }
  destruct (apic_write_writes APIC_TIMER_DIVIDE 0x0b ltac:(done) (ReadTsc :: h)) as (ha & Ea & Wa).
  destruct (apic_write_writes APIC_TIMER_INITIAL 0 ltac:(done) ha) as (hb & Eb & Wb).
  destruct (apic_write_writes APIC_LVT_TIMER LVT_VALUE ltac:(done) hb) as (hc & Ec & Wc).
  set (hd := WriteMsr TSC_DEADLINE_MSR (now + 100000) :: hc).
  destruct (spin_writes (now + 100000) hd) as [n Hn]; [ulia|].
  exists n. intros fuel Hf. destruct (Hn fuel Hf) as (h1 & E1 & W1).
  assert (writes h1 = writes h ++ programmed) as W.
  { unfold hd in W1. rewrite W1, writes_snoc, Wc, Wb, Wa, writes_read by done. by rewrite <- !app_assoc. }
  assert (arm_timer fuel ebx h = (cpu_bit ← lift (bit (Bringup.cpu_id ebx));
    mask ← access load_timer_mask;
    if Z.land mask cpu_bit =? 0 then
      modify add_fallback;; wait_icr;; apic_write APIC_ICR_LOW ICR_VALUE;; wait_icr
    else mret ()) h1) as ->.
  { assert (access rdtsc h = ((Ok (now mod 2 ^ 32, now / 2 ^ 32) : res PostFirmwareError _), ReadTsc :: h)) as Er by reflexivity.
    assert (wrmsr TSC_DEADLINE_MSR (now + 100000) hc = (Ok (), hd)) as Ew by reflexivity.
    unfold arm_timer. rewrite (op_bind_run _ _ _ _ _ Er).
    rewrite (op_bind_run _ _ _ _ _ Ea), (op_bind_run _ _ _ _ _ Eb), (op_bind_run _ _ _ _ _ Ec).
    rewrite tsc_join by done. unfold saturating_add, umax. rewrite Z.min_l by ulia.
    rewrite (op_bind_run _ _ _ _ _ Ew), (op_bind_run _ _ _ _ _ E1). done. }
  destruct (Z.ltb_spec (Bringup.cpu_id ebx) 64) as [Hlt|Hge].
  - assert (access load_timer_mask h1 = ((Ok (answer (LoadMask :: h1)) : res PostFirmwareError _), LoadMask :: h1))
      as Em by reflexivity.
    assert (lift (bit (Bringup.cpu_id ebx)) h1 = (Ok (2 ^ Bringup.cpu_id ebx), h1)) as Eb' by (by rewrite bit_ok by lia).
    rewrite (op_bind_run _ _ _ _ _ Eb'), (op_bind_run _ _ _ _ _ Em), land_pow2_zero by lia.
    destruct (Z.testbit (answer (LoadMask :: h1)) (Bringup.cpu_id ebx)) eqn:Et.
    + exists h1, (LoadMask :: h1). rewrite Et. split_and!; [done..|]. by rewrite writes_read, app_nil_r.
    + destruct (writes_bind _ _ _ _ wait_icr_writes (writes_bind _ _ _ _ (apic_write_writes APIC_ICR_LOW ICR_VALUE ltac:(done))
        wait_icr_writes) (AddFallback :: LoadMask :: h1)) as (h2 & E2 & W2).
      exists h1, h2. rewrite Et. split_and!; [done|exact E2|]. rewrite W2, writes_snoc, writes_read by done.
      by rewrite <- app_assoc.
  - exists h1, h1. split; [done|]. by rewrite bit_err by ulia.
Qed.
End history.

(** A machine whose counter advances at every read and whose timer is dead. *)
Fixpoint ticks (h : list event) : Z :=
  match h with [] => 0 | ReadTsc :: h => ticks h + 1 | _ :: h => ticks h end.

Definition demo_answer (h : list event) : Z :=
  match h with
  | ReadMsr _ :: _ => 0xfee00900
  | ReadTsc :: _ => Z.min (40000 * ticks h) (umax 64)
  | _ => 0
  end.

Lemma ticks_nonneg h : 0 ≤ ticks h.
Proof. induction h as [|[] h IH]; cbn; lia. Qed.

Lemma ticks_repeat n h : ticks (repeat ReadTsc n ++ h) = n + ticks h.
Proof. induction n as [|n IH]; cbn [repeat app ticks]; lia. Qed.

Lemma arm_timer_exact_witness :
  ∃ n, ∀ fuel, (n ≤ fuel)%nat → ∃ h1 h2, writes h1 = writes [] ++
    [WriteReg 0xfee003e0 0x0b; WriteReg 0xfee00380 0; WriteReg 0xfee00320 0x400f2; WriteMsr 0x6e0 140000] ∧
    (@arm_timer _ (trace_regs demo_answer) (trace_msrs demo_answer) (trace_statics demo_answer) fuel 0x03000000 []
       = (Ok (), h2) ∧
     writes h2 = writes h1 ++ [AddFallback; WriteReg 0xfee00300 0x400f2]).
Proof.
  refine (proj2 (proj2 (arm_timer_exact demo_answer 0xfee00000 ltac:(by split) _ _ _ _ 0x03000000 [] _ _))).
  - intros h. by repeat split.
  - intros h. exists 0%nat. split; [lia|reflexivity].
  - intros h. cbn [demo_answer ticks]. pose proof (ticks_nonneg h). unfold umax. ulia.
  - intros h d Hd. exists (Z.to_nat d). cbn [demo_answer ticks]. rewrite ticks_repeat.
    pose proof (ticks_nonneg h). unfold umax. lia.
  - ulia.
  - vm_compute. reflexivity.
Defined.
End Timer.
