(* ===== verification/Run.v ===== *)
(** * The whole post-firmware runtime: [run], with [switch_page_table],
      [install_gdt] and [install_idt], in
      [platform/x86_64-pc-uefi-smp-v1/runtime/src/post_firmware.rs]

    The stages of [run] in their order, each by its model: the admission checks
    ([FwCfg]), page tables ([Paging]), user code and user mode ([UserMode]),
    descriptor tables ([Descriptors]), start-up page, CPU-local record, firmware
    exit, allocator and entropy probes ([Bringup]), the model probe
    ([ModelProbe]), the device probe ([RawMemory]) and the disk ([Virtio]).  The
    machine below has one field per part of the hardware; physical memory is
    shared by the stages that write to it.  What all processors do together is
    given by the states in which [Phases], [Workers] and [Timer] end. *)
From S2P Require Import Prelude Target Console FwCfg Heap Paging RawMemory Descriptors Apic ModelProbe Interleave Workers Virtio UserMode Phases Reports Boot Bringup Timer.
From stdpp Require Import strings.

#[local] Open Scope Z_scope.

Module Run.
Import Target RawMemory Boot.

(** ** Loading tables *)

(** The registers that name the tables: GDTR and IDTR (limit and base), the task register,
    the selectors, and CR3. *)
Record Loaded : Type := MkLoaded {
  gdtr : Z * Z; idtr : Z * Z; task_register : option Z; cs : Z; ds : Z; es : Z; ss : Z; cr3 : Z;
}.

Definition install_gdt (GDT : Z) (load_tss : bool) (l : Loaded) : Loaded :=
  MkLoaded (7 * 8 - 1, GDT) (idtr l) (if load_tss then Some 0x28 else task_register l) 0x08 0x10 0x10 0x10 (cr3 l).

Definition install_idt (IDT : Z) (l : Loaded) : Loaded :=
  MkLoaded (gdtr l) (256 * 16 - 1, IDT) (task_register l) (cs l) (ds l) (es l) (ss l) (cr3 l).

Definition load_cr3 (value : Z) (l : Loaded) : Loaded :=
  MkLoaded (gdtr l) (idtr l) (task_register l) (cs l) (ds l) (es l) (ss l) value.

(** ** The machine *)

Section run.
(** The worlds of the configuration channel, of the local APIC, of the disk with its queue and
    request, of the firmware and of the random-number instruction. *)
Context {P : Type} `{PortIo P}.
Context {A : Type} `{MmioRegs A, Msrs A}.
Context {V : Type} `{PortIo V, MmioRegs V}.
Context {F : Type} (get_memory_map : F → Z * Z * Z * F) (exit_ : Z → F → Z * F).
Context {R : Type} (rdrand : R → Z * Z * R).
Context {LY : Paging.Layout}.

Record Machine : Type := MkMachine {
  config : P;
  apic : A;
  disk : V;
  firmware : F;
  random : R;
  pages : Paging.memory;
  memory : gmap Z Z;
  tables : Descriptors.Tables;
  msrs : gmap Z Z;
  loaded : Loaded;
  gs : Z;
  local_mask : Z;
  heap : Heap.HeapState;
  log : list item;
}.

Definition on_config {X} (m : op P PostFirmwareError X) : op Machine PostFirmwareError X :=
  zoom config (λ v '(MkMachine c a d f r p b t s l g k h o), MkMachine v a d f r p b t s l g k h o) m.
Definition on_apic {X} (m : op A PostFirmwareError X) : op Machine PostFirmwareError X :=
  zoom apic (λ v '(MkMachine c a d f r p b t s l g k h o), MkMachine c v d f r p b t s l g k h o) m.
Definition on_disk {X} (m : op V PostFirmwareError X) : op Machine PostFirmwareError X :=
  zoom disk (λ v '(MkMachine c a d f r p b t s l g k h o), MkMachine c a v f r p b t s l g k h o) m.
Definition on_firmware {X} (m : op F PostFirmwareError X) : op Machine PostFirmwareError X :=
  zoom firmware (λ v '(MkMachine c a d f r p b t s l g k h o), MkMachine c a d v r p b t s l g k h o) m.
Definition on_random {X} (m : op R PostFirmwareError X) : op Machine PostFirmwareError X :=
  zoom random (λ v '(MkMachine c a d f r p b t s l g k h o), MkMachine c a d f v p b t s l g k h o) m.
Definition on_pages {X} (m : op Paging.memory PostFirmwareError X) : op Machine PostFirmwareError X :=
  zoom pages (λ v '(MkMachine c a d f r p b t s l g k h o), MkMachine c a d f r v b t s l g k h o) m.
Definition on_memory {X} (m : op (gmap Z Z) PostFirmwareError X) : op Machine PostFirmwareError X :=
  zoom memory (λ v '(MkMachine c a d f r p b t s l g k h o), MkMachine c a d f r p v t s l g k h o) m.
Definition on_tables {X} (m : op Descriptors.Tables PostFirmwareError X) : op Machine PostFirmwareError X :=
  zoom tables (λ v '(MkMachine c a d f r p b t s l g k h o), MkMachine c a d f r p b v s l g k h o) m.
Definition on_msrs {X} (m : op (gmap Z Z) PostFirmwareError X) : op Machine PostFirmwareError X :=
  zoom msrs (λ v '(MkMachine c a d f r p b t s l g k h o), MkMachine c a d f r p b t v l g k h o) m.
Definition on_loaded {X} (m : op Loaded PostFirmwareError X) : op Machine PostFirmwareError X :=
  zoom loaded (λ v '(MkMachine c a d f r p b t s l g k h o), MkMachine c a d f r p b t s v g k h o) m.
Definition on_heap {X} (m : op Heap.HeapState PostFirmwareError X) : op Machine PostFirmwareError X :=
  zoom heap (λ v '(MkMachine c a d f r p b t s l g k h o), MkMachine c a d f r p b t s l g k v o) m.
(** The CPU-local record lies in physical memory. *)
Definition on_local {X} (m : op Bringup.Local PostFirmwareError X) : op Machine PostFirmwareError X :=
  zoom (λ m, Bringup.MkLocal (memory m) (gs m) (local_mask m))
    (λ v '(MkMachine c a d f r p b t s l g k h o),
       MkMachine c a d f r p (Bringup.ram v) t s l (Bringup.gs_base v) (Bringup.local_mask v) h o) m.

(** [serial.bytes] and [serial.usize], as items of the log. *)
Definition emit (l : list item) : op Machine PostFirmwareError unit :=
  modify (λ '(MkMachine c a d f r p b t s l' g k h o), MkMachine c a d f r p b t s l' g k h (o ++ l)).
Definition stage (s : string) : op Machine PostFirmwareError unit := emit [L (String.append "THERMITE_POST_STAGE " s)].

(** The linker's addresses and the bytes of the trampoline. *)
Record Image : Type := MkImage {
  symbols : Descriptors.Symbols;
  trampoline : list Z;
  thermite_ap_rust_entry : Z;
  AP_STACKS : Z;
  CPU_LOCALS : Z;
  MMIO_PROBE : Z;
  GDT : Z;
  IDT : Z;
  VIRTIO_QUEUE : Z;
  VIRTIO_REQUEST : Z;
}.

(** What the firmware answers to [AllocatePages] for the start-up page and for the heap, what
    [cpuid] says, and the registers at the call that enters user mode. *)
Record Answers : Type := MkAnswers {
  trampoline_pages : Z * Z;
  heap_pages : Z * Z;
  ebx : Z;
  registers : UserMode.Cpu;
  return_address : Z;
}.

(** How the processors leave the statics. *)
Record Outcome : Type := MkOutcome {
  phases : Phases.system;
  workers : Workers.Shared;
  timers : Timer.system;
}.

Definition switch_page_table (value : Z) : op Machine PostFirmwareError unit :=
  efer ← on_msrs (Descriptors.rdmsr Descriptors.EFER_MSR);
  on_msrs (Descriptors.wrmsr Descriptors.EFER_MSR (Z.lor efer (Z.shiftl 1 11)));;
  on_loaded (modify (load_cr3 value)).

(** ** The phases *)

(** The boot processor has passed the checks of the scheduler phase. *)
Definition scheduled (b : Phases.bsp_pc) (phase : Z) : bool :=
  match b with
  | Phases.BOk | Phases.BStop (Phases.BSend2 _ | Phases.BWaitAck2 | Phases.BWaitPost) _ => true
  | Phases.BRefuse _ => phase =? 2
  | _ => false
  end.

Definition phases_end (b : Phases.bsp_pc) : res PostFirmwareError unit :=
  match b with
  | Phases.BOk => Ok ()
  | Phases.BStop _ e | Phases.BRefuse e => Err e
  | _ => Panic
  end.

(** The lines printed when the mapping is found stale or not acknowledged. *)
Definition phases_diagnosis (bsp : Z) (apic_ids : list Z) (y : Phases.system) : list item :=
  let s := Phases.shared y in
  let observed c := N (default 0 (Phases.tlb_observed s !! c)) in
  let post := [T "THERMITE_POST_DIAG tlb_post_count="; N (Workers.count_ones (Phases.tlb_post_mask s));
               T " stale="; N (Phases.tlb_stale s); L ""] in
  match Phases.bsp_at y with
  | Phases.BStop Phases.BWaitAck2 _ => [L "THERMITE_POST_DIAG tlb_ack_timeout=1"]
  | Phases.BStop Phases.BWaitPost _ => post
  | Phases.BRefuse Tlb =>
    if Phases.phase s =? 2 then post
    else [T "THERMITE_POST_DIAG tlb_pre_stale=1 observed_bsp="; observed bsp]
         ++ match Phases.others bsp apic_ids with c :: _ => [T " observed_ap="; observed c] | [] => [] end ++ [L ""]
  | _ => []
  end.

(** From the start of the other processors to the end of the shootdown. *)
Definition run_phases (bsp : Z) (apic_ids : list Z) (o : Outcome) : op Machine PostFirmwareError unit :=
  let y := phases o in
  (if scheduled (Phases.bsp_at y) (Phases.phase (Phases.shared y)) then
     lift (bail_if (negb (Workers.scheduler_accepts (length apic_ids) (workers o))) Scheduler);;
     stage "scheduler=1";;
     on_pages Paging.replace_shoot_page
   else mret ());;
  emit (phases_diagnosis bsp apic_ids y);;
  lift (phases_end (Phases.bsp_at y));;
  stage "tlb=1".

Definition run_timers (bsp : Z) (t : Timer.system) : op Machine PostFirmwareError unit :=
  match Timer.position bsp t with
  | Some Timer.BRefuse => lift (Err Target.Timer)
  | Some Timer.BTimeout =>
    stage "timer_gate=1";; stage "timer_armed=1";;
    emit [T "THERMITE_POST_DIAG timer_count="; N (Workers.count_ones (Timer.timer_mask (Timer.shared t)));
          T " fallbacks="; N (Timer.fallbacks (Timer.shared t)); L ""];;
    lift (Err Target.Timer)
  | Some (Timer.BStop e) => stage "timer_gate=1";; lift (Err e)
  | Some Timer.BOk => stage "timer_gate=1";; stage "timer_armed=1";; stage "timer=1"
  | _ => lift Panic
  end.

(** ** [run] *)

(** The start: everything the boot processor does until it starts the others.  The result is
    what the later stages and the report use. *)
Definition run_setup (im : Image) (an : Answers) (fuel : nat) (ids : list Z) (bsp : Z)
    : op Machine PostFirmwareError
        (option Z * FwCfg.PowerAction * list Z * Z * Z * (Z * Z * Z) * Z * Z * Z) :=
  '(failed_apic, power_action, apic_ids, full_mask, bsp_bit) ← on_config (FwCfg.run_admission ids bsp);
  apic ← on_apic (Apic.rdmsr Apic.APIC_BASE_MSR);
  lift (bail_if ((Z.land apic Apic.APIC_ENABLE =? 0) || negb (Z.land apic Apic.X2APIC_ENABLE =? 0)) UnsupportedApic);;
  cr3 ← on_pages Paging.setup_page_tables;
  on_memory (modify UserMode.setup_user_code);;
  on_tables (Descriptors.setup_descriptor_tables (symbols im));;
  on_memory (Bringup.install_trampoline (trampoline im) (thermite_ap_rust_entry im) (AP_STACKS im)
    (trampoline_pages an) cr3 apic_ids);;
  on_heap (λ h,
    match Heap.reserve_boot_heap (heap_pages an).1 (heap_pages an).2 (Heap.memory h) with
    | Ok h => (Ok (), h) | Err e => (Err e, h) | Panic => (Panic, h)
    end);;
  on_firmware (Bringup.exit_boot_services get_memory_map exit_);;
  emit [L "THERMITE_EXIT_BOOT_SERVICES ownership=kernel"];;
  emit match failed_apic with
       | Some failed =>
         [T "THERMITE_AP_FAILURE apic_id="; N failed; T " state=Failed reason=injected online=";
          N (length apic_ids); L ""]
       | None => []
       end;;
  switch_page_table cr3;;
  stage "paging=1";;
  on_loaded (modify (install_gdt (GDT im) true));;
  stage "gdt=1 tss=1";;
  on_loaded (modify (install_idt (IDT im)));;
  stage "idt=1";;
  kernel_syscall_rsp ← on_msrs (Descriptors.install_syscall_entry (symbols im));
  stage "syscall=1";;
  on_local (Bringup.install_cpu_local (CPU_LOCALS im) (AP_STACKS im) bsp);;
  stage "cpu_local=1";;
  on_apic Apic.local_apic_enable;;
  stage "lapic=1";;
  lift (bail_if (negb (Bringup.cpu_id (ebx an) =? bsp)) InvalidCpuId);;
  heap_report ← on_heap (Bringup.allocator_probe fuel);
  stage "allocator=1";;
  bitmap ← reads (λ m, Heap.heap_bitmap (heap m));
  model_registry_entries ← lift (ModelProbe.kernel_model_probe (length apic_ids) bitmap);
  stage "verified_model=1";;
  device_negative_checks ← on_memory (RawMemory.volatile_device_probe (MMIO_PROBE im));
  stage "device_widths=1";;
  mret (failed_apic, power_action, apic_ids, full_mask, kernel_syscall_rsp, heap_report,
        model_registry_entries, device_negative_checks, bsp_bit).

(** The excursion, on the memory, the page tables, the root and the ring-0 stack the stages
    before it have set up. *)
Definition run_user (an : Answers) (fuel : nat) (kernel_syscall_rsp : Z) : op Machine PostFirmwareError (Z * Z) := λ m,
  let machine := UserMode.MkMachine (registers an) (UserMode.MkStatics 0 0 0 0 0 0 0 kernel_syscall_rsp 0)
    (memory m) (pages m) (cr3 (loaded m)) (read_le (Descriptors.tss (tables m)) 4 8) in
  match UserMode.run_user_mode fuel (return_address an) machine with
  | Some (r, machine) => on_memory (λ _, (r, UserMode.ram machine)) m
  | None => (Panic, m)
  end.

Definition run (im : Image) (an : Answers) (o : Outcome) (fuel : nat) (ids : list Z) (bsp : Z)
    : op Machine PostFirmwareError PostFirmwareReport :=
  '(failed_apic, power_action, apic_ids, full_mask, kernel_syscall_rsp, (heap_bytes, heap_allocations, heap_oom_rejected),
    model_registry_entries, device_negative_checks, bsp_bit) ← run_setup im an fuel ids bsp;
  run_phases bsp apic_ids o;;
  run_timers bsp (timers o);;
  '(dma_bytes, dma_generation) ← on_disk (Virtio.virtio_block_dma_probe (VIRTIO_QUEUE im) (VIRTIO_REQUEST im));
  stage "virtio_dma=1";;
  entropy_bytes ← on_random (Bringup.entropy_probe rdrand);
  stage "entropy=1";;
  stage "user_enter=1";;
  '(syscalls, faults) ← run_user an fuel kernel_syscall_rsp;
  let s := Phases.shared (phases o) in
  let w := workers o in
  let ap_mask := Z.land full_mask (Z.lnot bsp_bit) in
  mret (MkReport
    (Workers.count_ones (Phases.online_mask s))
    (match failed_apic with Some _ => 1 | None => 0 end)
    (default (umax 32) failed_apic)
    (Workers.count_ones (Z.land (Workers.task_workers w) ap_mask))
    (Workers.count_ones (Workers.task_workers w))
    (Workers.max_active w)
    (Workers.task_sum w)
    heap_bytes heap_allocations heap_oom_rejected
    (Workers.count_ones (Phases.message_mask s))
    (Phases.message_stale s)
    device_negative_checks
    (Workers.count_ones (Phases.cpu_local_mask s))
    power_action
    model_registry_entries
    (Workers.lock_entries w)
    (Workers.count_ones (Phases.ipi_ack_mask s))
    (Workers.count_ones (Timer.timer_mask (Timer.shared (timers o))))
    (Timer.fallbacks (Timer.shared (timers o)))
    (Workers.count_ones (Phases.tlb_post_mask s))
    dma_bytes dma_generation entropy_bytes syscalls faults).
End run.

(** ** The log *)

Definition stage_line (s : string) : item := L (String.append "THERMITE_POST_STAGE " s).
Definition is_stage (i : item) : bool :=
  match i with L s => String.prefix "THERMITE_POST_STAGE " s | _ => false end.

(** The lines that name a stage. *)
Definition milestones (l : list item) : list item := List.filter is_stage l.

Definition all_stages : list string :=
  ["paging=1"; "gdt=1 tss=1"; "idt=1"; "syscall=1"; "cpu_local=1"; "lapic=1"; "allocator=1"; "verified_model=1";
   "device_widths=1"; "scheduler=1"; "tlb=1"; "timer_gate=1"; "timer_armed=1"; "timer=1"; "virtio_dma=1"; "entropy=1";
   "user_enter=1"]%string.

Section logged.
Context {P : Type} `{PortIo P}.
Context {A : Type} `{MmioRegs A, Msrs A}.
Context {V : Type} `{PortIo V, MmioRegs V}.
Context {F : Type} (get_memory_map : F → Z * Z * Z * F) (exit_ : Z → F → Z * F).
Context {R : Type} (rdrand : R → Z * Z * R).
Context {LY : Paging.Layout}.

Notation Machine := (@Machine P A V F R).

(** The log is only extended, with the lines of the stages [l], as far as [m] gets. *)
Definition Staged {X} (l : list string) (m : op Machine PostFirmwareError X) : Prop := ∀ s,
  ∃ lines, log (m s).2 = log s ++ lines ∧
    match (m s).1 with
    | Ok _ => milestones lines = stage_line <$> l
    | _ => milestones lines `prefix_of` (stage_line <$> l)
    end.

Lemma staged_bind {X Y} l1 l2 (m : op Machine PostFirmwareError X) (k : X → op Machine PostFirmwareError Y) :
  Staged l1 m → (∀ x, Staged l2 (k x)) → Staged (l1 ++ l2) (m ≫= k).
Proof.
  intros Hm Hk s. destruct (Hm s) as (n1 & E1 & F1). unfold mbind, op_bind.
  destruct (m s) as [[x|e|] s1]; cbn in E1, F1 |- *;
    [|exists n1; split; [done|]; rewrite fmap_app; by apply prefix_app_r..].
  destruct (Hk x s1) as (n2 & E2 & F2). exists (n1 ++ n2). rewrite E2, E1, <- app_assoc. split; [done|].
  unfold milestones in *. rewrite List.filter_app, F1, fmap_app. destruct (k x s1).1; [by rewrite F2|by apply prefix_app..].
Qed.

Lemma staged_silent {X} (m : op Machine PostFirmwareError X) : (∀ s, log (m s).2 = log s) → Staged [] m.
Proof. intros Hm s. exists []. rewrite Hm, app_nil_r. split; [done|]. by case_match. Qed.

Lemma staged_zoom {T X} (get : Machine → T) set (m : op T PostFirmwareError X) :
  (∀ v s, log (set v s) = log s) → Staged [] (zoom get set m).
Proof. intros Hs. apply staged_silent. intros s. unfold zoom. destruct (m (get s)). apply Hs. Qed.

Lemma staged_emit l : milestones l = [] → Staged [] (emit l).
Proof. intros Hl [] . exists l. by split. Qed.

Lemma staged_stage t : Staged [t] (stage t).
Proof. intros []. exists [stage_line t]. split; [done|]. by destruct t. Qed.

Ltac staged_step :=
  lazymatch goal with
  | |- Staged _ (mbind _ (stage _)) => eapply (staged_bind [_]); [apply staged_stage|intros ?]
  | |- Staged _ (mbind _ _) => eapply (staged_bind []); [|intros ?]
  | |- Staged _ (stage _) => apply staged_stage
  | |- Staged _ (emit _) => apply staged_emit; repeat case_match; reflexivity
  | |- Staged _ (mret _) => apply staged_silent; done
  | |- Staged _ (lift _) => apply staged_silent; done
  | |- Staged _ (reads _) => apply staged_silent; done
  | |- Staged _ (match ?x with _ => _ end) => destruct x
  | |- Staged _ (_ _) => apply staged_zoom; by intros ? []
  end.

Lemma setup_staged im an fuel ids bsp :
  Staged (take 9 all_stages) (run_setup get_memory_map exit_ im an fuel ids bsp).
Proof.
  unfold run_setup, switch_page_table. cbv zeta. cbn [take all_stages].
  repeat staged_step.
Qed.

Lemma phases_silent bsp apic_ids y : milestones (phases_diagnosis bsp apic_ids y) = [].
Proof. unfold phases_diagnosis. repeat case_match; reflexivity. Qed.

Lemma staged_refuse {X} l (r : res PostFirmwareError X) : (∀ x, r ≠ Ok x) → Staged l (lift r).
Proof.
  intros Hr s. exists []. rewrite app_nil_r. split; [done|]. cbn.
  destruct r as [x|e|]; [by destruct (Hr x)|apply prefix_nil..].
Qed.

Lemma staged_never {X Y} l (r : res PostFirmwareError X) (k : X → op Machine PostFirmwareError Y) :
  (∀ x, r ≠ Ok x) → Staged l (lift r ≫= k).
Proof.
  intros Hr s. exists []. rewrite app_nil_r.
  destruct r as [x|e|]; [by destruct (Hr x)|split; [done|apply prefix_nil]..].
Qed.

Lemma phases_staged bsp apic_ids o : Staged (take 2 (drop 9 all_stages)) (run_phases bsp apic_ids o).
Proof.
  unfold run_phases. cbv zeta. cbn [take drop all_stages]. set (y := phases o).
  destruct (scheduled _ _) eqn:Es.
  - apply (staged_bind ["scheduler=1"%string]); [|intros _].
    + staged_step; [staged_step|]. apply (staged_bind [_] []); [apply staged_stage|intros _]. staged_step.
    + staged_step; [apply staged_emit, phases_silent|]. staged_step; [staged_step|]. apply staged_stage.
  - staged_step; [staged_step|]. staged_step; [apply staged_emit, phases_silent|]. apply staged_never.
    intros []. by destruct (Phases.bsp_at y).
Qed.

Lemma timers_staged bsp t : Staged (take 3 (drop 11 all_stages)) (run_timers bsp t).
Proof.
  unfold run_timers. cbn [take drop all_stages].
  destruct (Timer.position bsp t) as [[]|]; try (by apply staged_refuse); repeat staged_step; by apply staged_refuse.
Qed.

Lemma user_staged an fuel rsp : Staged [] (run_user an fuel rsp).
Proof.
  apply staged_silent. intros s. unfold run_user. cbv zeta. case_match; [|done]. case_match. by destruct s.
Qed.

(** [run] reports its progress truthfully: whatever the hardware, the firmware and the other
    processors do, it only appends to the log, the stage lines it appends are the first of the
    seventeen, in their order, and it returns a report only after all of them. *)
Theorem stages_logged im an o fuel ids bsp (m : Machine) :
  let '(r, m') := run get_memory_map exit_ rdrand im an o fuel ids bsp m in
  ∃ lines, log m' = log m ++ lines ∧ milestones lines `prefix_of` (stage_line <$> all_stages) ∧
    (∀ report, r = Ok report → milestones lines = stage_line <$> all_stages).
Proof.
  assert (Staged all_stages (run get_memory_map exit_ rdrand im an o fuel ids bsp)) as Hr.
  { unfold run. apply (staged_bind (take 9 all_stages) (drop 9 all_stages)); [apply setup_staged|].
    intros [[[[[[[[failed power] eff] full] rsp] [[hb ha] ho]] mr] dn] bb].
    apply (staged_bind (take 2 (drop 9 all_stages)) (drop 11 all_stages)); [apply phases_staged|intros _].
    apply (staged_bind (take 3 (drop 11 all_stages)) (drop 14 all_stages)); [apply timers_staged|intros _].
    cbn [drop all_stages]. repeat first [apply user_staged | staged_step]. }
  specialize (Hr m). destruct (run _ _ _ _ _ _ _ _ _ m) as [r m']. destruct Hr as (lines & El & Hm).
  exists lines. split; [done|]. cbn in Hm. destruct r as [report|e|]; [|by split..].
  split; [by rewrite Hm|by intros ? [= <-]].
Qed.
End logged.

(** ** Counting bits *)

Lemma count_ones_list m (l : list Z) :
  NoDup l → (∀ c, c ∈ l → 0 ≤ c < 64) → (∀ c, 0 ≤ c → Z.testbit m c = true ↔ c ∈ l) →
  Workers.count_ones m = length l.
Proof.
  intros Hnd Hr Hb. rewrite (Workers.count_ones_size m (list_to_set l)).
  - by rewrite size_list_to_set.
  - intros c Hc. apply Hr. by apply elem_of_list_to_set in Hc.
  - intros c Hc. by rewrite Hb, elem_of_list_to_set.
Qed.

Lemma others_none bsp (l : list Z) : bsp ∉ l → Phases.others bsp l = l.
Proof.
  unfold Phases.others. induction l as [|c l IH]; [done|]. intros [Hc Hl]%not_elem_of_cons.
  by rewrite filter_cons_True, IH by congruence.
Qed.

Lemma others_length bsp (l : list Z) : NoDup l → bsp ∈ l → length (Phases.others bsp l) = (length l - 1)%nat.
Proof.
  intros Hnd Hin. apply list_elem_of_split in Hin as (l1 & l2 & ->).
  apply NoDup_app in Hnd as (Hnd1 & Hd & [Hnb Hnd2]%NoDup_cons).
  assert (bsp ∉ l1) as Hn1 by (intros Hc; apply (Hd bsp Hc); by left).
  assert (Phases.others bsp (l1 ++ bsp :: l2) = l1 ++ l2) as ->.
  { unfold Phases.others. rewrite filter_app, filter_cons_False by (intros H; by apply H).
    f_equal; by apply others_none. }
  rewrite !length_app. cbn. lia.
Qed.

(** ** What the stages give *)

Lemma admission_gives {P} `{PortIo P} ids bsp (w w' : P) failed power eff full bit_ :
  (∀ c, c ∈ ids → u32 c) →
  FwCfg.run_admission ids bsp w = (Ok (failed, power, eff, full, bit_), w') →
  bsp ∈ eff ∧ (∀ c, c ∈ eff → u32 c) ∧ expected_mask eff = Ok full ∧ bit bsp = Ok bit_ ∧
  ∀ f, failed = Some f → f ∈ ids.
Proof.
  intros Hu E. unfold FwCfg.run_admission in E.
  apply op_bind_Ok in E as (u & w0 & [Eb ->]%op_lift_Ok & E). apply bail_if_Ok in Eb.
  rewrite !orb_false_iff, negb_false_iff, bool_decide_eq_true in Eb. destruct Eb as [_ Hb].
  apply op_bind_Ok in E as (f & w1 & _ & E). apply op_bind_Ok in E as (p & w2 & _ & E).
  apply op_bind_Ok in E as (e & w3 & [Ee ->]%op_lift_Ok & E).
  apply op_bind_Ok in E as (m & w4 & [Em ->]%op_lift_Ok & E).
  apply op_bind_Ok in E as (b & w5 & [Ebit ->]%op_lift_Ok & E). injection E as -> -> -> -> -> ->.
  apply (FwCfg.admit_cpus_Ok _ _ _ _ Hb) in Ee as (Hf & Hl & ->). split_and!; [| |done|done|exact Hl].
  - apply list_elem_of_filter. split; [congruence|done].
  - intros c [_ Hc]%list_elem_of_filter. by apply Hu.
Qed.

#[local] Opaque for_pos.

Lemma dma_gives {V} `{PortIo V, MmioRegs V} queue request (w w' : V) r :
  Virtio.virtio_block_dma_probe queue request w = (Ok r, w') → r = (512, 1).
Proof.
  intros E. unfold Virtio.virtio_block_dma_probe in E.
  apply op_bind_Ok in E as ([[[a b] c] io] & w1 & _ & E). apply op_bind_Ok in E as (u & w2 & _ & E).
  unfold Virtio.virtio_complete in E. apply op_bind_Ok in E as (x & w3 & _ & E).
  apply op_bind_Ok in E as (y & w4 & _ & E). apply op_bind_Ok in E as (z & w5 & _ & E). by injection E as <-.
Qed.

Lemma entropy_gives {R} (rdrand : R → Z * Z * R) w w' r :
  Bringup.entropy_probe rdrand w = (Ok r, w') → r = 32.
Proof. intros E. apply op_bind_Ok in E as (x & w1 & _ & E). by injection E as <-. Qed.

Lemma apic_base_given {A} `{Apic.Lapic A} (w : A) :
  ∃ v w', Apic.rdmsr Apic.APIC_BASE_MSR w = (Ok v, w') ∧
    (Z.land v Apic.APIC_ENABLE =? 0) || negb (Z.land v Apic.X2APIC_ENABLE =? 0) = false.
Proof.
  pose proof (Apic.apic_base_run w) as E. unfold Apic.apic_base in E.
  apply op_bind_Ok in E as (v & w' & Ev & E). apply op_bind_Ok in E as (u & w2 & [Eb _]%op_lift_Ok & _).
  apply bail_if_Ok in Eb. by exists v, w'.
Qed.

Lemma lapic_enabled {A} `{Apic.Lapic A} (w : A) : ∃ w', Apic.local_apic_enable w = (Ok (), w').
Proof.
  unfold Apic.local_apic_enable. eexists.
  rewrite (op_bind_run _ _ _ _ _ (Apic.apic_write_run Apic.APIC_TPR _ _ ltac:(done))).
  rewrite (op_bind_run _ _ _ _ _ (Apic.apic_write_run Apic.APIC_SPURIOUS _ _ ltac:(done))).
  by rewrite Apic.apic_write_run.
Qed.

Lemma ring0_read sy : u64 (Descriptors.ring0_top sy) → read_le (Descriptors.tss (Descriptors.tables sy)) 4 8 = Descriptors.ring0_top sy.
Proof.
  intros Hu. cbn [Descriptors.tss Descriptors.tables]. rewrite read_write_other by lia.
  rewrite read_write_le, UserMode.pow64. by apply Z.mod_small.
Qed.

Lemma zoom_run {S T E X} (get : S → T) (set : T → S → S) (m : op T E X) s a v :
  m (get s) = (Ok a, v) → zoom get set m s = (Ok a, set v s).
Proof. unfold zoom. by intros ->. Qed.

(** The next stage of a run is known; the next stage needs no argument. *)
Ltac stage_by E := eapply Bringup.ok_bind; [apply zoom_run; exact E|]; cbv beta iota zeta.
Ltac stage_on := eapply Bringup.ok_bind; [reflexivity|]; cbv beta iota zeta.

Section exact.
Context {P : Type} `{PortIo P}.
Context {A : Type} `{Apic.Lapic A}.
Context {V : Type} `{PortIo V, MmioRegs V}.
Context {F : Type} (get_memory_map : F → Z * Z * Z * F) (exit_ : Z → F → Z * F).
Context {R : Type} (rdrand : R → Z * Z * R).
Context {LY : Paging.Layout} {HL : Paging.LayoutOk LY}.

Notation Machine := (@Machine P A V F R).

(** The user code lies apart from what is written after it. *)
Definition code_page : Z := Paging.address Paging.USER_CODE_PAGE.
Definition apart (a n : Z) : Prop := code_page + 32 ≤ a ∨ a + n ≤ code_page.

(** What [run] relies on: zeroed page tables and fresh descriptor tables, an image that fits,
    a firmware that provides the two allocations, and stacks that do not overlap. *)
Record ready (im : Image) (an : Answers) (m : Machine) : Prop := {
  r_pages : ∀ q j, Paging.valid q → 0 ≤ j < 512 → Paging.slot (pages m) q j = 0;
  r_root : Paging.address Paging.PML4 ≤ umax 32;
  r_tables : tables m = Descriptors.tables_new;
  r_code : length (trampoline im) ≤ 0x0c00;
  r_trampoline : trampoline_pages an = (SUCCESS, Apic.TRAMPOLINE_BASE);
  r_heap : (heap_pages an).1 = SUCCESS ∧ Heap.base_ok (heap_pages an).2;
  r_stacks : 0 ≤ AP_STACKS im ∧ AP_STACKS im + MAX_CPUS * Bringup.STACK_BYTES < 2 ^ 64;
  r_mmio : 0 ≤ MMIO_PROBE im ∧ MMIO_PROBE im + 16 ≤ 2 ^ 64;
  r_apart : apart Apic.TRAMPOLINE_BASE 4096 ∧ apart (MMIO_PROBE im) 16 ∧
    ∀ c, 0 ≤ c < MAX_CPUS → apart (CPU_LOCALS im + c * Bringup.RECORD_BYTES) Bringup.RECORD_BYTES;
  r_user : UserMode.stacks_apart (Descriptors.ring0_top (symbols im)) (UserMode.rsp (registers an))
    (UserMode.rflags (registers an)) (return_address an);
}.

(** The user code is in memory. *)
Definition code_in (mem : gmap Z Z) : Prop :=
  ∀ (i : nat) b, UserMode.user_code !! i = Some b → byte_at mem (code_page + i) = b.

Lemma code_in_setup mem : code_in (UserMode.setup_user_code mem).
Proof.
  intros i b Hi. pose proof (lookup_lt_Some _ _ _ Hi). unfold UserMode.setup_user_code, code_page.
  rewrite UserMode.copy_bytes_at, decide_True by lia. replace (Z.to_nat _) with i by lia. by rewrite Hi.
Qed.

Lemma code_in_frame mem mem' a n :
  apart a n → (∀ b, b < a ∨ a + n ≤ b → byte_at mem' b = byte_at mem b) → code_in mem → code_in mem'.
Proof.
  intros Ha Hf Hc i b Hi. pose proof (lookup_lt_Some _ _ _ Hi) as Hl.
  change (length UserMode.user_code) with 32%nat in Hl. rewrite Hf; [by apply Hc|]. unfold apart in Ha. lia.
Qed.

(** The log of a setup without failure. *)
Definition setup_lines (failed : option Z) (online : Z) : list item :=
  [L "THERMITE_EXIT_BOOT_SERVICES ownership=kernel"]
  ++ match failed with
     | Some f => [T "THERMITE_AP_FAILURE apic_id="; N f; T " state=Failed reason=injected online="; N online; L ""]
     | None => []
     end
  ++ (L ∘ String.append "THERMITE_POST_STAGE " <$>
       ["paging=1"; "gdt=1 tss=1"; "idt=1"; "syscall=1"; "cpu_local=1"; "lapic=1"; "allocator=1";
        "verified_model=1"; "device_widths=1"])%string.

(** What [run_setup] leaves. *)
Record set_up (im : Image) (m m' : Machine) (lines : list item) : Prop := {
  s_disk : disk m' = disk m;
  s_random : random m' = random m;
  s_pages : Paging.built Paging.TEST_PAGE_A (pages m');
  s_code : code_in (memory m');
  s_tables : tables m' = Descriptors.tables (symbols im);
  s_loaded : loaded m' = MkLoaded (55, GDT im) (4095, IDT im) (Some 0x28) 0x08 0x10 0x10 0x10 (Paging.address Paging.PML4);
  s_efer : Z.testbit (byte_at (msrs m') Descriptors.EFER_MSR) 0 = true ∧
    Z.testbit (byte_at (msrs m') Descriptors.EFER_MSR) 11 = true;
  s_log : log m' = log m ++ lines;
}.

Lemma reserve_ok base mem :
  Heap.base_ok base → Heap.reserve_boot_heap SUCCESS base mem = Ok (Heap.MkHeap base 0 0 mem).
Proof.
  intros [Hb Hm]. unfold Heap.reserve_boot_heap. change 4095 with (Z.ones 12).
  rewrite Z.land_ones by lia. change (2 ^ 12) with 4096. rewrite Hm.
  by rewrite (proj2 (Z.eqb_neq base 0)), (proj2 (Z.ltb_ge (umax 32) base)) by lia.
Qed.

Lemma local_runs records stacks id mem g k :
  0 ≤ stacks → stacks + MAX_CPUS * Bringup.STACK_BYTES < 2 ^ 64 → 0 ≤ id < MAX_CPUS →
  ∃ s', Bringup.install_cpu_local records stacks id (Bringup.MkLocal mem g k) = (Ok (), s') ∧
    ∀ b, b < records + id * Bringup.RECORD_BYTES ∨ records + id * Bringup.RECORD_BYTES + Bringup.RECORD_BYTES ≤ b →
      byte_at (Bringup.ram s') b = byte_at mem b.
Proof.
  intros Hs0 Hs1 Hid.
  pose proof (Bringup.cpu_local_exact records stacks id (Bringup.MkLocal mem g k) Hs0 Hs1 ltac:(lia)) as X.
  destruct (Bringup.install_cpu_local _ _ _ _) as [r s']. rewrite (proj2 (Z.ltb_lt _ _)) in X by lia.
  destruct X as (-> & Hg & _ & _ & Hf). rewrite Hg in Hf. by exists s'.
Qed.

#[local] Opaque FwCfg.run_admission Apic.rdmsr Apic.local_apic_enable Paging.setup_page_tables Paging.replace_shoot_page
  UserMode.setup_user_code Descriptors.setup_descriptor_tables Bringup.install_trampoline Bringup.exit_boot_services
  Bringup.install_cpu_local Bringup.allocator_probe ModelProbe.kernel_model_probe volatile_device_probe
  Virtio.virtio_block_dma_probe Bringup.entropy_probe UserMode.run_user_mode Heap.reserve_boot_heap Workers.scheduler_accepts.

Lemma setup_runs im an (m : Machine) ids bsp failed power eff full bsp_bit c' f' :
  ready im an m → (∀ c, c ∈ ids → u32 c) →
  FwCfg.run_admission ids bsp (config m) = (Ok (failed, power, eff, full, bsp_bit), c') →
  Bringup.exit_boot_services get_memory_map exit_ (firmware m) = (Ok (), f') →
  Bringup.cpu_id (ebx an) = bsp →
  ∃ n, ∀ fuel, (n ≤ fuel)%nat → ∃ m',
    run_setup get_memory_map exit_ im an fuel ids bsp m =
      (Ok (failed, power, eff, full, Descriptors.ring0_top (symbols im), (Heap.HEAP_BYTES, 3, 1), 104, 2, bsp_bit), m') ∧
    set_up im m m' (setup_lines failed (length eff)).
Proof.
  intros [Rp Rr Rt Rc Rtr [Rh1 Rh2] [Rs1 Rs2] [Rm1 Rm2] (Ra1 & Ra2 & Ra3) Ru] Hu Hadm Hexit Hcpu.
  destruct (admission_gives _ _ _ _ _ _ _ _ _ Hu Hadm) as (Hbsp & Hu' & Hmask & Hbit & _).
  destruct (expected_mask_Ok _ _ Hu' Hmask) as (Hnd & H64 & _ & _).
  assert (∀ c, c ∈ eff → 0 ≤ c < MAX_CPUS) as Hsmall.
  { intros c Hc. pose proof (H64 c Hc). pose proof (Hu' c Hc). unfold MAX_CPUS. ulia. }
  destruct m as [cf ap dk fw rn pg mem tb ms ld g k hp lg]. cbn in *. subst tb.
  destruct (apic_base_given ap) as (v & ap1 & Eap & Hap).
  destruct (Paging.setup_entries pg Rp) as (pg1 & Epg & Hpg).
  destruct (Bringup.trampoline_run (trampoline im) (thermite_ap_rust_entry im) (AP_STACKS im)
    (Paging.address Paging.PML4) eff (UserMode.setup_user_code mem) Rc) as (mem1 & Etr & _ & Hmem1).
  { split; [apply (Paging.page_range (LayoutOk := HL) Paging.PML4 I)|done]. }
  { done. }
  destruct (local_runs (CPU_LOCALS im) (AP_STACKS im) bsp mem1 g k Rs1 Rs2 (Hsmall bsp Hbsp)) as (lo & Elo & Hlo).
  destruct (lapic_enabled ap1) as (ap2 & Eap2).
  destruct (Bringup.allocator_probe_exact _ Rh2 0 (Heap.memory hp)) as (n & Hn); [ulia|done|].
  destruct (probe_run (MMIO_PROBE im) (Bringup.ram lo) Rm1 Rm2) as (mem2 & Epr & Hpr).
  assert (u64 (length eff) ∧ 1 ≤ length eff) as [Hlu Hl1].
  { pose proof (Bringup.small_ids eff Hnd Hsmall).
    assert (length eff ≠ 0%nat) by (intros ?%length_zero_iff_nil; subst eff; by apply not_elem_of_nil in Hbsp). ulia. }
  pose proof (ModelProbe.model_probe_ok _ Hlu Hl1) as Emodel.
  pose proof (reserve_ok _ (Heap.memory hp) Rh2) as Eres.
  exists n. intros fuel Hf. destruct (Hn fuel Hf) as (hmem & Ehp).
  eexists. split.
  - unfold run_setup, on_config, on_apic, on_pages, on_memory, on_tables, on_heap, on_firmware, on_loaded, on_msrs, on_local, switch_page_table.
    stage_by Hadm. stage_by Eap. rewrite Hap. stage_on. stage_by Epg. stage_on.
    stage_by (Descriptors.setup_run (symbols im)). rewrite Rtr. stage_by Etr.
    eapply Bringup.ok_bind; [apply zoom_run; cbn [heap]; rewrite Rh1, Eres; reflexivity|]. cbv beta iota zeta.
    stage_by Hexit. do 8 stage_on. stage_on. stage_on. stage_by Elo. stage_on. stage_by Eap2. stage_on.
    rewrite Hcpu, Z.eqb_refl. stage_on. stage_by Ehp. stage_on. stage_on. cbn [heap Heap.heap_bitmap].
    rewrite Emodel. stage_on. stage_on. stage_by Epr. stage_on. reflexivity.
  - split; cbn [disk random pages memory tables loaded msrs log]; [reflexivity|reflexivity|exact Hpg| |reflexivity|reflexivity| |].
    + apply (code_in_frame _ _ _ _ Ra2 Hpr), (code_in_frame _ _ _ _ (Ra3 bsp (Hsmall bsp Hbsp)) Hlo).
      apply (code_in_frame (UserMode.setup_user_code mem) _ _ _ Ra1); [|apply code_in_setup].
      intros b Hb. unfold Apic.TRAMPOLINE_BASE in Hb. rewrite Hmem1 by lia.
      apply Bringup.page_head_outside; [done|]. unfold Apic.TRAMPOLINE_BASE. lia.
    + rewrite !byte_at_insert, !Z.eqb_refl.
      change (Descriptors.SFMASK_MSR =? Descriptors.EFER_MSR) with false.
      change (Descriptors.LSTAR_MSR =? Descriptors.EFER_MSR) with false.
      change (Descriptors.STAR_MSR =? Descriptors.EFER_MSR) with false. cbv iota.
      rewrite !Z.lor_spec. change (Z.testbit (Z.shiftl 1 11) 11) with true. change (Z.testbit 1 0) with true.
      rewrite !orb_true_r. split; reflexivity.
    + rewrite <- !app_assoc. reflexivity.
Qed.

(** The rest of the log. *)
Definition end_lines : list item :=
  (L ∘ String.append "THERMITE_POST_STAGE " <$>
    ["scheduler=1"; "tlb=1"; "timer_gate=1"; "timer_armed=1"; "timer=1"; "virtio_dma=1"; "entropy=1"; "user_enter=1"])%string.

(** The states in which all processors have done their part: the phases end well, with the
    check of the tasks applied to what the workers leave. *)
Record finished (bsp : Z) (eff : list Z) (full : Z) (o : Outcome) : Prop := {
  f_phases : rtc (Phases.step (Workers.scheduler_accepts (length eff) (workers o)) bsp (Phases.others bsp eff) full (Phases.ap_mask_of bsp full))
    (Phases.booted bsp (Phases.others bsp eff)) (phases o);
  f_phases_end : Phases.bsp_at (phases o) = Phases.BOk;
  f_workers : ∃ y, rtc Workers.step (Workers.released (list_to_set eff)) y ∧
    (∀ c p, Workers.pcs y !! c = Some p → p = Workers.Done) ∧ Workers.shared y = workers o;
  f_timers : ∃ fires, rtc (Timer.step bsp eff full fires) (Timer.started bsp eff) (timers o);
  f_timers_end : Timer.position bsp (timers o) = Some Timer.BOk;
}.

(** The counts of the report. *)
Lemma finished_counts bsp eff full o :
  (∀ c, c ∈ eff → u32 c) → bsp ∈ eff → expected_mask eff = Ok full → finished bsp eff full o →
  let s := Phases.shared (phases o) in
  let w := workers o in
  let n := Z.of_nat (length eff) in
  Forall (λ m, Workers.count_ones m = n) [Phases.online_mask s; Phases.cpu_local_mask s; Phases.message_mask s;
    Phases.tlb_post_mask s; Workers.task_workers w; Timer.timer_mask (Timer.shared (timers o))] ∧
  Forall (λ m, Workers.count_ones m = n - 1)
    [Phases.ipi_ack_mask s; Z.land (Workers.task_workers w) (Phases.ap_mask_of bsp full)] ∧
  Phases.message_stale s = 0 ∧ Workers.task_sum w = 8386560 ∧ Workers.lock_entries w = n.
Proof.
  intros Hu Hb Hm [Hp Hpe (yw & Hw & Hd & Es) (fires & Ht) Hte]. cbv zeta. rewrite <- Es.
  destruct (expected_mask_Ok _ _ Hu Hm) as (Hnd & H64 & Hf0 & Hbits).
  destruct (Phases.others_ok _ _ _ Hu Hb Hm) as (_ & Hrange & Hnd' & _ & _ & Hap).
  assert (∀ c, c ∈ eff → 0 ≤ c < 64) as Hsmall.
  { intros c Hc. pose proof (H64 c Hc). pose proof (Hu c Hc). ulia. }
  destruct (Reports.reports_exact _ bsp eff full (phases o) Hu Hb Hm Hp Hpe) as (Hr & Ha & Hstale).
  injection Hr as -> -> -> ->. rewrite Ha.
  destruct (Timer.timers_inv bsp eff full fires _ Hu Hb Hm Ht) as (HI & _).
  rewrite (Timer.timers_full bsp eff full _ HI Hf0 Hbits Hte).
  destruct (Workers.workers_done (list_to_set eff) yw) as (_ & Hsum & Hbw & _ & _ & Hl & _); [| |done|done|].
  { intros c Hc%elem_of_list_to_set. by apply Hsmall. }
  { intros He. apply (not_elem_of_empty (C := gset Z) bsp). rewrite <- He. by apply elem_of_list_to_set. }
  rewrite size_list_to_set in Hl by done.
  assert (Workers.count_ones full = length eff) as Cf by (by apply count_ones_list).
  assert (Workers.count_ones (Workers.task_workers (Workers.shared yw)) = length eff) as Cw.
  { apply count_ones_list; [done|done|]. intros c Hc. by rewrite Hbw, elem_of_list_to_set. }
  assert (∀ c, c ∈ Phases.others bsp eff → 0 ≤ c < 64) as Hsmall' by (intros c Hc; apply Hrange; by right).
  assert (Workers.count_ones (Phases.ap_mask_of bsp full) = length eff - 1) as Ca.
  { rewrite (count_ones_list _ (Phases.others bsp eff)), others_length by done.
    destruct eff; [by apply not_elem_of_nil in Hb|]. cbn [length]. lia. }
  assert (Z.land (Workers.task_workers (Workers.shared yw)) (Phases.ap_mask_of bsp full) = Phases.ap_mask_of bsp full) as ->.
  { apply Z.bits_inj'. intros c Hc. rewrite Z.land_spec.
    destruct (Z.testbit (Phases.ap_mask_of bsp full) c) eqn:E; [|apply andb_false_r].
    apply andb_true_iff. split; [|done]. apply Hbw; [done|]. apply elem_of_list_to_set.
    apply Hap in E; [|done]. by apply list_elem_of_filter in E as [_ E]. }
  rewrite !Forall_cons. split_and!; [exact Cf..|exact Cw|exact Cf|constructor|exact Ca|exact Ca|constructor|exact Hstale|exact Hsum|exact Hl].
Qed.

Lemma finished_bounds bsp eff full o :
  (∀ c, c ∈ eff → u32 c) → bsp ∈ eff → expected_mask eff = Ok full → finished bsp eff full o →
  1 ≤ length eff ≤ 64 ∧ 1 ≤ Workers.max_active (workers o) ≤ 64 ∧ 0 ≤ Timer.fallbacks (Timer.shared (timers o)) ≤ 64.
Proof.
  intros Hu Hb Hm [_ _ (yw & Hw & Hd & Es) (fires & Ht) _]. rewrite <- Es.
  destruct (expected_mask_Ok _ _ Hu Hm) as (Hnd & H64 & _ & _).
  assert (∀ c, c ∈ eff → 0 ≤ c < 64) as Hsmall.
  { intros c Hc. pose proof (H64 c Hc). pose proof (Hu c Hc). ulia. }
  destruct (Timer.timers_inv bsp eff full fires _ Hu Hb Hm Ht) as (HI & _).
  pose proof (Timer.fallbacks_bound _ _ _ HI). pose proof (Bringup.small_ids eff Hnd Hsmall).
  destruct (Workers.workers_done (list_to_set eff) yw) as (_ & _ & _ & _ & Hmax & _); [| |done|done|].
  { intros c Hc%elem_of_list_to_set. by apply Hsmall. }
  { intros He. apply (not_elem_of_empty (C := gset Z) bsp). rewrite <- He. by apply elem_of_list_to_set. }
  rewrite size_list_to_set in Hmax by done. lia.
Qed.

(** The tasks were accepted, or the phases would not have ended. *)
Lemma finished_accepted bsp eff full o :
  (∀ c, c ∈ eff → u32 c) → bsp ∈ eff → expected_mask eff = Ok full → finished bsp eff full o →
  Workers.scheduler_accepts (length eff) (workers o) = true.
Proof.
  intros Hu Hb Hm Hf. destruct (Phases.others_ok _ _ _ Hu Hb Hm) as (Hin & Hrange & Hnd & Hnb & Hfull & Hap).
  destruct (Phases.reachable_inv (Workers.scheduler_accepts (length eff) (workers o)) bsp (Phases.others bsp eff) Hnd Hrange Hnb full (Phases.ap_mask_of bsp full))
    with (y := phases o) as [Hi _]; [|done|apply (f_phases _ _ _ _ Hf)|].
  { intros c Hc. pose proof (Hrange c ltac:(by right)). by apply Hap; [lia|]. }
  apply (Phases.bok_accepted _ _ _ _ _ (Phases.i_bsp _ _ _ _ Hi)). rewrite (f_phases_end _ _ _ _ Hf). by right.
Qed.

(** What the stages after the setup change. *)
Lemma phases_run bsp eff full o (m : Machine) :
  Workers.scheduler_accepts (length eff) (workers o) = true → finished bsp eff full o → Paging.built Paging.TEST_PAGE_A (pages m) →
  ∃ pg, Paging.built Paging.TEST_PAGE_B pg ∧
    run_phases bsp eff o m = (Ok (), MkMachine (config m) (apic m) (disk m) (firmware m) (random m) pg (memory m)
      (tables m) (msrs m) (loaded m) (gs m) (local_mask m) (heap m) (log m ++ take 2 end_lines)).
Proof.
  intros Hacc [_ Hpe _ _ _] Hb. destruct m as [cf ap dk fw rn pg mem tb ms ld g k hp lg]. cbn in Hb |- *.
  destruct (Paging.replace_built Paging.TEST_PAGE_A pg Hb) as (pg' & Epg & Hb'). exists pg'. split; [done|].
  unfold run_phases, phases_diagnosis. rewrite Hpe. cbn [scheduled phases_end].
  unfold on_pages. rewrite Hacc. cbn [negb bail_if].
  eapply Bringup.ok_bind. { stage_on. stage_on. apply zoom_run. exact Epg. }
  cbv beta iota zeta. stage_on. stage_on. unfold stage, emit, modify. rewrite app_nil_r, <- app_assoc. reflexivity.
Qed.

Lemma timers_run bsp eff full o (m : Machine) :
  finished bsp eff full o →
  run_timers bsp (timers o) m = (Ok (), MkMachine (config m) (apic m) (disk m) (firmware m) (random m) (pages m) (memory m)
    (tables m) (msrs m) (loaded m) (gs m) (local_mask m) (heap m) (log m ++ take 3 (drop 2 end_lines))).
Proof.
  intros Hf. unfold run_timers. rewrite (f_timers_end _ _ _ _ Hf). destruct m. stage_on. stage_on.
  unfold stage, emit, modify. rewrite <- !app_assoc. reflexivity.
Qed.

Lemma user_runs im an fuel (m : Machine) :
  UserMode.stacks_apart (Descriptors.ring0_top (symbols im)) (UserMode.rsp (registers an))
    (UserMode.rflags (registers an)) (return_address an) →
  (5 ≤ fuel)%nat → Paging.built Paging.TEST_PAGE_B (pages m) → code_in (memory m) →
  tables m = Descriptors.tables (symbols im) → cr3 (loaded m) = Paging.address Paging.PML4 →
  ∃ mem, run_user an fuel (Descriptors.ring0_top (symbols im)) m =
    (Ok (1, 1), MkMachine (config m) (apic m) (disk m) (firmware m) (random m) (pages m) mem
       (tables m) (msrs m) (loaded m) (gs m) (local_mask m) (heap m) (log m)).
Proof.
  intros Hap Hf Hb Hc Ht Hr. unfold run_user. set (um := UserMode.MkMachine _ _ _ _ _ _).
  destruct (UserMode.excursion_runs _ _ _ _ um fuel Hap) as (um' & E & _); [| |done|done|done|].
  - split_and!; [|rewrite <- ring0_read; [by rewrite <- Ht|]|done].
    + intros va Hva. cbn. rewrite Hr. by apply Paging.built_walk.
    + destruct Hap as ((? & ?) & _). ulia.
  - exact Hc.
  - rewrite E. exists (UserMode.ram um'). by destruct m.
Qed.

(** A run in which firmware, disk and random numbers answer, and in which the processors
    come to the end of their phases, is reported as it was: every stage of [run] returns, the
    stage lines are logged in order, the tables are loaded with limits that cover them, and
    the report counts exactly the processors admitted (online, with a record, that saw the
    message, worked, held the lock, received the timer and saw the new mapping; all but one
    as application processors and acknowledgements), all 4096 tasks, three heap allocations
    and the refused fourth, 104 registry entries, two refused device accesses, one sector, 32
    random bytes, one system call and one fault. *)
Theorem run_exact im an o (m : Machine) ids bsp failed power eff full bsp_bit dma entropy c' f' d' r' :
  ready im an m → (∀ c, c ∈ ids → u32 c) →
  FwCfg.run_admission ids bsp (config m) = (Ok (failed, power, eff, full, bsp_bit), c') →
  Bringup.exit_boot_services get_memory_map exit_ (firmware m) = (Ok (), f') →
  Bringup.cpu_id (ebx an) = bsp → finished bsp eff full o →
  Virtio.virtio_block_dma_probe (VIRTIO_QUEUE im) (VIRTIO_REQUEST im) (disk m) = (Ok dma, d') →
  Bringup.entropy_probe rdrand (random m) = (Ok entropy, r') →
  ∃ k, ∀ fuel, (k ≤ fuel)%nat → ∃ m',
    let n := Z.of_nat (length eff) in
    run get_memory_map exit_ rdrand im an o fuel ids bsp m =
      (Ok (MkReport n (if failed then 1 else 0) (default (umax 32) failed) (n - 1) n
             (Workers.max_active (workers o)) 8386560 Heap.HEAP_BYTES 3 1 n 0 2 n power 104 n (n - 1) n
             (Timer.fallbacks (Timer.shared (timers o))) n 512 1 32 1 1), m') ∧
    log m' = log m ++ setup_lines failed n ++ end_lines ∧
    loaded m' = MkLoaded (55, GDT im) (4095, IDT im) (Some 0x28) 0x08 0x10 0x10 0x10 (Paging.address Paging.PML4) ∧
    Z.testbit (byte_at (msrs m') Descriptors.EFER_MSR) 0 = true ∧
    Z.testbit (byte_at (msrs m') Descriptors.EFER_MSR) 11 = true.
Proof.
  intros Hready Hu Hadm Hexit Hcpu Hfin Hdma Hent.
  destruct (admission_gives _ _ _ _ _ _ _ _ _ Hu Hadm) as (Hbsp & Hu' & Hmask & Hbit & _).
  assert (bsp_bit = Z.shiftl 1 bsp) as ->.
  { destruct (expected_mask_Ok _ _ Hu' Hmask) as (_ & H64 & _). pose proof (H64 _ Hbsp). pose proof (Hu' _ Hbsp).
    rewrite bit_ok in Hbit by ulia. rewrite Z.shiftl_1_l. by injection Hbit. }
  destruct (finished_counts _ _ _ _ Hu' Hbsp Hmask Hfin) as (Hn & Hn1 & Hstale & Hsum & Hlock).
  rewrite !Forall_cons in Hn. destruct Hn as (N1 & N2 & N3 & N4 & N5 & N6 & _).
  rewrite !Forall_cons in Hn1. destruct Hn1 as (M1 & M2 & _).
  apply dma_gives in Hdma as Ed. apply entropy_gives in Hent as Ee. subst dma entropy.
  destruct (setup_runs im an m ids bsp _ _ _ _ _ _ _ Hready Hu Hadm Hexit Hcpu) as (k & Hk).
  exists (k + 5)%nat. intros fuel Hf. destruct (Hk fuel ltac:(lia)) as (m1 & E1 & [Sd Sr Sp Sc St Sl Se Sg]).
  destruct (phases_run bsp eff full o m1 (finished_accepted _ _ _ _ Hu' Hbsp Hmask Hfin) Hfin Sp) as (pg & Hpg & E2).
  set (mk := λ (d : V) (r : R) (mem : gmap Z Z) (lg : list item), MkMachine (config m1) (apic m1) d (firmware m1) r pg mem (tables m1) (msrs m1) (loaded m1)
    (gs m1) (local_mask m1) (heap m1) lg).
  change (run_phases bsp eff o m1 = (Ok (), mk (disk m1) (random m1) (memory m1) (log m1 ++ take 2 end_lines))) in E2.
  pose proof (timers_run bsp eff full o (mk (disk m1) (random m1) (memory m1) (log m1 ++ take 2 end_lines)) Hfin) as E3.
  set (lg := log m1 ++ take 2 end_lines) in *.
  change (run_timers bsp (timers o) (mk (disk m1) (random m1) (memory m1) lg) =
    (Ok (), mk (disk m1) (random m1) (memory m1) (lg ++ take 3 (drop 2 end_lines)))) in E3.
  set (lg' := lg ++ take 3 (drop 2 end_lines)) in *.
  destruct (user_runs im an fuel (mk d' r' (memory m1)
    (((lg' ++ take 1 (drop 5 end_lines)) ++ take 1 (drop 6 end_lines)) ++ drop 7 end_lines)) (r_user _ _ _ Hready))
    as (mem & E4); [lia|done|done|done|exact (f_equal cr3 Sl)|].
  rewrite <- Sd in Hdma. rewrite <- Sr in Hent. eexists. split.
  - unfold run. eapply Bringup.ok_bind; [exact E1|]. cbv beta iota zeta.
    eapply Bringup.ok_bind; [exact E2|]. cbv beta. eapply Bringup.ok_bind; [exact E3|]. cbv beta. unfold on_disk, on_random.
    stage_by Hdma. stage_on. stage_by Hent. stage_on. stage_on.
    eapply Bringup.ok_bind; [exact E4|]. cbv beta iota zeta.
    change (Z.land full (Z.lnot (Z.shiftl 1 bsp))) with (Phases.ap_mask_of bsp full).
    rewrite N1, N2, N3, N4, N5, N6, M1, M2, Hstale, Hsum, Hlock. reflexivity.
  - cbn [log loaded msrs]. split_and!; [|exact Sl|exact (proj1 Se)|exact (proj2 Se)].
    unfold lg', lg. rewrite Sg, <- !app_assoc. reflexivity.
Qed.
End exact.

(** ** Two processors, a third one failed *)

#[local] Transparent FwCfg.run_admission Virtio.virtio_block_dma_probe Bringup.entropy_probe Bringup.exit_boot_services
  Workers.scheduler_accepts.
#[local] Existing Instances FwCfg.demo_ports Apic.demo_regs Apic.demo_msrs Apic.demo_lapic Paging.demo_layout.

Definition demo_map (w : unit) : Z * Z * Z * unit := (SUCCESS, 7, 48, w).
Definition demo_exit (key : Z) (w : unit) : Z * unit := (SUCCESS, w).

Definition demo_image : Image :=
  MkImage (Descriptors.MkSymbols 0x500000 0x510000 1 2 3 4 5 6) [0xfa; 0xf4] 0x110000 0x300000 0x200000 0x210000
    0x220000 0x230000 0x200000 0x300000.

Definition demo_answers : Answers :=
  MkAnswers (SUCCESS, Apic.TRAMPOLINE_BASE) (SUCCESS, 0x700000) 0x01000000
    (UserMode.MkCpu 0 0 0 0 0 0x600000 0x202 0x08 0x10) 0x1234567.

(** Whatever its firmware and its random numbers. *)
Definition demo_machine {F R} (f : F) (r : R) : @Machine (list Z) Apic.demo_apic Virtio.Machine F R :=
  MkMachine [] (Apic.MkDemo 0 false []) Virtio.demo_machine f r ∅ ∅
    Descriptors.tables_new ∅ (MkLoaded (0, 0) (0, 0) None 0 0 0 0 0) 0 0 (Heap.MkHeap 0 0 0 ∅) [].

Definition demo_start := demo_machine () [(1, 0); (5, 1); (6, 1); (7, 1); (8, 1)].

Lemma demo_ready {F R} (f : F) (r : R) : ready (LY := Paging.demo_layout) demo_image demo_answers (demo_machine f r).
Proof.
  split; try done.
  - unfold apart, code_page. change (Paging.address Paging.USER_CODE_PAGE) with 1097728.
    unfold Apic.TRAMPOLINE_BASE, Bringup.RECORD_BYTES, MAX_CPUS. cbn. split_and!; [lia|lia|]. intros c Hc. lia.
  - unfold UserMode.stacks_apart, in_u, Descriptors.ring0_top. change (Paging.address Paging.USER_CODE_PAGE) with 1097728. cbn. lia.
Qed.

(** The work, one processor after the other. *)
Lemma demo_work :
  ∃ y, rtc Workers.step (Workers.released (list_to_set [0; 1])) y ∧
    (∀ c p, Workers.pcs y !! c = Some p → p = Workers.Done) ∧ Workers.scheduler_accepts 2 (Workers.shared y) = true.
Proof.
  assert (match (Workers.drive 4 0 (Workers.released (list_to_set [0; 1])) ≫= Workers.drive 8250 1) ≫= Workers.drive 12 0 with
          | Some y => bool_decide (map_Forall (λ _ p, p = Workers.Done) (Workers.pcs y)) &&
                      Workers.scheduler_accepts 2 (Workers.shared y)
          | None => false
          end = true) as Ht by (vm_compute; reflexivity).
  destruct (_ ≫= Workers.drive 12 0) as [y|] eqn:E; [|done]. apply andb_true_iff in Ht as [Hd Ha].
  apply bool_decide_eq_true in Hd. exists y. split_and!; [|exact Hd|exact Ha].
  apply bind_Some in E as (y2 & E2 & E3). apply bind_Some in E2 as (y1 & E1 & E2).
  etrans; [exact (Workers.drive_rtc _ _ _ _ E1)|]. etrans; [exact (Workers.drive_rtc _ _ _ _ E2)|].
  exact (Workers.drive_rtc _ _ _ _ E3).
Qed.

(** The phases driven in rounds, and the timers as in [Timer.slow]. *)
Lemma demo_finished ids : ids = [0; 1] ∨ ids = [1; 0] → ∃ o, finished 1 ids 3 o.
Proof.
  intros Hids. destruct demo_work as (w & Hw & Hd & Ha).
  assert (match Timer.perform_all 1 ids 3 (λ c, c =? 1) Timer.slow (Timer.started 1 ids) with
          | Some t => Timer.position 1 t = Some Timer.BOk | None => False end) as Ht
    by (destruct Hids as [-> | ->]; vm_compute; reflexivity).
  destruct (Timer.perform_all _ _ _ _ _ _) as [t|] eqn:Et; [|destruct Ht].
  assert (Phases.others 1 ids = [0] ∧ list_to_set ids =@{gset Z} list_to_set [0; 1] ∧ length ids = 2%nat) as (Ho & Hs & Hl)
    by (destruct Hids as [-> | ->]; split_and!; done || set_solver).
  exists (MkOutcome (Phases.drive true 1 [0] 3 1 120 (Phases.booted 1 [0])) (Workers.shared w) t).
  split; cbn [phases workers timers]; rewrite ?Ho, ?Hs, ?Hl.
  - change (Z.of_nat 2) with 2. rewrite Ha. exact (Phases.drive_steps true 1 [0] 3 1 120 (Phases.booted 1 [0])).
  - vm_compute. reflexivity.
  - exists w. split_and!; [exact Hw|exact Hd|reflexivity].
  - exists (λ c, c =? 1). exact (Timer.perform_all_rtc _ _ _ _ _ _ _ Et).
  - exact Ht.
Qed.

Lemma fst_pair {X Y} (x : X * Y) a : x.1 = a → x = (a, x.2).
Proof. intros <-. apply surjective_pairing. Qed.

Lemma run_exact_witness :
  ∃ o k, ∀ fuel, (k ≤ fuel)%nat → ∃ report m',
    run demo_map demo_exit Bringup.draw demo_image demo_answers o fuel [0; 1; 12] 1 demo_start = (Ok report, m') ∧
    online report = 2 ∧ failed_apic_id report = 12 ∧ ap_workers report = 1 ∧ timer_cpus report = 2.
Proof.
  destruct (demo_finished [0; 1] (or_introl eq_refl)) as (o & Ho). exists o.
  destruct (run_exact demo_map demo_exit Bringup.draw (HL := Paging.demo_layout_ok) demo_image demo_answers o demo_start
    [0; 1; 12] 1 (Some 12) FwCfg.Reboot [0; 1] 3 2 (512, 1) 32
    (FwCfg.run_admission [0; 1; 12] 1 (config demo_start)).2 ()
    (Virtio.virtio_block_dma_probe (VIRTIO_QUEUE demo_image) (VIRTIO_REQUEST demo_image) (disk demo_start)).2
    (Bringup.entropy_probe Bringup.draw (random demo_start)).2) as (k & Hk);
    [exact (demo_ready _ _)| |apply fst_pair; vm_compute; reflexivity|reflexivity|reflexivity|exact Ho
    |apply fst_pair; vm_compute; reflexivity|apply fst_pair; vm_compute; reflexivity|].
  - intros c Hc. rewrite !elem_of_cons, elem_of_nil in Hc. unfold in_u. lia.
  - exists k. intros fuel Hf. destruct (Hk fuel Hf) as (m' & E & _). eexists _, m'.
    split; [exact E|]. split_and!; reflexivity.
Defined.
End Run.
