(* ===== verification/EfiMain.v ===== *)
(** * The whole image: [efi_main] and the panic handler, in
      [platform/x86_64-pc-uefi-smp-v1/runtime/src/main.rs]

    [efi_main] takes over from the firmware ([Handoff]), has the processors work
    and takes their inventory ([Boot]), leaves the firmware and runs the
    acceptance kernel ([Run]), and ends with the report and the reset ([Boot]).
    A failed check returns its status to the firmware, an error of [run] spins,
    and a panic anywhere prints its line and spins.  What [run] logs is sent on
    the serial port. *)
From S2P Require Import Prelude Target Console FwCfg Heap Paging Apic RawMemory Handoff Rendezvous Workers Timer Virtio Bringup Boot Run.
From stdpp Require Import strings.

#[local] Open Scope Z_scope.

Module EfiMain.
Import Target Console Boot.

Definition last_words : list item := [L "THERMITE_FAIL stage=panic status=0xffffffffffffffff"].

(** The panic handler, up to its loop. *)
Definition panic {W} `{PortIo W} : op W Z unit :=
  init_serial;;
  say last_words.

(** How [efi_main] ends: an error is the status of an early return. *)
Definition ends_with {W} `{PortIo W} (m : op W Z ending) (w : W) : ending * W :=
  match m w with
  | (Ok e, w) => (e, w)
  | (Err status, w) => (Returns None status, w)
  | (Panic, w) => (Spins, (panic w).2)
  end.

Section efi_main.
Context {W : Type} `{PortIo W}.
Context {P : Type} `{PortIo P}.
Context {A : Type} `{MmioRegs A, Msrs A}.
Context {V : Type} `{PortIo V, MmioRegs V}.
Context {F : Type} (get_memory_map : F → Z * Z * Z * F) (exit_ : Z → F → Z * F).
Context {R : Type} (rdrand : R → Z * Z * R).
Context {LY : Paging.Layout}.

(** What the firmware hands over: its memory with the system table, and what its services
    answer before the exit. *)
Record Handover : Type := MkHandover {
  fw_memory : gmap Z Z;
  system_table : Z;
  loaded_image : Z * Z;
  map_call : Handoff.MemoryMapCall;
  block_image : Z * Z;
  block_io : Z * Z;
  read_blocks : Handoff.BlockMedia → Z * list Z;
  mp : Firmware (W := W);
}.

(** The MP services, with the disk read by [block_probe]. *)
Definition services_of (h : Handover) : Firmware (W := W) :=
  let 'MkFirmware a b c d e f g _ i := mp h in
  MkFirmware a b c d e f g
    (Handoff.block_probe (fw_memory h) (block_image h) (block_io h) (read_blocks h)) i.

(** [if let Some(status)], the early return of the head. *)
Definition head (h : Handover) : op W Z unit :=
  early ← Handoff.boot_head (fw_memory h) (system_table h) (loaded_image h) (map_call h);
  match early with Some status => lift (Err status) | None => mret () end.

Definition processors (h : Handover) : op W Z (list Z * Z) := λ w,
  let '(r, b) := boot_processors (services_of h) (MkWorld w Rendezvous.loaded) in (r, io b).

Definition runtime_of (h : Handover) : Z :=
  Handoff.runtime_services (Handoff.read_system (fw_memory h) (system_table h)).

Definition efi_main (h : Handover) (im : Run.Image) (an : Run.Answers) (o : Run.Outcome) (fuel : nat)
    (k : Run.Machine (P := P) (A := A) (V := V) (F := F) (R := R)) : W → ending * W :=
  ends_with
    (head h;;
     '(apic_ids, bsp_apic_id) ← processors h;
     let '(post, k') := Run.run get_memory_map exit_ rdrand im an o fuel apic_ids bsp_apic_id k in
     say (drop (length (Run.log k)) (Run.log k'));;
     boot_end post (runtime_of h)).
End efi_main.

(** ** What is said last *)

Section talk.
Context {W : Type} `{Uart W}.

(** The serial port keeps working, and after an error [Q] holds. *)
Section keeps.
Context {S : Type} (port : S → W).

Definition Keeps {A} (Q : Z → S → Prop) (m : op S Z A) : Prop := ∀ s, live (port s) →
  match m s with
  | (Ok _, s') => live (port s')
  | (Err e, s') => live (port s') ∧ Q e s'
  | (Panic, _) => True
  end.

Lemma keeps_mono {A} (Q Q' : Z → S → Prop) (m : op S Z A) :
  (∀ e s, Q e s → Q' e s) → Keeps Q m → Keeps Q' m.
Proof. intros HQ Hm s Hs. specialize (Hm s Hs). destruct (m s) as [[a|e|] s']; naive_solver. Qed.





End keeps.







(** The port ends with the line of [fail]. *)
Definition failed {S} (port : S → W) (status : Z) (s : S) : Prop :=
  ∃ stage, fail_text stage status `suffix_of` sent (port s).



















(** *** Lines *)

















End talk.

(** ** The last words of the image *)



(** ** A boot that succeeds *)

Section boots.
Context {W : Type} `{Uart W}.
Context {P : Type} `{FwCfg.FwCfgDevice P}.
Context {A : Type} `{Apic.Lapic A}.
Context {V : Type} `{Virtio.VirtioDevice V}.
Context {F : Type} `{Bringup.BootFirmware F}.
Context {R : Type} (rdrand : R → Z * Z * R).
Context {LY : Paging.Layout} {HL : Paging.LayoutOk LY}.

(** *** What the platform has to do *)

(** Before the exit: handoff, MP services, enabled processors numbered from zero with distinct
    APIC ids below 64, clock and boot disk. *)
Record platform (h : Handover (W := W)) (discovered enabled bsp : Z) (aps : gset Z) : Prop := {
  p_handoff : Handoff.handed_over (fw_memory h) (system_table h) (loaded_image h) (map_call h);
  p_services : services (services_of h) discovered enabled bsp aps;
  p_numbers : {[bsp]} ∪ aps = lowest enabled ∧ enabled ≤ Rendezvous.MAX_CPUS;
  p_ids : Forall (λ id, id < Rendezvous.MAX_CPUS) (enabled_ids (services_of h) discovered) ∧
    NoDup (enabled_ids (services_of h) discovered);
  p_stall : (stall (services_of h)).1.2 = SUCCESS ∧ (stall (services_of h)).1.1 < (stall (services_of h)).2;
  p_disk : Handoff.disk_readable (fw_memory h) (block_image h) (block_io h) (read_blocks h);
}.

(** From the exit on: the host's configuration files, the exit, the virtio disk and the random
    numbers; [bsp] and [ids] are APIC ids. *)
Record devices (im : Run.Image) (k : Run.Machine (P := P) (A := A) (V := V) (F := F) (R := R)) (files : list FwCfg.file)
    (failed : option Z) (power : FwCfg.PowerAction) (bsp : Z) (ids : list Z) : Prop := {
  d_files : FwCfg.holds (Run.config k) files;
  d_failed : FwCfg.failure_spec (FwCfg.items (Run.config k)) files = Ok failed;
  d_power : FwCfg.power_spec (FwCfg.items (Run.config k)) files = Ok power;
  d_other : failed ≠ Some bsp ∧ ∀ f, failed = Some f → f ∈ ids;
  d_exit : Bringup.owned (Run.firmware k) = true ∧
    ∃ i : nat, (i < 4)%nat ∧ Bringup.stable (Nat.iter i Bringup.retry (Run.firmware k)) = true;
  d_disk : ∃ bus device function w1,
    Virtio.find_legacy_virtio_block (Run.disk k) = (Ok (bus, device, function, Virtio.vd_io), w1);
  d_queue : Virtio.placed (Run.VIRTIO_QUEUE im) (Run.VIRTIO_REQUEST im) ∧ 0 ≤ Virtio.vd_io ∧ Virtio.vd_io + 18 < 2 ^ 16 ∧
    3 ≤ Virtio.vd_size 0 ≤ 256;
  d_answers : Virtio.answers (Run.VIRTIO_QUEUE im) (Run.VIRTIO_REQUEST im);
  d_random : Bringup.delivers rdrand;
}.

Section stages.
Context (h : Handover (W := W)) (discovered enabled bsp : Z) (aps : gset Z).
Hypothesis Hp : platform h discovered enabled bsp aps.

Lemma platform_surroundings : surroundings (services_of h) bsp aps.
Proof.
  destruct (p_numbers _ _ _ _ _ Hp) as [Hl He]. split.
  - intros c. rewrite Hl. unfold lowest. rewrite elem_of_list_to_set, elem_of_seqZ. lia.
  - apply Hp.
  - destruct (Handoff.block_passes _ _ _ _ (p_disk _ _ _ _ _ Hp)) as [l Hb]. exists l. unfold services_of. by destruct (mp h).
Qed.

Lemma head_stage w : ∃ w1, head h w = (Ok (), w1) ∧ live w1.
Proof.
  destruct (Handoff.head_passes _ _ _ _ w (p_handoff _ _ _ _ _ Hp)) as (w1 & E & L).
  exists w1. unfold head. by rewrite (op_bind_run _ _ _ _ _ E).
Qed.

Lemma processors_stage w : live w →
  ∃ w', processors h w = (Ok (enabled_ids (services_of h) discovered, apic_id (services_of h) bsp), w') ∧ live w'.
Proof.
  intros Hw. destruct (boot_processors_ends _ _ _ _ _ (p_services _ _ _ _ _ Hp) platform_surroundings w Hw)
    as (r & w' & s & E & L & Ho).
  unfold inventory_outcome in Ho. rewrite decide_True in Ho by apply (p_numbers _ _ _ _ _ Hp).
  rewrite decide_True in Ho by apply (p_ids _ _ _ _ _ Hp). subst r. exists w'. unfold processors. by rewrite E.
Qed.

Lemma ids_range c : c ∈ enabled_ids (services_of h) discovered → 0 ≤ c < 64.
Proof.
  intros (n & -> & Hn)%list_elem_of_fmap. apply list_elem_of_In, filter_In in Hn as [Hn He].
  apply list_elem_of_In, elem_of_seqZ in Hn.
  apply (enabled_ids_small _ _ _ _ _ (p_services _ _ _ _ _ Hp)); [apply (p_ids _ _ _ _ _ Hp)|lia|done].
Qed.

Lemma ids_count : 1 ≤ length (enabled_ids (services_of h) discovered) ≤ 64.
Proof.
  destruct (enabled_range _ _ _ _ _ (p_services _ _ _ _ _ Hp) platform_surroundings) as [Hr _].
  pose proof (enabled_count _ _ _ _ _ (p_services _ _ _ _ _ Hp) platform_surroundings) as Hc.
  unfold enabled_ids. rewrite length_fmap. lia.
Qed.

Lemma bsp_listed : apic_id (services_of h) bsp ∈ enabled_ids (services_of h) discovered.
Proof.
  apply list_elem_of_fmap. exists bsp. split; [done|]. apply list_elem_of_In, filter_In.
  destruct (proj2 (s_numbers _ _ _ _ _ (p_services _ _ _ _ _ Hp) bsp)) as [Hb He]; [set_solver|].
  split; [|done]. apply list_elem_of_In, elem_of_seqZ. lia.
Qed.

(** The processors admitted: all but the one the host wants to fail. *)
Lemma admission_stage im k files failed power eff full :
  let ids := enabled_ids (services_of h) discovered in
  devices im k files failed power (apic_id (services_of h) bsp) ids →
  eff = filter (λ i, Some i ≠ failed) ids → expected_mask eff = Ok full →
  ∃ c', FwCfg.run_admission ids (apic_id (services_of h) bsp) (Run.config k) =
    (Ok (failed, power, eff, full, 2 ^ apic_id (services_of h) bsp), c').
Proof.
  intros ids Hd -> Hm. destruct (FwCfg.run_admission_spec _ _ ids (apic_id (services_of h) bsp) (d_files _ _ _ _ _ _ _ Hd))
    as [c' E]. exists c'. rewrite E. f_equal.
  assert (∀ c, c ∈ ids → u32 c) as Hu by (intros c Hc; pose proof (ids_range c Hc); ulia).
  assert (∀ c, c ∈ filter (λ i, Some i ≠ failed) ids → u32 c) as Hu' by (intros c [_ Hc]%list_elem_of_filter; by apply Hu).
  destruct (expected_mask_Ok _ _ Hu' Hm) as (Hnd & H64 & Hm0 & Hbits).
  apply FwCfg.admission_Ok; [done|]. destruct (d_other _ _ _ _ _ _ _ Hd) as [Hf1 Hf2].
  split; [exact ids_count|]. split; [exact bsp_listed|]. split; [apply Hd|]. split; [apply Hd|]. by split_and!.
Qed.

End stages.

(** What a run of two processors and more reports. *)
Definition report_of (n : Z) (failed : option Z) (power : FwCfg.PowerAction) (o : Run.Outcome) : PostFirmwareReport :=
  MkReport n (if failed then 1 else 0) (default (umax 32) failed) (n - 1) n
    (Workers.max_active (Run.workers o)) 8386560 Heap.HEAP_BYTES 3 1 n 0 2 n power 104 n (n - 1) n
    (Timer.fallbacks (Timer.shared (Run.timers o))) n 512 1 32 1 1.

Ltac all_printable :=
  repeat (apply Forall_cons_2; [first [exact I | cbn in *; ulia | cbn in *]|]); try apply Forall_nil_2.

Lemma report_printable n failed power o :
  1 ≤ n ≤ 64 → (∀ f, failed = Some f → u32 f) → 1 ≤ Workers.max_active (Run.workers o) ≤ 64 →
  0 ≤ Timer.fallbacks (Timer.shared (Run.timers o)) ≤ 64 →
  Forall printable (Run.setup_lines failed n ++ Run.end_lines) ∧
  Forall printable (end_lines (Ok (report_of n failed power o))).
Proof.
  intros Hn Hf Hm Hfb. assert (u64 (default (umax 32) failed)) as Hd.
  { destruct failed as [f|]; cbn; [specialize (Hf f eq_refl)|]; ulia. }
  split.
  - unfold Run.setup_lines, Run.end_lines. destruct failed as [f|]; cbn [app fmap list_fmap]; all_printable.
  - unfold end_lines, report_lines, report_of. cbn [app]. all_printable. all: try (destruct failed; ulia). by unfold Heap.HEAP_BYTES, in_u.
Qed.

(** C15. The whole image, from the firmware to the reset.  When the firmware's handoff is in order
    and its MP services keep their promises, for at most 64 enabled processors numbered from zero
    with distinct APIC ids below 64; when the clock advances, the boot disk can be read and the
    two allocations are granted; when the host's configuration files are valid and name no
    processor to fail but another enabled one, the firmware lets go within four attempts, the
    virtio disk answers with a boot sector and random numbers are delivered within sixteen
    tries; and when the processors admitted come to the end of their phases and timers: then
    [efi_main] runs to its end.  The runtime logs every stage and reports exactly the processors
    admitted, all tasks, allocations, refusals, bytes, calls and faults; the log and the report
    are on the serial port, ending with the success line, and the machine is reset as the host
    asked. *)
Theorem image_boots (h : Handover (W := W)) im an o k w discovered enabled bsp aps files failed power eff full :
  let fw := services_of h in
  let ids := enabled_ids fw discovered in
  platform h discovered enabled bsp aps →
  Run.ready im an k → Bringup.cpu_id (Run.ebx an) = apic_id fw bsp →
  devices im k files failed power (apic_id fw bsp) ids →
  eff = filter (λ i, Some i ≠ failed) ids → expected_mask eff = Ok full →
  Run.finished (apic_id fw bsp) eff full o →
  ∃ least, ∀ fuel, (least ≤ fuel)%nat → ∃ w',
    let n := Z.of_nat (length eff) in
    efi_main Bringup.fw_map Bringup.fw_exit rdrand h im an o fuel k w =
      (Returns (if runtime_of h =? 0 then None else Some match power with FwCfg.Reboot => 0 | FwCfg.PowerOff => 2 end) SUCCESS, w') ∧
    (((Run.setup_lines failed n ++ Run.end_lines) ++ end_lines (Ok (report_of n failed power o))) ≫= text) `suffix_of` sent w'.
Proof.
  intros fw ids Hpl Hready Hcpu Hdev Heff Hmask Hfin.
  assert (∀ c, c ∈ ids → u32 c) as Hu by (intros c Hc; pose proof (ids_range _ _ _ _ _ Hpl c Hc); ulia).
  destruct (admission_stage _ _ _ _ _ Hpl im k files failed power eff full Hdev Heff Hmask) as (c' & Hadm).
  fold fw ids in Hadm.
  destruct (Run.admission_gives _ _ _ _ _ _ _ _ _ Hu Hadm) as (Hbsp & Hu' & _ & _ & Hlisted).
  destruct (Run.finished_bounds _ _ _ _ Hu' Hbsp Hmask Hfin) as (Hn & Hm & Hfb).
  destruct (d_exit _ _ _ _ _ _ _ Hdev) as [Hown Hst]. destruct (Bringup.exit_granted _ Hown Hst) as (f' & Hexit).
  destruct (d_disk _ _ _ _ _ _ _ Hdev) as (bus & device & function & w0 & Hfind).
  destruct (d_queue _ _ _ _ _ _ _ Hdev) as (Q1 & Q2 & Q3 & Q4).
  pose proof (Virtio.transaction_served _ _ _ _ _ _ _ Q1 Q2 Q3 Q4 Hfind (d_answers _ _ _ _ _ _ _ Hdev)) as Hdma.
  apply Run.fst_pair in Hdma.
  destruct (Bringup.entropy_delivers rdrand (Run.random k) (d_random _ _ _ _ _ _ _ Hdev)) as (r' & Hent).
  destruct (Run.run_exact Bringup.fw_map Bringup.fw_exit rdrand im an o k ids (apic_id fw bsp) failed power eff full _ _ _
    c' f' _ r' Hready Hu Hadm Hexit Hcpu Hfin Hdma Hent) as (least & Hrun).
  destruct (report_printable (length eff) failed power o Hn) as [Hp1 Hp2]; [|done|done|].
  { intros f Hf. by apply Hu, Hlisted. }
  exists least. intros fuel Hfuel. destruct (Hrun fuel Hfuel) as (k' & Er & Hlog & _).
  destruct (head_stage _ _ _ _ _ Hpl w) as (w1 & Eh & L1).
  destruct (processors_stage _ _ _ _ _ Hpl w1 L1) as (w2 & E2 & L2).
  destruct (sends_say _ Hp1 w2 L2) as (w3 & E3 & L3 & S3).
  destruct (boot_end_exact (Ok (report_of (length eff) failed power o)) (runtime_of h) w3 Hp2 ltac:(done) L3) as (w4 & E4 & S4).
  exists w4. split.
  - unfold efi_main, ends_with. erewrite (op_bind_run _ _ _ _ _ Eh). cbv beta.
    rewrite (op_bind_run _ _ _ _ _ E2). cbv beta iota. fold fw ids. rewrite Er. cbv beta iota. rewrite Hlog, drop_app_length.
    rewrite (op_bind_run _ _ _ _ _ E3). cbv beta. unfold report_of in E4. by rewrite E4.
  - rewrite S4, S3, bind_app, <- app_assoc. by eexists.
Qed.
End boots.

(** ** Three processors, of which the host fails one *)

Record Tape : Type := MkTape { bytes : list Z }.
#[local] Instance tape_ports : PortIo Tape := {
  Target.port_in width port w := (96, w);
  Target.port_out width port value w := if port =? COM1 then MkTape (bytes w ++ [value]) else w;
}.
#[local] Instance tape_uart : Uart Tape.
Proof.
  refine {| sent w := bytes w; live _ := True; vacant _ := True |}; try done.
  intros w _. exists 0%nat. split; [lia|done].
Defined.
#[local] Existing Instances FwCfg.demo_ports FwCfg.demo_device Bringup.demo_boot_firmware Apic.demo_regs Apic.demo_msrs Apic.demo_lapic Paging.demo_layout Paging.demo_layout_ok.

(** The memory of [Handoff.demo_memory], with runtime services and the block protocol of a disk
    with sectors of 512 bytes. *)
Definition demo_memory : gmap Z Z :=
  RawMemory.write_le (2000 + 88) 8 8000 (RawMemory.write_le (6000 + 8) 8 7000
    (RawMemory.write_le (7000 + 12) 4 512 Handoff.demo_memory)).

Definition demo_apic (n : Z) : Z := if n =? 0 then 1 else if n =? 1 then 0 else 12.

Definition demo_handover : Handover (W := Tape) :=
  MkHandover demo_memory 2000 (SUCCESS, 1000) (Handoff.MkMapCall SUCCESS 480 48 1) (SUCCESS, 1000) (SUCCESS, 6000)
    (λ _, (SUCCESS, replicate 510 0 ++ [0x55; 0xaa] ++ replicate 3584 0))
    (demo_services_of (mret ()) demo_apic).

Lemma demo_handed_over : Handoff.handed_over demo_memory 2000 (SUCCESS, 1000) (Handoff.MkMapCall SUCCESS 480 48 1).
Proof.
  split.
  - unfold demo_memory. do 3 apply Handoff.write_le_ok. apply Handoff.demo_bytes.
  - split; [done|]. by vm_compute.
  - split_and!; [done|done|]. unfold Handoff.image_ok, Handoff.in_space.
    replace (Handoff.image_base (Handoff.read_image demo_memory (SUCCESS, 1000).2)) with 0x200000 by (vm_compute; reflexivity).
    replace (Handoff.image_size (Handoff.read_image demo_memory (SUCCESS, 1000).2)) with 65536 by (vm_compute; reflexivity).
    split_and!; [done|lia|lia|lia|]. left. by vm_compute.
  - cbv zeta.
    replace (Handoff.number_of_table_entries (Handoff.read_system demo_memory 2000)) with 1 by (vm_compute; reflexivity).
    replace (Handoff.configuration_table (Handoff.read_system demo_memory 2000)) with 3000 by (vm_compute; reflexivity).
    replace (Handoff.acpi_table (Handoff.config_tables demo_memory 3000 1)) with 4000 by (vm_compute; reflexivity).
    split_and!; [lia|lia|done|done|]. exists 20. split_and!; [by vm_compute|by vm_compute|].
    left. split; [by vm_compute|done].
  - cbn. split_and!; try done; lia.
Qed.

Lemma demo_platform : platform demo_handover 4 3 0 {[1; 2]}.
Proof.
  split.
  - exact demo_handed_over.
  - apply (demo_services (Handoff.block_probe (fw_memory demo_handover) (block_image demo_handover) (block_io demo_handover)
      (read_blocks demo_handover)) demo_apic). intros n _. unfold demo_apic. zcase; ulia.
  - split; [|done]. apply set_eq. intros c. unfold lowest. rewrite elem_of_list_to_set, elem_of_seqZ. set_unfold. lia.
  - change (enabled_ids (services_of demo_handover) 4) with [1; 0; 12]. split; [by repeat constructor|].
    apply (bool_decide_unpack _). by vm_compute.
  - done.
  - unfold Handoff.disk_readable. cbv zeta. cbn [fst snd block_image block_io fw_memory demo_handover].
    replace (RawMemory.read_le demo_memory (6000 + 8) 8) with 7000 by (vm_compute; reflexivity).
    replace (Handoff.block_size (Handoff.read_media demo_memory 7000)) with 512 by (vm_compute; reflexivity).
    replace (Handoff.io_align (Handoff.read_media demo_memory 7000)) with 0 by (vm_compute; reflexivity).
    split_and!; try done; try lia. eexists. split; [reflexivity|]. split; by vm_compute.
Qed.

(** Every second draw delivers. *)
Definition demo_rdrand (r : Z) : Z * Z * Z := (7 * r, r mod 2, r + 1).

Lemma demo_delivers : Bringup.delivers demo_rdrand.
Proof.
  intros r. destruct (decide (r mod 2 = 0)) as [He|He]; [exists 1%nat|exists 0%nat]; (split; [lia|]); cbn; [|done].
  rewrite Z.add_mod, He by lia. done.
Qed.

Definition demo_boot := Run.demo_machine (Bringup.MkDemoFw 7 true [true; false]) 0.

Lemma demo_devices : devices demo_rdrand Run.demo_image demo_boot FwCfg.demo_files (Some 12) FwCfg.Reboot 1 [1; 0; 12].
Proof.
  split.
  - exact FwCfg.demo_holds.
  - vm_compute. reflexivity.
  - vm_compute. reflexivity.
  - split; [done|]. intros f [= <-]. set_solver.
  - split; [done|]. exists 1%nat. split; [lia|]. by vm_compute.
  - exists 0, 3, 0. eexists. apply Run.fst_pair. vm_compute. reflexivity.
  - split; [exact Virtio.demo_placed|]. done.
  - exact Virtio.demo_answers.
  - exact demo_delivers.
Qed.

Lemma image_boots_witness :
  ∃ o least, ∀ fuel, (least ≤ fuel)%nat → ∃ w',
    efi_main Bringup.fw_map Bringup.fw_exit demo_rdrand demo_handover Run.demo_image Run.demo_answers o fuel demo_boot (MkTape []) =
      (Returns (Some 0) SUCCESS, w') ∧
    text (L "THERMITE_SUCCESS gate=boot-smp-v1") `suffix_of` bytes w'.
Proof.
  destruct (Run.demo_finished [1; 0] (or_intror eq_refl)) as (o & Ho). exists o.
  destruct (image_boots demo_rdrand demo_handover Run.demo_image Run.demo_answers o
    demo_boot (MkTape []) 4 3 0 {[1; 2]} FwCfg.demo_files (Some 12) FwCfg.Reboot [1; 0] 3) as (least & Hk);
    [exact demo_platform|exact (Run.demo_ready _ _)|reflexivity|exact demo_devices|reflexivity|reflexivity|exact Ho|].
  exists least. intros fuel Hf. destruct (Hk fuel Hf) as (w' & E & Hs). exists w'.
  split; [exact E|]. cbn [sent tape_uart] in Hs. etrans; [|exact Hs]. rewrite bind_app. apply suffix_app_r.
  unfold end_lines. rewrite bind_app, !bind_cons, app_nil_r. rewrite !app_assoc. by eexists.
Defined.
End EfiMain.
